(* ===== verification/_CoqProject ===== *)
-Q . S2P
Prelude.v
Json.v
Paths.v
Wire.v
Messages.v
Codec.v
Identity.v
Crypto.v
Store.v
Locks.v
Registry.v
Tenants.v
Db.v
State.v
Tree.v
Archive.v
Admin.v
Supervisor.v
Memory.v
Session.v
Select.v
System.v
SystemSpec.v
Share.v
Conflict.v
OkfText.v
Okf.v
OkfSpec.v
Client.v
Peer.v
Sync.v
Travel.v
Converge.v
Watch.v
Program.v
