(* ===== verification/Prelude.v ===== *)
(** * NSMT / Yggdrasil: a verification development

    NSMT lets agents on several machines share files and memories within a user
    domain (a tenant).  Machines run the client [yggd], which keeps one QUIC connection
    to the server [ygg]; the supervisor [ygg-admin] keeps a server process running and
    puts a web page before its control API.  The sources are the six crates below
    [src/crates/]; the definitions of this library are executable translations of
    them and keep their names, and the theorems say what makes them correct, or
    where they are not.

    ** The parts of the program and the files that model them

    Common ground.  [Prelude] (this file): bytes, strings as the bytes of their UTF-8
    text, machine integers, results, and the string and list functions of Rust's
    library the sources use, with their lemmas.  [Json]: the JSON values the web
    handlers answer with.  [Paths]: paths, environment variables and a disk.

    nsmt-core.  [Wire] ([error.rs], [frame.rs], [wire.rs]): frames, their codec, and the
    reader that puts frames together from fragments.  [Messages] and [Codec]
    ([messages.rs]): a record per message, and the interface to their JSON text.
    [Identity] ([identity.rs]): domains, agents, machine ids, names.  [Crypto]
    ([crypto.rs], [e2e.rs]): key files, signatures, the encryption of chunks.

    nsmt-fs.  [Store] ([lib.rs]): the object stores behind one trait.

    nsmt-server.  [Locks], [Tree] ([fs.rs]): lease locks; directory trees, their diff, the
    tenant's file store.  [Registry] ([registry.rs]): who is online, and the channels
    between sessions.  [Tenants] ([tenants.rs]): domain keys and pinned machine keys.
    [Db] ([db.rs]): user accounts.  [State] ([state.rs]): quotas, owners of objects, the
    stores handed out per tenant.  [Memory] ([memory.rs], with the gateway client of
    nsmt-memory and the client's fallback): the pool of memory shards.  [Session]
    ([session.rs]): one connection, from HELLO to its end.  [Select]: the same loop on
    the byte stream, with [recv] as a future that can be dropped.  [Archive] and [Admin]
    ([admin.rs], parts of [main.rs]): backups and the control API.  [System]
    ([main.rs]): all tasks of a server process as one step relation.

    nsmt-admin.  [Supervisor] ([main.rs]): the process loop and the forwarding web
    handlers.

    nsmt-client.  [Share] and [Client] ([fs.rs]): the shared directory on disk;
    uploads, downloads and diffs over the connection.  [Peer] ([main.rs]): direct
    connections between clients.  [Sync] ([main.rs]): handshake, memory commands, the
    synchronisation loop.  [Watch] ([main.rs]): the task that keeps the directory
    watched.  [Program] ([main.rs]): start-up and the order of it all.  [Conflict]
    ([conflicts_web.rs], [main.rs]): conflict copies and their resolution.  [OkfText] and
    [Okf] ([okf.rs]): the knowledge libraries in the shared directory.

    Without code of their own: [SystemSpec] and [OkfSpec] hold the theorems
    about [System] and [Okf]; [Travel] and [Converge] put client, server and store together.

    ** How the parts interact

    A session ([Session]) is a state-and-error monad over what it shares with the other
    tasks (server state, tenant table, disk and buckets) and what is its own (pending
    upload, frames sent).  Each call into a locked table is one atomic step, as it is
    in the source, where the method holds the lock for its body; one turn of a task
    handles one frame, one tick or one queued frame ([System.sstep]), and turns of
    different tasks, of the control API and of the two clean-up loops interleave in
    any order; a restart asked for through the control API is an exit and a new start.
    [Registry] cuts finer: there, the steps of a prune round interleave
    with those of sessions.  Sessions reach each other only through the registry's
    channels.  A client ([Client]) is a monad over the frames that will arrive; a loop
    that waits consumes them, and [Waits] is a client whose inbox is empty.  The
    client's theorems and the server's are joined by frames: what one side sends
    ([sent], [out]) is what the other is given.  The supervisor and the control API are
    joined by requests ([Supervisor.Sup.control]).

    What the tasks share is stated as interfaces: [Store.BackendLaws] is what the stores
    rely on, whatever is behind them (a request that fails may have had its effect or
    not), [Memory.MemoryPool] what sessions need of the pool, [Session.SharedRel] what a relation must satisfy to
    hold across every handler.  Code that is not in the repository is a class of
    operations with the documented laws that are used: [Backend] (object_store),
    [Ed25519], [Sha256], [Aead], [HexCodec], [Argon2], [Serde] and [Codec] (serde_json),
    [Gateway] (HTTP to a memory gateway), [Yaml].  Every theorem that uses laws has an
    instance where they hold ([RefBackend], [ref_codec] and the like).

    ** What the theorems show

    - Files arrive.  [Travel.file_travels]: what one session uploads, in any order of
      chunks and with repetitions, is what another machine's pull writes.
      [Converge.pull_round_converges]: a pull round leaves a directory that mirrors the
      server's latest tree, and the next diff is empty; below the top of the directory
      an edited file leaves a conflict copy in the tree.  Their parts:
      [Session.upload_reassembled], [Client.download_exact], [Client.push_stores_file],
      [Share.build_tree_exact], [Tree.diff_exact], [Share.conflict_keeps_both] and
      [Conflict.resolve_after_pull] (no local work is lost).
    - The server as a whole, in every reachable state: [SystemSpec.system_invariant],
      [tenants_apart], [one_key_per_machine], [lock_news], [departed_lingers]; and
      [Registry.prune_round_exact].
    - Who may do what: [Session.handshake_authenticated], [Sync.handshake_completes],
      [Locks.lock_mutual_exclusion], [State.tenant_store_isolation], [State.quota_sound],
      [Admin.admin_requests_contained], [Admin.self_service], [Peer.peer_mutual_auth],
      [Peer.peer_served_authenticated],
      [Program.same_machine_next_time].
    - Codecs: [Wire.stream_roundtrip], [Wire.decode_exactly_encodings],
      [Crypto.e2e_rotation], [Archive.backup_restore_exact], [OkfText.doc_roundtrip];
      and [Select.recv_not_cancel_safe]: a timer tick inside a frame breaks the
      connection.
    - Stores and tables: [Store.store_put_get], [Db.user_lifecycle], [Tenants],
      [Registry], [Memory.pool_contract], [Sync.recall_survives_outage].
    - Knowledge libraries: [OkfSpec.commands_confined], [trash_restores],
      [collect_md_exact], [log_command_refines], [OkfText.civil_is_calendar].
    - Loops: [Supervisor.supervisor_invariant], [Watch.rewatch_only_when_missing].

    Theorems named after a defect ([recv_not_cancel_safe], [departed_lingers],
    [quota_wrap_bypass], [peer_reflection], [open_key_takeover] and others) state the
    behaviour of the code as it is.

    ** Conventions

    Strings are their UTF-8 bytes; time is an argument ([now]); integers are [Z] with the
    wrap-around of a release build written out ([wrap32], [wrap64]) and a 64-bit
    [usize]; a [HashMap] is a [gmap], a list of rows or entries stays a list; slicing
    outside a string, indexing and [expect] are explicit outcomes.  An error value keeps the
    source's code and message; texts of library errors are cut to a word.

    ** Fuel

    Loops without a structural measure count down.  The walks of a directory
    ([Share.walk], [Okf.md_walk], [Archive.collect_files]) get one more than the
    depth of the disk, and [build_tree_exact], [collect_md_exact] and
    [backup_restore_exact] show that this finds every file.  [Client.get_loop] gets one
    more than the number of frames to arrive, and [get_object_fuel_enough] shows that
    more changes nothing.  [Archive.unpack_loop], [OkfText.links_loop] and [Select.drain]
    get the length of their input, of which every turn consumes a part;
    [backup_restore_exact], [links_found] and [frames_survive_fragmentation] give the result at
    that fuel.  [Wire.recv_all] is used at any fuel above the number of frames.

    ** Not modelled, and why

    - QUIC, TLS, certificates, sockets, HTTP routing and JSON extraction are calls into
      libraries; what they deliver is an argument.  So are the address syntax of
      [SocketAddr], the output of [ps], the file watcher and the terminal.
    - The HTML pages are constants; their JavaScript is not Rust.
    - The disk resolves paths lexically and has no permissions, symbolic links or
      capacity: a write fails on a directory or without a parent.  The view of
      links under [NSMT_SYMLINK_VIEW] stops at [LinkMade].  Two tasks' writes to one file
      do not interleave within a write.
    - Logging and progress output.  The [x-admin-token] header is taken as
    readable text.
    - Floats (memory scores, processor usage) are not computed with; a JSON object's
      order of keys is the handler's.
    - The SQL text and the connection pool; [Db] has the statements' effects on rows. *)

From stdpp Require Export base tactics option list list_numbers strings gmap sorting.
From Stdlib Require Export ZArith Lia ZifyBool.
From Stdlib Require Export Ascii.

Declare Scope nsmt_scope.
Delimit Scope nsmt_scope with nsmt.
#[global] Open Scope Z_scope.
#[global] Open Scope stdpp_scope.

(** ** Bytes, strings, machine integers *)

(** A Rust [u8] is an [ascii]; a [Vec<u8>] is a list of them, a [String] its
    UTF-8 bytes. *)
Abbreviation byte := ascii (only parsing).
Abbreviation bytes := (list ascii) (only parsing).

Definition as_bytes (s : string) : bytes := String.list_ascii_of_string s.
Definition of_bytes (b : bytes) : string := String.string_of_list_ascii b.

(** [s.len()]: the number of bytes of a string. *)
Definition str_len (s : string) : Z := Z.of_nat (String.length s).

Definition len {A} (l : list A) : Z := Z.of_nat (length l).

Definition u8_val (b : byte) : Z := Z.of_N (N_of_ascii b).
Definition u8_of (z : Z) : byte := ascii_of_N (Z.to_N (z mod 256)).

(** Wrap-around of the release build (overflow checks off). *)
Definition wrap32 (z : Z) : Z := z mod 2 ^ 32.
Definition wrap64 (z : Z) : Z := z mod 2 ^ 64.

(** [to_le_bytes] / [from_le_bytes] at a width of [n] bytes. *)
Fixpoint le_bytes (n : nat) (z : Z) : bytes :=
  match n with
  | O => []
  | S m => u8_of z :: le_bytes m (z / 256)
  end.

Fixpoint le_val (l : bytes) : Z :=
  match l with
  | [] => 0
  | b :: t => u8_val b + 256 * le_val t
  end.

(** [to_be_bytes] / [from_be_bytes]. *)
Definition be_bytes (n : nat) (z : Z) : bytes := rev (le_bytes n z).
Definition be_val (l : bytes) : Z := le_val (rev l).

(** ** Results

    Rust's [Result<T, E>] with [?]. *)
Inductive result (E A : Type) : Type :=
| Ok (a : A)
| Err (e : E).
Arguments Ok {E A} a.
Arguments Err {E A} e.

Definition rbind {E A B} (r : result E A) (k : A -> result E B) : result E B :=
  match r with
  | Ok a => k a
  | Err e => Err e
  end.

Definition rmap {E A B} (f : A -> B) (r : result E A) : result E B :=
  match r with
  | Ok a => Ok (f a)
  | Err e => Err e
  end.

Definition ok_or {E A} (o : option A) (e : E) : result E A :=
  match o with
  | Some a => Ok a
  | None => Err e
  end.

Definition is_ok {E A} (r : result E A) : bool :=
  match r with
  | Ok _ => true
  | Err _ => false
  end.

Notation "x <-? c ; k" := (rbind c (fun x => k))
  (at level 100, c at next level, right associativity) : nsmt_scope.
#[global] Open Scope nsmt_scope.

(** ** String functions of the Rust standard library

    On the bytes of the string; every pattern the sources use is ASCII, so the
    byte position of a match is the one Rust computes. *)

Fixpoint str_all (p : ascii -> bool) (s : string) : bool :=
  match s with
  | EmptyString => true
  | String c s' => p c && str_all p s'
  end.

Fixpoint str_mem (c : ascii) (s : string) : bool :=
  match s with
  | EmptyString => false
  | String d s' => Ascii.eqb c d || str_mem c s'
  end.

Fixpoint str_map (f : ascii -> ascii) (s : string) : string :=
  match s with
  | EmptyString => EmptyString
  | String c s' => String (f c) (str_map f s')
  end.

(** [s.strip_prefix(p)] *)
Fixpoint strip_prefix (p s : string) : option string :=
  match p, s with
  | EmptyString, _ => Some s
  | String a p', String b s' => if Ascii.eqb a b then strip_prefix p' s' else None
  | String _ _, EmptyString => None
  end.

(** [s.starts_with(p)] *)
Definition starts_with (p s : string) : bool :=
  match strip_prefix p s with
  | Some _ => true
  | None => false
  end.

(** [s.find(p)] as the pair of the text before the first match and the text
    from the match on. *)
Fixpoint str_find (p s : string) : option (string * string) :=
  if starts_with p s then Some (EmptyString, s)
  else match s with
       | EmptyString => None
       | String c s' =>
           match str_find p s' with
           | Some (a, b) => Some (String c a, b)
           | None => None
           end
       end.

(** [s.contains(p)] *)
Definition str_contains (p s : string) : bool :=
  match str_find p s with
  | Some _ => true
  | None => false
  end.

(** [s.split_once(c)]: the text before and after the first [c]. *)
Fixpoint split_once (c : ascii) (s : string) : option (string * string) :=
  match s with
  | EmptyString => None
  | String d s' =>
      if Ascii.eqb c d then Some (EmptyString, s')
      else match split_once c s' with
           | Some (a, b) => Some (String d a, b)
           | None => None
           end
  end.

(** [s.rsplit_once(c)]: the text before and after the last [c]. *)
Fixpoint rsplit_once (c : ascii) (s : string) : option (string * string) :=
  match s with
  | EmptyString => None
  | String d s' =>
      match rsplit_once c s' with
      | Some (a, b) => Some (String d a, b)
      | None => if Ascii.eqb c d then Some (EmptyString, s') else None
      end
  end.

(** [s.split(c)]: never empty. *)
Fixpoint str_split (c : ascii) (s : string) : list string :=
  match s with
  | EmptyString => [EmptyString]
  | String d s' =>
      if Ascii.eqb c d then EmptyString :: str_split c s'
      else match str_split c s' with
           | h :: t => String d h :: t
           | [] => [String d EmptyString]
           end
  end.

(** [list.join(sep)] *)
Fixpoint str_join (sep : string) (l : list string) : string :=
  match l with
  | [] => EmptyString
  | [x] => x
  | x :: t => x +:+ sep +:+ str_join sep t
  end.

(** [s.trim_start_matches(c)] *)
Fixpoint trim_start_matches (c : ascii) (s : string) : string :=
  match s with
  | String d s' => if Ascii.eqb c d then trim_start_matches c s' else s
  | EmptyString => EmptyString
  end.

Definition str_rev (s : string) : string := of_bytes (rev (as_bytes s)).

(** [s.trim_end_matches(c)] *)
Definition trim_end_matches (c : ascii) (s : string) : string :=
  str_rev (trim_start_matches c (str_rev s)).

Fixpoint trim_start_if (p : ascii -> bool) (s : string) : string :=
  match s with
  | String d s' => if p d then trim_start_if p s' else s
  | EmptyString => EmptyString
  end.

Definition trim_end_if (p : ascii -> bool) (s : string) : string :=
  str_rev (trim_start_if p (str_rev s)).

(** ASCII white space of [str::trim] (U+0009..U+000D and U+0020). *)
Definition is_ws (c : ascii) : bool :=
  let v := u8_val c in ((9 <=? v) && (v <=? 13)) || (v =? 32).

Definition str_trim (s : string) : string := trim_end_if is_ws (trim_start_if is_ws s).

(** [s.ends_with(p)] *)
Definition ends_with (p s : string) : bool := starts_with (str_rev p) (str_rev s).

(** [char::is_ascii_*] *)
Definition is_lower (c : ascii) : bool := let v := u8_val c in (97 <=? v) && (v <=? 122).
Definition is_upper (c : ascii) : bool := let v := u8_val c in (65 <=? v) && (v <=? 90).
Definition is_digit (c : ascii) : bool := let v := u8_val c in (48 <=? v) && (v <=? 57).
Definition is_alnum (c : ascii) : bool := is_lower c || is_upper c || is_digit c.
Definition is_hexdigit (c : ascii) : bool :=
  let v := u8_val c in
  is_digit c || ((97 <=? v) && (v <=? 102)) || ((65 <=? v) && (v <=? 70)).

(** [char::to_ascii_lowercase]; [str::to_lowercase] agrees with it on ASCII. *)
Definition to_lower (c : ascii) : ascii := if is_upper c then u8_of (u8_val c + 32) else c.

(** UTF-8 validity of a byte string ([String::from_utf8], [fs::read_to_string]). *)
Definition is_cont (c : ascii) : bool := let v := u8_val c in (128 <=? v) && (v <=? 191).

Fixpoint utf8_valid (b : bytes) : bool :=
  match b with
  | [] => true
  | c :: t =>
      let v := u8_val c in
      if v <? 128 then utf8_valid t
      else if (194 <=? v) && (v <=? 223) then
        match t with c1 :: t' => is_cont c1 && utf8_valid t' | _ => false end
      else if (224 <=? v) && (v <=? 239) then
        match t with
        | c1 :: c2 :: t' =>
            is_cont c1 && is_cont c2 && negb ((v =? 224) && (u8_val c1 <? 160))
            && negb ((v =? 237) && (160 <=? u8_val c1)) && utf8_valid t'
        | _ => false
        end
      else if (240 <=? v) && (v <=? 244) then
        match t with
        | c1 :: c2 :: c3 :: t' =>
            is_cont c1 && is_cont c2 && is_cont c3 && negb ((v =? 240) && (u8_val c1 <? 144))
            && negb ((v =? 244) && (144 <=? u8_val c1)) && utf8_valid t'
        | _ => false
        end
      else false
  end.

(** [String::from_utf8_lossy]: each maximal invalid part becomes U+FFFD. *)
Definition utf8_replacement : bytes := [u8_of 239; u8_of 191; u8_of 189].

Definition second_ok (v : Z) (c1 : ascii) : bool :=
  is_cont c1 && negb ((v =? 224) && (u8_val c1 <? 160)) && negb ((v =? 237) && (160 <=? u8_val c1))
  && negb ((v =? 240) && (u8_val c1 <? 144)) && negb ((v =? 244) && (144 <=? u8_val c1)).

Fixpoint utf8_lossy (b : bytes) : bytes :=
  match b with
  | [] => []
  | c :: t =>
      let v := u8_val c in
      if v <? 128 then c :: utf8_lossy t
      else if (194 <=? v) && (v <=? 223) then
        match t with
        | [] => utf8_replacement
        | c1 :: t1 => if is_cont c1 then c :: c1 :: utf8_lossy t1 else utf8_replacement ++ utf8_lossy t
        end
      else if (224 <=? v) && (v <=? 239) then
        match t with
        | [] => utf8_replacement
        | c1 :: t1 =>
            if second_ok v c1 then
              match t1 with
              | [] => utf8_replacement
              | c2 :: t2 => if is_cont c2 then c :: c1 :: c2 :: utf8_lossy t2 else utf8_replacement ++ utf8_lossy t1
              end
            else utf8_replacement ++ utf8_lossy t
        end
      else if (240 <=? v) && (v <=? 244) then
        match t with
        | [] => utf8_replacement
        | c1 :: t1 =>
            if second_ok v c1 then
              match t1 with
              | [] => utf8_replacement
              | c2 :: t2 =>
                  if is_cont c2 then
                    match t2 with
                    | [] => utf8_replacement
                    | c3 :: t3 =>
                        if is_cont c3 then c :: c1 :: c2 :: c3 :: utf8_lossy t3
                        else utf8_replacement ++ utf8_lossy t2
                    end
                  else utf8_replacement ++ utf8_lossy t1
              end
            else utf8_replacement ++ utf8_lossy t
        end
      else utf8_replacement ++ utf8_lossy t
  end.

Fixpoint str_filter (p : ascii -> bool) (s : string) : string :=
  match s with
  | EmptyString => EmptyString
  | String c s' => if p c then String c (str_filter p s') else str_filter p s'
  end.

(** [s.parse::<u64>()] and friends below [bound]: an optional [+] and digits. *)
Fixpoint parse_digits (acc : Z) (s : string) : option Z :=
  match s with
  | EmptyString => Some acc
  | String c s' => if is_digit c then parse_digits (10 * acc + (u8_val c - 48)) s' else None
  end.

Definition parse_uint (bound : Z) (s : string) : option Z :=
  let digits := match s with String "+" t => t | _ => s end in
  if str_len digits =? 0 then None
  else match parse_digits 0 digits with
       | Some v => if v <? bound then Some v else None
       | None => None
       end.

Definition parse_u64 : string -> option Z := parse_uint (2 ^ 64).

(** [n.to_string()] for a non-negative integer; 20 digits hold any [u64]. *)
Fixpoint dec_digits (fuel : nat) (n : Z) (acc : string) : string :=
  match fuel with
  | O => acc
  | S f => let acc' := String (u8_of (48 + n mod 10)) acc in
           if n <? 10 then acc' else dec_digits f (n / 10) acc'
  end.

Definition dec (n : Z) : string := dec_digits 40 n EmptyString.

(** [s.lines()]: split at line feeds, a carriage return before one is dropped, an
    empty rest is no line. *)
Definition LF : ascii := "010"%char.
Definition CR : ascii := "013"%char.

Definition strip_cr (s : string) : string :=
  match str_rev s with
  | String c t => if Ascii.eqb c CR then str_rev t else s
  | EmptyString => s
  end.

Definition lines (s : string) : list string :=
  match rev (str_split LF s) with
  | [] => []
  | rest :: full => rev (map strip_cr full) ++ (if str_len rest =? 0 then [] else [rest])
  end.

(** [&s[..n]] panics when [s] is shorter or [n] is inside a character. *)
Definition slice_ok (n : nat) (s : string) : bool :=
  match drop n (as_bytes s) with
  | [] => bool_decide (String.length s = n)
  | c :: _ => negb (is_cont c)
  end.

(** [x as i64] *)
Definition as_i64 (z : Z) : Z := let m := z mod 2 ^ 64 in if m <? 2 ^ 63 then m else m - 2 ^ 64.

(** ** Lemmas *)

Create HintDb nsmt.
Create Rewrite HintDb lens.

Lemma u8_val_range b : 0 <= u8_val b < 256.
Proof. by destruct b as [[] [] [] [] [] [] [] []]; vm_compute. Qed.

Lemma u8_of_val b : u8_of (u8_val b) = b.
Proof. by destruct b as [[] [] [] [] [] [] [] []]; vm_compute. Qed.

Lemma u8_val_of z : u8_val (u8_of z) = z mod 256.
Proof.
  unfold u8_val, u8_of. rewrite N_ascii_embedding.
  - rewrite Z2N.id; [done | apply Z.mod_pos_bound; lia].
  - pose proof (Z.mod_pos_bound z 256). lia.
Qed.

#[export] Instance u8_val_inj : Inj (=) (=) u8_val.
Proof. intros a b E. by rewrite <- (u8_of_val a), E, u8_of_val. Qed.

Lemma le_bytes_length n z : length (le_bytes n z) = n.
Proof. revert z; induction n; intros z; simpl; congruence. Qed.

Lemma le_val_bytes n z : le_val (le_bytes n z) = z mod 2 ^ (8 * Z.of_nat n).
Proof.
  revert z; induction n as [|n IH]; intros z.
  - simpl. by rewrite Z.mod_1_r.
  - cbn [le_bytes le_val]. rewrite u8_val_of, IH.
    replace (8 * Z.of_nat (S n)) with (8 + 8 * Z.of_nat n) by lia.
    rewrite Z.pow_add_r by lia. change (2 ^ 8) with 256.
    rewrite Z.rem_mul_r by lia. done.
Qed.

Lemma le_val_range l : 0 <= le_val l < 2 ^ (8 * len l).
Proof.
  unfold len. induction l as [|b l IH]; [done|]. cbn [le_val length].
  replace (8 * Z.of_nat (S (length l))) with (8 + 8 * Z.of_nat (length l)) by lia.
  rewrite Z.pow_add_r by lia. change (2 ^ 8) with 256.
  pose proof (u8_val_range b). nia.
Qed.

Lemma le_bytes_val l : le_bytes (length l) (le_val l) = l.
Proof.
  induction l as [|b l IH]; [done|]. cbn [length le_bytes le_val].
  pose proof (u8_val_range b) as Hb. f_equal.
  - apply (inj u8_val). rewrite u8_val_of, Z.add_comm, Z.mul_comm.
    by rewrite Z.add_comm, Z_mod_plus_full, Z.mod_small.
  - rewrite Z.add_comm, Z.mul_comm, Z.div_add_l, Z.div_small, Z.add_0_r by lia. done.
Qed.

Lemma be_bytes_length n z : length (be_bytes n z) = n.
Proof. unfold be_bytes. by rewrite length_rev, le_bytes_length. Qed.

Lemma be_val_bytes n z : be_val (be_bytes n z) = z mod 2 ^ (8 * Z.of_nat n).
Proof. unfold be_val, be_bytes. by rewrite rev_involutive, le_val_bytes. Qed.

#[export] Hint Rewrite @le_bytes_length @be_bytes_length @length_app @length_take
  @length_drop @length_rev @length_replicate : lens.

(** Length goals: push [length] inward, then arithmetic. *)
Ltac solve_len :=
  unfold len in *; rewrite ?Z.ltb_lt, ?Z.ltb_ge, ?Z.leb_le, ?Z.leb_gt in *;
  autorewrite with lens in *; cbn [length] in *; lia.

Lemma of_as_bytes s : of_bytes (as_bytes s) = s.
Proof. apply String.string_of_list_ascii_of_string. Qed.

Lemma as_of_bytes b : as_bytes (of_bytes b) = b.
Proof. apply String.list_ascii_of_string_of_list_ascii. Qed.

#[export] Instance as_bytes_inj : Inj (=) (=) as_bytes.
Proof. intros a b E. by rewrite <- (of_as_bytes a), E, of_as_bytes. Qed.

Lemma as_bytes_app a b : as_bytes (a +:+ b) = as_bytes a ++ as_bytes b.
Proof.
  induction a as [|c a IH]; [done|].
  change (String c a +:+ b) with (String c (a +:+ b)).
  change (c :: as_bytes (a +:+ b) = c :: (as_bytes a ++ as_bytes b)). by rewrite IH.
Qed.

(** Injectivity without the reductions [injection] makes. *)
Lemma strip_prefix_app p s : strip_prefix p (p +:+ s) = Some s.
Proof.
  induction p as [|c p IH]; [done|]. change (String c p +:+ s) with (String c (p +:+ s)). cbn [strip_prefix].
  by rewrite Ascii.eqb_refl.
Qed.

Lemma str_app_nil s : s +:+ EmptyString = s.
Proof. induction s as [|c s IH]; [done|]. change (String c s +:+ EmptyString) with (String c (s +:+ EmptyString)). by rewrite IH. Qed.

Lemma str_mem_app c a b : str_mem c (a +:+ b) = str_mem c a || str_mem c b.
Proof.
  induction a as [|d a IH]; [done|]. change (String d a +:+ b) with (String d (a +:+ b)).
  cbn [str_mem]. by rewrite IH, orb_assoc.
Qed.

Lemma str_length_app a b : String.length (a +:+ b) = (String.length a + String.length b)%nat.
Proof. induction a as [|c a IH]; [done|]. change (String c a +:+ b) with (String c (a +:+ b)). cbn [String.length]. by rewrite IH. Qed.

(** A prefix without [c] lies before the first [c]. *)
Lemma starts_with_component c p d r :
  str_mem c p = false -> starts_with p d = false -> starts_with p (d +:+ String c r) = false.
Proof.
  unfold starts_with. revert d. induction p as [|x p IH]; intros d Hm Hd; [done|].
  cbn [str_mem] in Hm. apply orb_false_iff in Hm as [Hc Hm]. destruct d as [|y d].
  - change (EmptyString +:+ String c r) with (String c r). cbn [strip_prefix].
    rewrite (proj2 (Ascii.eqb_neq _ _)); [done|]. by apply not_eq_sym, Ascii.eqb_neq.
  - change (String y d +:+ String c r) with (String y (d +:+ String c r)). cbn [strip_prefix] in *.
    destruct (Ascii.eqb x y); [by apply IH|done].
Qed.

Lemma Ok_inj {E A} (a b : A) : @Ok E A a = Ok b -> a = b.
Proof. congruence. Qed.

Lemma Ok_Some_inj {E A} (a b : A) : @Ok E (option A) (Some a) = Ok (Some b) -> a = b.
Proof. congruence. Qed.

Lemma str_rev_rev s : str_rev (str_rev s) = s.
Proof. unfold str_rev. by rewrite as_of_bytes, rev_involutive, of_as_bytes. Qed.

Lemma str_all_bytes p s : str_all p s = forallb p (as_bytes s).
Proof. induction s as [|c s IH]; [done|]. cbn. by rewrite IH. Qed.

Lemma str_all_rev p s : str_all p (str_rev s) = str_all p s.
Proof.
  rewrite !str_all_bytes. unfold str_rev. rewrite as_of_bytes.
  apply eq_bool_prop_intro. rewrite !Is_true_true, !forallb_forall.
  setoid_rewrite <- in_rev. done.
Qed.

Lemma trim_start_if_none p s : str_all (fun c => negb (p c)) s = true -> trim_start_if p s = s.
Proof. destruct s as [|c s]; [done|]. cbn. by destruct (p c). Qed.

Lemma str_trim_none s : str_all (fun c => negb (is_ws c)) s = true -> str_trim s = s.
Proof.
  intros H. unfold str_trim, trim_end_if. rewrite (trim_start_if_none _ s) by done.
  rewrite trim_start_if_none by (by rewrite str_all_rev). apply str_rev_rev.
Qed.

Lemma utf8_ascii b : forallb (fun c => u8_val c <? 128) b = true -> utf8_valid b = true.
Proof.
  induction b as [|c b IH]; [done|]. cbn [forallb utf8_valid]. rewrite andb_true_iff.
  intros [-> H]. by apply IH.
Qed.

Lemma str_all_impl (p q : ascii -> bool) s :
  (forall c, p c = true -> q c = true) -> str_all p s = true -> str_all q s = true.
Proof.
  intros Hpq. induction s as [|c s IH]; [done|]. cbn. rewrite !andb_true_iff.
  intros [? ?]. auto.
Qed.

Lemma str_all_not_mem (p : ascii -> bool) c s :
  p c = false -> str_all p s = true -> str_mem c s = false.
Proof.
  intros Hc. induction s as [|d s IH]; [done|]. cbn. rewrite andb_true_iff. intros [Hd Hs].
  rewrite (IH Hs), orb_false_r. destruct (Ascii.eqb_spec c d); [congruence|done].
Qed.

Lemma split_once_app c a b :
  str_mem c a = false -> split_once c (a +:+ String c b) = Some (a, b).
Proof.
  induction a as [|d a IH]; intros H.
  - change (EmptyString +:+ String c b) with (String c b). cbn. by rewrite Ascii.eqb_refl.
  - change (String d a +:+ String c b) with (String d (a +:+ String c b)). cbn in H |- *.
    apply orb_false_iff in H as [-> H]. by rewrite IH.
Qed.

Lemma split_once_inv c s a b :
  split_once c s = Some (a, b) -> s = a +:+ String c b /\ str_mem c a = false.
Proof.
  revert a b. induction s as [|d s IH]; intros a b H; [done|]. cbn in H.
  destruct (Ascii.eqb_spec c d) as [->|Hne].
  - by injection H as <- <-.
  - destruct (split_once c s) as [[a' b']|] eqn:E; [|done]. injection H as <- <-.
    destruct (IH _ _ eq_refl) as [-> Hm]. split; [done|]. cbn. rewrite Hm.
    by destruct (Ascii.eqb_spec c d).
Qed.

Lemma str_map_length f s : String.length (str_map f s) = String.length s.
Proof. induction s as [|c s IH]; [done|]. cbn. by rewrite IH. Qed.

Lemma byte_cases (P : ascii -> bool) :
  forallb (fun n => P (u8_of n)) (seqZ 0 256) = true -> forall c, P c = true.
Proof.
  intros H c. rewrite forallb_forall in H. rewrite <- (u8_of_val c). apply H.
  apply list_elem_of_In, elem_of_seqZ. pose proof (u8_val_range c). lia.
Qed.

Lemma str_map_idem f s : (forall c, f (f c) = f c) -> str_map f (str_map f s) = str_map f s.
Proof. intros H. induction s as [|c s IH]; [done|]. cbn. by rewrite H, IH. Qed.

Lemma str_all_map p f s :
  (forall c, p c = true -> p (f c) = true) -> str_all p s = true -> str_all p (str_map f s) = true.
Proof.
  intros H. induction s as [|c s IH]; [done|]. cbn. rewrite !andb_true_iff. naive_solver.
Qed.

(** A computed value named by [default], without comparing it. *)
Lemma some_default {A} (d : A) (o : option A) :
  match o with Some _ => true | None => false end = true -> o = Some (default d o).
Proof. by destruct o. Qed.

Lemma fst_pair {A B} (p : A * B) (a : A) : fst p = a -> p = (a, snd p).
Proof. by destruct p; intros <-. Qed.

Lemma fst3_pair {A B C} (p : A * B * C) (a : A) : fst (fst p) = a -> p = (a, snd (fst p), snd p).
Proof. by destruct p as [[? ?] ?]; intros [= ->]. Qed.

Lemma filter_bool_ext {A} (f g : A -> bool) (l : list A) :
  (forall x, x ∈ l -> f x = g x) -> filter (fun x => f x = true) l = filter (fun x => g x = true) l.
Proof.
  induction l as [|x l IH]; intros H; [done|]. rewrite !filter_cons, IH by set_solver.
  rewrite (H x) by set_solver. done.
Qed.

(** Valid text is decoded as it is. *)
Lemma utf8_lossy_valid b : utf8_valid b = true -> utf8_lossy b = b.
Proof.
  remember (length b) as n eqn:Hn. assert (length b <= n)%nat as Hle by lia. clear Hn. revert b Hle.
  induction n as [|n IH]; intros [|c t] Hle Hv; try done; [cbn in Hle; lia|]. cbn [utf8_valid utf8_lossy length] in *.
  destruct (u8_val c <? 128); [by rewrite IH by (lia || done)|].
  destruct ((194 <=? u8_val c) && (u8_val c <=? 223)).
  { destruct t as [|c1 t]; [done|]. apply andb_true_iff in Hv as [-> Hv]. cbn in Hle. by rewrite IH by (lia || done). }
  unfold second_ok. destruct ((224 <=? u8_val c) && (u8_val c <=? 239)) eqn:E3.
  { destruct t as [|c1 [|c2 t]]; try done. rewrite !andb_true_iff in Hv. destruct Hv as ((((-> & ->) & ->) & ->) & Hv).
    assert ((u8_val c =? 240) = false) as -> by lia. assert ((u8_val c =? 244) = false) as -> by lia.
    cbn in Hle |- *. by rewrite IH by (lia || done). }
  destruct ((240 <=? u8_val c) && (u8_val c <=? 244)) eqn:E4; [|done].
  destruct t as [|c1 [|c2 [|c3 t]]]; try done. rewrite !andb_true_iff in Hv.
  destruct Hv as (((((-> & ->) & ->) & ->) & ->) & Hv).
  assert ((u8_val c =? 224) = false) as -> by lia. assert ((u8_val c =? 237) = false) as -> by lia.
  cbn in Hle |- *. by rewrite IH by (lia || done).
Qed.

(** Decimal numbers consist of digits. *)
Lemma dec_digit n : is_digit (u8_of (48 + n mod 10)) = true.
Proof.
  unfold is_digit. rewrite u8_val_of. pose proof (Z.mod_pos_bound n 10). rewrite Z.mod_small by lia. lia.
Qed.

Lemma dec_all n : str_all is_digit (dec n) = true.
Proof.
  unfold dec. assert (forall f m acc, str_all is_digit acc = true -> str_all is_digit (dec_digits f m acc) = true) as Hd;
    [|by apply Hd].
  induction f as [|f IH]; intros m acc Hacc; [done|]. cbn [dec_digits].
  assert (str_all is_digit (String (u8_of (48 + m mod 10)) acc) = true) as Hs by (cbn [str_all]; by rewrite dec_digit).
  destruct (m <? 10); [exact Hs|by apply IH].
Qed.

(** ** UTF-8 and concatenation *)

Lemma utf8_app a b : utf8_valid a = true -> utf8_valid b = true -> utf8_valid (a ++ b) = true.
Proof.
  remember (length a) as n eqn:Hn. assert (length a <= n)%nat as Hle by lia. clear Hn. revert a Hle.
  induction n as [|n IH]; intros [|c t] Hle Hv Hb; try done; [cbn in Hle; lia|].
  cbn [app utf8_valid length] in *. destruct (u8_val c <? 128); [apply IH; (lia || done)|].
  destruct ((194 <=? u8_val c) && (u8_val c <=? 223)).
  { destruct t as [|c1 t]; [done|]. cbn [app]. apply andb_true_iff in Hv as [-> Hv]. cbn in Hle. apply IH; (lia || done). }
  destruct ((224 <=? u8_val c) && (u8_val c <=? 239)).
  { destruct t as [|c1 [|c2 t]]; try done. cbn [app]. rewrite !andb_true_iff in Hv. destruct Hv as ((((-> & ->) & ->) & ->) & Hv).
    cbn in Hle |- *. apply IH; (lia || done). }
  destruct ((240 <=? u8_val c) && (u8_val c <=? 244)); [|done].
  destruct t as [|c1 [|c2 [|c3 t]]]; try done. cbn [app]. rewrite !andb_true_iff in Hv.
  destruct Hv as (((((-> & ->) & ->) & ->) & ->) & Hv). cbn in Hle |- *. apply IH; (lia || done).
Qed.

(** Text can be cut before an ASCII character. *)
Lemma utf8_cut a c b :
  u8_val c < 128 -> utf8_valid (a ++ c :: b) = true -> utf8_valid a = true /\ utf8_valid (c :: b) = true.
Proof.
  intros Hc. assert (is_cont c = false) as Hcc by (unfold is_cont; lia).
  remember (length a) as n eqn:Hn. assert (length a <= n)%nat as Hle by lia. clear Hn. revert a Hle.
  induction n as [|n IH]; intros [|d t] Hle Hv; try done; [cbn in Hle; lia|].
  cbn [app utf8_valid length] in *. destruct (u8_val d <? 128); [apply IH; (lia || done)|].
  destruct ((194 <=? u8_val d) && (u8_val d <=? 223)).
  { destruct t as [|c1 t]; cbn [app] in Hv; [by rewrite Hcc in Hv|]. apply andb_true_iff in Hv as [-> Hv]. cbn in Hle. apply IH; (lia || done). }
  destruct ((224 <=? u8_val d) && (u8_val d <=? 239)).
  { destruct t as [|c1 [|c2 t]]; cbn [app] in Hv.
    - destruct b; [done|]. by rewrite Hcc in Hv.
    - by rewrite Hcc, andb_false_r in Hv.
    - rewrite !andb_true_iff in Hv. destruct Hv as ((((-> & ->) & ->) & ->) & Hv). cbn in Hle |- *. apply IH; (lia || done). }
  destruct ((240 <=? u8_val d) && (u8_val d <=? 244)); [|done].
  destruct t as [|c1 [|c2 [|c3 t]]]; cbn [app] in Hv.
  - destruct b as [|? [|]]; try done. by rewrite Hcc in Hv.
  - destruct b; [done|]. by rewrite Hcc, andb_false_r in Hv.
  - by rewrite Hcc, !andb_false_r in Hv.
  - rewrite !andb_true_iff in Hv. destruct Hv as (((((-> & ->) & ->) & ->) & ->) & Hv). cbn in Hle |- *. apply IH; (lia || done).
Qed.

Lemma as_bytes_map f s : as_bytes (str_map f s) = map f (as_bytes s).
Proof. induction s as [|c s IH]; [done|]. cbn [str_map]. change (f c :: as_bytes (str_map f s) = f c :: map f (as_bytes s)). by rewrite IH. Qed.

(** Replacing ASCII characters by ASCII characters keeps text valid. *)
Lemma utf8_map f b :
  (forall c, u8_val c < 128 -> u8_val (f c) < 128) -> (forall c, 128 <= u8_val c -> f c = c) ->
  utf8_valid b = true -> utf8_valid (map f b) = true.
Proof.
  intros Hlow Hhigh. assert (forall c, is_cont c = true -> f c = c) as Hcont by (intros c Hc; apply Hhigh; unfold is_cont in Hc; lia).
  remember (length b) as n eqn:Hn. assert (length b <= n)%nat as Hle by lia. clear Hn. revert b Hle.
  induction n as [|n IH]; intros [|c t] Hle Hv; try done; [cbn in Hle; lia|]. cbn [map utf8_valid length] in *.
  destruct (u8_val c <? 128) eqn:Hc.
  { assert ((u8_val (f c) <? 128) = true) as -> by (apply Z.ltb_lt, Hlow; lia). apply IH; (lia || done). }
  rewrite (Hhigh c) by lia. rewrite Hc. destruct ((194 <=? u8_val c) && (u8_val c <=? 223)).
  { destruct t as [|c1 t]; [done|]. cbn [map]. apply andb_true_iff in Hv as [H1 Hv]. rewrite (Hcont c1), H1 by done. cbn in Hle. apply IH; (lia || done). }
  destruct ((224 <=? u8_val c) && (u8_val c <=? 239)).
  { destruct t as [|c1 [|c2 t]]; try done. cbn [map]. rewrite !andb_true_iff in Hv. destruct Hv as ((((H1 & H2) & H3) & H4) & Hv).
    rewrite (Hcont c1), (Hcont c2), H1, H2, H3, H4 by done. cbn in Hle |- *. apply IH; (lia || done). }
  destruct ((240 <=? u8_val c) && (u8_val c <=? 244)); [|done].
  destruct t as [|c1 [|c2 [|c3 t]]]; try done. cbn [map]. rewrite !andb_true_iff in Hv.
  destruct Hv as (((((H1 & H2) & H3) & H4) & H5) & Hv).
  rewrite (Hcont c1), (Hcont c2), (Hcont c3), H1, H2, H3, H4, H5 by done. cbn in Hle |- *. apply IH; (lia || done).
Qed.
