(* ===== verification/Json.v ===== *)
(** * JSON answers

    The values the web handlers of server, supervisor and client build. *)

From S2P Require Import Prelude.

(** [serde_json::Value], as far as the handlers build it (every number they write is
    an integer). *)
Inductive json : Set :=
| JNull
| JBool (b : bool)
| JInt (z : Z)
| JStr (s : string)
| JArr (l : list json)
| JObj (l : list (string * json)).

Definition jerror (m : string) : json := JObj [("error", JStr m)].
Definition unauthorized : json := jerror "unauthorized".

(** The value of a key; [Null] when there is none. *)
Definition jget (k : string) (j : json) : json :=
  match j with
  | JObj l => default JNull (snd <$> (list_find (fun kv => fst kv = k) l ≫= fun x => Some (snd x)))
  | _ => JNull
  end.

Definition jmap {A} (f : A -> json) (m : gmap string A) : json :=
  JObj (map (fun kv => (fst kv, f (snd kv))) (map_to_list m)).
