(* ===== verification/Paths.v ===== *)
(** * Paths, environment and the local file system

    [std::path] and [std::fs] as far as the sources use them.  A disk maps
    resolved locations to files and directories; [.] and [..] are resolved
    lexically.  A write needs its parent directory and fails on a directory;
    permissions and a full disk are not modelled. *)

From S2P Require Import Prelude.

Definition env : Type := string -> option string.

(** A resolved location: absolute or not, and its components. *)
Abbreviation loc := (bool * list string)%type.

Definition is_absolute (p : string) : bool := starts_with "/" p.

(** [Path::join]: an absolute argument replaces the base. *)
Definition path_join (base p : string) : string :=
  if is_absolute p then p
  else if (str_len base =? 0) || ends_with "/" base then base +:+ p
  else base +:+ "/" +:+ p.

(** One component on the reversed stack of those already entered. *)
Definition enter (abs : bool) (st : list string) (c : string) : list string :=
  if decide (c = "" \/ c = ".") then st
  else if decide (c = "..") then
    match st with
    | [] => if abs then [] else [".."]
    | x :: st' => if decide (x = "..") then ".." :: st else st'
    end
  else c :: st.

Definition enter_all (abs : bool) (st : list string) (p : string) : list string :=
  fold_left (enter abs) (str_split "/" p) st.

Definition resolve (p : string) : loc :=
  (is_absolute p, rev (enter_all (is_absolute p) [] p)).

Inductive node : Set :=
| File (b : bytes)
| Dir.

#[export] Instance node_eq_dec : EqDecision node.
Proof. solve_decision. Defined.

Abbreviation files := (gmap (bool * list string) node).

(** The root, the working directory and what lies above it are directories. *)
Definition is_dir_at (fs : files) (l : loc) : bool :=
  forallb (fun c => bool_decide (c = "..")) (snd l) ||
  match fs !! l with Some Dir => true | _ => false end.

Definition parent_loc (l : loc) : loc := (fst l, removelast (snd l)).

(** [fs::read(p).ok()] *)
Definition fs_read (fs : files) (p : string) : option bytes :=
  match fs !! resolve p with
  | Some (File b) => Some b
  | _ => None
  end.

(** [fs::write(p, b)]: [None] is an I/O error. *)
Definition fs_write (p : string) (b : bytes) (fs : files) : option files :=
  if is_dir_at fs (resolve p) then None
  else if is_dir_at fs (parent_loc (resolve p)) then Some (<[resolve p := File b]> fs)
  else None.

(** [fs::remove_file(p)] *)
Definition fs_remove (p : string) (fs : files) : option files :=
  match fs !! resolve p with
  | Some (File _) => Some (delete (resolve p) fs)
  | _ => None
  end.

(** [fs::create_dir_all(p)]: the missing directories from the top down. *)
Fixpoint mkdirs (abs : bool) (done_ todo : list string) (fs : files) : option files :=
  match todo with
  | [] => Some fs
  | c :: todo' =>
      let l := (abs, done_ ++ [c]) in
      if is_dir_at fs l then mkdirs abs (done_ ++ [c]) todo' fs
      else match fs !! l with
           | Some _ => None
           | None => mkdirs abs (done_ ++ [c]) todo' (<[l := Dir]> fs)
           end
  end.

Definition create_dir_all (p : string) (fs : files) : option files :=
  mkdirs (fst (resolve p)) [] (snd (resolve p)) fs.

(** [create_dir_all] of the parent directory of [p]. *)
Definition create_parent (p : string) (fs : files) : option files :=
  mkdirs (fst (resolve p)) [] (removelast (snd (resolve p))) fs.

(** Opening with [create(true).write(true)], [seek(SeekFrom::Start(off))] and
    [write_all(d)]: a gap is filled with zeros, what follows stays; nothing happens
    when there is nothing to write. *)
Definition write_at (off : nat) (d f : bytes) : bytes :=
  match d with
  | [] => f
  | _ => take off f ++ replicate (off - length f) (u8_of 0) ++ d ++ drop (off + length d) f
  end.

Definition fs_write_at (p : string) (off : Z) (d : bytes) (fs : files) : option files :=
  fs_write p (write_at (Z.to_nat off) d (default [] (fs_read fs p))) fs.

(** [fs::read_to_string(p).ok()] *)
Definition read_to_string (fs : files) (p : string) : option string :=
  b ← fs_read fs p; if utf8_valid b then Some (of_bytes b) else None.

(** [p.is_dir()], [p.is_file()], [p.exists()] *)
Definition fs_is_dir (fs : files) (p : string) : bool := is_dir_at fs (resolve p).
Definition fs_is_file (fs : files) (p : string) : bool :=
  match fs_read fs p with Some _ => true | None => false end.
Definition fs_exists (fs : files) (p : string) : bool := fs_is_file fs p || fs_is_dir fs p.

(** The directory of the key files, the data and the configuration:
    [$NSMT_HOME], else [$HOME/.nsmt], else [.nsmt]. *)
Definition nsmt_home (e : env) : string :=
  match e "NSMT_HOME" with
  | Some h => h
  | None => match e "HOME" with
            | Some h => path_join h ".nsmt"
            | None => ".nsmt"
            end
  end.

(** The directory-name sanitizer the sources repeat: letters, digits, [-] and [_]
    stay, any other character becomes one [_] (the continuation bytes of a UTF-8
    character are part of that character). *)
Definition sanitize_char (c : ascii) : ascii :=
  if is_alnum c || str_mem c "-_" then c else "_"%char.

Definition sanitize (s : string) : string :=
  str_map sanitize_char (str_filter (fun c => negb (is_cont c)) s).

(** A name that is one ordinary path component. *)
Definition plain_name (n : string) : bool :=
  negb (bool_decide (n = "" \/ n = "." \/ n = "..")) && negb (str_mem "/" n).

(** A relative path without [..] components. *)
Definition safe_rel (p : string) : bool :=
  negb (is_absolute p) && forallb (fun c => negb (bool_decide (c = ".."))) (str_split "/" p).

(** [fs::read_dir]: the names in a directory (in an order the system chooses). *)
Definition child_of (d : loc) (kv : loc * node) : option (string * node) :=
  if decide (parent_loc (fst kv) = d) then
    match last (snd (fst kv)) with Some n => Some (n, snd kv) | None => None end
  else None.

Definition read_dir (fs : files) (d : loc) : option (list (string * node)) :=
  if is_dir_at fs d then Some (omap (child_of d) (map_to_list fs)) else None.

Definition below (root : loc) (rel : list string) : loc := (fst root, snd root ++ rel).

(** No path on the disk has more components than this. *)
Definition depth (fs : files) : nat := max_list (map (fun kv : loc * node => length (snd (fst kv))) (map_to_list fs)).

(** The components of a path, and [Path::file_name]. *)
Definition components (p : string) : list string :=
  filter (fun c => c <> "" /\ c <> ".") (str_split "/" p).

Definition file_name (p : string) : option string :=
  n ← last (components p); if decide (n = "..") then None else Some n.

(** [fs::remove_dir_all(p)] of a directory. *)
Definition inside (d l : loc) : bool := bool_decide (fst l = fst d) && bool_decide (take (length (snd d)) (snd l) = snd d).

Definition fs_remove_dir_all (p : string) (fs : files) : option files :=
  match fs !! resolve p with
  | Some Dir => Some (filter (fun kv => inside (resolve p) (fst kv) = false) fs)
  | _ => None
  end.

(** [fs::rename(p, q)]: a file replaces a file; a directory moves with what is in
    it, onto nothing or an empty directory, and not into itself. *)
Definition moved (d d' : loc) (kv : loc * node) : loc * node :=
  if inside d (fst kv) then ((fst d', snd d' ++ drop (length (snd d)) (snd (fst kv))), snd kv) else kv.

Definition fs_rename (p q : string) (fs : files) : option files :=
  let l := resolve p in
  let l' := resolve q in
  match fs !! l with
  | None => None
  | Some (File b) =>
      if is_dir_at fs l' then None
      else if is_dir_at fs (parent_loc l') then Some (<[l' := File b]> (delete l fs))
      else None
  | Some Dir =>
      if decide (l' = l) then Some fs
      else if inside l l' || existsb (fun kv => bool_decide (fst kv <> l') && inside l' (fst kv)) (map_to_list fs) then None
      else match fs !! l' with
           | Some (File _) => None
           | _ => if is_dir_at fs (parent_loc l') then Some (list_to_map (map (moved l l') (map_to_list (delete l' fs)))) else None
           end
  end.

(** ** Lemmas *)

Lemma str_split_single c s : str_mem c s = false -> str_split c s = [s].
Proof.
  induction s as [|d s IH]; [done|]. cbn. intros H. apply orb_false_iff in H as [-> H].
  by rewrite IH.
Qed.

Lemma str_split_nonempty c s : str_split c s <> [].
Proof. destruct s as [|d s]; cbn; [done|]. by repeat case_match. Qed.

Lemma str_split_app c a b : str_split c (a +:+ String c b) = str_split c a ++ str_split c b.
Proof.
  induction a as [|d a IH].
  - change (EmptyString +:+ String c b) with (String c b). cbn. by rewrite Ascii.eqb_refl.
  - change (String d a +:+ String c b) with (String d (a +:+ String c b)). cbn.
    destruct (Ascii.eqb c d); [by rewrite IH|]. rewrite IH.
    destruct (str_split c a) eqn:E; [by apply str_split_nonempty in E|done].
Qed.

Lemma enter_all_app abs st a b :
  enter_all abs st (a +:+ String "/" b) = enter_all abs (enter_all abs st a) b.
Proof. unfold enter_all. by rewrite str_split_app, fold_left_app. Qed.

Lemma starts_with_app p s : starts_with p (p +:+ s) = true.
Proof.
  unfold starts_with. induction p as [|c p IH]; [by destruct s|].
  change (String c p +:+ s) with (String c (p +:+ s)). cbn. by rewrite Ascii.eqb_refl.
Qed.

Lemma strip_prefix_inv p s r : strip_prefix p s = Some r -> s = p +:+ r.
Proof.
  revert s. induction p as [|a p IH]; intros s; cbn; [by intros [= <-]|].
  destruct s as [|b s]; [done|]. destruct (Ascii.eqb_spec a b) as [->|]; [|done].
  intros ->%IH. done.
Qed.

Lemma str_app_assoc a b c : (a +:+ b) +:+ c = a +:+ b +:+ c.
Proof. induction a as [|d a IH]; [done|]. change (String d ((a +:+ b) +:+ c) = String d (a +:+ b +:+ c)). by rewrite IH. Qed.

Lemma ends_slash_inv s : ends_with "/" s = true -> exists s', s = s' +:+ "/".
Proof.
  unfold ends_with, starts_with. destruct (strip_prefix _ _) as [r|] eqn:E; [|done]. intros _.
  apply strip_prefix_inv in E. apply (f_equal str_rev) in E. rewrite str_rev_rev in E.
  exists (str_rev r). rewrite E. apply (inj as_bytes).
  unfold str_rev. rewrite !as_bytes_app, !as_of_bytes. rewrite rev_app_distr. done.
Qed.

Lemma is_absolute_app_nonempty a b : a <> EmptyString -> is_absolute (a +:+ b) = is_absolute a.
Proof. destruct a as [|c a]; [done|]. intros _. unfold is_absolute, starts_with.
  change (String c a +:+ b) with (String c (a +:+ b)). cbn [strip_prefix].
  by destruct (Ascii.eqb _ _). Qed.

Lemma str_len_0 s : str_len s = 0 -> s = EmptyString.
Proof. destruct s; [done|]. unfold str_len. cbn. lia. Qed.

(** Joining a relative path resolves its components from where the base is. *)
Lemma resolve_join d p :
  is_absolute p = false ->
  resolve (path_join d p) = (is_absolute d, rev (enter_all (is_absolute d) (rev (snd (resolve d))) p)).
Proof.
  intros Hp. unfold path_join. rewrite Hp. unfold resolve. cbn [snd]. rewrite rev_involutive.
  destruct ((str_len d =? 0) || ends_with "/" d) eqn:E.
  - destruct (decide (d = EmptyString)) as [->|Hd].
    { change (EmptyString +:+ p) with p. by rewrite Hp. }
    assert (ends_with "/" d = true) as [d' ->]%ends_slash_inv.
    { destruct (Z.eqb_spec (str_len d) 0) as [Z0|]; [by apply str_len_0 in Z0|]. done. }
    rewrite is_absolute_app_nonempty by done. rewrite str_app_assoc.
    change ("/" +:+ p) with (String "/" p). rewrite enter_all_app.
    change (d' +:+ "/") with (d' +:+ String "/" EmptyString). by rewrite (enter_all_app _ _ d').
  - apply orb_false_iff in E as [E _].
    rewrite is_absolute_app_nonempty by (intros ->; done).
    change ("/" +:+ p) with (String "/" p). by rewrite enter_all_app.
Qed.

Lemma resolve_abs_join d p : is_absolute p = true -> resolve (path_join d p) = resolve p.
Proof. unfold path_join. by intros ->. Qed.

Lemma enter_plain abs st n : plain_name n = true -> enter_all abs st n = n :: st.
Proof.
  unfold plain_name. rewrite andb_true_iff, !negb_true_iff, bool_decide_eq_false.
  intros [Hn Hm]. unfold enter_all. rewrite str_split_single by done. cbn. unfold enter.
  rewrite !decide_False by naive_solver. done.
Qed.

Lemma plain_relative n : plain_name n = true -> is_absolute n = false.
Proof.
  unfold plain_name. rewrite andb_true_iff, !negb_true_iff. intros [_ H].
  unfold is_absolute, starts_with. destruct n as [|c n]; [done|].
  cbn [str_mem] in H. apply orb_false_iff in H as [H _]. cbn [strip_prefix].
  by rewrite H.
Qed.

Lemma resolve_join_plain d n :
  plain_name n = true -> resolve (path_join d n) = (fst (resolve d), snd (resolve d) ++ [n]).
Proof.
  intros Hn. rewrite resolve_join by (by apply plain_relative).
  rewrite enter_plain by done. cbn [rev fst]. by rewrite rev_involutive.
Qed.

Lemma resolve_join_plain_inj d a b :
  plain_name a = true -> plain_name b = true ->
  resolve (path_join d a) = resolve (path_join d b) -> a = b.
Proof.
  intros Ha Hb. rewrite !resolve_join_plain by done. intros [= E]. by apply (inj (app _)) in E as [= ->].
Qed.

Lemma fold_enter_safe abs cs st :
  forallb (fun c => negb (bool_decide (c = ".."))) cs = true ->
  exists more, fold_left (enter abs) cs st = more ++ st.
Proof.
  revert st. induction cs as [|c cs IH]; intros st H; [by exists []|].
  cbn in H |- *. apply andb_true_iff in H as [Hc H]. apply negb_true_iff, bool_decide_eq_false in Hc.
  destruct (IH (enter abs st c) H) as [more ->]. unfold enter.
  case_decide; [by exists more|]. rewrite decide_False by done.
  exists (more ++ [c]). by rewrite <- app_assoc.
Qed.

(** A relative path without [..] never leaves the base. *)
Lemma resolve_join_safe d p :
  safe_rel p = true ->
  exists more, resolve (path_join d p) = (fst (resolve d), snd (resolve d) ++ more).
Proof.
  unfold safe_rel. rewrite andb_true_iff, negb_true_iff. intros [Ha Hs].
  rewrite resolve_join by done. unfold enter_all.
  destruct (fold_enter_safe (is_absolute d) _ (rev (snd (resolve d))) Hs) as [more ->].
  exists (rev more). by rewrite rev_app_distr, rev_involutive.
Qed.

(** ** The disk *)

Lemma fs_read_write p b fs fs' : fs_write p b fs = Some fs' -> fs_read fs' p = Some b.
Proof.
  unfold fs_write. repeat case_match; intros [= <-]. unfold fs_read. by rewrite lookup_insert_eq.
Qed.

Lemma fs_read_write_ne p q b fs fs' :
  resolve q <> resolve p -> fs_write p b fs = Some fs' -> fs_read fs' q = fs_read fs q.
Proof.
  intros Hne. unfold fs_write. repeat case_match; intros [= <-]. unfold fs_read.
  by rewrite lookup_insert_ne.
Qed.

Lemma fs_read_remove_ne p q fs fs' :
  resolve q <> resolve p -> fs_remove p fs = Some fs' -> fs_read fs' q = fs_read fs q.
Proof.
  intros Hne. unfold fs_remove. repeat case_match; intros [= <-]. unfold fs_read.
  by rewrite lookup_delete_ne.
Qed.

Lemma fs_read_not_dir fs p b : fs_read fs p = Some b -> fs !! resolve p = Some (File b).
Proof. unfold fs_read. repeat case_match; congruence. Qed.

(** The lookups [create_dir_all] leaves as they were: everything but the
    directories it makes. *)
Lemma mkdirs_spec abs done_ todo fs fs' :
  mkdirs abs done_ todo fs = Some fs' ->
  (forall l, fs' !! l = fs !! l \/ (fs !! l = None /\ fs' !! l = Some Dir)) /\
  (forall l, is_dir_at fs l = true -> is_dir_at fs' l = true) /\
  (forall l, ~ (exists k, fst l = abs /\ snd l = done_ ++ take k todo) -> fs' !! l = fs !! l) /\
  (todo <> [] -> is_dir_at fs' (abs, done_ ++ todo) = true).
Proof.
  revert done_ fs. induction todo as [|c todo IH]; intros done_ fs; cbn [mkdirs].
  { intros [= <-]. split_and!; [by left | done.. ]. }
  assert (done_ ++ c :: todo = (done_ ++ [c]) ++ todo) as Eapp by (by rewrite <- app_assoc).
  assert (forall l, ~ (exists k, fst l = abs /\ snd l = done_ ++ take k (c :: todo)) ->
    ~ (exists k, fst l = abs /\ snd l = (done_ ++ [c]) ++ take k todo) /\ l <> (abs, done_ ++ [c])) as Hout.
  { intros [a l] Hn. cbn in *. split.
    - intros (k & -> & ->). apply Hn. exists (S k). by rewrite <- app_assoc.
    - intros [= -> ->]. apply Hn. by exists 1%nat. }
  destruct (is_dir_at fs (abs, done_ ++ [c])) eqn:Ed.
  - intros E. destruct (IH _ _ E) as (H1 & H2 & H3 & H4). split_and!; [done | done | |].
    + intros l Hn. apply H3. by apply Hout.
    + intros _. rewrite Eapp. destruct todo as [|d todo]; [|by apply H4].
      rewrite app_nil_r. by apply H2.
  - destruct (fs !! _) as [n|] eqn:El; [done|]. intros E.
    destruct (IH _ _ E) as (H1 & H2 & H3 & H4).
    assert (is_dir_at (<[(abs, done_ ++ [c]) := Dir]> fs) (abs, done_ ++ [c]) = true) as Hd.
    { unfold is_dir_at. rewrite lookup_insert_eq. by rewrite orb_true_r. }
    split_and!.
    + intros l. destruct (decide (l = (abs, done_ ++ [c]))) as [->|Hne].
      * destruct (H1 (abs, done_ ++ [c])) as [E'|[E' _]]; rewrite lookup_insert_eq in E'; [by right|done].
      * specialize (H1 l). by rewrite lookup_insert_ne in H1.
    + intros l Hl. apply H2. revert Hl. unfold is_dir_at.
      destruct (decide (l = (abs, done_ ++ [c]))) as [->|Hne];
        [by rewrite lookup_insert_eq, !orb_true_r | by rewrite lookup_insert_ne].
    + intros l Hn. apply Hout in Hn as [Hn Hne]. rewrite H3 by done. by rewrite lookup_insert_ne.
    + intros _. rewrite Eapp. destruct todo as [|d todo]; [|by apply H4].
      rewrite app_nil_r. by apply H2.
Qed.

(** Nothing differs but what is at [l] or above it: what writing a file whose
    directories are made first can do. *)
Definition only_above (l : loc) (fs fs' : files) : Prop :=
  forall m, inside m l = false -> fs' !! m = fs !! m.

#[export] Instance only_above_preorder l : PreOrder (only_above l).
Proof. split; [by intros fs m|]. intros a b c Hab Hbc m Hm. by rewrite Hbc, Hab. Qed.

Lemma inside_prefix a cs more : inside (a, cs) (a, cs ++ more) = true.
Proof. unfold inside. cbn [fst snd]. rewrite take_app_length. by rewrite !bool_decide_eq_true_2. Qed.

Lemma removelast_take_app k (cs : list string) : exists more, cs = take k (removelast cs) ++ more.
Proof.
  exists (drop k (removelast cs) ++ drop (pred (length cs)) cs).
  by rewrite app_assoc, take_drop, removelast_firstn_len, take_drop.
Qed.

Lemma create_parent_above p fs fs' : create_parent p fs = Some fs' -> only_above (resolve p) fs fs'.
Proof.
  unfold create_parent. destruct (resolve p) as [a cs]. cbn [fst snd]. intros E m Hm.
  destruct (mkdirs_spec _ _ _ _ _ E) as (_ & _ & Hout & _). apply Hout. intros (k & Ha & Hs).
  destruct m as [b ds]. cbn [fst snd app] in *. subst b ds. destruct (removelast_take_app k cs) as [more Ec].
  pose proof (inside_prefix a (take k (removelast cs)) more) as Hi. rewrite <- Ec in Hi. congruence.
Qed.

Lemma fs_write_above p b fs fs' : fs_write p b fs = Some fs' -> only_above (resolve p) fs fs'.
Proof.
  unfold fs_write. repeat case_match; intros [= <-] m Hm. rewrite lookup_insert_ne; [done|].
  intros <-. destruct (resolve p) as [a cs]. pose proof (inside_prefix a cs []) as Hi. rewrite app_nil_r in Hi. congruence.
Qed.

Lemma fs_remove_above p fs fs' : fs_remove p fs = Some fs' -> only_above (resolve p) fs fs'.
Proof.
  unfold fs_remove. repeat case_match; intros [= <-] m Hm. rewrite lookup_delete_ne; [done|].
  intros <-. destruct (resolve p) as [a cs]. pose proof (inside_prefix a cs []) as Hi. rewrite app_nil_r in Hi. congruence.
Qed.

Lemma only_above_read l fs fs' p : only_above l fs fs' -> inside (resolve p) l = false -> fs_read fs' p = fs_read fs p.
Proof. unfold fs_read. by intros H ->%H. Qed.

Lemma create_dir_all_read p fs fs' q :
  create_dir_all p fs = Some fs' -> fs_read fs' q = fs_read fs q.
Proof.
  intros E. destruct (mkdirs_spec _ _ _ _ _ E) as (H & _). unfold fs_read.
  by destruct (H (resolve q)) as [->|[-> ->]].
Qed.

Lemma create_dir_all_dir p fs fs' :
  create_dir_all p fs = Some fs' -> is_dir_at fs' (resolve p) = true.
Proof.
  unfold create_dir_all. destruct (resolve p) as [a cs] eqn:E. cbn [fst snd]. intros H.
  destruct (mkdirs_spec _ _ _ _ _ H) as (_ & _ & _ & Hd). destruct cs as [|c cs]; [done|].
  by apply Hd.
Qed.

Lemma mkdirs_idem abs done_ cs fs :
  (forall k, is_dir_at fs (abs, done_ ++ take k cs) = true) -> mkdirs abs done_ cs fs = Some fs.
Proof.
  revert done_. induction cs as [|c cs IH]; intros done_ H; [done|]. cbn [mkdirs].
  pose proof (H 1%nat) as H1. cbn [take] in H1. rewrite take_0 in H1. rewrite H1.
  apply IH. intros k. specialize (H (S k)). by rewrite <- app_assoc.
Qed.

(** Directories stay when files are written. *)
Lemma fs_write_dirs p b fs fs' l :
  fs_write p b fs = Some fs' -> is_dir_at fs l = true -> is_dir_at fs' l = true.
Proof.
  unfold fs_write. destruct (is_dir_at fs (resolve p)) eqn:E; [done|]. case_match; [|done].
  intros [= <-] Hl. destruct (decide (l = resolve p)) as [->|]; [congruence|].
  revert Hl. unfold is_dir_at. by rewrite lookup_insert_ne.
Qed.

(** A plain name in a directory can be written unless a directory has that name. *)
Lemma plain_not_dots d n : plain_name n = true ->
  forallb (fun c => bool_decide (c = "..")) (snd (resolve (path_join d n))) = false.
Proof.
  intros Hn. rewrite resolve_join_plain by done. cbn [snd]. rewrite forallb_app.
  unfold plain_name in Hn. rewrite andb_true_iff, !negb_true_iff, bool_decide_eq_false in Hn.
  cbn [forallb]. rewrite bool_decide_eq_false_2 by naive_solver. by rewrite andb_false_r.
Qed.

Lemma fs_write_plain d n b fs :
  plain_name n = true -> is_dir_at fs (resolve d) = true ->
  fs !! resolve (path_join d n) <> Some Dir ->
  fs_write (path_join d n) b fs = Some (<[resolve (path_join d n) := File b]> fs).
Proof.
  intros Hn Hd Hf. unfold fs_write. unfold is_dir_at at 1. rewrite plain_not_dots by done.
  cbn [orb]. assert (parent_loc (resolve (path_join d n)) = resolve d) as ->.
  { rewrite resolve_join_plain by done. unfold parent_loc. cbn [fst snd].
    rewrite removelast_last. by destruct (resolve d). }
  rewrite Hd. by destruct (fs !! resolve (path_join d n)) as [[]|].
Qed.

(** Directories that were made once are there afterwards, so long as directories
    are only added. *)
Lemma mkdirs_prefixes abs done_ todo fs fs1 k :
  is_dir_at fs (abs, done_) = true -> mkdirs abs done_ todo fs = Some fs1 ->
  is_dir_at fs1 (abs, done_ ++ take k todo) = true.
Proof.
  revert k done_ fs. induction todo as [|c todo IH]; intros k done_ fs Hd E.
  { rewrite take_nil, app_nil_r. cbn in E. by injection E as <-. }
  cbn [mkdirs] in E. destruct k as [|k].
  { cbn [take]. rewrite app_nil_r. destruct (mkdirs_spec abs done_ (c :: todo) fs fs1 E) as (_ & H & _).
    by apply H. }
  cbn [take]. change (c :: take k todo) with ([c] ++ take k todo). rewrite app_assoc.
  destruct (is_dir_at fs (abs, done_ ++ [c])) eqn:Ed; [by eapply IH|].
  destruct (fs !! _); [done|]. eapply IH; [|exact E].
  unfold is_dir_at. by rewrite lookup_insert_eq, orb_true_r.
Qed.

Lemma mkdirs_again abs cs fs fs1 fs2 :
  mkdirs abs [] cs fs = Some fs1 ->
  (forall l, is_dir_at fs1 l = true -> is_dir_at fs2 l = true) ->
  mkdirs abs [] cs fs2 = Some fs2.
Proof.
  intros E Hmono. apply mkdirs_idem. intros k. apply Hmono. by eapply (mkdirs_prefixes abs []).
Qed.

Lemma create_dir_all_again p fs fs1 fs2 :
  create_dir_all p fs = Some fs1 ->
  (forall l, is_dir_at fs1 l = true -> is_dir_at fs2 l = true) ->
  create_dir_all p fs2 = Some fs2.
Proof. apply mkdirs_again. Qed.

Lemma mkdirs_read abs cs fs fs1 q : mkdirs abs [] cs fs = Some fs1 -> fs_read fs1 q = fs_read fs q.
Proof.
  intros E. destruct (mkdirs_spec _ _ _ _ _ E) as (H & _). unfold fs_read.
  by destruct (H (resolve q)) as [->|[-> ->]].
Qed.

Lemma write_at_some off d f : d <> [] ->
  write_at off d f = take off f ++ replicate (off - length f) (u8_of 0) ++ d ++ drop (off + length d) f.
Proof. by destruct d. Qed.

Lemma write_at_lookup off d f j : d <> [] ->
  write_at off d f !! j =
    (if decide (off <= j < off + length d)%nat then d !! (j - off)%nat
     else if decide (j < off)%nat then Some (default (u8_of 0) (f !! j))
     else f !! j).
Proof.
  intros Hnil. rewrite write_at_some by done. destruct (decide (j < off)%nat) as [Hlt|Hge].
  - rewrite decide_False by lia. destruct (decide (j < length f)%nat) as [Hf|Hf].
    + rewrite lookup_app_l by (rewrite length_take; lia). rewrite lookup_take_lt by lia.
      by apply lookup_lt_is_Some_2 in Hf as [x ->].
    + rewrite lookup_app_r by (rewrite length_take; lia). rewrite length_take.
      rewrite lookup_app_l by (rewrite length_replicate; lia).
      rewrite lookup_replicate_2 by lia. by rewrite (lookup_ge_None_2 f) by lia.
  - rewrite lookup_app_r by (rewrite length_take; lia). rewrite length_take.
    rewrite lookup_app_r by (rewrite length_replicate; lia). rewrite length_replicate.
    replace (j - off `min` length f - (off - length f))%nat with (j - off)%nat by lia.
    destruct (decide (j < off + length d)%nat) as [Hd|Hd].
    + rewrite decide_True by lia. by rewrite lookup_app_l by lia.
    + rewrite decide_False by lia. rewrite lookup_app_r by lia. rewrite lookup_drop.
      f_equal. lia.
Qed.

Lemma create_parent_dir p fs fs1 :
  create_parent p fs = Some fs1 -> is_dir_at fs1 (parent_loc (resolve p)) = true.
Proof.
  unfold create_parent, parent_loc. destruct (resolve p) as [a cs]. cbn [fst snd]. intros H.
  destruct (mkdirs_spec _ _ _ _ _ H) as (_ & _ & _ & Hd). destruct (removelast cs) as [|c l]; [done|].
  by apply Hd.
Qed.

Lemma last_split {A} (l : list A) x : last l = Some x -> l = removelast l ++ [x].
Proof. intros H. pose proof (last_Some l x) as [Hl _]. destruct (Hl H) as [l' ->]. by rewrite removelast_last. Qed.

Lemma read_dir_spec fs d l n nd :
  read_dir fs d = Some l -> (n, nd) ∈ l <-> fs !! below d [n] = Some nd.
Proof.
  unfold read_dir. destruct (is_dir_at fs d); [|done]. intros [= <-].
  rewrite list_elem_of_omap. unfold child_of, parent_loc, below. split.
  - intros ([[a cs] nd'] & Hin%elem_of_map_to_list & Hc). cbn [fst snd] in *.
    case_decide as Hd; [|done]. destruct (last cs) as [x|] eqn:El; [|done]. injection Hc as -> ->.
    subst d. cbn [fst snd]. by rewrite <- (last_split _ _ El).
  - intros Hl. exists ((fst d, snd d ++ [n]), nd). split; [by apply elem_of_map_to_list|]. cbn [fst snd].
    rewrite removelast_last, decide_True by (by destruct d). by rewrite last_snoc.
Qed.

Lemma below_nil d : below d [] = d.
Proof. unfold below. rewrite app_nil_r. by destruct d. Qed.

Lemma below_app root a b : below (below root a) b = below root (a ++ b).
Proof. unfold below. cbn. by rewrite app_assoc. Qed.

Lemma is_dir_insert fs l nd m : is_dir_at fs l = false \/ nd = Dir -> is_dir_at fs m = true -> is_dir_at (<[l := nd]> fs) m = true.
Proof.
  intros Hl. unfold is_dir_at. destruct (forallb _ (snd m)) eqn:Em; [done|]. cbn [orb]. destruct (decide (l = m)) as [->|Hne].
  - rewrite lookup_insert_eq. destruct Hl as [Hl| ->]; [|done]. unfold is_dir_at in Hl. rewrite Em in Hl. cbn [orb] in Hl. by rewrite Hl.
  - by rewrite lookup_insert_ne.
Qed.

Lemma depth_bound fs l nd : fs !! l = Some nd -> (length (snd l) <= depth fs)%nat.
Proof.
  intros Hl. unfold depth. apply elem_of_map_to_list in Hl. apply max_list_elem_of_le.
  apply list_elem_of_fmap. by exists (l, nd).
Qed.

Lemma enter_all_join abs st segs :
  segs <> [] -> Forall (fun n => plain_name n = true) segs -> enter_all abs st (str_join "/" segs) = rev segs ++ st.
Proof.
  revert st. induction segs as [|n segs IH]; intros st Hne Hp; [done|]. apply Forall_cons in Hp as [Hn Hp].
  destruct segs as [|m segs]; [by apply enter_plain|].
  change (str_join "/" (n :: m :: segs)) with (n +:+ String "/" (str_join "/" (m :: segs))).
  rewrite enter_all_app, (enter_plain _ _ n), IH by done. cbn [rev]. by rewrite <- !app_assoc.
Qed.

Lemma join_relative segs : Forall (fun n => plain_name n = true) segs -> is_absolute (str_join "/" segs) = false.
Proof.
  destruct segs as [|n [|m segs]]; [done| |]; intros Hp; apply Forall_cons in Hp as [Hn _];
    pose proof (plain_relative _ Hn) as Hr; [exact Hr|].
  change (str_join "/" (n :: m :: segs)) with (n +:+ String "/" (str_join "/" (m :: segs))).
  rewrite is_absolute_app_nonempty; [exact Hr|]. intros ->. by vm_compute in Hn.
Qed.

Lemma resolve_join_segs d segs :
  segs <> [] -> Forall (fun n => plain_name n = true) segs ->
  resolve (path_join d (str_join "/" segs)) = below (resolve d) segs.
Proof.
  intros Hne Hp. rewrite resolve_join by (by apply join_relative). rewrite enter_all_join by done.
  unfold below. by rewrite rev_app_distr, !rev_involutive.
Qed.

(** [create_dir_all] succeeds when no file is in the way. *)
Lemma mkdirs_total abs done_ todo fs :
  (forall k, (0 < k <= length todo)%nat -> is_dir_at fs (abs, done_ ++ take k todo) = true \/ fs !! (abs, done_ ++ take k todo) = None) ->
  is_Some (mkdirs abs done_ todo fs).
Proof.
  revert done_ fs. induction todo as [|c todo IH]; intros done_ fs Hk; [by eexists|]. cbn [mkdirs].
  assert (forall k, done_ ++ take (S k) (c :: todo) = (done_ ++ [c]) ++ take k todo) as Happ
    by (intros k; cbn; by rewrite <- app_assoc).
  pose proof (Hk 1%nat ltac:(cbn; lia)) as H1. cbn [take] in H1. rewrite take_0 in H1.
  destruct (is_dir_at fs (abs, done_ ++ [c])) eqn:Ed.
  - apply IH. intros k Hl. specialize (Hk (S k) ltac:(cbn; lia)). by rewrite Happ in Hk.
  - destruct H1 as [|H1]; [done|]. rewrite H1. apply IH. intros k Hl.
    specialize (Hk (S k) ltac:(cbn; lia)). rewrite Happ in Hk. unfold is_dir_at in *.
    rewrite lookup_insert_ne; [done|]. intros [= E]. apply (f_equal length) in E.
    rewrite !length_app, length_take in E. cbn in E. lia.
Qed.

(** A directory [mkdirs] made is one of the prefixes. *)
Lemma mkdirs_new abs todo fs fs1 l :
  mkdirs abs [] todo fs = Some fs1 -> fs !! l = None -> fs1 !! l = Some Dir ->
  fst l = abs /\ snd l = take (length (snd l)) todo.
Proof.
  intros Hm Hn Hd. destruct (mkdirs_spec _ _ _ _ _ Hm) as (_ & _ & Hout & _).
  destruct (decide (fst l = abs /\ snd l = take (length (snd l)) todo)) as [Hy|Hno]; [exact Hy|]. exfalso.
  rewrite Hout in Hd; [congruence|]. intros (k & Ha & Hk). apply Hno. split; [exact Ha|]. cbn in Hk.
  rewrite Hk at 1. rewrite Hk, length_take. destruct (decide (k <= length todo)%nat).
  - by rewrite Nat.min_l by lia.
  - rewrite Nat.min_r by lia. rewrite !take_ge by lia. done.
Qed.

Lemma below_inj D s s' : below D s = below D s' -> s = s'.
Proof. unfold below. intros [= E]. by apply app_inv_head in E. Qed.

Lemma take_removelast {A} (l : list A) k : (k < length l)%nat -> take k (removelast l) = take k l.
Proof.
  intros Hk. rewrite removelast_firstn_len, take_take. f_equal. lia.
Qed.

Lemma plain_not_dotdot s D : s <> [] -> Forall (fun n => plain_name n = true) s ->
  forallb (fun c => bool_decide (c = "..")) (snd (below D s)) = false.
Proof.
  intros Hne Hp. unfold below. cbn [snd]. rewrite forallb_app. destruct s as [|n s]; [done|].
  apply Forall_cons in Hp as [Hn _]. cbn [forallb]. unfold plain_name in Hn.
  rewrite andb_true_iff, !negb_true_iff, bool_decide_eq_false in Hn.
  rewrite (bool_decide_eq_false_2 (n = "..")) by naive_solver. cbn. by rewrite andb_false_r.
Qed.

(** A regular file reached through directories. *)
Definition reached (fs : files) (root : loc) (rel segs : list string) (b : bytes) : Prop :=
  segs <> [] /\ fs !! below root (rel ++ segs) = Some (File b) /\
  forall k, (0 < k < length segs)%nat -> fs !! below root (rel ++ take k segs) = Some Dir.

Lemma reached_file fs root rel n b :
  reached fs root rel [n] b <-> fs !! below root (rel ++ [n]) = Some (File b).
Proof. unfold reached. cbn [length]. split; [naive_solver|]. intros H. split_and!; [done|done|lia]. Qed.

Lemma reached_cons fs root rel n m segs b :
  reached fs root rel (n :: m :: segs) b <->
  fs !! below root (rel ++ [n]) = Some Dir /\ reached fs root (rel ++ [n]) (m :: segs) b.
Proof.
  unfold reached. replace ((rel ++ [n]) ++ m :: segs) with (rel ++ n :: m :: segs) by (by rewrite <- app_assoc).
  split.
  - intros (_ & Hf & Hd). split; [apply (Hd 1%nat); cbn; lia|]. split_and!; [done|done|].
    intros k Hk. specialize (Hd (S k) ltac:(cbn in *; lia)). rewrite <- app_assoc. exact Hd.
  - intros (Hn & _ & Hf & Hd). split_and!; [done|done|]. intros k Hk. destruct k as [|[|k]]; [lia|exact Hn|].
    specialize (Hd (S k) ltac:(cbn in *; lia)). rewrite <- app_assoc in Hd. exact Hd.
Qed.
