(* ===== verification/Wire.v ===== *)
(** * Frame codec, framed streams and error codes

    [nsmt-core/src/error.rs], [frame.rs] and [wire.rs]: the binary frame
    ([magic | version | flags | type | stream | len | payload]), its encoder and
    decoder, and the reader that reassembles frames from a byte stream the
    transport delivers in arbitrary fragments. *)

From S2P Require Import Prelude.

(** ** [error.rs] *)

Module ErrorCode.
Inductive t : Set :=
| TenantNotFound | AuthFailed | TicketExpired | NotRegistered | TenantForbidden
| UnsupportedVersion | MemoryPoolUnavailable | MemoryRecallTimeout
| MemoryCaptureConflict | ObjectNotFound | TreeConflict | LockHeld | LockTimeout
| QuotaExceeded | RateLimited | InternalError.

#[global] Instance t_eq_dec : EqDecision t.
Proof. solve_decision. Defined.

(** The [#[repr(u16)]] discriminants. *)
Definition as_u16 (c : t) : Z :=
  match c with
  | TenantNotFound => 0xE001 | AuthFailed => 0xE002 | TicketExpired => 0xE003
  | NotRegistered => 0xE004 | TenantForbidden => 0xE005 | UnsupportedVersion => 0xE006
  | MemoryPoolUnavailable => 0xE010 | MemoryRecallTimeout => 0xE011
  | MemoryCaptureConflict => 0xE012 | ObjectNotFound => 0xE020 | TreeConflict => 0xE021
  | LockHeld => 0xE030 | LockTimeout => 0xE031 | QuotaExceeded => 0xE040
  | RateLimited => 0xE041 | InternalError => 0xE0FF
  end.

Definition from_raw (raw : Z) : t :=
  match raw with
  | 0xE001 => TenantNotFound | 0xE002 => AuthFailed | 0xE003 => TicketExpired
  | 0xE004 => NotRegistered | 0xE005 => TenantForbidden | 0xE006 => UnsupportedVersion
  | 0xE010 => MemoryPoolUnavailable | 0xE011 => MemoryRecallTimeout
  | 0xE012 => MemoryCaptureConflict | 0xE020 => ObjectNotFound | 0xE021 => TreeConflict
  | 0xE030 => LockHeld | 0xE031 => LockTimeout | 0xE040 => QuotaExceeded
  | 0xE041 => RateLimited | _ => InternalError
  end.
End ErrorCode.

(** [NsmtError]; the payload of [Io] and [Json] is the library error's text. *)
Inductive NsmtError : Set :=
| Protocol (msg : string)
| FrameTooLarge (n : Z)
| InvalidMagic (b : Z)
| UnsupportedVersion (v : Z)
| InvalidFqn (msg : string)
| IoError (msg : string)
| JsonError (msg : string).

#[export] Instance NsmtError_eq_dec : EqDecision NsmtError.
Proof. solve_decision. Defined.

(** ** [frame.rs] *)

Definition MAGIC : Z := 0x59.
Definition PROTOCOL_VERSION : Z := 1.
Definition CHUNK_SIZE : Z := 1024 * 1024.
Definition MAX_PAYLOAD_LEN : Z := 16 * 1024 * 1024.

Module FrameType.
Inductive t : Set :=
| Hello | HelloAck | Auth | Ticket | Register | RegisterAck
| Heartbeat | OnlineList | OnlineDelta
| MemoryRecall | MemoryRecallResult | MemoryCapture | MemoryCaptureResult
| FileTree | FileDiff | FileDiffResult | FileGet | FilePut | FileChunk | FilePutAck
| LockAcquire | LockRenew | LockRelease | LockGranted | LockDenied | LockNotify
| PeerHello | PeerAuth | PeerAuthOk | PeerHint
| Error.

#[global] Instance t_eq_dec : EqDecision t.
Proof. solve_decision. Defined.

(** The [#[repr(u8)]] discriminants ([frame_type as u8]). *)
Definition as_u8 (f : t) : Z :=
  match f with
  | Hello => 0x01 | HelloAck => 0x02 | Auth => 0x03 | Ticket => 0x04
  | Register => 0x05 | RegisterAck => 0x06
  | Heartbeat => 0x10 | OnlineList => 0x11 | OnlineDelta => 0x12
  | MemoryRecall => 0x20 | MemoryRecallResult => 0x21
  | MemoryCapture => 0x22 | MemoryCaptureResult => 0x23
  | FileTree => 0x30 | FileDiff => 0x31 | FileDiffResult => 0x32 | FileGet => 0x33
  | FilePut => 0x34 | FileChunk => 0x35 | FilePutAck => 0x36
  | LockAcquire => 0x40 | LockRenew => 0x41 | LockRelease => 0x42
  | LockGranted => 0x43 | LockDenied => 0x44 | LockNotify => 0x45
  | PeerHello => 0x50 | PeerAuth => 0x51 | PeerAuthOk => 0x52 | PeerHint => 0x53
  | Error => 0xF0
  end.

Definition from_raw (raw : Z) : option t :=
  match raw with
  | 0x01 => Some Hello | 0x02 => Some HelloAck | 0x03 => Some Auth | 0x04 => Some Ticket
  | 0x05 => Some Register | 0x06 => Some RegisterAck
  | 0x10 => Some Heartbeat | 0x11 => Some OnlineList | 0x12 => Some OnlineDelta
  | 0x20 => Some MemoryRecall | 0x21 => Some MemoryRecallResult
  | 0x22 => Some MemoryCapture | 0x23 => Some MemoryCaptureResult
  | 0x30 => Some FileTree | 0x31 => Some FileDiff | 0x32 => Some FileDiffResult
  | 0x33 => Some FileGet | 0x34 => Some FilePut | 0x35 => Some FileChunk
  | 0x36 => Some FilePutAck
  | 0x40 => Some LockAcquire | 0x41 => Some LockRenew | 0x42 => Some LockRelease
  | 0x43 => Some LockGranted | 0x44 => Some LockDenied | 0x45 => Some LockNotify
  | 0x50 => Some PeerHello | 0x51 => Some PeerAuth | 0x52 => Some PeerAuthOk
  | 0x53 => Some PeerHint
  | 0xF0 => Some Error
  | _ => None
  end.
End FrameType.

(** [Flags(pub u8)] *)
Abbreviation Flags := byte (only parsing).
Definition e2e_encrypted (f : Flags) : bool := negb (Z.land (u8_val f) 0x01 =? 0).
Definition compressed (f : Flags) : bool := negb (Z.land (u8_val f) 0x02 =? 0).

Record Frame : Set := mkFrame {
  frame_type : FrameType.t;
  flags : Flags;
  stream_id : Z;
  payload : bytes;
}.

#[export] Instance Frame_eq_dec : EqDecision Frame.
Proof. solve_decision. Defined.

(** [Frame::new] *)
Definition frame_new (ty : FrameType.t) (sid : Z) (p : bytes) : Frame :=
  mkFrame ty (u8_of 0) sid p.

(** One hexadecimal digit, and [{:#x}] of a [u8]. *)
Definition hex_digit (z : Z) : ascii :=
  if z <? 10 then u8_of (48 + z) else u8_of (87 + z).

Definition fmt_hex_u8 (z : Z) : string :=
  "0x" +:+ (if z <? 16 then String (hex_digit z) ""
            else String (hex_digit (z / 16)) (String (hex_digit (z mod 16)) "")).

Definition encode (f : Frame) : result NsmtError bytes :=
  if len (payload f) >? MAX_PAYLOAD_LEN then Err (FrameTooLarge (len (payload f)))
  else Ok ([u8_of MAGIC; u8_of PROTOCOL_VERSION; flags f; u8_of (FrameType.as_u8 (frame_type f))]
           ++ le_bytes 4 (stream_id f)
           ++ le_bytes 4 (wrap32 (len (payload f)))
           ++ payload f).

(** [FrameCodec::decode]: [Ok None] asks for more bytes. *)
Definition decode (buf : bytes) : result NsmtError (option Frame) :=
  match buf with
  | b0 :: b1 :: b2 :: b3 :: b4 :: b5 :: b6 :: b7 :: b8 :: b9 :: b10 :: b11 :: rest =>
      if negb (u8_val b0 =? MAGIC) then Err (InvalidMagic (u8_val b0))
      else if negb (u8_val b1 =? PROTOCOL_VERSION) then Err (UnsupportedVersion (u8_val b1))
      else match FrameType.from_raw (u8_val b3) with
           | None => Err (Protocol ("unknown frame type " +:+ fmt_hex_u8 (u8_val b3)))
           | Some ty =>
               let sid := le_val [b4; b5; b6; b7] in
               let payload_len := le_val [b8; b9; b10; b11] in
               if payload_len >? MAX_PAYLOAD_LEN then Err (FrameTooLarge payload_len)
               else if len rest <? payload_len then Ok None
               else Ok (Some (mkFrame ty b2 sid (take (Z.to_nat payload_len) rest)))
           end
  | _ => Ok None
  end.

(** ** [wire.rs]

    The transport: what is left of the byte stream, as the sequence of
    fragments the next [read] calls see. A [Fault] is an I/O error. *)
Inductive segment : Set :=
| Chunk (b : bytes)
| Fault (msg : string).

Abbreviation reader := (list segment).

(** One [reader.read(&mut buf)] with room for [k] bytes: at most one fragment;
    nothing at the end of the stream. *)
Definition read (k : nat) (rd : reader) : result NsmtError bytes * reader :=
  match rd with
  | [] => (Ok [], [])
  | Fault e :: rd' => (Err (IoError e), rd')
  | Chunk c :: rd' =>
      (Ok (take k c), match drop k c with [] => rd' | c' => Chunk c' :: rd' end)
  end.

(** Outcome of the loop that fills a buffer. *)
Inductive filled : Set :=
| Full (b : bytes)
| Eof (got : bytes)
| Failed (e : NsmtError).

Definition fill_app (c : bytes) (r : filled * reader) : filled * reader :=
  match r with
  | (Full b, rd) => (Full (c ++ b), rd)
  | (Eof b, rd) => (Eof (c ++ b), rd)
  | (Failed e, rd) => (Failed e, rd)
  end.

(** [while got < need { n = read(..)?; if n == 0 {eof}; got += n }]: every read
    either completes the buffer or uses up a fragment, so the loop is structural
    in the fragments. *)
Fixpoint read_loop (need : nat) (rd : reader) {struct rd} : filled * reader :=
  if decide (need = 0%nat) then (Full [], rd) else
  match rd with
  | [] => (Eof [], [])
  | Fault e :: rd' => (Failed (IoError e), rd')
  | Chunk c :: rd' =>
      if decide (c = []) then (Eof [], rd')
      else if decide (length c < need)%nat then fill_app c (read_loop (need - length c) rd')
      else (Full (take need c), snd (read need rd))
  end.

(** The bytes at index [8..12] of the 12-byte header, and its first two. *)
Definition header_len (h : bytes) : Z := le_val (take 4 (drop 8 h)).
Definition byte_at (i : nat) (h : bytes) : Z := u8_val (default (u8_of 0) (h !! i)).

Definition recv (rd : reader) : result NsmtError (option Frame) * reader :=
  match read_loop 12 rd with
  | (Failed e, rd1) => (Err e, rd1)
  | (Eof [], rd1) => (Ok None, rd1)
  | (Eof _, rd1) => (Err (Protocol "eof in frame header"), rd1)
  | (Full header, rd1) =>
      if negb (byte_at 0 header =? MAGIC) then (Err (InvalidMagic (byte_at 0 header)), rd1)
      else if negb (byte_at 1 header =? PROTOCOL_VERSION)
      then (Err (UnsupportedVersion (byte_at 1 header)), rd1)
      else if header_len header >? MAX_PAYLOAD_LEN
      then (Err (FrameTooLarge (header_len header)), rd1)
      else match read_loop (Z.to_nat (header_len header)) rd1 with
           | (Failed e, rd2) => (Err e, rd2)
           | (Eof _, rd2) => (Err (Protocol "eof in frame payload"), rd2)
           | (Full p, rd2) =>
               (rmap (fmap (fun f => mkFrame (frame_type f) (flags f) (stream_id f) p))
                     (decode (header ++ p)), rd2)
           end
  end.

(** [FrameStream::send] on the writer's side: the bytes it appends. *)
Definition send (f : Frame) (out : bytes) : result NsmtError bytes :=
  wire <-? encode f; Ok (out ++ wire).

Fixpoint send_all (fs : list Frame) (out : bytes) : result NsmtError bytes :=
  match fs with
  | [] => Ok out
  | f :: fs' => out' <-? send f out; send_all fs' out'
  end.

(** The receive loop of every peer: frames until the end of the stream. *)
Fixpoint recv_all (fuel : nat) (rd : reader) : result NsmtError (list Frame) :=
  match fuel with
  | O => Ok []
  | S n => match recv rd with
           | (Err e, _) => Err e
           | (Ok None, _) => Ok []
           | (Ok (Some f), rd') => fs <-? recv_all n rd'; Ok (f :: fs)
           end
  end.

(** ** Lemmas *)

(** A frame the encoder of a peer can hold: [stream_id] is a [u32], the payload
    within the limit. *)
Record frame_wf (f : Frame) : Prop := {
  wf_stream : 0 <= stream_id f < 2 ^ 32;
  wf_payload : len (payload f) <= MAX_PAYLOAD_LEN;
}.

Definition frame_wfb (f : Frame) : bool :=
  (0 <=? stream_id f) && (stream_id f <? 2 ^ 32) && (len (payload f) <=? MAX_PAYLOAD_LEN).

Lemma frame_wfb_ok f : frame_wfb f = true -> frame_wf f.
Proof. unfold frame_wfb. rewrite !andb_true_iff. intros [[? ?] ?]. split; lia. Qed.

(** The bytes of a stream, fragment boundaries forgotten. *)
Fixpoint stream_bytes (rd : reader) : bytes :=
  match rd with
  | [] => []
  | Chunk c :: rd' => c ++ stream_bytes rd'
  | Fault _ :: rd' => stream_bytes rd'
  end.

(** Fragments are non-empty (a [read] of zero bytes is the end of the stream)
    and no fault is due. *)
Definition healthy_seg (s : segment) : Prop :=
  match s with
  | Chunk c => c <> []
  | Fault _ => False
  end.
Definition healthy (rd : reader) : Prop := Forall healthy_seg rd.

Lemma as_u8_range ty : 0 <= FrameType.as_u8 ty < 256.
Proof. by destruct ty; vm_compute. Qed.

Lemma from_raw_as_u8 ty : FrameType.from_raw (FrameType.as_u8 ty) = Some ty.
Proof. by destruct ty. Qed.

Lemma from_raw_inv_byte (b : byte) ty :
  FrameType.from_raw (u8_val b) = Some ty -> u8_val b = FrameType.as_u8 ty.
Proof.
  destruct b as [[] [] [] [] [] [] [] []]; vm_compute; intros E; try discriminate E;
    by injection E as <-.
Qed.

Lemma u8_val_as_u8 ty : u8_val (u8_of (FrameType.as_u8 ty)) = FrameType.as_u8 ty.
Proof. rewrite u8_val_of. apply Z.mod_small, as_u8_range. Qed.

Lemma MAX_lt_u32 : MAX_PAYLOAD_LEN < 2 ^ 32.
Proof. done. Qed.

Lemma le_val4_bytes z : 0 <= z < 2 ^ 32 -> le_val (le_bytes 4 z) = z.
Proof. intros H. rewrite le_val_bytes. by apply Z.mod_small. Qed.

Lemma le_bytes4 z : exists a b c d, le_bytes 4 z = [a; b; c; d].
Proof. by repeat eexists. Qed.

(** The 12-byte header of a frame. *)
Definition header_of (f : Frame) : bytes :=
  [u8_of MAGIC; u8_of PROTOCOL_VERSION; flags f; u8_of (FrameType.as_u8 (frame_type f))]
  ++ le_bytes 4 (stream_id f) ++ le_bytes 4 (wrap32 (len (payload f))).

Lemma header_of_length f : length (header_of f) = 12%nat.
Proof. unfold header_of. by rewrite !length_app, !le_bytes_length. Qed.

Lemma encode_wf f : frame_wf f -> encode f = Ok (header_of f ++ payload f).
Proof.
  intros [_ Hp]. unfold encode. destruct (_ >? _) eqn:E; [lia|].
  unfold header_of. by rewrite <- !app_assoc.
Qed.

Lemma wf_wrap f : frame_wf f -> wrap32 (len (payload f)) = len (payload f).
Proof.
  intros [_ Hp]. unfold wrap32. apply Z.mod_small. pose proof MAX_lt_u32.
  unfold len in *. lia.
Qed.

(** Decoding what starts with a well-formed frame's header: the whole payload, or
    a request for more. *)
Lemma decode_header f rest :
  frame_wf f ->
  decode (header_of f ++ rest) =
    if len rest <? len (payload f) then Ok None
    else Ok (Some (mkFrame (frame_type f) (flags f) (stream_id f)
                     (take (length (payload f)) rest))).
Proof.
  intros Hwf. pose proof (wf_wrap f Hwf) as Hw. unfold header_of. rewrite Hw.
  destruct (le_bytes4 (stream_id f)) as (a & b & c & d & E1).
  destruct (le_bytes4 (len (payload f))) as (a' & b' & c' & d' & E2).
  rewrite E1, E2. cbn [app decode].
  rewrite u8_val_as_u8, from_raw_as_u8, <- E1, <- E2.
  change (negb (u8_val (u8_of MAGIC) =? MAGIC)) with false.
  change (negb (u8_val (u8_of PROTOCOL_VERSION) =? PROTOCOL_VERSION)) with false.
  cbv iota. pose proof (wf_payload f Hwf). pose proof MAX_lt_u32.
  rewrite (le_val4_bytes (stream_id f)) by apply Hwf.
  rewrite le_val4_bytes by (unfold len in *; lia).
  destruct (len (payload f) >? MAX_PAYLOAD_LEN) eqn:E; [lia|].
  destruct (len rest <? len (payload f)); [done|].
  unfold len. by rewrite Nat2Z.id.
Qed.

Lemma decode_encode_app f rest :
  frame_wf f -> decode (header_of f ++ payload f ++ rest) = Ok (Some f).
Proof.
  intros Hwf. rewrite decode_header by done.
  destruct (len (payload f ++ rest) <? len (payload f)) eqn:E; [exfalso; solve_len|].
  rewrite take_app_length. by destruct f.
Qed.

Lemma decode_encode f wire rest :
  frame_wf f -> encode f = Ok wire -> decode (wire ++ rest) = Ok (Some f).
Proof.
  intros Hwf E. rewrite encode_wf in E by done.
  assert (wire = header_of f ++ payload f) as -> by congruence.
  rewrite <- app_assoc. by apply decode_encode_app.
Qed.

(** What [decode] accepts is the encoding of the frame it returns, followed by
    the bytes it did not use; and the frame is well formed. *)
Lemma decode_inv buf f :
  decode buf = Ok (Some f) ->
  frame_wf f /\ exists rest, buf = header_of f ++ payload f ++ rest.
Proof.
  do 12 (destruct buf as [|? buf]; [done|]). cbn [decode].
  repeat case_match; try done. intros Ef; apply Ok_Some_inj in Ef as <-.
  repeat match goal with
  | H : negb _ = false |- _ => apply negb_false_iff, Z.eqb_eq in H
  | H : FrameType.from_raw _ = Some _ |- _ => apply from_raw_inv_byte in H
  end.
  match goal with |- context [mkFrame ?t _ (le_val ?s) (take (Z.to_nat (le_val ?l)) ?r)] =>
    pose proof (le_val_range s) as Rs; pose proof (le_val_range l) as Rl;
    change (8 * len s) with 32 in Rs; change (8 * len l) with 32 in Rl;
    pose proof (le_bytes_val s) as Es; pose proof (le_bytes_val l) as El;
    assert (len (take (Z.to_nat (le_val l)) r) = le_val l) as Elen by (unfold len in *; rewrite length_take; lia)
  end.
  split.
  - by split; cbn [stream_id payload]; lia.
  - exists (drop (Z.to_nat (le_val [a7; a8; a9; a10])) buf).
    unfold header_of. cbn [flags frame_type stream_id payload].
    rewrite Elen. unfold wrap32. rewrite (Z.mod_small (le_val _)) by lia.
    cbn [length] in Es, El. rewrite Es, El, take_drop.
    assert (u8_of MAGIC = a) as -> by (apply (inj u8_val); done).
    assert (u8_of PROTOCOL_VERSION = a0) as -> by (apply (inj u8_val); done).
    assert (u8_of (FrameType.as_u8 t) = a2) as -> by (apply (inj u8_val); by rewrite u8_val_as_u8).
    done.
Qed.

(** *** The reader *)

Lemma read_loop_full need rd :
  healthy rd -> (need <= length (stream_bytes rd))%nat ->
  exists rd', read_loop need rd = (Full (take need (stream_bytes rd)), rd') /\
    healthy rd' /\ stream_bytes rd' = drop need (stream_bytes rd).
Proof.
  revert need. induction rd as [|s rd IH]; intros need Hh Hn.
  { exists []. cbn in *. destruct need; [done|lia]. }
  cbn [read_loop]. case_decide as H0.
  { subst need. exists (s :: rd). by rewrite drop_0. }
  apply Forall_cons in Hh as [Hs Hh]. destruct s as [c|]; [|done]. cbn in Hs, Hn.
  rewrite length_app in Hn. case_decide; [done|]. case_decide as Hc.
  - destruct (IH (need - length c)%nat Hh ltac:(lia)) as (rd' & E & Hh' & Eb).
    exists rd'. rewrite E. cbn [fill_app stream_bytes]. split_and!; [|done|].
    + rewrite take_app_ge by lia. done.
    + rewrite drop_app_ge by lia. done.
  - cbn [snd read stream_bytes]. destruct (drop need c) as [|x xs] eqn:Ed.
    + exists rd. apply (f_equal length) in Ed as El. rewrite length_drop in El. cbn in El.
      split_and!; [|done|].
      * rewrite take_app_le by lia. done.
      * rewrite drop_app_le by lia. by rewrite Ed.
    + exists (Chunk (x :: xs) :: rd). split_and!; [| by constructor |].
      * rewrite take_app_le by lia. done.
      * rewrite drop_app_le by lia. by rewrite Ed.
Qed.

(** The stream ends before the buffer is full. *)
Lemma read_loop_short need rd :
  healthy rd -> (length (stream_bytes rd) < need)%nat ->
  read_loop need rd = (Eof (stream_bytes rd), []).
Proof.
  revert need. induction rd as [|s rd IH]; intros need Hh Hn; cbn [read_loop].
  { by destruct need; [cbn in Hn; lia|]. }
  apply Forall_cons in Hh as [Hs Hh]. destruct s as [c|]; [|done]. cbn in Hs, Hn.
  rewrite length_app in Hn. case_decide; [lia|]. case_decide; [done|]. case_decide; [|lia].
  rewrite IH by (done || lia). done.
Qed.

Lemma header_bytes f rest :
  frame_wf f ->
  byte_at 0 (header_of f) = MAGIC /\ byte_at 1 (header_of f) = PROTOCOL_VERSION /\
  header_len (header_of f) = len (payload f) /\
  take 12 (header_of f ++ rest) = header_of f /\ drop 12 (header_of f ++ rest) = rest.
Proof.
  intros Hwf. split_and!.
  - done.
  - done.
  - unfold header_len, header_of. rewrite wf_wrap by done.
    destruct (le_bytes4 (stream_id f)) as (a & b & c & d & ->). cbn [app drop].
    rewrite drop_0, (take_ge (le_bytes 4 _)) by (rewrite le_bytes_length; lia). apply le_val4_bytes.
    pose proof (wf_payload f Hwf). pose proof MAX_lt_u32. unfold len in *. lia.
  - rewrite <- (header_of_length f). apply take_app_length.
  - rewrite <- (header_of_length f). apply drop_app_length.
Qed.

Lemma recv_frame f rest rd :
  frame_wf f -> healthy rd -> stream_bytes rd = header_of f ++ payload f ++ rest ->
  exists rd', recv rd = (Ok (Some f), rd') /\ healthy rd' /\ stream_bytes rd' = rest.
Proof.
  intros Hwf Hh Hb. destruct (header_bytes f (payload f ++ rest) Hwf) as (H0 & H1 & H2 & Ht & Hd).
  assert (length (stream_bytes rd) = 12 + length (payload f) + length rest)%nat as Hl.
  { rewrite Hb, !length_app, header_of_length. lia. }
  destruct (read_loop_full 12 rd Hh ltac:(lia)) as (rd1 & E1 & Hh1 & Hb1).
  rewrite Hb in E1, Hb1. rewrite Ht in E1. rewrite Hd in Hb1.
  destruct (read_loop_full (length (payload f)) rd1 Hh1) as (rd2 & E2 & Hh2 & Hb2).
  { rewrite Hb1, length_app. lia. }
  rewrite Hb1, take_app_length in E2. rewrite Hb1, drop_app_length in Hb2.
  exists rd2. split; [|done]. unfold recv. rewrite E1, H0, H1, H2.
  change (negb (MAGIC =? MAGIC)) with false.
  change (negb (PROTOCOL_VERSION =? PROTOCOL_VERSION)) with false. cbv iota.
  pose proof (wf_payload f Hwf). destruct (_ >? _) eqn:E; [lia|].
  unfold len. rewrite Nat2Z.id, E2.
  pose proof (decode_encode_app f [] Hwf) as Dec. rewrite app_nil_r in Dec.
  rewrite Dec. by destruct f.
Qed.

Lemma recv_eof rd : healthy rd -> stream_bytes rd = [] -> recv rd = (Ok None, []).
Proof.
  intros Hh Hb. unfold recv. rewrite read_loop_short by (rewrite ?Hb; cbn; done || lia).
  by rewrite Hb.
Qed.

Lemma send_all_wf fs out :
  Forall frame_wf fs ->
  send_all fs out = Ok (out ++ concat (map (fun f => header_of f ++ payload f) fs)).
Proof.
  intros H; revert out; induction H as [|f fs Hf _ IH]; intros out; cbn [send_all map concat].
  { by rewrite app_nil_r. }
  unfold send. rewrite encode_wf by done. cbn [rbind]. rewrite IH. by rewrite <- !app_assoc.
Qed.

Lemma recv_all_frames fs rd fuel :
  Forall frame_wf fs -> healthy rd ->
  stream_bytes rd = concat (map (fun f => header_of f ++ payload f) fs) ->
  (length fs < fuel)%nat -> recv_all fuel rd = Ok fs.
Proof.
  intros Hf; revert rd fuel; induction Hf as [|f fs Hf _ IH]; intros rd [|n] Hh Hb Hn; cbn in Hn; try lia.
  - cbn [recv_all]. by rewrite recv_eof.
  - cbn [map concat] in Hb. rewrite <- app_assoc in Hb.
    destruct (recv_frame f _ rd Hf Hh Hb) as (rd' & E & Hh' & Hb').
    cbn [recv_all]. rewrite E, (IH rd') by (done || lia). done.
Qed.

(** A strict prefix of a frame's encoding decodes to "need more". *)
Lemma decode_prefix f n :
  frame_wf f -> (n < length (header_of f ++ payload f))%nat ->
  decode (take n (header_of f ++ payload f)) = Ok None.
Proof.
  intros Hwf Hn. rewrite length_app, header_of_length in Hn.
  destruct (decide (n < 12)%nat) as [Hlt|Hge].
  - assert (length (take n (header_of f ++ payload f)) < 12)%nat as Hl
      by (rewrite length_take; lia).
    revert Hl. generalize (take n (header_of f ++ payload f)). intros l Hl.
    do 12 (destruct l as [|? l]; [done|]). cbn in Hl. lia.
  - rewrite take_app_ge by (rewrite header_of_length; lia).
    rewrite decode_header by done.
    destruct (_ <? _) eqn:E; [done|]. exfalso. rewrite header_of_length in E.
    unfold len in E. rewrite length_take in E. apply Z.ltb_ge in E. lia.
Qed.

(** ** Properties *)

(** C20: Whatever way the transport cuts the byte stream into fragments, the
    receive loop returns exactly the frames that were sent, in order, and then
    sees a clean end of stream. *)
Theorem stream_roundtrip fs wire rd fuel :
  Forall frame_wf fs -> send_all fs [] = Ok wire ->
  healthy rd -> stream_bytes rd = wire -> (length fs < fuel)%nat ->
  recv_all fuel rd = Ok fs.
Proof.
  intros Hf Hs Hh Hb Hn. rewrite send_all_wf in Hs by done. apply Ok_inj in Hs.
  apply recv_all_frames; [done | done | by rewrite Hb, <- Hs | done].
Qed.

Definition demo_frames : list Frame :=
  [frame_new FrameType.Hello 0 (as_bytes "hi"); mkFrame FrameType.FileChunk (u8_of 1) 7 []].
Definition demo_wire : bytes :=
  match send_all demo_frames [] with Ok w => w | Err _ => [] end.
Definition demo_reader : reader :=
  [Chunk (take 5 demo_wire); Chunk (take 10 (drop 5 demo_wire)); Chunk (drop 15 demo_wire)].

Lemma stream_roundtrip_witness : recv_all 3 demo_reader = Ok demo_frames.
Proof.
  apply (stream_roundtrip demo_frames demo_wire demo_reader 3).
  - repeat constructor; vm_compute; congruence.
  - vm_compute. reflexivity.
  - repeat constructor; discriminate.
  - vm_compute. reflexivity.
  - vm_compute. lia.
Defined.

(** C34: The decoder accepts exactly the encodings: a buffer decodes to a frame
    if and only if the frame is well formed (a 32-bit stream id, a payload
    within 16 MiB) and the buffer starts with that frame's encoding.  In
    particular no two frames share an encoding and nothing but an encoding is
    accepted. *)
Theorem decode_exactly_encodings buf f :
  decode buf = Ok (Some f) <->
  frame_wf f /\ exists wire rest, encode f = Ok wire /\ buf = wire ++ rest.
Proof.
  split.
  - intros H. destruct (decode_inv buf f H) as [Hwf [rest ->]]. split; [done|].
    exists (header_of f ++ payload f), rest. rewrite encode_wf by done.
    by rewrite <- app_assoc.
  - intros [Hwf (wire & rest & He & ->)]. by apply decode_encode.
Qed.

(** A frame cut short anywhere is never mistaken for another frame or for an
    error by the decoder (it asks for more bytes), while on a stream that ends
    there the receiver reports an end of file inside the header or the payload,
    and a clean end only when not one byte arrived. *)
Theorem truncated_frame f n rd :
  frame_wf f -> (n < length (header_of f ++ payload f))%nat ->
  healthy rd -> stream_bytes rd = take n (header_of f ++ payload f) ->
  decode (stream_bytes rd) = Ok None /\
  fst (recv rd) = (if decide (n = 0%nat) then Ok None
                   else if decide (n < 12)%nat then Err (Protocol "eof in frame header")
                   else Err (Protocol "eof in frame payload")).
Proof.
  intros Hwf Hn Hh Hb. split; [rewrite Hb; by apply decode_prefix|].
  destruct (header_bytes f (payload f) Hwf) as (H0 & H1 & H2 & Ht & Hd).
  assert (length (stream_bytes rd) = n) as Hl by (rewrite Hb, length_take; lia).
  rewrite length_app, header_of_length in Hn.
  destruct (decide (n < 12)%nat) as [Hlt|Hge].
  - unfold recv. rewrite read_loop_short by (done || lia).
    destruct (stream_bytes rd) eqn:E; cbn in Hl; case_decide; done || lia.
  - destruct (read_loop_full 12 rd Hh ltac:(lia)) as (rd1 & E1 & Hh1 & Hb1).
    rewrite Hb in E1, Hb1. rewrite take_take, Nat.min_l, Ht in E1 by lia.
    rewrite skipn_firstn_comm, Hd in Hb1.
    unfold recv. rewrite E1, H0, H1, H2.
    change (negb (MAGIC =? MAGIC)) with false.
    change (negb (PROTOCOL_VERSION =? PROTOCOL_VERSION)) with false. cbv iota.
    pose proof (wf_payload f Hwf). destruct (_ >? _) eqn:E; [lia|].
    unfold len. rewrite Nat2Z.id, read_loop_short; [by case_decide; [lia|] | done |].
    rewrite Hb1, length_take. lia.
Qed.

Lemma truncated_frame_witness :
  fst (recv [Chunk (take 13 demo_wire)]) = Err (Protocol "eof in frame payload").
Proof.
  refine (proj2 (truncated_frame (frame_new FrameType.Hello 0 (as_bytes "hi")) 13
    [Chunk (take 13 demo_wire)] _ _ _ _)).
  - apply frame_wfb_ok. vm_compute. reflexivity.
  - vm_compute. lia.
  - repeat constructor; discriminate.
  - vm_compute. reflexivity.
Defined.

(** The 16 MiB limit holds on both sides: the encoder refuses exactly the
    frames above it, and the receiver that reads a header announcing more stops
    with the same error after the twelve header bytes, before reading (or
    allocating) any payload. *)
Theorem payload_limit f rd h tail :
  (encode f = Err (FrameTooLarge (len (payload f))) <-> len (payload f) > MAX_PAYLOAD_LEN) /\
  (healthy rd -> stream_bytes rd = h ++ tail -> length h = 12%nat ->
   byte_at 0 h = MAGIC -> byte_at 1 h = PROTOCOL_VERSION -> header_len h > MAX_PAYLOAD_LEN ->
   exists rd', recv rd = (Err (FrameTooLarge (header_len h)), rd') /\ stream_bytes rd' = tail).
Proof.
  split.
  - unfold encode. destruct (_ >? _) eqn:E; split; done || lia.
  - intros Hh Hb Hl H0 H1 H2.
    destruct (read_loop_full 12 rd Hh) as (rd1 & E1 & Hh1 & Hb1).
    { rewrite Hb, length_app. lia. }
    rewrite Hb, <- Hl in E1. rewrite take_app_length in E1.
    rewrite Hb, <- Hl, drop_app_length in Hb1. rewrite Hl in E1.
    exists rd1. split; [|done]. unfold recv. rewrite E1, H0, H1.
    change (negb (MAGIC =? MAGIC)) with false.
    change (negb (PROTOCOL_VERSION =? PROTOCOL_VERSION)) with false. cbv iota.
    by destruct (_ >? _) eqn:E; [|lia].
Qed.

Definition oversized_header : bytes :=
  [u8_of MAGIC; u8_of 1; u8_of 0; u8_of 0x35] ++ le_bytes 4 0 ++ le_bytes 4 (MAX_PAYLOAD_LEN + 1).

Lemma payload_limit_witness :
  exists rd', recv [Chunk oversized_header; Chunk (as_bytes "zz")]
    = (Err (FrameTooLarge (MAX_PAYLOAD_LEN + 1)), rd') /\ stream_bytes rd' = as_bytes "zz".
Proof.
  refine (proj2 (payload_limit (frame_new FrameType.Error 0 [])
    [Chunk oversized_header; Chunk (as_bytes "zz")] oversized_header (as_bytes "zz")) _ _ _ _ _ _).
  - repeat constructor; discriminate.
  - reflexivity.
  - reflexivity.
  - reflexivity.
  - reflexivity.
  - vm_compute. reflexivity.
Defined.

Lemma frame_type_codes ty raw : FrameType.from_raw raw = Some ty <-> raw = FrameType.as_u8 ty.
Proof.
  split; [|intros ->; apply from_raw_as_u8].
  unfold FrameType.from_raw. intros H. repeat case_match; simplify_eq; done.
Qed.

Lemma error_code_roundtrip c : ErrorCode.from_raw (ErrorCode.as_u16 c) = c.
Proof. by destruct c. Qed.
