(* ===== verification/Messages.v ===== *)
(** * Protocol messages

    [nsmt-core/src/messages.rs] and the JSON helpers of [frame.rs]: one record per
    message, a Module each because the structs share field names.  The JSON codec
    ([serde_json]) is not part of the repository: it is the class [Serde], whose
    laws say that what was written is UTF-8 and can be read back. *)

From S2P Require Import Prelude Wire.

Module Hello.
Record t : Set := mk { user_domain : string; protocol_version : Z; client : string }.
End Hello.

Module HelloAck.
Record t : Set := mk { nonce : string; tenant_exists : bool }.
End HelloAck.

Module Auth.
Record t : Set := mk { user_domain : string; nonce_signature : string }.
End Auth.

Module Ticket.
Record t : Set := mk { ticket : string; expires_at : Z }.
End Ticket.

Module Register.
Record t : Set := mk { machine_id : string; agent_tag : string; peer_addr : string;
  machine_pubkey : string; machine_signature : string }.
End Register.

Module MachineInfo.
Record t : Set := mk { machine_id : string; agents : list string; addr : string;
  peer_addr : string; machine_pubkey : string; last_seen : Z }.
End MachineInfo.

Module RegisterAck.
Record t : Set := mk { machines : list MachineInfo.t }.
End RegisterAck.

Module Heartbeat.
Record t : Set := mk { ts : Z; load : option Z }.
End Heartbeat.

Module OnlineList.
Record t : Set := mk { machines : list MachineInfo.t }.
End OnlineList.

Module OnlineDeltaKind.
Inductive t : Set := Join | Leave | AgentChange.
End OnlineDeltaKind.

Module OnlineDelta.
Record t : Set := mk { kind : OnlineDeltaKind.t; machine : MachineInfo.t }.
End OnlineDelta.

Module MemoryRecall.
Record t : Set := mk { request_id : string; query : string; scope : string; limit : Z;
  timeout_ms : Z; fallback_on_timeout : bool }.
End MemoryRecall.

(** [score] is the bit pattern of the [f32]; [0] is [0.0]. *)
Module MemoryHit.
Record t : Set := mk { content : string; fqn : string; score : Z; scope : string }.
End MemoryHit.

Module MemoryRecallResult.
Record t : Set := mk { request_id : string; source : string; memories : list MemoryHit.t;
  latency_ms : Z }.
End MemoryRecallResult.

Module MemoryCapture.
Record t : Set := mk { request_id : string; user_content : string; assistant_content : string;
  scope : string; fqn : string; observed_at : Z }.
End MemoryCapture.

Module MemoryCaptureResult.
Record t : Set := mk { request_id : string; committed : bool; queued : bool }.
End MemoryCaptureResult.

Module FileTreeEntry.
Record t : Set := mk { path : string; blob_id : string; mode : Z; size : Z; mtime_ns : Z }.
#[global] Instance t_eq_dec : EqDecision t.
Proof. solve_decision. Defined.
End FileTreeEntry.

Module FileTree.
Record t : Set := mk { tree_hash : string; entries : list FileTreeEntry.t }.
#[global] Instance t_eq_dec : EqDecision t.
Proof. solve_decision. Defined.
End FileTree.

Module FileDiff.
Record t : Set := mk { old_tree : string; new_tree : option string }.
End FileDiff.

Module FileDiffResult.
Record t : Set := mk { changed : list string; removed : list string; tree : option FileTree.t }.
End FileDiffResult.

Module FileGet.
Record t : Set := mk { blob_id : string; chunk_index : option Z }.
End FileGet.

Module FilePutAck.
Record t : Set := mk { blob_id : string; have : list Z; completed : bool }.
End FilePutAck.

Module FileChunkMeta.
Record t : Set := mk { blob_id : string; chunk_index : Z; len : Z }.
End FileChunkMeta.

Module FilePut.
Record t : Set := mk { blob_id : string; total_chunks : Z; size : Z }.
End FilePut.

Module LockAcquire.
Record t : Set := mk { path : string; requester : string; ttl_ms : Z }.
End LockAcquire.

Module LockRenew.
Record t : Set := mk { path : string; requester : string }.
End LockRenew.

Module LockRelease.
Record t : Set := mk { path : string; requester : string }.
End LockRelease.

Module LockGranted.
Record t : Set := mk { path : string; expires_at : Z }.
End LockGranted.

Module LockDenied.
Record t : Set := mk { path : string; holder : string }.
End LockDenied.

Module LockNotify.
Record t : Set := mk { path : string; event : string; holder : option string }.
End LockNotify.

Module PeerHello.
Record t : Set := mk { user_domain : string; machine_id : string; agent_tag : string;
  machine_pubkey : string }.
End PeerHello.

Module PeerAuth.
Record t : Set := mk { nonce : string }.
End PeerAuth.

Module PeerAuthOk.
Record t : Set := mk { machine_id : string; agent_tag : string; machine_pubkey : string;
  signature : string }.
End PeerAuthOk.

Module PeerHint.
Record t : Set := mk { blob_id : string; requester_addr : string }.
End PeerHint.

Module ErrorMsg.
Record t : Set := mk { code : string; message : string; request_id : option string }.
End ErrorMsg.

(** ** The JSON codec as an interface *)

Class Serde (T : Type) : Type := {
  to_vec : T -> bytes;
  from_slice : bytes -> option T;
}.

Class SerdeLaws (T : Type) `{Serde T} : Prop := {
  from_to_vec : forall v : T, from_slice (to_vec v) = Some v;
  to_vec_utf8 : forall v : T, utf8_valid (to_vec v) = true;
}.

(** [Frame::payload_json] and [Frame::from_json] (serialising these structs does
    not fail). *)
Definition payload_json {T} `{Serde T} (f : Frame) : result NsmtError T :=
  ok_or (from_slice (payload f)) (JsonError "payload").

Definition from_json {T} `{Serde T} (ty : FrameType.t) (sid : Z) (v : T) : Frame :=
  frame_new ty sid (to_vec v).

Lemma payload_from_json {T} `{SerdeLaws T} ty sid (v : T) :
  payload_json (from_json ty sid v) = Ok v.
Proof. unfold payload_json, from_json, frame_new. cbn [payload]. by rewrite from_to_vec. Qed.

Create Rewrite HintDb nsmt_json.
#[export] Hint Rewrite @payload_from_json : nsmt_json.

(** ** A reference codec

    Used where a theorem is applied to a concrete protocol run: any countable
    message type, written as the binary digits of its code. *)
Fixpoint pos_bytes (p : positive) : bytes :=
  match p with
  | xH => []
  | xO q => u8_of 48 :: pos_bytes q
  | xI q => u8_of 49 :: pos_bytes q
  end.

Fixpoint bytes_pos (b : bytes) : positive :=
  match b with
  | [] => 1%positive
  | c :: t => if u8_val c =? 49 then xI (bytes_pos t) else xO (bytes_pos t)
  end.

Lemma bytes_pos_bytes p : bytes_pos (pos_bytes p) = p.
Proof.
  induction p as [p IH|p IH|]; [| |done]; cbn [pos_bytes bytes_pos]; rewrite IH;
    by rewrite u8_val_of.
Qed.

Definition countable_serde (T : Type) `{Countable T} : Serde T := {|
  to_vec v := pos_bytes (countable.encode v);
  from_slice b := countable.decode (bytes_pos b);
|}.

Lemma pos_bytes_utf8 p : utf8_valid (pos_bytes p) = true.
Proof.
  apply utf8_ascii. induction p as [p IH|p IH|]; [| |done]; cbn [pos_bytes forallb]; by rewrite IH.
Qed.

Lemma countable_serde_laws (T : Type) `{Countable T} : @SerdeLaws T (countable_serde T).
Proof.
  constructor; intros v; cbn.
  - by rewrite bytes_pos_bytes, countable.decode_encode.
  - apply pos_bytes_utf8.
Qed.

#[export] Instance FileTreeEntry_countable : Countable FileTreeEntry.t :=
  inj_countable'
    (fun e => (FileTreeEntry.path e, FileTreeEntry.blob_id e, FileTreeEntry.mode e,
               FileTreeEntry.size e, FileTreeEntry.mtime_ns e))
    (fun '(p, b, m, s, t) => FileTreeEntry.mk p b m s t)
    (fun e => match e with FileTreeEntry.mk _ _ _ _ _ => eq_refl end).

#[export] Instance FileTree_countable : Countable FileTree.t :=
  inj_countable' (fun t => (FileTree.tree_hash t, FileTree.entries t))
    (fun '(h, l) => FileTree.mk h l)
    (fun t => match t with FileTree.mk _ _ => eq_refl end).
