(* ===== verification/Codec.v ===== *)
(** * The codec of all protocol messages

    [Codec] bundles the JSON codec of every message a session exchanges, with its
    laws; [ref_codec] is a concrete one (any countable message type). *)

From S2P Require Import Prelude Wire Messages.

Class Codec : Type := {
  codec_Hello :: Serde Hello.t;
  codec_HelloAck :: Serde HelloAck.t;
  codec_Auth :: Serde Auth.t;
  codec_Register :: Serde Register.t;
  codec_RegisterAck :: Serde RegisterAck.t;
  codec_Heartbeat :: Serde Heartbeat.t;
  codec_OnlineDelta :: Serde OnlineDelta.t;
  codec_OnlineList :: Serde OnlineList.t;
  codec_MemoryRecall :: Serde MemoryRecall.t;
  codec_MemoryRecallResult :: Serde MemoryRecallResult.t;
  codec_MemoryCapture :: Serde MemoryCapture.t;
  codec_MemoryCaptureResult :: Serde MemoryCaptureResult.t;
  codec_FileTree :: Serde FileTree.t;
  codec_FileDiff :: Serde FileDiff.t;
  codec_FileDiffResult :: Serde FileDiffResult.t;
  codec_FileGet :: Serde FileGet.t;
  codec_FilePut :: Serde FilePut.t;
  codec_FilePutAck :: Serde FilePutAck.t;
  codec_LockAcquire :: Serde LockAcquire.t;
  codec_LockRenew :: Serde LockRenew.t;
  codec_LockRelease :: Serde LockRelease.t;
  codec_LockGranted :: Serde LockGranted.t;
  codec_LockDenied :: Serde LockDenied.t;
  codec_LockNotify :: Serde LockNotify.t;
  codec_PeerHello :: Serde PeerHello.t;
  codec_PeerAuth :: Serde PeerAuth.t;
  codec_PeerAuthOk :: Serde PeerAuthOk.t;
  codec_PeerHint :: Serde PeerHint.t;
  codec_ErrorMsg :: Serde ErrorMsg.t;
}.

Class CodecLaws `{Codec} : Prop := {
  laws_Hello :: SerdeLaws Hello.t;
  laws_HelloAck :: SerdeLaws HelloAck.t;
  laws_Auth :: SerdeLaws Auth.t;
  laws_Register :: SerdeLaws Register.t;
  laws_RegisterAck :: SerdeLaws RegisterAck.t;
  laws_Heartbeat :: SerdeLaws Heartbeat.t;
  laws_OnlineDelta :: SerdeLaws OnlineDelta.t;
  laws_OnlineList :: SerdeLaws OnlineList.t;
  laws_MemoryRecall :: SerdeLaws MemoryRecall.t;
  laws_MemoryRecallResult :: SerdeLaws MemoryRecallResult.t;
  laws_MemoryCapture :: SerdeLaws MemoryCapture.t;
  laws_MemoryCaptureResult :: SerdeLaws MemoryCaptureResult.t;
  laws_FileTree :: SerdeLaws FileTree.t;
  laws_FileDiff :: SerdeLaws FileDiff.t;
  laws_FileDiffResult :: SerdeLaws FileDiffResult.t;
  laws_FileGet :: SerdeLaws FileGet.t;
  laws_FilePut :: SerdeLaws FilePut.t;
  laws_FilePutAck :: SerdeLaws FilePutAck.t;
  laws_LockAcquire :: SerdeLaws LockAcquire.t;
  laws_LockRenew :: SerdeLaws LockRenew.t;
  laws_LockRelease :: SerdeLaws LockRelease.t;
  laws_LockGranted :: SerdeLaws LockGranted.t;
  laws_LockDenied :: SerdeLaws LockDenied.t;
  laws_LockNotify :: SerdeLaws LockNotify.t;
  laws_PeerHello :: SerdeLaws PeerHello.t;
  laws_PeerAuth :: SerdeLaws PeerAuth.t;
  laws_PeerAuthOk :: SerdeLaws PeerAuthOk.t;
  laws_PeerHint :: SerdeLaws PeerHint.t;
  laws_ErrorMsg :: SerdeLaws ErrorMsg.t;
}.

(** ** Countable messages *)

Local Ltac count f g := refine (inj_countable' f g _); intros []; reflexivity.

#[export] Instance Hello_eq : EqDecision Hello.t. Proof. solve_decision. Defined.
#[export] Instance Hello_c : Countable Hello.t.
Proof. count (fun m => (Hello.user_domain m, Hello.protocol_version m, Hello.client m)) (fun '(a, b, c) => Hello.mk a b c). Defined.

#[export] Instance HelloAck_eq : EqDecision HelloAck.t. Proof. solve_decision. Defined.
#[export] Instance HelloAck_c : Countable HelloAck.t.
Proof. count (fun m => (HelloAck.nonce m, HelloAck.tenant_exists m)) (fun '(a, b) => HelloAck.mk a b). Defined.

#[export] Instance Auth_eq : EqDecision Auth.t. Proof. solve_decision. Defined.
#[export] Instance Auth_c : Countable Auth.t.
Proof. count (fun m => (Auth.user_domain m, Auth.nonce_signature m)) (fun '(a, b) => Auth.mk a b). Defined.

#[export] Instance Register_eq : EqDecision Register.t. Proof. solve_decision. Defined.
#[export] Instance Register_c : Countable Register.t.
Proof.
  count (fun m => (Register.machine_id m, Register.agent_tag m, Register.peer_addr m,
    Register.machine_pubkey m, Register.machine_signature m)) (fun '(a, b, c, d, e) => Register.mk a b c d e).
Defined.

#[export] Instance MachineInfo_eq : EqDecision MachineInfo.t. Proof. solve_decision. Defined.
#[export] Instance MachineInfo_c : Countable MachineInfo.t.
Proof.
  count (fun m => (MachineInfo.machine_id m, MachineInfo.agents m, MachineInfo.addr m,
    MachineInfo.peer_addr m, MachineInfo.machine_pubkey m, MachineInfo.last_seen m))
    (fun '(a, b, c, d, e, f) => MachineInfo.mk a b c d e f).
Defined.

#[export] Instance RegisterAck_eq : EqDecision RegisterAck.t. Proof. solve_decision. Defined.
#[export] Instance RegisterAck_c : Countable RegisterAck.t.
Proof. count RegisterAck.machines RegisterAck.mk. Defined.

#[export] Instance Heartbeat_eq : EqDecision Heartbeat.t. Proof. solve_decision. Defined.
#[export] Instance Heartbeat_c : Countable Heartbeat.t.
Proof. count (fun m => (Heartbeat.ts m, Heartbeat.load m)) (fun '(a, b) => Heartbeat.mk a b). Defined.

#[export] Instance OnlineList_eq : EqDecision OnlineList.t. Proof. solve_decision. Defined.
#[export] Instance OnlineList_c : Countable OnlineList.t.
Proof. count OnlineList.machines OnlineList.mk. Defined.

#[export] Instance OnlineDeltaKind_eq : EqDecision OnlineDeltaKind.t. Proof. solve_decision. Defined.
#[export] Instance OnlineDeltaKind_c : Countable OnlineDeltaKind.t.
Proof.
  count (fun k => match k with OnlineDeltaKind.Join => 0 | OnlineDeltaKind.Leave => 1 | _ => 2 end)
    (fun z => if z =? 0 then OnlineDeltaKind.Join else if z =? 1 then OnlineDeltaKind.Leave else OnlineDeltaKind.AgentChange).
Defined.

#[export] Instance OnlineDelta_eq : EqDecision OnlineDelta.t. Proof. solve_decision. Defined.
#[export] Instance OnlineDelta_c : Countable OnlineDelta.t.
Proof. count (fun m => (OnlineDelta.kind m, OnlineDelta.machine m)) (fun '(a, b) => OnlineDelta.mk a b). Defined.

#[export] Instance MemoryRecall_eq : EqDecision MemoryRecall.t. Proof. solve_decision. Defined.
#[export] Instance MemoryRecall_c : Countable MemoryRecall.t.
Proof.
  count (fun m => (MemoryRecall.request_id m, MemoryRecall.query m, MemoryRecall.scope m, MemoryRecall.limit m,
    MemoryRecall.timeout_ms m, MemoryRecall.fallback_on_timeout m)) (fun '(a, b, c, d, e, f) => MemoryRecall.mk a b c d e f).
Defined.

#[export] Instance MemoryHit_eq : EqDecision MemoryHit.t. Proof. solve_decision. Defined.
#[export] Instance MemoryHit_c : Countable MemoryHit.t.
Proof. count (fun m => (MemoryHit.content m, MemoryHit.fqn m, MemoryHit.score m, MemoryHit.scope m)) (fun '(a, b, c, d) => MemoryHit.mk a b c d). Defined.

#[export] Instance MemoryRecallResult_eq : EqDecision MemoryRecallResult.t. Proof. solve_decision. Defined.
#[export] Instance MemoryRecallResult_c : Countable MemoryRecallResult.t.
Proof.
  count (fun m => (MemoryRecallResult.request_id m, MemoryRecallResult.source m, MemoryRecallResult.memories m,
    MemoryRecallResult.latency_ms m)) (fun '(a, b, c, d) => MemoryRecallResult.mk a b c d).
Defined.

#[export] Instance MemoryCapture_eq : EqDecision MemoryCapture.t. Proof. solve_decision. Defined.
#[export] Instance MemoryCapture_c : Countable MemoryCapture.t.
Proof.
  count (fun m => (MemoryCapture.request_id m, MemoryCapture.user_content m, MemoryCapture.assistant_content m,
    MemoryCapture.scope m, MemoryCapture.fqn m, MemoryCapture.observed_at m)) (fun '(a, b, c, d, e, f) => MemoryCapture.mk a b c d e f).
Defined.

#[export] Instance MemoryCaptureResult_eq : EqDecision MemoryCaptureResult.t. Proof. solve_decision. Defined.
#[export] Instance MemoryCaptureResult_c : Countable MemoryCaptureResult.t.
Proof.
  count (fun m => (MemoryCaptureResult.request_id m, MemoryCaptureResult.committed m, MemoryCaptureResult.queued m))
    (fun '(a, b, c) => MemoryCaptureResult.mk a b c).
Defined.

#[export] Instance FileDiff_eq : EqDecision FileDiff.t. Proof. solve_decision. Defined.
#[export] Instance FileDiff_c : Countable FileDiff.t.
Proof. count (fun m => (FileDiff.old_tree m, FileDiff.new_tree m)) (fun '(a, b) => FileDiff.mk a b). Defined.

#[export] Instance FileDiffResult_eq : EqDecision FileDiffResult.t. Proof. solve_decision. Defined.
#[export] Instance FileDiffResult_c : Countable FileDiffResult.t.
Proof. count (fun m => (FileDiffResult.changed m, FileDiffResult.removed m, FileDiffResult.tree m)) (fun '(a, b, c) => FileDiffResult.mk a b c). Defined.

#[export] Instance FileGet_eq : EqDecision FileGet.t. Proof. solve_decision. Defined.
#[export] Instance FileGet_c : Countable FileGet.t.
Proof. count (fun m => (FileGet.blob_id m, FileGet.chunk_index m)) (fun '(a, b) => FileGet.mk a b). Defined.

#[export] Instance FilePut_eq : EqDecision FilePut.t. Proof. solve_decision. Defined.
#[export] Instance FilePut_c : Countable FilePut.t.
Proof. count (fun m => (FilePut.blob_id m, FilePut.total_chunks m, FilePut.size m)) (fun '(a, b, c) => FilePut.mk a b c). Defined.

#[export] Instance FilePutAck_eq : EqDecision FilePutAck.t. Proof. solve_decision. Defined.
#[export] Instance FilePutAck_c : Countable FilePutAck.t.
Proof. count (fun m => (FilePutAck.blob_id m, FilePutAck.have m, FilePutAck.completed m)) (fun '(a, b, c) => FilePutAck.mk a b c). Defined.

#[export] Instance LockAcquire_eq : EqDecision LockAcquire.t. Proof. solve_decision. Defined.
#[export] Instance LockAcquire_c : Countable LockAcquire.t.
Proof. count (fun m => (LockAcquire.path m, LockAcquire.requester m, LockAcquire.ttl_ms m)) (fun '(a, b, c) => LockAcquire.mk a b c). Defined.

#[export] Instance LockRenew_eq : EqDecision LockRenew.t. Proof. solve_decision. Defined.
#[export] Instance LockRenew_c : Countable LockRenew.t.
Proof. count (fun m => (LockRenew.path m, LockRenew.requester m)) (fun '(a, b) => LockRenew.mk a b). Defined.

#[export] Instance LockRelease_eq : EqDecision LockRelease.t. Proof. solve_decision. Defined.
#[export] Instance LockRelease_c : Countable LockRelease.t.
Proof. count (fun m => (LockRelease.path m, LockRelease.requester m)) (fun '(a, b) => LockRelease.mk a b). Defined.

#[export] Instance LockGranted_eq : EqDecision LockGranted.t. Proof. solve_decision. Defined.
#[export] Instance LockGranted_c : Countable LockGranted.t.
Proof. count (fun m => (LockGranted.path m, LockGranted.expires_at m)) (fun '(a, b) => LockGranted.mk a b). Defined.

#[export] Instance LockDenied_eq : EqDecision LockDenied.t. Proof. solve_decision. Defined.
#[export] Instance LockDenied_c : Countable LockDenied.t.
Proof. count (fun m => (LockDenied.path m, LockDenied.holder m)) (fun '(a, b) => LockDenied.mk a b). Defined.

#[export] Instance LockNotify_eq : EqDecision LockNotify.t. Proof. solve_decision. Defined.
#[export] Instance LockNotify_c : Countable LockNotify.t.
Proof. count (fun m => (LockNotify.path m, LockNotify.event m, LockNotify.holder m)) (fun '(a, b, c) => LockNotify.mk a b c). Defined.

#[export] Instance PeerHello_eq : EqDecision PeerHello.t. Proof. solve_decision. Defined.
#[export] Instance PeerHello_c : Countable PeerHello.t.
Proof. count (fun m => (PeerHello.user_domain m, PeerHello.machine_id m, PeerHello.agent_tag m, PeerHello.machine_pubkey m)) (fun '(a, b, c, d) => PeerHello.mk a b c d). Defined.

#[export] Instance PeerAuth_eq : EqDecision PeerAuth.t. Proof. solve_decision. Defined.
#[export] Instance PeerAuth_c : Countable PeerAuth.t.
Proof. count PeerAuth.nonce PeerAuth.mk. Defined.

#[export] Instance PeerAuthOk_eq : EqDecision PeerAuthOk.t. Proof. solve_decision. Defined.
#[export] Instance PeerAuthOk_c : Countable PeerAuthOk.t.
Proof. count (fun m => (PeerAuthOk.machine_id m, PeerAuthOk.agent_tag m, PeerAuthOk.machine_pubkey m, PeerAuthOk.signature m)) (fun '(a, b, c, d) => PeerAuthOk.mk a b c d). Defined.

#[export] Instance PeerHint_eq : EqDecision PeerHint.t. Proof. solve_decision. Defined.
#[export] Instance PeerHint_c : Countable PeerHint.t.
Proof. count (fun m => (PeerHint.blob_id m, PeerHint.requester_addr m)) (fun '(a, b) => PeerHint.mk a b). Defined.

#[export] Instance ErrorMsg_eq : EqDecision ErrorMsg.t. Proof. solve_decision. Defined.
#[export] Instance ErrorMsg_c : Countable ErrorMsg.t.
Proof. count (fun m => (ErrorMsg.code m, ErrorMsg.message m, ErrorMsg.request_id m)) (fun '(a, b, c) => ErrorMsg.mk a b c). Defined.

Definition ref_codec : Codec := ltac:(constructor; exact (countable_serde _)).

Lemma ref_codec_laws : @CodecLaws ref_codec.
Proof. constructor; apply countable_serde_laws. Qed.
