(* ===== verification/Identity.v ===== *)
(** * Identity and namespaces

    [nsmt-core/src/identity.rs]: user domains, agent tags, machine ids and the
    fully qualified name [<user_domain>/<machine_id>/<agent_tag>].  The three
    newtypes are private strings in the source: a value comes only from its
    constructor, so the models keep the string and state validity separately. *)

From S2P Require Import Prelude Wire.

(** ["._-".contains(c)] *)
Definition is_name_punct (c : ascii) : bool := str_mem c "._-".

Definition domain_char (c : ascii) : bool := is_lower c || is_digit c || is_name_punct c.
Definition tag_char (c : ascii) : bool := is_alnum c || is_name_punct c.

(** [!s.is_empty() && s.len() <= 64 && s.chars().all(..)]: a non-ASCII character
    fails the predicate, and so does each of its bytes. *)
Definition valid_user_domain (s : string) : bool :=
  negb (str_len s =? 0) && (str_len s <=? 64) && str_all domain_char s.

Definition valid_agent_tag (s : string) : bool :=
  negb (str_len s =? 0) && (str_len s <=? 63) && str_all tag_char s.

Definition valid_machine_id (s : string) : bool :=
  (str_len s =? 16) && str_all is_hexdigit s.

Definition user_domain_new (s : string) : result NsmtError string :=
  if negb (valid_user_domain s) then Err (InvalidFqn ("invalid user_domain: " +:+ s)) else Ok s.

Definition agent_tag_new (s : string) : result NsmtError string :=
  if negb (valid_agent_tag s) then Err (InvalidFqn ("invalid agent_tag: " +:+ s)) else Ok s.

Record Fqn : Set := mkFqn { user_domain : string; machine_id : string; agent_tag : string }.

#[export] Instance Fqn_eq_dec : EqDecision Fqn.
Proof. solve_decision. Defined.

(** [Display for Fqn] *)
Definition fqn_to_string (f : Fqn) : string :=
  user_domain f +:+ "/" +:+ machine_id f +:+ "/" +:+ agent_tag f.

(** [FromStr for Fqn]: [splitn(3, '/')], then machine id, domain, tag. *)
Definition fqn_from_str (s : string) : result NsmtError Fqn :=
  match split_once "/" s with
  | None => Err (InvalidFqn s)
  | Some (ud, rest) =>
      match split_once "/" rest with
      | None => Err (InvalidFqn s)
      | Some (mid, tag) =>
          if negb (valid_machine_id mid) then Err (InvalidFqn ("invalid machine_id: " +:+ mid))
          else u <-? user_domain_new ud;
               t <-? agent_tag_new tag;
               Ok (mkFqn u (str_map to_lower mid) t)
      end
  end.

Record fqn_wf (f : Fqn) : Prop := {
  wf_domain : valid_user_domain (user_domain f) = true;
  wf_machine : valid_machine_id (machine_id f) = true;
  wf_lower : str_map to_lower (machine_id f) = machine_id f;
  wf_tag : valid_agent_tag (agent_tag f) = true;
}.

(** [generate_machine_id]: SHA-256 of hardware id, host name and OS string, the
    first eight bytes in hex; the flag says whether a hardware id was found.  The
    hash and the hex codec are library code. *)
Section MachineId.
Variable sha256 : bytes -> bytes.
Variable hex_encode : bytes -> string.

Definition generate_machine_id (hw host : option string) (os arch : string) : string * bool :=
  let upd (o : option string) := match o with Some s => as_bytes s | None => [] end in
  let digest := sha256 (upd hw ++ upd host ++ as_bytes (os +:+ "/" +:+ arch)) in
  (hex_encode (take 8 digest), match hw with Some _ => true | None => false end).
End MachineId.

(** ** Lemmas *)

Lemma to_lower_hex c : is_hexdigit c = true -> is_hexdigit (to_lower c) = true.
Proof.
  intros H. assert (implb (is_hexdigit c) (is_hexdigit (to_lower c)) = true) as E.
  { revert c H. intros c _. revert c. apply byte_cases. by vm_compute. }
  by rewrite H in E.
Qed.

Lemma to_lower_idem c : to_lower (to_lower c) = to_lower c.
Proof.
  apply Ascii.eqb_eq. revert c.
  apply (byte_cases (fun c => Ascii.eqb (to_lower (to_lower c)) (to_lower c))). by vm_compute.
Qed.

Lemma valid_machine_id_lower s :
  valid_machine_id s = true -> valid_machine_id (str_map to_lower s) = true.
Proof.
  unfold valid_machine_id, str_len. rewrite !andb_true_iff, str_map_length. intros [? ?].
  split; [done|]. apply str_all_map; [apply to_lower_hex | done].
Qed.

Lemma domain_no_slash s : valid_user_domain s = true -> str_mem "/" s = false.
Proof.
  unfold valid_user_domain. rewrite !andb_true_iff. intros [_ H].
  by apply (str_all_not_mem domain_char).
Qed.

Lemma machine_no_slash s : valid_machine_id s = true -> str_mem "/" s = false.
Proof.
  unfold valid_machine_id. rewrite !andb_true_iff. intros [_ H].
  by apply (str_all_not_mem is_hexdigit).
Qed.

Lemma tag_no_slash s : valid_agent_tag s = true -> str_mem "/" s = false.
Proof.
  unfold valid_agent_tag. rewrite !andb_true_iff. intros [_ H].
  by apply (str_all_not_mem tag_char).
Qed.

Lemma user_domain_new_ok s d : user_domain_new s = Ok d <-> valid_user_domain s = true /\ d = s.
Proof. unfold user_domain_new. destruct (valid_user_domain s); naive_solver. Qed.

Lemma agent_tag_new_ok s d : agent_tag_new s = Ok d <-> valid_agent_tag s = true /\ d = s.
Proof. unfold agent_tag_new. destruct (valid_agent_tag s); naive_solver. Qed.

Lemma fqn_from_parts ud mid tag :
  str_mem "/" ud = false -> valid_machine_id mid = true ->
  fqn_from_str (ud +:+ "/" +:+ mid +:+ "/" +:+ tag) =
    (u <-? user_domain_new ud; t <-? agent_tag_new tag; Ok (mkFqn u (str_map to_lower mid) t)).
Proof.
  intros Hu Hm. unfold fqn_from_str.
  change ("/" +:+ mid +:+ "/" +:+ tag) with (String "/" (mid +:+ String "/" tag)).
  rewrite split_once_app by done. rewrite split_once_app by (by apply machine_no_slash).
  by rewrite Hm.
Qed.

(** ** Properties *)

(** Printing a well-formed fully qualified name and parsing it gives it
    back; and whatever parses is well formed and prints as the input with the
    machine id in lower case (so parsing is idempotent through printing). *)
Theorem fqn_roundtrip f s :
  (fqn_wf f -> fqn_from_str (fqn_to_string f) = Ok f) /\
  (fqn_from_str s = Ok f ->
   fqn_wf f /\ exists mid, s = user_domain f +:+ "/" +:+ mid +:+ "/" +:+ agent_tag f /\
                           machine_id f = str_map to_lower mid).
Proof.
  split.
  - intros [Hd Hm Hl Ht]. unfold fqn_to_string.
    rewrite fqn_from_parts by (done || by apply domain_no_slash).
    unfold user_domain_new, agent_tag_new. rewrite Hd, Ht. cbn [negb rbind].
    rewrite Hl. by destruct f.
  - unfold fqn_from_str. intros H.
    destruct (split_once "/" s) as [[ud rest]|] eqn:E1; [|done].
    destruct (split_once "/" rest) as [[mid tag]|] eqn:E2; [|done].
    destruct (valid_machine_id mid) eqn:Hm; [|done]. cbn [negb] in H.
    destruct (user_domain_new ud) as [u|] eqn:Eu; [|done]. cbn [rbind] in H.
    destruct (agent_tag_new tag) as [t|] eqn:Et; [|done]. cbn [rbind] in H.
    apply user_domain_new_ok in Eu as [Hu ->]. apply agent_tag_new_ok in Et as [Ht ->].
    apply Ok_inj in H as <-. cbn [user_domain agent_tag machine_id].
    apply split_once_inv in E1 as [-> _]. apply split_once_inv in E2 as [-> _].
    split; [|by exists mid]. split; cbn [user_domain agent_tag machine_id]; try done.
    + by apply valid_machine_id_lower.
    + apply str_map_idem, to_lower_idem.
Qed.

Definition demo_fqn : Fqn := mkFqn "ser163" "9f2c81d4deadbeef" "maka".

Lemma fqn_roundtrip_witness :
  fqn_from_str "ser163/9f2c81d4deadbeef/maka" = Ok demo_fqn /\
  (fqn_wf demo_fqn /\ exists mid, "ser163/9F2c81d4deadbeef/maka" =
     user_domain demo_fqn +:+ "/" +:+ mid +:+ "/" +:+ agent_tag demo_fqn /\
     machine_id demo_fqn = str_map to_lower mid).
Proof.
  split.
  - apply (proj1 (fqn_roundtrip demo_fqn "")). by split; vm_compute.
  - apply (proj2 (fqn_roundtrip demo_fqn "ser163/9F2c81d4deadbeef/maka")). by vm_compute.
Defined.

(** The fully qualified name is an unambiguous namespace: two well-formed
    names that print the same are the same, so no tenant, machine or agent can
    alias another through the printed form. *)
Theorem fqn_unambiguous f g :
  fqn_wf f -> fqn_wf g -> fqn_to_string f = fqn_to_string g -> f = g.
Proof.
  intros [Hd Hm Hl Ht] [Hd' Hm' Hl' Ht'] E.
  apply (f_equal fqn_from_str) in E. unfold fqn_to_string in E.
  rewrite !fqn_from_parts in E by (done || by apply domain_no_slash).
  unfold user_domain_new, agent_tag_new in E. rewrite Hd, Hd', Ht, Ht' in E. cbn [negb rbind] in E.
  apply Ok_inj in E. rewrite Hl, Hl' in E. destruct f, g; cbn in *. congruence.
Qed.

Lemma fqn_unambiguous_witness : demo_fqn = mkFqn "ser163" "9f2c81d4deadbeef" "maka".
Proof.
  apply (fqn_unambiguous demo_fqn (mkFqn "ser163" "9f2c81d4deadbeef" "maka")).
  - by split; vm_compute.
  - by split; vm_compute.
  - reflexivity.
Defined.

(** The domain check is weaker than its documented grammar
    [[a-z0-9][a-z0-9._-]{2,63}]: one-character domains and the dot-only names
    ["."] and [".."] are valid user domains. *)
Lemma short_domains_accepted :
  user_domain_new "a" = Ok "a" /\ user_domain_new "." = Ok "." /\ user_domain_new ".." = Ok "..".
Proof. by vm_compute. Qed.
