(* ===== verification/Crypto.v ===== *)
(** * Keys, signatures and end-to-end encryption

    [nsmt-core/src/crypto.rs] and [e2e.rs].  Ed25519, SHA-256, ChaCha20-Poly1305
    and the hex codec are libraries: each is a class of operations with the
    documented laws the sources rely on. *)

From S2P Require Import Prelude Paths Wire.

(** ** Library interfaces *)

Class HexCodec : Type := {
  hex_encode : bytes -> string;
  hex_decode : string -> option bytes;
}.

Class HexLaws `{HexCodec} : Prop := {
  hex_decode_encode : forall b, hex_decode (hex_encode b) = Some b;
  hex_encode_digits : forall b, str_all is_hexdigit (hex_encode b) = true;
  hex_encode_length : forall b, String.length (hex_encode b) = (2 * length b)%nat;
}.

(** A signing key is its 32 secret bytes, a verifying key its 32 public ones. *)
Class Ed25519 : Type := {
  ed_public : bytes -> bytes;
  ed_sign : bytes -> bytes -> bytes;
  ed_key_ok : bytes -> bool;
  ed_sig_ok : bytes -> bool;
  ed_verify : bytes -> bytes -> bytes -> bool;
}.

Class Ed25519Laws `{Ed25519} : Prop := {
  ed_public_length : forall sk, length sk = 32%nat -> length (ed_public sk) = 32%nat;
  ed_public_ok : forall sk, length sk = 32%nat -> ed_key_ok (ed_public sk) = true;
  ed_sign_ok : forall sk m, ed_sig_ok (ed_sign sk m) = true;
  ed_verify_sign : forall sk m, length sk = 32%nat -> ed_verify (ed_public sk) m (ed_sign sk m) = true;
}.

Class Sha256 : Type := { sha256 : bytes -> bytes }.
Class Sha256Laws `{Sha256} : Prop := { sha256_length : forall b, length (sha256 b) = 32%nat }.

(** ChaCha20-Poly1305 with empty associated data, on a 32-byte key and a 12-byte
    nonce. *)
Class Aead : Type := {
  aead_encrypt : bytes -> bytes -> bytes -> option bytes;
  aead_decrypt : bytes -> bytes -> bytes -> option bytes;
}.

Class AeadLaws `{Aead} : Prop := {
  aead_encrypts : forall k n m, len m <= MAX_PAYLOAD_LEN -> is_Some (aead_encrypt k n m);
  aead_decrypts : forall k n m c, aead_encrypt k n m = Some c -> aead_decrypt k n c = Some m;
}.

(** ** [crypto.rs] *)

Section Keys.
Context `{HexCodec} `{Ed25519}.

Record KeyPair : Set := mkKeyPair { signing : bytes; verifying : bytes }.

Definition from_signing (sk : bytes) : KeyPair := mkKeyPair sk (ed_public sk).

(** [KeyPair::generate] on the 32 bytes the system's generator returned. *)
Definition generate (seed : bytes) : KeyPair := from_signing seed.

Definition public_hex (kp : KeyPair) : string := hex_encode (verifying kp).

Definition sign (kp : KeyPair) (msg : bytes) : string := hex_encode (ed_sign (signing kp) msg).

Definition zero_key : bytes := replicate 32 (u8_of 0).

(** [pk.as_slice().try_into().unwrap_or(&[0u8; 32])] *)
Definition key_or_zero (pk : bytes) : bytes :=
  if decide (length pk = 32%nat) then pk else zero_key.

Definition verify (pub_hex : string) (msg : bytes) (sig_hex : string) : bool :=
  match hex_decode pub_hex with
  | None => false
  | Some pk =>
      if negb (ed_key_ok (key_or_zero pk)) then false
      else match hex_decode sig_hex with
           | None => false
           | Some sig =>
               if negb (ed_sig_ok sig) then false
               else ed_verify (key_or_zero pk) msg sig
           end
  end.

Definition to_pkcs8_der (kp : KeyPair) : bytes := signing kp.

Definition from_pkcs8_der (der : bytes) : result NsmtError KeyPair :=
  if decide (length der = 32%nat) then Ok (from_signing der)
  else Err (Protocol "invalid key length").

(** [keys_dir] *)
Definition keys_dir (e : env) : string := nsmt_home e.

(** [load_or_create]: the generator's next 32 bytes are an argument; the file
    system is threaded through (as it is when a step fails). *)
Definition load_or_create (e : env) (seed : bytes) (key_name pub_name : string) (fs : files)
    : result NsmtError KeyPair * files :=
  let key_path := path_join (keys_dir e) key_name in
  let pub_path := path_join (keys_dir e) pub_name in
  match create_dir_all (keys_dir e) fs with
  | None => (Err (IoError "create_dir_all"), fs)
  | Some fs =>
      if fs_exists fs key_path then
        (der <-? ok_or (fs_read fs key_path) (IoError "read");
         kp <-? from_pkcs8_der der;
         match read_to_string fs pub_path with
         | Some pub_hex =>
             if decide (str_trim pub_hex = public_hex kp) then Ok kp
             else Err (Protocol ("key mismatch: " +:+ key_name +:+ " vs " +:+ pub_name))
         | None => Ok kp
         end, fs)
      else
        let kp := generate seed in
        match fs_write key_path (to_pkcs8_der kp) fs with
        | None => (Err (IoError "write"), fs)
        | Some fs =>
            match fs_write pub_path (as_bytes (public_hex kp)) fs with
            | None => (Err (IoError "write"), fs)
            | Some fs => (Ok kp, fs)
            end
        end
  end.

Definition load_or_create_machine_key (e : env) (seed : bytes) (fs : files) :=
  load_or_create e seed "machine.key" "machine.pub" fs.
Definition load_or_create_domain_key (e : env) (seed : bytes) (fs : files) :=
  load_or_create e seed "domain.key" "domain.pub" fs.

Definition read_public_key (fs : files) (p : string) : result NsmtError string :=
  s <-? ok_or (read_to_string fs p) (IoError "read"); Ok (str_trim s).

(** A pair made by [from_signing] from 32 bytes; the only ones there are. *)
Definition keypair_wf (kp : KeyPair) : Prop :=
  length (signing kp) = 32%nat /\ verifying kp = ed_public (signing kp).
End Keys.

#[export] Instance KeyPair_eq_dec : EqDecision KeyPair.
Proof. solve_decision. Defined.

(** ** [e2e.rs] *)

Section E2E.
Context `{HexCodec} `{Sha256} `{Aead}.

(** A cipher is its 32-byte key. *)
Record E2EKeys : Set := mkE2EKeys { newest : bytes; all : list bytes }.

Definition cipher_from_bytes (b : bytes) : option bytes :=
  if decide (length b = 32%nat) then Some b else None.

Definition derive_tenant_key (master : bytes) (domain : string) : bytes :=
  sha256 (as_bytes "nsmt:e2e:v1:" ++ as_bytes domain ++ master).

Definition masters_from_env (e : env) : option (list bytes) :=
  match e "NSMT_E2E_KEYS" with
  | Some raw => Some raw
  | None => e "NSMT_E2E_KEY"
  end ≫= fun raw =>
  let l := filter (fun b : bytes => length b = 32%nat)
             (omap hex_decode
                (filter (fun s => s <> EmptyString) (map str_trim (str_split "," raw)))) in
  match l with
  | [] => None
  | _ => Some l
  end.

(** [from_env]: [domain] non-empty derives every master to a tenant key. *)
Definition tenant_key (domain : option string) (m : bytes) : bytes :=
  match domain with
  | Some d => if decide (d = EmptyString) then m else derive_tenant_key m d
  | None => m
  end.

Definition from_env (e : env) (domain : option string) : option E2EKeys :=
  masters ← masters_from_env e;
  all_ ← mapM cipher_from_bytes (map (tenant_key domain) masters);
  newest_ ← head all_;
  Some (mkE2EKeys newest_ all_).

Definition nonce_for (idx : Z) : bytes := be_bytes 4 0x4E534D54 ++ be_bytes 8 idx.

Definition e2e_encrypt (k : E2EKeys) (p : bytes) (idx : Z) : result NsmtError bytes :=
  ok_or (aead_encrypt (newest k) (nonce_for idx) p) (Protocol "encrypt failed").

Fixpoint decrypt_any (cs : list bytes) (p : bytes) (idx : Z) : result NsmtError bytes :=
  match cs with
  | [] => Err (Protocol "decrypt failed (no key matched)")
  | c :: cs' =>
      match aead_decrypt c (nonce_for idx) p with
      | Some plain => Ok plain
      | None => decrypt_any cs' p idx
      end
  end.

Definition e2e_decrypt (k : E2EKeys) (p : bytes) (idx : Z) : result NsmtError bytes :=
  decrypt_any (all k) p idx.

(** [e2e_key_from_env], [encrypt_payload], [decrypt_payload] *)
Definition e2e_key_from_env (e : env) : option bytes :=
  h ← e "NSMT_E2E_KEY"; b ← hex_decode h; cipher_from_bytes b.

Definition encrypt_payload (cipher : option bytes) (p : bytes) (idx : Z) : result NsmtError bytes :=
  match cipher with
  | None => Ok p
  | Some c => ok_or (aead_encrypt c (nonce_for idx) p) (Protocol "encrypt failed")
  end.

Definition decrypt_payload (cipher : option bytes) (p : bytes) (idx : Z) : result NsmtError bytes :=
  match cipher with
  | None => Ok p
  | Some c => ok_or (aead_decrypt c (nonce_for idx) p) (Protocol "decrypt failed")
  end.
End E2E.

(** ** Reference instances

    Executable stand-ins that satisfy the laws (a real hex codec; a keyed
    concatenation in place of each primitive), used where a theorem is applied
    to a concrete run. *)
Module Ref.
Definition hex_byte (b : byte) : string :=
  String (hex_digit (u8_val b / 16)) (String (hex_digit (u8_val b mod 16)) EmptyString).

Definition hex_val (c : ascii) : option Z :=
  let v := u8_val c in
  if is_digit c then Some (v - 48)
  else if (97 <=? v) && (v <=? 102) then Some (v - 87)
  else if (65 <=? v) && (v <=? 70) then Some (v - 55)
  else None.

Fixpoint hex_enc (b : bytes) : string :=
  match b with
  | [] => EmptyString
  | c :: t => String (hex_digit (u8_val c / 16)) (String (hex_digit (u8_val c mod 16)) (hex_enc t))
  end.

Fixpoint hex_dec (s : string) : option bytes :=
  match s with
  | EmptyString => Some []
  | String a (String b t) =>
      x ← hex_val a; y ← hex_val b; r ← hex_dec t; Some (u8_of (16 * x + y) :: r)
  | _ => None
  end.

#[global] Instance hex : HexCodec := {| hex_encode := hex_enc; hex_decode := hex_dec |}.

#[global] Instance ed : Ed25519 := {|
  ed_public sk := sk;
  ed_sign sk m := sk ++ m;
  ed_key_ok pk := true;
  ed_sig_ok s := true;
  ed_verify pk m s := bool_decide (s = pk ++ m);
|}.

#[global] Instance sha : Sha256 := {| sha256 b := take 32 (b ++ replicate 32 (u8_of 0)) |}.

#[global] Instance aead : Aead := {|
  aead_encrypt k n m := Some (k ++ n ++ m);
  aead_decrypt k n c := if decide (take (length (k ++ n)) c = k ++ n)
                        then Some (drop (length (k ++ n)) c) else None;
|}.

Lemma hex_byte_dec b : (x ← hex_val (hex_digit (u8_val b / 16));
  y ← hex_val (hex_digit (u8_val b mod 16)); Some (u8_of (16 * x + y))) = Some b.
Proof. by destruct b as [[] [] [] [] [] [] [] []]. Qed.

Lemma hex_digits_hex b :
  is_hexdigit (hex_digit (u8_val b / 16)) && is_hexdigit (hex_digit (u8_val b mod 16)) = true.
Proof. by destruct b as [[] [] [] [] [] [] [] []]. Qed.

#[global] Instance hex_laws : HexLaws.
Proof.
  split.
  - intros b. change (hex_dec (hex_enc b) = Some b). induction b as [|c b IH]; [done|].
    cbn [hex_enc hex_dec]. rewrite IH. pose proof (hex_byte_dec c) as E.
    destruct (hex_val (hex_digit (u8_val c / 16))); [|discriminate E].
    destruct (hex_val (hex_digit (u8_val c mod 16))); [|discriminate E].
    cbn in E |- *. congruence.
  - intros b. change (hex_encode b) with (hex_enc b). induction b as [|c b IH]; [done|].
    cbn [hex_enc str_all]. pose proof (hex_digits_hex c) as [-> ->]%andb_true_iff. done.
  - intros b. change (hex_encode b) with (hex_enc b). induction b as [|c b IH]; [done|].
    cbn [hex_enc String.length length]. rewrite IH. lia.
Qed.

#[global] Instance ed_laws : Ed25519Laws.
Proof. split; try done. intros sk m _. cbn. by apply bool_decide_eq_true. Qed.

#[global] Instance sha_laws : Sha256Laws.
Proof.
  split. intros b. change (length (take 32 (b ++ replicate 32 (u8_of 0))) = 32%nat).
  rewrite length_take, length_app, length_replicate. lia.
Qed.

#[global] Instance aead_laws : AeadLaws.
Proof.
  split; [done|]. intros k n m c. cbn. intros E. injection E as <-.
  rewrite app_assoc, take_app_length, drop_app_length. by rewrite decide_True.
Qed.
End Ref.

(** ** Lemmas *)

Section HexFacts.
Context `{HexLaws}.

Lemma hexdigit_plain c : is_hexdigit c = true -> negb (is_ws c) && (u8_val c <? 128) = true.
Proof.
  intros H1. assert (implb (is_hexdigit c) (negb (is_ws c) && (u8_val c <? 128)) = true) as E.
  { revert c H1. intros c _. revert c. apply byte_cases. by vm_compute. }
  by rewrite H1 in E.
Qed.

Lemma hex_encode_trim b : str_trim (hex_encode b) = hex_encode b.
Proof.
  apply str_trim_none. eapply str_all_impl; [|apply hex_encode_digits].
  intros c [? _]%hexdigit_plain%andb_true_iff. done.
Qed.

Lemma hex_encode_utf8 b : utf8_valid (as_bytes (hex_encode b)) = true.
Proof.
  apply utf8_ascii. rewrite <- str_all_bytes. eapply str_all_impl; [|apply hex_encode_digits].
  intros c [_ ?]%hexdigit_plain%andb_true_iff. done.
Qed.

#[export] Instance hex_encode_inj : Inj (=) (=) hex_encode.
Proof. intros a b E. apply (f_equal hex_decode) in E. rewrite !hex_decode_encode in E. congruence. Qed.
End HexFacts.

Section KeyFacts.
Context `{HexLaws} `{Ed25519Laws}.

Lemma generate_wf seed : length seed = 32%nat -> keypair_wf (generate seed).
Proof. by split. Qed.

Lemma verify_sign kp m : keypair_wf kp -> verify (public_hex kp) m (sign kp m) = true.
Proof.
  intros [Hl Hv]. unfold verify, public_hex, sign. rewrite hex_decode_encode, Hv.
  unfold key_or_zero. rewrite decide_True by (by apply ed_public_length).
  rewrite ed_public_ok by done. cbn [negb]. rewrite hex_decode_encode, ed_sign_ok. cbn [negb].
  by apply ed_verify_sign.
Qed.

Lemma pkcs8_roundtrip kp : keypair_wf kp -> from_pkcs8_der (to_pkcs8_der kp) = Ok kp.
Proof.
  intros [Hl Hv]. unfold from_pkcs8_der, to_pkcs8_der. rewrite decide_True by done.
  unfold from_signing. rewrite <- Hv. by destruct kp.
Qed.

Lemma load_existing e seed key_name pub_name fs kp :
  keypair_wf kp -> create_dir_all (keys_dir e) fs = Some fs ->
  fs_read fs (path_join (keys_dir e) key_name) = Some (to_pkcs8_der kp) ->
  fs_read fs (path_join (keys_dir e) pub_name) = Some (as_bytes (public_hex kp)) ->
  load_or_create e seed key_name pub_name fs = (Ok kp, fs).
Proof.
  intros Hwf Hd Hk Hp. unfold load_or_create. rewrite Hd.
  unfold fs_exists, fs_is_file. rewrite Hk. cbn [orb ok_or rbind]. rewrite pkcs8_roundtrip by done.
  unfold read_to_string. rewrite Hp. cbn [mbind option_bind rbind]. unfold public_hex.
  rewrite hex_encode_utf8, of_as_bytes. by rewrite hex_encode_trim, decide_True.
Qed.

Lemma load_fresh e seed key_name pub_name fs fs1 :
  length seed = 32%nat ->
  plain_name key_name = true -> plain_name pub_name = true -> key_name <> pub_name ->
  create_dir_all (keys_dir e) fs = Some fs1 ->
  fs1 !! resolve (path_join (keys_dir e) key_name) = None ->
  fs1 !! resolve (path_join (keys_dir e) pub_name) <> Some Dir ->
  exists fs', load_or_create e seed key_name pub_name fs = (Ok (generate seed), fs') /\
    forall seed', load_or_create e seed' key_name pub_name fs' = (Ok (generate seed), fs').
Proof.
  intros Hs Hk Hp Hne Hdir Hnone Hpub.
  assert (resolve (path_join (keys_dir e) key_name) <> resolve (path_join (keys_dir e) pub_name)) as Hr
    by (intros E%resolve_join_plain_inj; done).
  pose proof (create_dir_all_dir _ _ _ Hdir) as Hd1.
  pose proof (fs_write_plain (keys_dir e) key_name (to_pkcs8_der (generate seed)) fs1 Hk Hd1) as W1.
  rewrite Hnone in W1. specialize (W1 ltac:(done)).
  assert (is_dir_at (<[resolve (path_join (keys_dir e) key_name) := File (to_pkcs8_der (generate seed))]> fs1)
    (resolve (keys_dir e)) = true) as Hd2 by (by eapply fs_write_dirs).
  pose proof (fs_write_plain (keys_dir e) pub_name (as_bytes (public_hex (generate seed))) _ Hp Hd2) as W2.
  rewrite lookup_insert_ne in W2 by done. specialize (W2 Hpub).
  unfold load_or_create at 1. rewrite Hdir.
  assert (fs_exists fs1 (path_join (keys_dir e) key_name) = false) as ->.
  { unfold fs_exists, fs_is_file, fs_is_dir, fs_read, is_dir_at. rewrite Hnone.
    by rewrite plain_not_dots. }
  cbv zeta. rewrite W1, W2. eexists; split; [done|]. intros seed'. apply load_existing.
  - by apply generate_wf.
  - eapply create_dir_all_again; [exact Hdir|]. intros l Hl.
    eapply fs_write_dirs; [exact W2|]. eapply fs_write_dirs; [exact W1|done].
  - rewrite (fs_read_write_ne _ _ _ _ _ Hr W2). by apply fs_read_write in W1.
  - by apply fs_read_write in W2.
Qed.
End KeyFacts.

Section E2EFacts.
Context `{HexCodec} `{Sha256} `{AeadLaws}.

Lemma from_env_shape e d ks :
  from_env e d = Some ks -> exists rest, all ks = newest ks :: rest.
Proof.
  unfold from_env. destruct (masters_from_env e) as [ms|]; [|done]. cbn [mbind option_bind].
  destruct (mapM _ _) as [l|]; [|done]. cbn [mbind option_bind].
  destruct l as [|k l]; [done|]. cbn. intros [= <-]. by exists l.
Qed.

Lemma decrypt_any_app cs k rest p c idx :
  (forall k', k' ∈ cs -> aead_decrypt k' (nonce_for idx) c = None) ->
  aead_encrypt k (nonce_for idx) p = Some c ->
  decrypt_any (cs ++ k :: rest) c idx = Ok p.
Proof.
  intros Hrej He. induction cs as [|k' cs IH]; cbn [app decrypt_any].
  - by rewrite (aead_decrypts _ _ _ _ He).
  - rewrite Hrej by set_solver. apply IH. intros k'' ?. apply Hrej. set_solver.
Qed.

Lemma e2e_encrypt_inv ks p idx c :
  e2e_encrypt ks p idx = Ok c -> aead_encrypt (newest ks) (nonce_for idx) p = Some c.
Proof. unfold e2e_encrypt. destruct (aead_encrypt _ _ _); cbn; congruence. Qed.
End E2EFacts.

(** ** Properties *)

(** A key pair survives the directory it is stored in: the first start
    generates it and writes key and public key, and every later start (whatever
    its random source yields) loads that same pair and changes nothing; a
    signature of the pair verifies under its published public key; a key file of
    another length or a public-key file that disagrees is refused, leaving the
    files as they are. *)
Theorem key_persistence `{HexLaws} `{Ed25519Laws} e seed fs fs1 kp msg :
  length seed = 32%nat -> create_dir_all (keys_dir e) fs = Some fs1 ->
  (fs1 !! resolve (path_join (keys_dir e) "domain.key") = None ->
   fs1 !! resolve (path_join (keys_dir e) "domain.pub") <> Some Dir ->
   exists fs', load_or_create_domain_key e seed fs = (Ok (generate seed), fs') /\
     forall seed', load_or_create_domain_key e seed' fs' = (Ok (generate seed), fs')) /\
  verify (public_hex (generate seed)) msg (sign (generate seed) msg) = true /\
  (keypair_wf kp -> forall pub,
     fs_read fs (path_join (keys_dir e) "domain.key") = Some (to_pkcs8_der kp) ->
     read_to_string fs (path_join (keys_dir e) "domain.pub") = Some pub ->
     str_trim pub <> public_hex kp ->
     load_or_create_domain_key e seed fs =
       (Err (Protocol "key mismatch: domain.key vs domain.pub"), fs1)) /\
  (forall der, fs_read fs (path_join (keys_dir e) "domain.key") = Some der ->
     length der <> 32%nat ->
     load_or_create_domain_key e seed fs = (Err (Protocol "invalid key length"), fs1)).
Proof.
  intros Hs Hdir. split_and!.
  - intros. by apply (load_fresh e seed "domain.key" "domain.pub" fs fs1).
  - by apply verify_sign, generate_wf.
  - intros Hwf pub Hk Hp Hne. unfold load_or_create_domain_key, load_or_create. rewrite Hdir.
    unfold read_to_string, fs_exists, fs_is_file in *. rewrite !(create_dir_all_read _ _ _ _ Hdir).
    rewrite Hk. cbn [orb ok_or rbind]. rewrite pkcs8_roundtrip by done. cbn [rbind].
    rewrite Hp. by rewrite decide_False.
  - intros der Hk Hl. unfold load_or_create_domain_key, load_or_create. rewrite Hdir.
    unfold fs_exists, fs_is_file. rewrite !(create_dir_all_read _ _ _ _ Hdir), Hk.
    cbn [orb ok_or rbind]. unfold from_pkcs8_der. by rewrite decide_False.
Qed.

Definition demo_env : env := fun k => if decide (k = "HOME") then Some "/root" else None.
Definition demo_seed : bytes := replicate 32 (u8_of 7).
Definition demo_home : files := default ∅ (create_dir_all (keys_dir demo_env) ∅).

Lemma key_persistence_witness :
  fst (load_or_create_domain_key demo_env demo_seed ∅) = Ok (generate demo_seed) /\
  verify (public_hex (generate demo_seed)) (as_bytes "nonce")
         (sign (generate demo_seed) (as_bytes "nonce")) = true.
Proof.
  assert (create_dir_all (keys_dir demo_env) ∅ = Some demo_home) as Hd
    by (apply some_default; vm_compute; reflexivity).
  destruct (key_persistence demo_env demo_seed ∅ demo_home (generate demo_seed) (as_bytes "nonce")
    eq_refl Hd) as (Hf & Hv & _).
  destruct Hf as (fs' & -> & _).
  - vm_compute. reflexivity.
  - vm_compute. discriminate.
  - split; [reflexivity | exact Hv].
Defined.

(** A public key of the wrong length is not rejected: [verify] silently
    checks the signature against the all-zero key instead, so every malformed
    key, the empty string included, names the same verifier. *)
Theorem malformed_key_is_zero_key `{HexLaws} `{Ed25519} pub_hex pk msg sig :
  hex_decode pub_hex = Some pk -> length pk <> 32%nat ->
  verify pub_hex msg sig = verify (hex_encode zero_key) msg sig.
Proof.
  intros Hd Hl. unfold verify. rewrite Hd, hex_decode_encode. unfold key_or_zero.
  by rewrite decide_False, decide_True.
Qed.

Lemma malformed_key_is_zero_key_witness :
  verify "" (as_bytes "n") "00" = verify (hex_encode zero_key) (as_bytes "n") "00".
Proof. apply (malformed_key_is_zero_key "" [] (as_bytes "n") "00"); [reflexivity | discriminate]. Defined.

(** C35: Key rotation is seamless: what a node encrypted decrypts under the same
    keys, and also under any later key list that still holds the node's newest
    key, provided the keys tried before it reject the ciphertext. *)
Theorem e2e_rotation `{HexCodec} `{Sha256} `{AeadLaws} e d old p idx c :
  from_env e d = Some old -> e2e_encrypt old p idx = Ok c ->
  e2e_decrypt old c idx = Ok p /\
  (forall rotated added rest,
     all rotated = added ++ newest old :: rest ->
     (forall k, k ∈ added -> aead_decrypt k (nonce_for idx) c = None) ->
     e2e_decrypt rotated c idx = Ok p).
Proof.
  intros Hf He. apply e2e_encrypt_inv in He. split.
  - destruct (from_env_shape _ _ _ Hf) as [rest Hall]. unfold e2e_decrypt. rewrite Hall.
    apply (decrypt_any_app [] _ _ p); [set_solver | done].
  - intros rotated added rest Hall Hrej. unfold e2e_decrypt. rewrite Hall.
    by apply (decrypt_any_app added _ _ p).
Qed.

(** The first nine bytes of the two demonstration masters differ. *)
Definition demo_master (n : Z) : string := hex_encode (replicate 32 (u8_of n)).
Definition demo_keys_env (ks : string) : env :=
  fun k => if decide (k = "NSMT_E2E_KEYS") then Some ks else None.
Definition demo_old : E2EKeys :=
  default (mkE2EKeys [] []) (from_env (demo_keys_env (demo_master 1)) None).
Definition demo_rotated : E2EKeys :=
  default (mkE2EKeys [] [])
    (from_env (demo_keys_env (demo_master 2 +:+ ", " +:+ demo_master 1)) None).
Definition demo_ct : bytes :=
  match e2e_encrypt demo_old (as_bytes "old data") 3 with Ok c => c | Err _ => [] end.

Lemma e2e_rotation_witness : e2e_decrypt demo_rotated demo_ct 3 = Ok (as_bytes "old data").
Proof.
  refine (proj2 (e2e_rotation (demo_keys_env (demo_master 1)) None demo_old
    (as_bytes "old data") 3 demo_ct _ _) demo_rotated [replicate 32 (u8_of 2)] [] _ _).
  - vm_compute. reflexivity.
  - vm_compute. reflexivity.
  - vm_compute. reflexivity.
  - intros k Hk. apply list_elem_of_singleton in Hk as ->. vm_compute. reflexivity.
Defined.
