(* ===== verification/Store.v ===== *)
(** * Object storage

    [nsmt-fs/src/lib.rs]: the [ObjectStore] trait and its implementations.  A
    trait object is a [store] value and the trait's methods dispatch on it.  The
    S3 client and the in-memory backend come from the [object_store] crate: they
    are the class [Backend], with what its documentation promises in
    [BackendLaws]. *)

From S2P Require Import Prelude Paths.

(** A segment that [object_store]'s path type keeps as it is, and a key made of
    such segments. *)
Definition clean_char (c : ascii) : bool := is_alnum c || str_mem c "-_.".
Definition clean_seg (s : string) : bool := plain_name s && str_all clean_char s.
Definition clean_key (k : string) : bool := forallb clean_seg (str_split "/" k).

(** ** The [object_store] crate

    A request that fails may have had its effect or not. *)

Class Backend : Type := {
  bstate : Type;
  b_empty : bstate;
  obj_path : string -> string;
  b_put : string -> bytes -> bstate -> result string unit * bstate;
  b_get : string -> bstate -> option bytes;
  b_head : string -> bstate -> bool;
  b_delete : string -> bstate -> result string unit * bstate;
}.

Class BackendLaws `{Backend} : Prop := {
  obj_path_clean : forall k, clean_key k = true -> obj_path k = k;
  b_get_empty : forall p, b_get p b_empty = None;
  b_head_get : forall p b, b_head p b = true <-> is_Some (b_get p b);
  b_get_put : forall p x b b', b_put p x b = (Ok tt, b') -> b_get p b' = Some x;
  b_get_put_err : forall p x b b' e, b_put p x b = (Err e, b') -> b_get p b' = b_get p b \/ b_get p b' = Some x;
  b_get_put_ne : forall p q x b, q <> p -> b_get q (snd (b_put p x b)) = b_get q b;
  b_get_delete : forall p b b', b_delete p b = (Ok tt, b') -> b_get p b' = None;
  b_get_delete_err : forall p b b' e, b_delete p b = (Err e, b') -> b_get p b' = b_get p b \/ b_get p b' = None;
  b_get_delete_ne : forall p q b, q <> p -> b_get q (snd (b_delete p b)) = b_get q b;
}.

Section Stores.
Context `{Backend}.

(** The local disk, the bucket behind S3, and the in-memory stores made so far. *)
Record World : Type := mkWorld { disk : files; bucket : bstate; mems : list bstate }.

Definition set_disk (d : files) (w : World) : World := mkWorld d (bucket w) (mems w).
Definition set_bucket (b : bstate) (w : World) : World := mkWorld (disk w) b (mems w).
Definition set_mem (i : nat) (b : bstate) (w : World) : World :=
  mkWorld (disk w) (bucket w) (<[i := b]> (mems w)).
Definition mem_at (i : nat) (w : World) : bstate := nth i (mems w) b_empty.

Inductive store : Type :=
| LocalObjectStore (root : string)
| S3ObjectStore
| MemoryObjectStore (inner : nat)
| PrefixedObjectStore (inner : store) (prefix : string).

(** [PrefixedObjectStore::new] and [key] *)
Definition prefixed_new (inner : store) (prefix : string) : store :=
  PrefixedObjectStore inner
    (if (str_len prefix =? 0) || ends_with "/" prefix then prefix else prefix +:+ "/").

Definition prefixed_key (prefix k : string) : string := prefix +:+ trim_start_matches "/" k.

(** [LocalObjectStore]; an [Err] is an [io::Error]. *)
Definition local_put (root key : string) (b : bytes) (w : World) : result string unit * World :=
  match create_dir_all root (disk w) with
  | None => (Err "create_dir_all", w)
  | Some d =>
      let p := path_join root key in
      if fs_exists d p then (Ok tt, set_disk d w)
      else match fs_write p b d with
           | None => (Err "write", set_disk d w)
           | Some d' => (Ok tt, set_disk d' w)
           end
  end.

Definition local_get (root key : string) (w : World) : option bytes :=
  fs_read (disk w) (path_join root key).

Definition local_exists (root key : string) (w : World) : bool :=
  fs_exists (disk w) (path_join root key).

Definition local_delete (root key : string) (w : World) : result string unit * World :=
  match fs_remove (path_join root key) (disk w) with
  | None => (Err "remove_file", w)
  | Some d => (Ok tt, set_disk d w)
  end.

(** [S3ObjectStore] *)
Definition s3_put (key : string) (b : bytes) (w : World) : result string unit * World :=
  let '(r, s') := b_put (obj_path key) b (bucket w) in (r, set_bucket s' w).

Definition s3_get (key : string) (w : World) : option bytes := b_get (obj_path key) (bucket w).

Definition s3_exists (key : string) (w : World) : bool := b_head (obj_path key) (bucket w).

Definition s3_delete (key : string) (w : World) : result string unit * World :=
  let '(r, s') := b_delete (obj_path key) (bucket w) in (r, set_bucket s' w).

(** [MemoryObjectStore] *)
Definition memory_put (i : nat) (key : string) (b : bytes) (w : World) : result string unit * World :=
  let '(r, s') := b_put (obj_path key) b (mem_at i w) in (r, set_mem i s' w).

Definition memory_get (i : nat) (key : string) (w : World) : option bytes :=
  b_get (obj_path key) (mem_at i w).

Definition memory_exists (i : nat) (key : string) (w : World) : bool :=
  b_head (obj_path key) (mem_at i w).

Definition memory_delete (i : nat) (key : string) (w : World) : result string unit * World :=
  let '(r, s') := b_delete (obj_path key) (mem_at i w) in (r, set_mem i s' w).

(** The trait's methods on a trait object. *)
Fixpoint put (s : store) (key : string) (b : bytes) (w : World) : result string unit * World :=
  match s with
  | LocalObjectStore root => local_put root key b w
  | S3ObjectStore => s3_put key b w
  | MemoryObjectStore i => memory_put i key b w
  | PrefixedObjectStore inner prefix => put inner (prefixed_key prefix key) b w
  end.

Fixpoint get (s : store) (key : string) (w : World) : option bytes :=
  match s with
  | LocalObjectStore root => local_get root key w
  | S3ObjectStore => s3_get key w
  | MemoryObjectStore i => memory_get i key w
  | PrefixedObjectStore inner prefix => get inner (prefixed_key prefix key) w
  end.

Fixpoint exists_ (s : store) (key : string) (w : World) : bool :=
  match s with
  | LocalObjectStore root => local_exists root key w
  | S3ObjectStore => s3_exists key w
  | MemoryObjectStore i => memory_exists i key w
  | PrefixedObjectStore inner prefix => exists_ inner (prefixed_key prefix key) w
  end.

Fixpoint store_delete (s : store) (key : string) (w : World) : result string unit * World :=
  match s with
  | LocalObjectStore root => local_delete root key w
  | S3ObjectStore => s3_delete key w
  | MemoryObjectStore i => memory_delete i key w
  | PrefixedObjectStore inner prefix => store_delete inner (prefixed_key prefix key) w
  end.

(** [MemoryObjectStore::default()]: a new, empty in-memory store. *)
Definition memory_default (w : World) : store * World :=
  (MemoryObjectStore (length (mems w)), mkWorld (disk w) (bucket w) (mems w ++ [b_empty])).

(** [S3ObjectStore::from_env]; the crate's builder is the argument. *)
Definition s3_from_env (build : env -> result string unit) (e : env) : result string store :=
  _ <-? ok_or (e "NSMT_S3_ENDPOINT") "NSMT_S3_ENDPOINT 未设置";
  _ <-? ok_or (e "NSMT_S3_BUCKET") "NSMT_S3_BUCKET 未设置";
  _ <-? ok_or (e "NSMT_S3_ACCESS_KEY") "NSMT_S3_ACCESS_KEY 未设置";
  _ <-? ok_or (e "NSMT_S3_SECRET_KEY") "NSMT_S3_SECRET_KEY 未设置";
  _ <-? build e;
  Ok S3ObjectStore.

(** [from_env_or] and [from_env_tenant] *)
Definition from_env_or (build : env -> result string unit) (e : env) (root : string) (w : World)
    : store * World :=
  let kind := e "NSMT_OBJECT_STORE" in
  if decide (kind = Some "s3") then
    match s3_from_env build e with
    | Ok s => (s, w)
    | Err _ => (LocalObjectStore root, w)
    end
  else if decide (kind = Some "memory") then memory_default w
  else (LocalObjectStore root, w).

Definition from_env_tenant (build : env -> result string unit) (e : env) (root user_domain : string)
    (w : World) : store * World :=
  let '(base, w') := from_env_or build e root w in
  let kind := e "NSMT_OBJECT_STORE" in
  if decide (kind = Some "s3" \/ kind = Some "memory")
  then (prefixed_new base ("t/" +:+ user_domain +:+ "/objects"), w')
  else (base, w').

(** Object stores hold files only: no directory under an object's name. *)
Definition flat (root : string) (w : World) : Prop :=
  forall n, plain_name n = true -> disk w !! resolve (path_join root n) <> Some Dir.

Definition in_memory (i : nat) (w : World) : Prop := (i < length (mems w))%nat.
End Stores.

(** Where a store keeps an object. *)
Inductive cell : Type :=
| CDisk (l : loc)
| CBucket (p : string)
| CMem (i : nat) (p : string).

Fixpoint target `{Backend} (s : store) (k : string) : cell :=
  match s with
  | LocalObjectStore root => CDisk (resolve (path_join root k))
  | S3ObjectStore => CBucket (obj_path k)
  | MemoryObjectStore i => CMem i (obj_path k)
  | PrefixedObjectStore inner p => target inner (prefixed_key p k)
  end.

(** Where a store works: the local one for plain names, with no directory under an
    object's name; an in-memory one that was made. *)
Fixpoint apt `{Backend} (s : store) (k : string) (w : World) : Prop :=
  match s with
  | LocalObjectStore root => plain_name k = true /\ flat root w
  | S3ObjectStore => True
  | MemoryObjectStore i => in_memory i w
  | PrefixedObjectStore inner p => apt inner (prefixed_key p k) w
  end.

(** Whether a second write of a key is skipped ([if !p.exists()]). *)
Fixpoint first_wins `{Backend} (s : store) : bool :=
  match s with
  | LocalObjectStore _ => true
  | S3ObjectStore | MemoryObjectStore _ => false
  | PrefixedObjectStore inner _ => first_wins inner
  end.

(** Whether an object can be written where nothing is yet. *)
Fixpoint room `{Backend} (s : store) (k : string) (w : World) : Prop :=
  match s with
  | LocalObjectStore root => plain_name k = true /\ disk w !! resolve (path_join root k) = None
  | S3ObjectStore => True
  | MemoryObjectStore i => in_memory i w
  | PrefixedObjectStore inner p => room inner (prefixed_key p k) w
  end.

(** ** Lemmas *)

Lemma clean_seg_plain s : clean_seg s = true -> plain_name s = true.
Proof. unfold clean_seg. by intros [? _]%andb_true_iff. Qed.

Lemma plain_no_slash s : plain_name s = true -> str_mem "/" s = false.
Proof. unfold plain_name. rewrite andb_true_iff, !negb_true_iff. by intros [_ ?]. Qed.

Lemma clean_key_join a b : clean_seg a = true -> clean_key b = true -> clean_key (a +:+ String "/" b) = true.
Proof.
  intros Ha Hb. unfold clean_key in *. rewrite str_split_app, forallb_app, Hb, andb_true_r.
  rewrite str_split_single by (by apply plain_no_slash, clean_seg_plain). cbn. by rewrite Ha.
Qed.

Lemma clean_seg_key s : clean_seg s = true -> clean_key s = true.
Proof.
  intros H. unfold clean_key. rewrite str_split_single by (by apply plain_no_slash, clean_seg_plain).
  cbn. by rewrite H.
Qed.

Lemma trim_start_no_slash k : plain_name k = true -> trim_start_matches "/" k = k.
Proof.
  intros H%plain_no_slash. destruct k as [|c k]; [done|]. cbn in H |- *.
  by apply orb_false_iff in H as [-> _].
Qed.

Lemma prefixed_key_plain p k : plain_name k = true -> prefixed_key p k = p +:+ k.
Proof. intros H. unfold prefixed_key. by rewrite trim_start_no_slash. Qed.

Lemma str_app_inj p a b : p +:+ a = p +:+ b -> a = b.
Proof.
  intros E. apply (f_equal as_bytes) in E. rewrite !as_bytes_app in E.
  apply (inj (app (as_bytes p))) in E. by apply (inj as_bytes).
Qed.

Lemma hex_clean_seg s : s <> EmptyString -> str_all is_hexdigit s = true -> clean_seg s = true.
Proof.
  intros Hn H. assert (str_all clean_char s = true) as Hc.
  { eapply str_all_impl; [|exact H]. intros c. unfold is_hexdigit, clean_char, is_alnum, is_lower, is_upper, is_digit. lia. }
  unfold clean_seg, plain_name. rewrite Hc, (str_all_not_mem is_hexdigit "/" s) by done.
  rewrite bool_decide_eq_false_2; [done|]. intros [->|[->| ->]]; done.
Qed.

Lemma fold_enter_clean abs cs st :
  forallb plain_name cs = true -> fold_left (enter abs) cs st = rev cs ++ st.
Proof.
  revert st. induction cs as [|c cs IH]; intros st H; [done|]. cbn in H |- *.
  apply andb_true_iff in H as [Hc H]. rewrite IH by done.
  pose proof (enter_plain abs st c Hc) as E. unfold enter_all in E.
  rewrite str_split_single in E by (by apply plain_no_slash). cbn in E. rewrite E.
  by rewrite <- app_assoc.
Qed.

Lemma clean_key_plain k : clean_key k = true -> forallb plain_name (str_split "/" k) = true.
Proof.
  unfold clean_key. rewrite !forallb_forall. intros H x Hx. by apply clean_seg_plain, H.
Qed.

Lemma clean_key_relative k : clean_key k = true -> is_absolute k = false.
Proof.
  intros H. unfold is_absolute, starts_with. destruct k as [|c k]; [done|]. cbn [strip_prefix].
  destruct (Ascii.eqb_spec "/" c) as [<-|]; [|done]. by cbn in H.
Qed.

Lemma resolve_join_clean root k :
  clean_key k = true ->
  resolve (path_join root k) = (fst (resolve root), snd (resolve root) ++ str_split "/" k).
Proof.
  intros H. rewrite resolve_join by (by apply clean_key_relative). unfold enter_all.
  rewrite fold_enter_clean by (by apply clean_key_plain).
  by rewrite rev_app_distr, !rev_involutive.
Qed.

(** Dispatch and unfold the stores' methods everywhere. *)
Ltac store_unfold :=
  cbn [put get exists_ store_delete target] in *;
  unfold local_put, s3_put, memory_put, local_get, s3_get, memory_get,
    local_exists, s3_exists, memory_exists, local_delete, s3_delete, memory_delete in *.

Section StoreFacts.
Context `{BackendLaws}.

Lemma mem_at_set_ne i j b w : j <> i -> mem_at j (set_mem i b w) = mem_at j w.
Proof.
  intros Hne. unfold mem_at, set_mem. cbn [mems]. rewrite !nth_lookup.
  by rewrite list_lookup_insert_ne.
Qed.

Lemma mem_at_set i b w : in_memory i w -> mem_at i (set_mem i b w) = b.
Proof.
  intros Hi. unfold mem_at, set_mem. cbn [mems]. rewrite nth_lookup.
  by rewrite list_lookup_insert_eq.
Qed.

Lemma mem_at_set_out i b w : ~ in_memory i w -> set_mem i b w = w.
Proof.
  intros Hi. unfold set_mem, in_memory in *. rewrite list_insert_ge by lia. by destruct w.
Qed.

(** From [w] to [w'] nothing changed but what is kept at [c]. *)
Definition only_at (c : cell) (w w' : World) : Prop :=
  match c with
  | CDisk l => bucket w' = bucket w /\ mems w' = mems w /\
      forall q, resolve q <> l -> fs_read (disk w') q = fs_read (disk w) q
  | CBucket p => disk w' = disk w /\ mems w' = mems w /\
      forall q, q <> p -> b_get q (bucket w') = b_get q (bucket w)
  | CMem i p => disk w' = disk w /\ bucket w' = bucket w /\
      (forall j, j <> i -> mem_at j w' = mem_at j w) /\
      forall q, q <> p -> b_get q (mem_at i w') = b_get q (mem_at i w)
  end.

Lemma only_at_refl c w : only_at c w w.
Proof. by destruct c. Qed.

Lemma only_at_frame c w w' s k : only_at c w w' -> target s k <> c -> get s k w' = get s k w.
Proof.
  intros Ho. revert k. induction s as [root| |j|inner IH p]; intros k Hne; store_unfold; [| | |by apply IH].
  all: destruct c as [l|p|i p]; destruct Ho as (E1 & E2 & Ho).
  all: try (unfold mem_at; by rewrite ?E1, ?E2).
  - apply Ho. congruence.
  - apply Ho. congruence.
  - destruct Ho as [Hj Hi]. destruct (decide (j = i)) as [->|Hji]; [|by rewrite Hj]. apply Hi. congruence.
Qed.

Lemma only_at_mem i p b w :
  (forall q, q <> p -> b_get q b = b_get q (mem_at i w)) -> only_at (CMem i p) w (set_mem i b w).
Proof.
  intros Hb. split_and!; [done..|intros j Hj; by apply mem_at_set_ne|]. intros q Hq.
  destruct (decide (i < length (mems w))%nat) as [Hi|Hi]; [|by rewrite mem_at_set_out]. rewrite mem_at_set by done. by apply Hb.
Qed.

(** Writing or deleting one object leaves every object kept elsewhere as it was. *)
Lemma put_only s k b r w w' : put s k b w = (r, w') -> only_at (target s k) w w'.
Proof.
  revert k. induction s as [root| |i|inner IH p]; intros k E; store_unfold; [| | |by apply IH].
  - destruct (create_dir_all root (disk w)) as [d|] eqn:Ed; [|simplify_eq; apply only_at_refl].
    pose proof (fun q => create_dir_all_read _ _ _ q Ed) as Hr.
    destruct (fs_exists _ _); [by simplify_eq|]. destruct (fs_write _ _ _) eqn:Ew; simplify_eq; [|done].
    split_and!; [done..|]. intros q Hq. rewrite <- Hr. by eapply fs_read_write_ne.
  - destruct (b_put _ _ _) as [x b'] eqn:Eb; simplify_eq.
    split_and!; [done..|]. intros q Hq. cbn [bucket set_bucket]. change b' with (snd (r, b')). rewrite <- Eb. by apply b_get_put_ne.
  - destruct (b_put _ _ _) as [x b'] eqn:Eb; simplify_eq.
    apply only_at_mem. intros q Hq. change b' with (snd (r, b')). rewrite <- Eb. by apply b_get_put_ne.
Qed.

Lemma delete_only s k r w w' : store_delete s k w = (r, w') -> only_at (target s k) w w'.
Proof.
  revert k. induction s as [root| |i|inner IH p]; intros k E; store_unfold; [| | |by apply IH].
  - destruct (fs_remove _ _) eqn:Er; simplify_eq; [|apply only_at_refl].
    split_and!; [done..|]. intros q Hq. by eapply fs_read_remove_ne.
  - destruct (b_delete _ _) as [x b'] eqn:Eb; simplify_eq.
    split_and!; [done..|]. intros q Hq. cbn [bucket set_bucket]. change b' with (snd (r, b')). rewrite <- Eb. by apply b_get_delete_ne.
  - destruct (b_delete _ _) as [x b'] eqn:Eb; simplify_eq.
    apply only_at_mem. intros q Hq. change b' with (snd (r, b')). rewrite <- Eb. by apply b_get_delete_ne.
Qed.

Lemma put_frame s s' k k' b r w w' :
  put s k b w = (r, w') -> target s k <> target s' k' -> get s' k' w' = get s' k' w.
Proof. intros E Hne. eapply only_at_frame; [by eapply put_only|congruence]. Qed.

Lemma target_local_inj root k k' :
  plain_name k = true -> plain_name k' = true ->
  target (LocalObjectStore root) k = target (LocalObjectStore root) k' -> k = k'.
Proof.
  cbn [target]. intros Hk Hk' E. apply (resolve_join_plain_inj root); [done..|]. congruence.
Qed.

Lemma create_dir_all_plain p n fs fs' :
  plain_name n = true -> create_dir_all p fs = Some fs' ->
  fs' !! resolve (path_join p n) = fs !! resolve (path_join p n).
Proof.
  intros Hn E. destruct (mkdirs_spec _ _ _ _ _ E) as (_ & _ & Hout & _). apply Hout.
  rewrite resolve_join_plain by done. cbn [fst snd app]. intros (k & _ & Ek).
  apply (f_equal length) in Ek. rewrite length_app, length_take in Ek. cbn in Ek. lia.
Qed.

Lemma flat_not_dir root k w : flat root w -> plain_name k = true -> fs_is_dir (disk w) (path_join root k) = false.
Proof.
  intros Hf Hk. unfold fs_is_dir, is_dir_at. rewrite plain_not_dots by done.
  specialize (Hf k Hk). by destruct (disk w !! _) as [[]|].
Qed.

Lemma flat_put root k b w r w' :
  flat root w -> plain_name k = true -> put (LocalObjectStore root) k b w = (r, w') -> flat root w'.
Proof.
  intros Hf Hk E n Hn. store_unfold.
  destruct (create_dir_all root (disk w)) as [d|] eqn:Ed; [|simplify_eq; by apply Hf].
  pose proof (create_dir_all_plain _ _ _ _ Hn Ed) as Hl. specialize (Hf n Hn). rewrite <- Hl in Hf.
  destruct (fs_exists _ _); [by simplify_eq|].
  destruct (fs_write _ _ _) eqn:Ew; simplify_eq; [|done]. cbn [disk set_disk].
  unfold fs_write in Ew. repeat case_match; simplify_eq.
  destruct (decide (resolve (path_join root n) = resolve (path_join root k))) as [->|Hne];
    [by rewrite lookup_insert_eq | by rewrite lookup_insert_ne].
Qed.

Lemma apt_put s k b w r w' : apt s k w -> put s k b w = (r, w') -> apt s k w'.
Proof.
  revert k. induction s as [root| |i|inner IH p]; intros k Ha E; cbn [apt] in *; [|done| |by eapply IH].
  - split; [apply Ha|]. by eapply flat_put; [apply Ha..|exact E].
  - store_unfold. destruct (b_put _ _ _). simplify_eq. unfold in_memory, set_mem in *. cbn [mems]. by rewrite length_insert.
Qed.

(** What is read after a write, the failed ones included. *)
Lemma get_put s k b w r w' : apt s k w -> put s k b w = (r, w') ->
  match r with
  | Ok _ => get s k w' = Some (if first_wins s then default b (get s k w) else b)
  | Err _ => get s k w' = get s k w \/ (first_wins s = false /\ get s k w' = Some b)
  end.
Proof.
  revert k. induction s as [root| |i|inner IH p]; intros k Ha E; cbn [apt first_wins] in *; [| | |by apply IH].
  - destruct Ha as [Hk Hf]. store_unfold.
    destruct (create_dir_all root (disk w)) as [d|] eqn:Ed; [|simplify_eq; by left].
    pose proof (create_dir_all_read _ _ _ (path_join root k) Ed) as Hr.
    pose proof (create_dir_all_plain _ _ _ _ Hk Ed) as Hl.
    assert (fs_is_dir d (path_join root k) = false) as Hx.
    { pose proof (flat_not_dir _ _ _ Hf Hk) as Hnd. revert Hnd. unfold fs_is_dir, is_dir_at.
      rewrite plain_not_dots by done. by rewrite Hl. }
    unfold fs_exists in E. rewrite Hx, orb_false_r in E. unfold fs_is_file in E. rewrite Hr in E.
    destruct (fs_read (disk w) (path_join root k)) as [b0|] eqn:Er; [simplify_eq; cbn; by rewrite Hr|].
    destruct (fs_write _ _ _) eqn:Ew; simplify_eq; [by eapply fs_read_write|left; cbn; by rewrite Hr].
  - store_unfold. destruct (b_put _ _ _) as [x b'] eqn:Eb. simplify_eq. cbn [bucket set_bucket].
    destruct r as [[]|e]; [by eapply b_get_put|]. destruct (b_get_put_err _ _ _ _ _ Eb); auto.
  - store_unfold. destruct (b_put _ _ _) as [x b'] eqn:Eb. simplify_eq. rewrite mem_at_set by done.
    destruct r as [[]|e]; [by eapply b_get_put|]. destruct (b_get_put_err _ _ _ _ _ Eb); auto.
Qed.

Lemma get_delete s k w r w' : apt s k w -> store_delete s k w = (r, w') ->
  match r with
  | Ok _ => get s k w' = None
  | Err _ => get s k w' = get s k w \/ get s k w' = None
  end.
Proof.
  revert k. induction s as [root| |i|inner IH p]; intros k Ha E; cbn [apt] in *; [| | |by apply IH]; store_unfold.
  - destruct (fs_remove _ _) as [d|] eqn:Er; simplify_eq; [|by left]. cbn [disk set_disk].
    unfold fs_remove in Er. repeat case_match; simplify_eq. unfold fs_read. by rewrite lookup_delete_eq.
  - destruct (b_delete _ _) as [x b'] eqn:Eb. simplify_eq. cbn [bucket set_bucket].
    destruct r as [[]|e]; [by eapply b_get_delete|by eapply b_get_delete_err].
  - destruct (b_delete _ _) as [x b'] eqn:Eb. simplify_eq. rewrite mem_at_set by done.
    destruct r as [[]|e]; [by eapply b_get_delete|by eapply b_get_delete_err].
Qed.

(** [exists] and [get] agree. *)
Lemma exists_get s k w : apt s k w -> exists_ s k w = true <-> is_Some (get s k w).
Proof.
  revert k. induction s as [root| |i|inner IH p]; intros k Ha; cbn [apt] in *; [| | |by apply IH]; store_unfold.
  - destruct Ha as [Hk Hf]. unfold fs_exists. rewrite (flat_not_dir _ _ _ Hf Hk), orb_false_r.
    unfold fs_is_file. destruct (fs_read _ _); [by split; [eexists|]|]. split; [done|]. by intros [? ?].
  - apply b_head_get.
  - apply b_head_get.
Qed.

(** What is written where there was room is read back. *)
Lemma put_room s k b w w' : room s k w -> put s k b w = (Ok tt, w') -> get s k w' = Some b.
Proof.
  revert k. induction s as [root| |i|inner IH p]; intros k Hr E; cbn [room] in Hr; store_unfold; [| | |by eapply IH].
  - destruct Hr as [Hk Hn]. destruct (create_dir_all root (disk w)) as [d|] eqn:Ed; [|done].
    pose proof (create_dir_all_plain _ _ _ _ Hk Ed) as Hl. rewrite Hn in Hl.
    assert (fs_exists d (path_join root k) = false) as Hx.
    { unfold fs_exists, fs_is_file, fs_read, fs_is_dir, is_dir_at. by rewrite Hl, plain_not_dots. }
    rewrite Hx in E. destruct (fs_write _ _ _) eqn:Ew; simplify_eq. by eapply fs_read_write.
  - destruct (b_put _ _ _) as [x b'] eqn:Eb; simplify_eq. by eapply b_get_put.
  - destruct (b_put _ _ _) as [x b'] eqn:Eb; simplify_eq. rewrite mem_at_set by done. by eapply b_get_put.
Qed.

(** A change to the disk elsewhere does not matter to an object. *)
Lemma elsewhere s k w w' :
  bucket w' = bucket w -> mems w' = mems w -> (forall l, target s k = CDisk l -> disk w' !! l = disk w !! l) ->
  get s k w' = get s k w /\ (room s k w -> room s k w').
Proof.
  intros Hb Hm. revert k. induction s as [root| |i|inner IH p]; intros k Hd; cbn [room]; store_unfold.
  - unfold fs_read. by rewrite (Hd _ eq_refl).
  - by rewrite Hb.
  - unfold mem_at, in_memory. by rewrite Hm.
  - by apply IH.
Qed.

Lemma tenant_prefix_clean d k :
  clean_seg d = true -> clean_seg k = true -> clean_key (("t/" +:+ d +:+ "/objects/") +:+ k) = true.
Proof.
  intros Hd Hk. rewrite !str_app_assoc.
  change ("t/" +:+ d +:+ "/objects/" +:+ k) with ("t" +:+ String "/" (d +:+ String "/" ("objects" +:+ String "/" k))).
  apply clean_key_join; [done|]. apply clean_key_join; [done|].
  apply clean_key_join; [done|]. by apply clean_seg_key.
Qed.

Lemma ends_with_slash s : ends_with "/" (s +:+ "/") = true.
Proof.
  unfold ends_with. unfold str_rev at 2. rewrite as_bytes_app, rev_app_distr.
  change (rev (as_bytes "/") ++ rev (as_bytes s)) with ("/"%char :: rev (as_bytes s)).
  done.
Qed.

Lemma prefixed_new_objects inner d :
  prefixed_new inner ("t/" +:+ d +:+ "/objects") = PrefixedObjectStore inner ("t/" +:+ d +:+ "/objects/").
Proof.
  unfold prefixed_new.
  assert (ends_with "/" ("t/" +:+ d +:+ "/objects") = false) as ->.
  { unfold ends_with. unfold str_rev at 2. rewrite !as_bytes_app, !rev_app_distr, <- app_assoc.
    done. }
  rewrite orb_false_r. change (str_len ("t/" +:+ d +:+ "/objects") =? 0) with false. cbv iota.
  f_equal. rewrite !str_app_assoc. done.
Qed.
End StoreFacts.

(** ** A reference backend *)
Module RefBackend.
#[global] Instance map_backend : Backend := {|
  bstate := gmap string bytes;
  b_empty := ∅;
  obj_path k := k;
  b_put p x m := (Ok tt, <[p := x]> m);
  b_get p m := m !! p;
  b_head p m := bool_decide (is_Some (m !! p));
  b_delete p m := (Ok tt, delete p m);
|}.

#[global] Instance map_backend_laws : BackendLaws.
Proof.
  split; cbn [obj_path b_get b_empty b_put b_head b_delete map_backend snd]; try done.
  - intros p b. apply bool_decide_eq_true.
  - intros p x b b' [= <-]. apply lookup_insert_eq.
  - intros p q x b Hne. by rewrite lookup_insert_ne.
  - intros p b b' [= <-]. apply lookup_delete_eq.
  - intros p q b Hne. by rewrite lookup_delete_ne.
Qed.
End RefBackend.

(** ** Properties *)


Definition demo_world : World := mkWorld ∅ b_empty [].
Definition demo_local : store := LocalObjectStore "/srv/objects".
Definition demo_world1 : World := snd (put demo_local "abc" (as_bytes "hello") demo_world).


(** Writing an object that exists: the local store skips the write and keeps
    the first content, while the S3 and in-memory stores replace it, so the
    trait's "idempotent: skipped if it exists" holds for the local store only. *)
Theorem put_existing `{BackendLaws} root i k b b0 w :
  plain_name k = true ->
  (flat root w -> get (LocalObjectStore root) k w = Some b0 ->
   get (LocalObjectStore root) k (snd (put (LocalObjectStore root) k b w)) = Some b0) /\
  (forall w', put S3ObjectStore k b w = (Ok tt, w') -> get S3ObjectStore k w' = Some b) /\
  (forall w', in_memory i w -> put (MemoryObjectStore i) k b w = (Ok tt, w') ->
   get (MemoryObjectStore i) k w' = Some b).
Proof.
  intros Hk. split_and!.
  - intros Hf Hg. store_unfold. destruct (create_dir_all root (disk w)) as [d|] eqn:Ed; [|done].
    assert (fs_exists d (path_join root k) = true) as ->.
    { unfold fs_exists, fs_is_file. by rewrite (create_dir_all_read _ _ _ _ Ed), Hg. }
    cbn [snd set_disk disk]. by rewrite (create_dir_all_read _ _ _ _ Ed).
  - intros w' E. store_unfold. destruct (b_put _ _ _) as [x b'] eqn:Eb; simplify_eq.
    by apply b_get_put in Eb.
  - intros w' Hi E. store_unfold. destruct (b_put _ _ _) as [x b'] eqn:Eb; simplify_eq.
    rewrite mem_at_set by done. by apply b_get_put in Eb.
Qed.

Definition demo_bucket1 : World := snd (put S3ObjectStore "k" (as_bytes "1") demo_world).
Definition demo_bucket2 : World := snd (put S3ObjectStore "k" (as_bytes "2") demo_bucket1).

Lemma put_existing_witness :
  get S3ObjectStore "k" demo_bucket1 = Some (as_bytes "1") /\
  get S3ObjectStore "k" demo_bucket2 = Some (as_bytes "2").
Proof.
  split; [vm_compute; reflexivity|].
  refine (proj1 (proj2 (put_existing "/srv" 0 "k" (as_bytes "2") (as_bytes "1") demo_bucket1 _)) demo_bucket2 _).
  - reflexivity.
  - apply fst_pair. vm_compute. reflexivity.
Defined.

(** When S3 is configured but cannot be initialised, the tenant's store falls
    back to the local disk but keeps the S3 key prefix; its directories are never
    made, so every write to such a tenant fails. *)
Theorem s3_fallback_put_fails `{BackendLaws} build e root d w k b err :
  e "NSMT_OBJECT_STORE" = Some "s3" -> s3_from_env build e = Err err ->
  clean_seg d = true -> clean_seg k = true ->
  (forall more, disk w !! (fst (resolve root), snd (resolve root) ++ "t" :: more) = None) ->
  is_ok (fst (put (fst (from_env_tenant build e root d w)) k b w)) = false.
Proof.
  intros He Hs Hd Hk Hnone. unfold from_env_tenant, from_env_or. rewrite He.
  rewrite decide_True by done. rewrite Hs, decide_True by (by left). cbn [fst].
  rewrite prefixed_new_objects. store_unfold. rewrite prefixed_key_plain by (by apply clean_seg_plain).
  destruct (create_dir_all root (disk w)) as [fs|] eqn:Ed; [|done].
  pose proof (tenant_prefix_clean d k Hd Hk) as Hc.
  set (key := ("t/" +:+ d +:+ "/objects/") +:+ k) in *.
  assert (str_split "/" key = ["t"; d; "objects"; k]) as Esp.
  { unfold key. rewrite !str_app_assoc.
    change ("t/" +:+ d +:+ "/objects/" +:+ k) with
      ("t" +:+ String "/" (d +:+ String "/" ("objects" +:+ String "/" k))).
    rewrite !str_split_app. rewrite !str_split_single; try done; by apply plain_no_slash, clean_seg_plain. }
  pose proof (resolve_join_clean root key Hc) as Er. rewrite Esp in Er.
  assert (forall more, fs !! (fst (resolve root), snd (resolve root) ++ "t" :: more) = None) as Hn.
  { intros more. destruct (mkdirs_spec _ _ _ _ _ Ed) as (_ & _ & Hout & _). rewrite Hout; [by apply Hnone|].
    cbn [fst snd app]. intros (n & _ & En). apply (f_equal length) in En.
    rewrite length_app, length_take in En. cbn in En. lia. }
  assert (forall more, is_dir_at fs (fst (resolve root), snd (resolve root) ++ "t" :: more) = false) as Hnd.
  { intros more. unfold is_dir_at. rewrite Hn. cbn [snd]. rewrite forallb_app. cbn [forallb].
    by rewrite bool_decide_eq_false_2, andb_false_r. }
  unfold fs_exists, fs_is_file, fs_read, fs_is_dir, fs_write. rewrite Er, Hn.
  rewrite (Hnd [d; "objects"; k]). cbn [orb].
  unfold parent_loc. cbn [fst snd].
  change ["t"; d; "objects"; k] with (["t"; d; "objects"] ++ [k]).
  rewrite app_assoc, removelast_last. by rewrite (Hnd [d; "objects"]).
Qed.

Lemma s3_fallback_put_fails_witness :
  is_ok (fst (put (fst (from_env_tenant (fun _ => Ok tt)
    (fun v => if decide (v = "NSMT_OBJECT_STORE") then Some "s3" else None) "/srv/objects" "ser163" demo_world))
    "abc" (as_bytes "x") demo_world)) = false.
Proof.
  refine (s3_fallback_put_fails _ _ _ _ _ _ _ "NSMT_S3_ENDPOINT 未设置" _ _ _ _ _).
  - reflexivity.
  - reflexivity.
  - reflexivity.
  - reflexivity.
  - intros more. apply lookup_empty.
Defined.
