(* ===== verification/Locks.v ===== *)
(** * Lease locks

    [LockRegistry] of [nsmt-server/src/fs.rs].  Every method takes the write (or
    read) lock for its whole body, so each is one atomic step on the table; the
    clock reading is an argument.  [now_ms() + ttl_ms] is a 64-bit sum that wraps
    in a release build. *)

From S2P Require Import Prelude.

Record LockEntry : Set := mkLockEntry { holder : string; expires_at : Z }.

#[export] Instance LockEntry_eq_dec : EqDecision LockEntry.
Proof. solve_decision. Defined.

(** [LockRegistry::locks], by path. *)
Abbreviation LockTable := (gmap string LockEntry).

Definition acquire (path requester : string) (ttl_ms now : Z) (g : LockTable)
    : result string Z * LockTable :=
  let grant :=
    let exp := wrap64 (now + ttl_ms) in
    (Ok exp, <[path := mkLockEntry requester exp]> g) in
  match g !! path with
  | Some e =>
      if (expires_at e >? now) && negb (bool_decide (holder e = requester))
      then (Err (holder e), g)
      else grant
  | None => grant
  end.

Definition renew (path requester : string) (ttl_ms now : Z) (g : LockTable) : bool * LockTable :=
  match g !! path with
  | Some e =>
      if decide (holder e = requester)
      then (true, <[path := mkLockEntry (holder e) (wrap64 (now + ttl_ms))]> g)
      else (false, g)
  | None => (false, g)
  end.

Definition release (path requester : string) (g : LockTable) : bool * LockTable :=
  match g !! path with
  | Some e => if decide (holder e = requester) then (true, delete path g) else (false, g)
  | None => (false, g)
  end.

Definition lock_holder (path : string) (g : LockTable) : option string := holder <$> g !! path.

Definition snapshot (g : LockTable) : gmap string string := holder <$> g.

(** One round of [cleanup_loop]. *)
Definition cleanup (now : Z) (g : LockTable) : LockTable :=
  filter (fun kv => expires_at (snd kv) > now) g.

(** ** Runs

    The operations of all sessions and of the cleanup task, in the order their
    steps take the lock. *)
Inductive lock_op : Set :=
| OpAcquire (path requester : string) (ttl_ms : Z)
| OpRenew (path requester : string) (ttl_ms : Z)
| OpRelease (path requester : string)
| OpCleanup.

Definition lock_step (now : Z) (op : lock_op) (g : LockTable) : LockTable :=
  match op with
  | OpAcquire p r ttl => snd (acquire p r ttl now g)
  | OpRenew p r ttl => snd (renew p r ttl now g)
  | OpRelease p r => snd (release p r g)
  | OpCleanup => cleanup now g
  end.

Fixpoint run_locks (ops : list (Z * lock_op)) (g : LockTable) : LockTable :=
  match ops with
  | [] => g
  | (now, op) :: ops' => run_locks ops' (lock_step now op g)
  end.

(** [op] is not an operation of [requester] on [path]. *)
Definition foreign (path requester : string) (op : lock_op) : Prop :=
  match op with
  | OpAcquire p r _ | OpRenew p r _ | OpRelease p r => ~ (p = path /\ r = requester)
  | OpCleanup => True
  end.

(** ** Lemmas *)

Lemma acquire_cases path requester ttl now g :
  (exists e, g !! path = Some e /\ expires_at e > now /\ holder e <> requester /\
     acquire path requester ttl now g = (Err (holder e), g)) \/
  ((forall e, g !! path = Some e -> expires_at e <= now \/ holder e = requester) /\
   acquire path requester ttl now g =
     (Ok (wrap64 (now + ttl)), <[path := mkLockEntry requester (wrap64 (now + ttl))]> g)).
Proof.
  unfold acquire. destruct (g !! path) as [e|] eqn:E.
  - destruct (expires_at e >? now) eqn:E1; cbn [andb].
    + destruct (decide (holder e = requester)) as [Hh|Hh].
      * right. rewrite bool_decide_eq_true_2 by done. split; [|done].
        intros e' [= <-]. by right.
      * left. exists e. rewrite bool_decide_eq_false_2 by done. split_and!; [done|lia|done|done].
    + right. split; [|done]. intros e' [= <-]. left. lia.
  - right. by split.
Qed.

Lemma acquire_granted path requester ttl now g exp g' :
  acquire path requester ttl now g = (Ok exp, g') ->
  exp = wrap64 (now + ttl) /\ g' = <[path := mkLockEntry requester exp]> g.
Proof.
  destruct (acquire_cases path requester ttl now g) as [(e & _ & _ & _ & ->)|[_ ->]]; [done|].
  by intros [= <- <-].
Qed.

(** A live lease survives every step that is not its holder's own. *)
Lemma lease_step path r e now op g :
  g !! path = Some e -> holder e = r -> now < expires_at e -> foreign path r op ->
  lock_step now op g !! path = Some e.
Proof.
  intros Hg Hr Hn Hf. destruct op as [p q ttl|p q ttl|p q|]; cbn [lock_step foreign] in *.
  - destruct (decide (p = path)) as [->|Hp].
    + destruct (acquire_cases path q ttl now g) as [(e' & _ & _ & _ & ->)|[Hfree _]]; [done|].
      destruct (Hfree e Hg); [lia|]. naive_solver.
    + destruct (acquire_cases p q ttl now g) as [(e' & _ & _ & _ & ->)|[_ ->]]; [done|].
      cbn [snd]. by rewrite lookup_insert_ne.
  - unfold renew. destruct (g !! p) as [e'|] eqn:E; [|done]. case_decide; [|done]. cbn [snd].
    destruct (decide (p = path)) as [->|Hp]; [|by rewrite lookup_insert_ne].
    simplify_eq. naive_solver.
  - unfold release. destruct (g !! p) as [e'|] eqn:E; [|done]. case_decide; [|done]. cbn [snd].
    destruct (decide (p = path)) as [->|Hp]; [|by rewrite lookup_delete_ne].
    simplify_eq. naive_solver.
  - apply map_lookup_filter_Some. split; [done|]. cbn. lia.
Qed.

Lemma lease_run path r e ops g :
  g !! path = Some e -> holder e = r ->
  Forall (fun o => fst o < expires_at e /\ foreign path r (snd o)) ops ->
  run_locks ops g !! path = Some e.
Proof.
  intros Hg Hr H. revert g Hg. induction H as [|[now op] ops [Hn Hf] _ IH]; intros g Hg; [done|].
  cbn [run_locks fst snd] in *. apply IH. by eapply lease_step.
Qed.

(** A requester that does not hold the lock neither releases nor renews it. *)
Lemma release_renew_nonholder path r now ttl g :
  lock_holder path g <> Some r -> release path r g = (false, g) /\ renew path r ttl now g = (false, g).
Proof.
  unfold lock_holder. intros Hh. unfold release, renew. destruct (g !! path) as [e|]; [|done].
  rewrite !decide_False; [done| |]; intros <-; by apply Hh.
Qed.

(** ** Properties *)

(** C11: Mutual exclusion of leases, under every interleaving: once a requester
    was granted a lock until [exp], then whatever the other sessions and the
    cleanup task do before [exp], any other requester that tries is denied and
    told the holder, and the holder can still renew; the lock passes on only
    when the lease has run out or its holder gave it up. *)
Theorem lock_mutual_exclusion path r ttl t0 g exp g1 ops other ttl' t :
  acquire path r ttl t0 g = (Ok exp, g1) ->
  Forall (fun o => fst o < exp /\ foreign path r (snd o)) ops ->
  other <> r -> t < exp ->
  fst (acquire path other ttl' t (run_locks ops g1)) = Err r /\
  snd (acquire path other ttl' t (run_locks ops g1)) = run_locks ops g1 /\
  fst (renew path r ttl' t (run_locks ops g1)) = true /\
  lock_holder path (run_locks ops g1) = Some r.
Proof.
  intros [-> ->]%acquire_granted Hops Hne Ht. set (exp := wrap64 (t0 + ttl)) in *.
  assert (run_locks ops (<[path := mkLockEntry r exp]> g) !! path = Some (mkLockEntry r exp)) as Hl.
  { apply (lease_run path r); [apply lookup_insert_eq | done | done]. }
  unfold acquire, renew, lock_holder. rewrite Hl. cbn [holder expires_at].
  rewrite bool_decide_eq_false_2, decide_True by done.
  destruct (exp >? t) eqn:E; [done|lia].
Qed.

Lemma lock_mutual_exclusion_witness :
  fst (acquire "docs/plan.md" "hermes" 30000 1500
        (run_locks [(1200, OpAcquire "docs/plan.md" "hermes" 10); (1300, OpCleanup);
                    (1400, OpRelease "docs/plan.md" "hermes")]
           (snd (acquire "docs/plan.md" "maka" 30000 1000 ∅)))) = Err "maka".
Proof.
  refine (proj1 (lock_mutual_exclusion "docs/plan.md" "maka" 30000 1000 ∅ 31000 _ _ "hermes" 30000 1500 _ _ _ _)).
  - reflexivity.
  - repeat constructor; cbn; intros; try lia; intros [_ ?]; discriminate.
  - discriminate.
  - lia.
Defined.

(** What [acquire] does: it is refused exactly when another requester's lease
    has not expired, naming that holder and changing nothing; otherwise it is
    granted until [now + ttl] (64-bit), so an own lease is extended and a stale
    one taken over; the cleanup task never changes the answer. *)
Theorem acquire_functional path r ttl now g :
  (forall h, fst (acquire path r ttl now g) = Err h <->
     h <> r /\ exists exp, g !! path = Some (mkLockEntry h exp) /\ now < exp) /\
  (forall exp, fst (acquire path r ttl now g) = Ok exp ->
     exp = wrap64 (now + ttl) /\
     snd (acquire path r ttl now g) = <[path := mkLockEntry r exp]> g) /\
  (forall t, t <= now -> fst (acquire path r ttl now (cleanup t g)) = fst (acquire path r ttl now g)).
Proof.
  split_and!.
  - intros h. destruct (acquire_cases path r ttl now g) as [(e & He & Hx & Hh & ->)|[Hfree ->]]; cbn [fst].
    + split; [intros [= <-]|intros (_ & exp & H & _); simplify_eq; done].
      split; [done|]. exists (expires_at e). split; [by destruct e|lia].
    + split; [done|]. intros (Hne & exp & H & Hlt). destruct (Hfree _ H); cbn in *; [lia|done].
  - intros exp H. destruct (acquire path r ttl now g) as [res g'] eqn:E. cbn in H. subst res.
    by apply acquire_granted in E as [-> ->].
  - intros t Ht. unfold acquire, cleanup. rewrite map_lookup_filter.
    destruct (g !! path) as [e|]; [|done]. cbn [option_bind mbind].
    destruct (decide (expires_at e > t)) as [Hlt|Hge].
    + rewrite option_guard_True by done. cbn. by case_match.
    + rewrite option_guard_False by done. cbn. by destruct (expires_at e >? now) eqn:E; [lia|].
Qed.

(** A lease the holder releases is free for anyone, and a release, renewal or
    cleanup changes no other path and never takes a live lease from its holder:
    a foreign release or renewal is refused without effect, the cleanup removes
    exactly the expired entries. *)
Theorem release_renew_cleanup path r now ttl g :
  (forall e, g !! path = Some e -> holder e = r ->
     release path r g = (true, delete path g) /\
     forall other, fst (acquire path other ttl now (snd (release path r g))) = Ok (wrap64 (now + ttl))) /\
  (lock_holder path g <> Some r -> release path r g = (false, g) /\ renew path r ttl now g = (false, g)) /\
  (forall p e, cleanup now g !! p = Some e <-> g !! p = Some e /\ now < expires_at e) /\
  (forall p, p <> path -> snd (release path r g) !! p = g !! p /\
     snd (renew path r ttl now g) !! p = g !! p /\ snd (acquire path r ttl now g) !! p = g !! p).
Proof.
  split_and!.
  - intros e He Hr. unfold release. rewrite He, decide_True by done. split; [done|].
    intros other. unfold acquire. cbn [snd]. by rewrite lookup_delete_eq.
  - apply release_renew_nonholder.
  - intros p e. unfold cleanup. rewrite map_lookup_filter_Some. cbn. split; intros [? ?]; split; done || lia.
  - intros p Hp. unfold release, renew, acquire. split_and!; repeat case_match; cbn [snd];
      rewrite ?lookup_insert_ne, ?lookup_delete_ne by done; done.
Qed.

Lemma release_renew_cleanup_witness :
  release "a" "maka" (snd (acquire "a" "maka" 5 1 ∅)) = (true, delete "a" (snd (acquire "a" "maka" 5 1 ∅))).
Proof.
  refine (proj1 (proj1 (release_renew_cleanup "a" "maka" 2 5 _) (mkLockEntry "maka" 6) _ _)); reflexivity.
Defined.

(** A lease time taken from the request is not bounded: when [now + ttl]
    exceeds 64 bits the sum wraps, the grant is reported with an expiry before
    now, and the next requester is granted the same lock at the same moment. *)
Theorem ttl_overflow_voids_lock path r other ttl now g exp g1 :
  0 <= now < 2 ^ 64 -> 0 <= ttl < 2 ^ 64 -> now + ttl >= 2 ^ 64 ->
  acquire path r ttl now g = (Ok exp, g1) ->
  exp < now /\ is_ok (fst (acquire path other ttl now g1)) = true.
Proof.
  intros Hn Ht Ho [-> ->]%acquire_granted.
  assert (wrap64 (now + ttl) = now + ttl - 2 ^ 64) as ->.
  { unfold wrap64. symmetry. apply (Z.mod_unique _ _ 1); lia. }
  split; [lia|]. unfold acquire. rewrite lookup_insert_eq. cbn [expires_at].
  by destruct (now + ttl - 2 ^ 64 >? now) eqn:E; [lia|].
Qed.

Lemma ttl_overflow_voids_lock_witness :
  0 < 1000 /\ is_ok (fst (acquire "p" "b" (2 ^ 64 - 1) 1000 (snd (acquire "p" "a" (2 ^ 64 - 1) 1000 ∅)))) = true.
Proof.
  split; [lia|].
  refine (proj2 (ttl_overflow_voids_lock "p" "a" "b" (2 ^ 64 - 1) 1000 ∅ 999 _ _ _ _ _)); try lia.
  vm_compute. reflexivity.
Defined.
