(* ===== verification/Registry.v ===== *)
(** * Online registry

    [nsmt-server/src/registry.rs].  Every method holds the lock of the tenant
    table for its body, so each is one atomic step; [prune_loop] is two kinds of
    step, the scan for stale machines and the removal-and-announcement of one of
    them, and other sessions run in between.  A subscriber's channel is an
    unbounded queue; sending to a closed one is ignored. *)

From S2P Require Import Prelude Wire Messages.

Module Reg.

Definition HEARTBEAT_INTERVAL : Z := 10000.
Definition OFFLINE_AFTER : Z := 30000.

Record Tenant : Type := mkTenant {
  machines : gmap string MachineInfo.t;
  subscribers : list nat;
}.

Definition tenant_default : Tenant := mkTenant ∅ [].

(** The tenant table, the open channels and the number of channels made. *)
Record Registry : Type := mkRegistry {
  inner : gmap string Tenant;
  queues : gmap nat (list Frame);
  next_chan : nat;
}.

Definition registry_default : Registry := mkRegistry ∅ ∅ 0.

Definition tenant_at (d : string) (g : Registry) : Tenant := default tenant_default (inner g !! d).

Definition set_tenant (d : string) (t : Tenant) (g : Registry) : Registry :=
  mkRegistry (<[d := t]> (inner g)) (queues g) (next_chan g).

(** [machines.values().cloned().collect()], in the table's own order. *)
Definition values (m : gmap string MachineInfo.t) : list MachineInfo.t := snd <$> map_to_list m.

Definition register (d : string) (info : MachineInfo.t) (g : Registry)
    : list MachineInfo.t * Registry :=
  let t := tenant_at d g in
  let ms := <[MachineInfo.machine_id info := info]> (machines t) in
  (values ms, set_tenant d (mkTenant ms (subscribers t)) g).

(** [subscribe]: the snapshot and the channel; the sender and the receiver are
    its two ends. *)
Definition subscribe (d : string) (g : Registry) : list MachineInfo.t * nat * Registry :=
  let t := tenant_at d g in
  let c := next_chan g in
  (values (machines t), c,
   mkRegistry (<[d := mkTenant (machines t) (subscribers t ++ [c])]> (inner g))
     (<[c := []]> (queues g)) (S c)).

Definition unsubscribe (d : string) (tx : nat) (g : Registry) : Registry :=
  match inner g !! d with
  | Some t => set_tenant d (mkTenant (machines t) (filter (fun s => s <> tx) (subscribers t))) g
  | None => g
  end.

Definition set_last_seen (now : Z) (m : MachineInfo.t) : MachineInfo.t :=
  MachineInfo.mk (MachineInfo.machine_id m) (MachineInfo.agents m) (MachineInfo.addr m)
    (MachineInfo.peer_addr m) (MachineInfo.machine_pubkey m) now.

Definition heartbeat (d machine_id : string) (now : Z) (g : Registry) : Registry :=
  match inner g !! d with
  | Some t =>
      match machines t !! machine_id with
      | Some m => set_tenant d (mkTenant (<[machine_id := set_last_seen now m]> (machines t)) (subscribers t)) g
      | None => g
      end
  | None => g
  end.

(** [tx.send(frame)], ignoring a closed channel. *)
Definition chan_send (c : nat) (f : Frame) (q : gmap nat (list Frame)) : gmap nat (list Frame) :=
  alter (fun l => l ++ [f]) c q.

(** A session ends: its receiver is dropped. *)
Definition close_chan (c : nat) (g : Registry) : Registry :=
  mkRegistry (inner g) (delete c (queues g)) (next_chan g).

Definition broadcast (d : string) (f : Frame) (g : Registry) : Registry :=
  match inner g !! d with
  | Some t => mkRegistry (inner g) (fold_left (fun q c => chan_send c f q) (subscribers t) (queues g)) (next_chan g)
  | None => g
  end.

Definition broadcast_except (d : string) (f : Frame) (except : nat) (g : Registry) : Registry :=
  match inner g !! d with
  | Some t =>
      mkRegistry (inner g)
        (fold_left (fun q c => if decide (c = except) then q else chan_send c f q)
           (subscribers t) (queues g)) (next_chan g)
  | None => g
  end.

(** [now_ms().saturating_sub(30_000)] *)
Definition cutoff (now : Z) : Z := Z.max 0 (now - OFFLINE_AFTER).

(** First phase of a prune round: the stale machines. *)
Definition prune_scan (now : Z) (g : Registry) : list (string * MachineInfo.t) :=
  map_to_list (inner g) ≫= fun dt =>
    pair (fst dt) <$> filter (fun m => MachineInfo.last_seen m < cutoff now) (values (machines (snd dt))).

Section Frames.
Context `{Serde OnlineDelta.t} `{Serde OnlineList.t}.

Definition leave_frame (info : MachineInfo.t) : Frame :=
  from_json FrameType.OnlineDelta 0 (OnlineDelta.mk OnlineDeltaKind.Leave info).
Definition join_frame (info : MachineInfo.t) : Frame :=
  from_json FrameType.OnlineDelta 0 (OnlineDelta.mk OnlineDeltaKind.Join info).

(** Second phase, for one stale entry: remove it if it is still stale, and then,
    in a step of its own, announce that it left. *)
Definition prune_remove (now : Z) (d : string) (info : MachineInfo.t) (g : Registry) : Registry :=
  match inner g !! d with
  | Some t =>
      match machines t !! MachineInfo.machine_id info with
      | Some m =>
          if MachineInfo.last_seen m <? cutoff now
          then set_tenant d (mkTenant (delete (MachineInfo.machine_id info) (machines t)) (subscribers t)) g
          else g
      | None => g
      end
  | None => g
  end.

Definition prune_entry (now : Z) (e : string * MachineInfo.t) (g : Registry) : Registry :=
  broadcast (fst e) (leave_frame (snd e)) (prune_remove now (fst e) (snd e) g).

(** A round that nothing interleaves with. *)
Definition prune_round (now : Z) (g : Registry) : Registry :=
  fold_left (fun g e => prune_entry now e g) (prune_scan now g) g.

Definition online_machine (d machine_id : string) (g : Registry) : option MachineInfo.t :=
  t ← inner g !! d; machines t !! machine_id.

Definition all_online (g : Registry) : gmap string (list MachineInfo.t) :=
  (fun t => values (machines t)) <$> inner g.

Definition online_list_frame (d : string) (g : Registry) : Frame :=
  from_json FrameType.OnlineList 0
    (OnlineList.mk (default [] ((fun t => values (machines t)) <$> inner g !! d))).

(** ** Steps *)
Inductive step : Registry -> Registry -> Prop :=
| StRegister d info g : step g (snd (register d info g))
| StSubscribe d g : step g (snd (subscribe d g))
| StUnsubscribe d c g : step g (unsubscribe d c g)
| StHeartbeat d m now g : step g (heartbeat d m now g)
| StBroadcast d f g : step g (broadcast d f g)
| StBroadcastExcept d f c g : step g (broadcast_except d f c g)
| StPruneRemove now d m g : step g (prune_remove now d m g)
| StClose c g : step g (close_chan c g).

Definition reachable : Registry -> Prop := rtc step registry_default.
End Frames.

(** Every entry is filed under its own machine id; a channel is subscribed at
    most once, to one tenant, and was made before. *)
Record registry_wf (g : Registry) : Prop := {
  wf_keys : forall d t k m, inner g !! d = Some t -> machines t !! k = Some m ->
    MachineInfo.machine_id m = k;
  wf_nodup : forall d t, inner g !! d = Some t -> NoDup (subscribers t);
  wf_fresh : forall d t c, inner g !! d = Some t -> c ∈ subscribers t -> (c < next_chan g)%nat;
  wf_one : forall d d' t t' c, inner g !! d = Some t -> inner g !! d' = Some t' ->
    c ∈ subscribers t -> c ∈ subscribers t' -> d = d';
}.
End Reg.

Import Reg.

(** ** Lemmas *)

Lemma fold_send_lookup f l q c :
  NoDup l ->
  fold_left (fun q c => chan_send c f q) l q !! c =
    (if decide (c ∈ l) then (fun x => x ++ [f]) <$> q !! c else q !! c).
Proof.
  intros Hn. revert q. induction Hn as [|c' l Hc Hn IH]; intros q; cbn [fold_left].
  { by rewrite decide_False by set_solver. }
  rewrite IH. unfold chan_send. destruct (decide (c = c')) as [->|Hne].
  - rewrite decide_False, decide_True by set_solver. by rewrite lookup_alter_eq.
  - rewrite lookup_alter_ne by done. case_decide as H1; case_decide as H2; set_solver.
Qed.

Lemma fold_send_except_lookup f x l q c :
  NoDup l ->
  fold_left (fun q c => if decide (c = x) then q else chan_send c f q) l q !! c =
    (if decide (c ∈ l /\ c <> x) then (fun y => y ++ [f]) <$> q !! c else q !! c).
Proof.
  intros Hn. revert q. induction Hn as [|c' l Hc Hn IH]; intros q; cbn [fold_left].
  { by rewrite decide_False by set_solver. }
  rewrite IH. destruct (decide (c' = x)) as [->|Hx].
  - case_decide as H1; case_decide as H2; set_solver.
  - unfold chan_send. destruct (decide (c = c')) as [->|Hne].
    + rewrite decide_False, decide_True by set_solver. by rewrite lookup_alter_eq.
    + rewrite lookup_alter_ne by done. case_decide as H1; case_decide as H2; set_solver.
Qed.

Lemma broadcast_inner d f g : inner (broadcast d f g) = inner g.
Proof. unfold broadcast. by destruct (inner g !! d). Qed.

Lemma broadcast_except_inner d f x g : inner (broadcast_except d f x g) = inner g.
Proof. unfold broadcast_except. by destruct (inner g !! d). Qed.

Lemma broadcast_next d f g : next_chan (broadcast d f g) = next_chan g.
Proof. unfold broadcast. by destruct (inner g !! d). Qed.

Lemma tenant_at_cases d g :
  (inner g !! d = Some (tenant_at d g)) \/ (inner g !! d = None /\ tenant_at d g = tenant_default).
Proof. unfold tenant_at. destruct (inner g !! d); [by left | by right]. Qed.

Lemma values_in ms m : m ∈ values ms <-> exists k, ms !! k = Some m.
Proof.
  unfold values. rewrite list_elem_of_fmap. split.
  - intros ([k m'] & -> & Hk%elem_of_map_to_list). by exists k.
  - intros [k Hk]. exists (k, m). by rewrite elem_of_map_to_list.
Qed.

(** What an update of one tenant must respect to keep the registry well formed. *)
Lemma set_tenant_wf d t g :
  registry_wf g ->
  (forall k m, machines t !! k = Some m -> MachineInfo.machine_id m = k) ->
  NoDup (subscribers t) -> (forall c, c ∈ subscribers t -> c ∈ subscribers (tenant_at d g)) ->
  registry_wf (set_tenant d t g).
Proof.
  intros [Hk Hn Hf Ho] Hk' Hn' Hs'.
  assert (forall c, c ∈ subscribers (tenant_at d g) -> exists t', inner g !! d = Some t' /\ c ∈ subscribers t') as Hold.
  { intros c Hc. destruct (tenant_at_cases d g) as [E|[_ E]]; [by eauto|]. rewrite E in Hc. set_solver. }
  split; cbn [inner next_chan set_tenant].
  - intros d' t' k m [[-> <-]|[Hne E]]%lookup_insert_Some Hm; eauto.
  - intros d' t' [[-> <-]|[Hne E]]%lookup_insert_Some; eauto.
  - intros d' t' c [[-> <-]|[Hne E]]%lookup_insert_Some Hc; [|by eauto].
    apply Hs', Hold in Hc as (t' & E & Hc). eauto.
  - intros d1 d2 t1 t2 c [[-> <-]|[Hne1 E1]]%lookup_insert_Some [[-> <-]|[Hne2 E2]]%lookup_insert_Some Hc1 Hc2;
      [done | | | by eauto].
    + apply Hs', Hold in Hc1 as (t' & E & Hc). eauto.
    + apply Hs', Hold in Hc2 as (t' & E & Hc). eauto.
Qed.

Lemma tenant_wf d g :
  registry_wf g ->
  (forall k m, machines (tenant_at d g) !! k = Some m -> MachineInfo.machine_id m = k) /\
  NoDup (subscribers (tenant_at d g)).
Proof.
  intros [Hk Hn _ _]. destruct (tenant_at_cases d g) as [E|[_ ->]]; [by eauto|].
  split; [|by constructor]. intros k m H. cbn in H. by rewrite lookup_empty in H.
Qed.

Lemma inner_tenant_at d t g : inner g !! d = Some t -> tenant_at d g = t.
Proof. unfold tenant_at. by intros ->. Qed.

Lemma subscribe_wf d g : registry_wf g -> registry_wf (snd (subscribe d g)).
Proof.
  intros Hwf. destruct (tenant_wf d g Hwf) as [Hk Hn]. destruct Hwf as [Hk0 Hn0 Hf Ho].
  assert (forall t c, inner g !! d = Some t -> c ∈ subscribers t -> (c < next_chan g)%nat) as Hd by eauto.
  assert (forall c, c ∈ subscribers (tenant_at d g) -> (c < next_chan g)%nat) as Hlt.
  { intros c Hc. destruct (tenant_at_cases d g) as [E|[_ E]]; [by eauto|]. rewrite E in Hc. set_solver. }
  cbn [subscribe snd]. split; cbn [inner next_chan].
  + intros d' t' k m [[-> <-]|[Hne E]]%lookup_insert_Some Hm; eauto.
  + intros d' t' [[-> <-]|[Hne E]]%lookup_insert_Some; [|by eauto]. cbn [subscribers].
    apply NoDup_app. split_and!; [done | | by apply NoDup_singleton].
    intros c Hc%Hlt ->%list_elem_of_singleton. lia.
  + intros d' t' c [[-> <-]|[Hne E]]%lookup_insert_Some Hc; cbn [subscribers] in Hc.
    * apply elem_of_app in Hc as [Hc%Hlt| ->%list_elem_of_singleton]; lia.
    * specialize (Hf _ _ _ E Hc). lia.
  + assert (forall d' t' c, d' <> d -> inner g !! d' = Some t' -> c ∈ subscribers t' ->
      ~ c ∈ subscribers (tenant_at d g) ++ [next_chan g]) as Hx.
    { intros d' t' c Hne E Hc [Hc'| ->%list_elem_of_singleton]%elem_of_app.
      - destruct (tenant_at_cases d g) as [E'|[_ E']]; [|rewrite E' in Hc'; set_solver].
        by specialize (Ho _ _ _ _ _ E E' Hc Hc').
      - specialize (Hf _ _ _ E Hc). lia. }
    intros d1 d2 t1 t2 c [[-> <-]|[Hne1 E1]]%lookup_insert_Some [[-> <-]|[Hne2 E2]]%lookup_insert_Some Hc1 Hc2;
      [done | | | by eauto]; exfalso; by eapply Hx.
Qed.

Lemma step_wf g g' : registry_wf g -> step g g' -> registry_wf g'.
Proof.
  intros Hwf Hs.
  assert (forall g1, inner g1 = inner g -> next_chan g1 = next_chan g -> registry_wf g1) as Hsame.
  { intros g1 E1 E2. destruct Hwf as [Hk Hn Hf Ho]. split; rewrite ?E1, ?E2; eauto. }
  destruct Hs as [d info g|d g|d c g|d m now g|d f g|d f c g|now d info g|c g].
  - destruct (tenant_wf d g Hwf) as [Hk Hn]. cbn [register snd].
    apply set_tenant_wf; cbn [machines subscribers]; try done.
    intros k m [[<- <-]|[_ Hm]]%lookup_insert_Some; [done | by apply Hk].
  - by apply subscribe_wf.
  - unfold unsubscribe. destruct (inner g !! d) as [t|] eqn:E; [|done].
    destruct (tenant_wf d g Hwf) as [Hk Hn]. rewrite (inner_tenant_at _ _ _ E) in Hk, Hn.
    apply set_tenant_wf; cbn [machines subscribers]; [done | done | by apply NoDup_filter |].
    rewrite (inner_tenant_at _ _ _ E). by intros c0 [_ Hc]%list_elem_of_filter.
  - unfold heartbeat. destruct (inner g !! d) as [t|] eqn:E; [|done].
    destruct (machines t !! m) as [mi|] eqn:Em; [|done].
    destruct (tenant_wf d g Hwf) as [Hk Hn]. rewrite (inner_tenant_at _ _ _ E) in Hk, Hn.
    apply set_tenant_wf; cbn [machines subscribers]; [done | | done |].
    + intros k m' [[<- <-]|[_ Hm]]%lookup_insert_Some; [|by apply Hk]. cbn. by apply Hk.
    + by rewrite (inner_tenant_at _ _ _ E).
  - apply Hsame; [apply broadcast_inner|apply broadcast_next].
  - apply Hsame; [apply broadcast_except_inner|]. unfold broadcast_except. by destruct (inner g !! d).
  - unfold prune_remove. destruct (inner g !! d) as [t|] eqn:E; [|done].
    destruct (machines t !! _) as [mi|] eqn:Em; [|done]. case_match; [|done].
    destruct (tenant_wf d g Hwf) as [Hk Hn]. rewrite (inner_tenant_at _ _ _ E) in Hk, Hn.
    apply set_tenant_wf; cbn [machines subscribers]; [done | | done |].
    + intros k m' [_ Hm]%lookup_delete_Some. by apply Hk.
    + by rewrite (inner_tenant_at _ _ _ E).
  - by apply Hsame.
Qed.

Lemma registry_default_wf : registry_wf registry_default.
Proof. split; cbn; intros; by rewrite lookup_empty in *. Qed.

Lemma online_set_tenant d t g d' k :
  online_machine d' k (set_tenant d t g) =
    (if decide (d' = d) then machines t !! k else online_machine d' k g).
Proof.
  unfold online_machine, set_tenant. cbn [inner].
  case_decide as E; [subst d'; by rewrite lookup_insert_eq | by rewrite lookup_insert_ne].
Qed.

Lemma online_inner d k g g' : inner g' = inner g -> online_machine d k g' = online_machine d k g.
Proof. unfold online_machine. by intros ->. Qed.

Lemma subscribers_inner d t g d' :
  subscribers t = subscribers (tenant_at d g) ->
  subscribers (tenant_at d' (set_tenant d t g)) = subscribers (tenant_at d' g).
Proof.
  intros E. unfold tenant_at at 1, set_tenant. cbn [inner].
  destruct (decide (d' = d)) as [->|Hne]; [by rewrite lookup_insert_eq | by rewrite lookup_insert_ne].
Qed.

(** A channel outside the tenant's subscribers receives nothing. *)
Lemma fold_alter_ne (h : gmap nat (list Frame) -> nat -> gmap nat (list Frame)) l q c :
  (forall q c', c' <> c -> h q c' !! c = q !! c) -> c ∉ l -> fold_left h l q !! c = q !! c.
Proof.
  intros Hh. revert q. induction l as [|x l IH]; intros q Hc; [done|]. cbn [fold_left].
  rewrite IH, Hh by set_solver. done.
Qed.

Lemma broadcast_queue_out d f g c :
  c ∉ subscribers (tenant_at d g) -> queues (broadcast d f g) !! c = queues g !! c.
Proof.
  unfold broadcast, tenant_at. destruct (inner g !! d) as [t|]; [|done]. cbn [queues default from_option id].
  apply fold_alter_ne. intros q c' Hne. unfold chan_send. by rewrite lookup_alter_ne.
Qed.

Lemma broadcast_except_queue_out d f x g c :
  c ∉ subscribers (tenant_at d g) -> queues (broadcast_except d f x g) !! c = queues g !! c.
Proof.
  unfold broadcast_except, tenant_at. destruct (inner g !! d) as [t|]; [|done].
  cbn [queues default from_option id].
  apply fold_alter_ne. intros q c' Hne. case_decide; [done|]. unfold chan_send. by rewrite lookup_alter_ne.
Qed.

Section PruneFacts.
Context `{Serde OnlineDelta.t}.

Lemma prune_remove_online now d info g d' k :
  online_machine d' k (prune_remove now d info g) =
    (m ← online_machine d' k g;
     if bool_decide (d' = d /\ k = MachineInfo.machine_id info) && (MachineInfo.last_seen m <? cutoff now)
     then None else Some m).
Proof.
  assert (online_machine d' k g = (m ← online_machine d' k g; Some m)) as Hid
    by (by destruct (online_machine d' k g)).
  unfold prune_remove. destruct (inner g !! d) as [t|] eqn:E.
  2:{ rewrite Hid at 1. destruct (decide (d' = d)) as [->|]; [unfold online_machine; by rewrite E|].
      rewrite bool_decide_eq_false_2 by naive_solver. done. }
  destruct (machines t !! _) as [m|] eqn:Em.
  2:{ rewrite Hid at 1. destruct (decide (d' = d /\ k = MachineInfo.machine_id info)) as [[-> ->]|Hn].
      - unfold online_machine. rewrite E. cbn. by rewrite Em.
      - by rewrite bool_decide_eq_false_2. }
  destruct (MachineInfo.last_seen m <? cutoff now) eqn:El.
  - rewrite online_set_tenant. cbn [machines].
    destruct (decide (d' = d)) as [->|Hd].
    + unfold online_machine. rewrite E. cbn [mbind option_bind].
      destruct (decide (k = MachineInfo.machine_id info)) as [->|Hk].
      * rewrite lookup_delete_eq, Em. cbn. by rewrite bool_decide_eq_true_2, El.
      * rewrite lookup_delete_ne by done. rewrite bool_decide_eq_false_2 by naive_solver.
        by destruct (machines t !! k).
    + rewrite bool_decide_eq_false_2 by naive_solver. done.
  - destruct (decide (d' = d /\ k = MachineInfo.machine_id info)) as [[-> ->]|Hn].
    + unfold online_machine. rewrite E. cbn [mbind option_bind]. rewrite Em. cbn. by rewrite El, andb_false_r.
    + by rewrite bool_decide_eq_false_2.
Qed.

Lemma prune_remove_subs now d info g d' :
  subscribers (tenant_at d' (prune_remove now d info g)) = subscribers (tenant_at d' g).
Proof.
  unfold prune_remove. destruct (inner g !! d) as [t|] eqn:E; [|done].
  repeat case_match; try done. apply subscribers_inner. cbn. by rewrite (inner_tenant_at _ _ _ E).
Qed.

Lemma prune_remove_queues now d info g : queues (prune_remove now d info g) = queues g.
Proof. unfold prune_remove. by repeat case_match. Qed.

Lemma prune_entry_online now e g d k :
  online_machine d k (prune_entry now e g) = online_machine d k (prune_remove now (fst e) (snd e) g).
Proof. apply online_inner, broadcast_inner. Qed.

Lemma subscribers_broadcast d f g d' :
  subscribers (tenant_at d' (broadcast d f g)) = subscribers (tenant_at d' g).
Proof. unfold tenant_at. by rewrite broadcast_inner. Qed.

Lemma broadcast_queue d f g c :
  registry_wf g ->
  queues (broadcast d f g) !! c =
    (if decide (c ∈ subscribers (tenant_at d g)) then (fun q => q ++ [f]) <$> queues g !! c else queues g !! c).
Proof.
  intros Hwf. unfold broadcast. destruct (inner g !! d) as [t|] eqn:E; cbn [queues].
  - rewrite fold_send_lookup by (by eapply wf_nodup). by rewrite (inner_tenant_at _ _ _ E).
  - rewrite decide_False; [done|]. unfold tenant_at. rewrite E. set_solver.
Qed.

Lemma broadcast_except_queue d f x g c :
  registry_wf g ->
  queues (broadcast_except d f x g) !! c =
    (if decide (c ∈ subscribers (tenant_at d g) /\ c <> x) then (fun q => q ++ [f]) <$> queues g !! c else queues g !! c).
Proof.
  intros Hwf. unfold broadcast_except. destruct (inner g !! d) as [t|] eqn:E; cbn [queues].
  - rewrite fold_send_except_lookup by (by eapply wf_nodup). by rewrite (inner_tenant_at _ _ _ E).
  - rewrite decide_False; [done|]. unfold tenant_at. rewrite E. set_solver.
Qed.

Lemma prune_entry_wf now e g : registry_wf g -> registry_wf (prune_entry now e g).
Proof.
  intros Hwf. eapply step_wf; [|apply StBroadcast]. eapply step_wf; [done|apply StPruneRemove].
Qed.

(** Processing a list of scanned entries. *)
Definition named (d k : string) (e : string * MachineInfo.t) : bool :=
  bool_decide (d = fst e /\ k = MachineInfo.machine_id (snd e)).

Lemma prune_entries_online now L g d k :
  online_machine d k (fold_left (fun g e => prune_entry now e g) L g) =
    (m ← online_machine d k g;
     if existsb (named d k) L && (MachineInfo.last_seen m <? cutoff now) then None else Some m).
Proof.
  revert g. induction L as [|e L IH]; intros g; cbn [fold_left existsb].
  { by destruct (online_machine d k g). }
  rewrite IH, prune_entry_online, prune_remove_online. fold (named d k e).
  destruct (online_machine d k g) as [m|]; [|done]. cbn [mbind option_bind].
  destruct (named d k e), (MachineInfo.last_seen m <? cutoff now) eqn:El;
    cbn [orb andb mbind option_bind]; rewrite ?El, ?andb_false_r; done.
Qed.

Lemma prune_entries_queue now L g d c q :
  registry_wf g -> c ∈ subscribers (tenant_at d g) -> queues g !! c = Some q ->
  queues (fold_left (fun g e => prune_entry now e g) L g) !! c =
    Some (q ++ (leave_frame ∘ snd <$> filter (fun e => fst e = d) L)).
Proof.
  revert g q. induction L as [|e L IH]; intros g q Hwf Hc Hq; cbn [fold_left].
  { by rewrite app_nil_r. }
  assert (c ∈ subscribers (tenant_at d (prune_entry now e g))) as Hc'.
  { unfold prune_entry. by rewrite subscribers_broadcast, prune_remove_subs. }
  assert (queues (prune_entry now e g) !! c =
    Some (if decide (fst e = d) then q ++ [leave_frame (snd e)] else q)) as Hq'.
  { unfold prune_entry. rewrite broadcast_queue by (by eapply step_wf; [|apply StPruneRemove]).
    rewrite prune_remove_subs, prune_remove_queues, Hq. destruct (decide (fst e = d)) as [->|Hd].
    - by rewrite decide_True.
    - rewrite decide_False; [done|]. intros Hc2. apply Hd.
      destruct (tenant_at_cases d g) as [E1|[_ E1]]; [|rewrite E1 in Hc; set_solver].
      destruct (tenant_at_cases (fst e) g) as [E2|[_ E2]]; [|rewrite E2 in Hc2; set_solver].
      eapply wf_one; eauto. }
  rewrite (IH _ _ (prune_entry_wf now e g Hwf) Hc' Hq'). rewrite filter_cons.
  destruct (decide (fst e = d)); [|done]. rewrite fmap_cons, <- app_assoc. done.
Qed.

Lemma prune_scan_elem now g d m :
  (d, m) ∈ prune_scan now g <->
  exists t k, inner g !! d = Some t /\ machines t !! k = Some m /\ MachineInfo.last_seen m < cutoff now.
Proof.
  unfold prune_scan. rewrite list_elem_of_bind. split.
  - intros ([d' t] & (m' & [= -> ->] & [Hs (k & Hk)%values_in]%list_elem_of_filter)%list_elem_of_fmap & Hd%elem_of_map_to_list).
    cbn in *. eauto.
  - intros (t & k & Ht & Hk & Hs). exists (d, t). rewrite elem_of_map_to_list. split; [|done].
    cbn [fst snd]. apply list_elem_of_fmap. exists m. split; [done|]. apply list_elem_of_filter.
    split; [done|]. apply values_in. eauto.
Qed.

Lemma values_NoDup (ms : gmap string MachineInfo.t) :
  (forall k m, ms !! k = Some m -> MachineInfo.machine_id m = k) -> NoDup (values ms).
Proof.
  intros Hk. unfold values. apply NoDup_fmap_2_strong; [|apply NoDup_map_to_list].
  intros [k1 m1] [k2 m2] H1%elem_of_map_to_list H2%elem_of_map_to_list. cbn. intros ->.
  apply Hk in H1, H2. congruence.
Qed.

Lemma prune_scan_NoDup now g : registry_wf g -> NoDup (prune_scan now g).
Proof.
  intros Hwf. unfold prune_scan. apply NoDup_bind.
  - intros [d1 t1] [d2 t2] y H1%elem_of_map_to_list H2%elem_of_map_to_list.
    intros (m1 & -> & _)%list_elem_of_fmap (m2 & [= -> _] & _)%list_elem_of_fmap. cbn in *. congruence.
  - intros [d t] Ht%elem_of_map_to_list. apply NoDup_fmap; [congruence|].
    apply NoDup_filter, values_NoDup. intros k m Hm. cbn in Hm. by eapply wf_keys.
  - apply NoDup_map_to_list.
Qed.
End PruneFacts.

(** ** Properties *)

(** Whatever the order in which sessions and the prune task run, every online
    entry stays filed under its own machine id, and a channel is subscribed once
    and to one tenant only, so no tenant can ever be handed another's frames
    through it. *)
Theorem registry_invariant g : reachable g -> registry_wf g.
Proof.
  intros Hr. pose proof registry_default_wf as Hd. revert Hd.
  induction Hr as [|a b c Hab _ IH]; [done|]. intros Ha. apply IH. by eapply step_wf.
Qed.

(** A concrete codec for the messages of the demonstration runs. *)
Definition demo_codec {T} : Serde T := {| to_vec _ := []; from_slice _ := None |}.
Definition demo_info (id : string) (seen : Z) : MachineInfo.t := MachineInfo.mk id ["maka"] "" "" "" seen.
Definition demo_reg1 : Registry := snd (register "ser163" (demo_info "m1" 5) registry_default).
Definition demo_reg : Registry := snd (subscribe "ser163" demo_reg1).

Lemma registry_invariant_witness : registry_wf demo_reg.
Proof.
  apply registry_invariant. unfold reachable.
  eapply rtc_l; [apply (StRegister "ser163" (demo_info "m1" 5))|].
  eapply rtc_l; [apply (StSubscribe "ser163")|]. apply rtc_refl.
Defined.

(** A broadcast reaches every open channel of its tenant exactly once, at the
    end of the queue, and no channel of any other tenant; the variant for the
    session that caused it leaves out that session's channel only. *)
Theorem broadcast_exact d f x g c :
  registry_wf g ->
  queues (broadcast d f g) !! c =
    (if decide (c ∈ subscribers (tenant_at d g)) then (fun q => q ++ [f]) <$> queues g !! c
     else queues g !! c) /\
  queues (broadcast_except d f x g) !! c =
    (if decide (c ∈ subscribers (tenant_at d g) /\ c <> x) then (fun q => q ++ [f]) <$> queues g !! c
     else queues g !! c) /\
  (forall d', d' <> d -> c ∈ subscribers (tenant_at d' g) -> queues (broadcast d f g) !! c = queues g !! c).
Proof.
  intros Hwf. split_and!.
  - by apply broadcast_queue.
  - by apply broadcast_except_queue.
  - intros d' Hne Hc. rewrite broadcast_queue by done. rewrite decide_False; [done|]. intros Hc'.
    destruct (tenant_at_cases d g) as [E1|[_ E1]]; [|rewrite E1 in Hc'; set_solver].
    destruct (tenant_at_cases d' g) as [E2|[_ E2]]; [|rewrite E2 in Hc; set_solver].
    apply Hne. by eapply wf_one.
Qed.

Lemma broadcast_exact_witness :
  queues (broadcast "ser163" (frame_new FrameType.Error 0 []) demo_reg) !! 0%nat =
    Some [frame_new FrameType.Error 0 []].
Proof.
  rewrite (proj1 (broadcast_exact "ser163" (frame_new FrameType.Error 0 []) 7 demo_reg 0
    (registry_invariant_witness))).
  vm_compute. reflexivity.
Defined.

(** C13: A prune round removes exactly the machines that were not seen for thirty
    seconds, in every tenant, keeps all others, and appends to every open channel
    of a tenant one leave announcement for each of that tenant's removed machines
    and nothing else. *)
Theorem prune_round_exact `{Serde OnlineDelta.t} now g d :
  registry_wf g ->
  (forall k, online_machine d k (prune_round now g) =
     (m ← online_machine d k g; if MachineInfo.last_seen m <? cutoff now then None else Some m)) /\
  (exists gone, NoDup gone /\
     (forall m, m ∈ gone <-> exists k, online_machine d k g = Some m /\ MachineInfo.last_seen m < cutoff now) /\
     (forall c q, c ∈ subscribers (tenant_at d g) -> queues g !! c = Some q ->
        queues (prune_round now g) !! c = Some (q ++ (leave_frame <$> gone)))).
Proof.
  intros Hwf. unfold prune_round. split.
  - intros k. rewrite prune_entries_online. unfold online_machine.
    destruct (inner g !! d) as [t|] eqn:Et; [|done]. cbn [mbind option_bind].
    destruct (machines t !! k) as [m|] eqn:Em; [|done]. cbn [mbind option_bind].
    destruct (MachineInfo.last_seen m <? cutoff now) eqn:El; [|by rewrite andb_false_r].
    rewrite andb_true_r. assert (existsb (named d k) (prune_scan now g) = true) as ->; [|done].
    apply existsb_exists. exists (d, m). split.
    + apply list_elem_of_In, prune_scan_elem. exists t, k. split_and!; [done|done|lia].
    + apply bool_decide_eq_true. cbn. split; [done|]. symmetry. by eapply wf_keys.
  - exists (snd <$> filter (fun e => fst e = d) (prune_scan now g)). split_and!.
    + apply NoDup_fmap_2_strong; [|by apply NoDup_filter, prune_scan_NoDup].
      intros [d1 m1] [d2 m2] [E1 _]%list_elem_of_filter [E2 _]%list_elem_of_filter. cbn in *. congruence.
    + intros m. rewrite list_elem_of_fmap. split.
      * intros ([d1 m1] & -> & [E1 (t & k & Ht & Hk & Hs)%prune_scan_elem]%list_elem_of_filter).
        cbn in *. subst d1. exists k. unfold online_machine. rewrite Ht. done.
      * intros (k & Hk & Hs). unfold online_machine in Hk.
        destruct (inner g !! d) as [t|] eqn:Et; [|done]. cbn in Hk.
        exists (d, m). split; [done|]. apply list_elem_of_filter. split; [done|].
        apply prune_scan_elem. eauto.
    + intros c q Hc Hq. rewrite (prune_entries_queue now _ g d c q) by done. by rewrite list_fmap_compose.
Qed.

Lemma prune_round_exact_witness :
  online_machine "ser163" "m1" (prune_round (H := demo_codec) 40000 demo_reg) = None.
Proof.
  rewrite (proj1 (prune_round_exact (H := demo_codec) 40000 demo_reg "ser163" registry_invariant_witness) "m1").
  vm_compute. reflexivity.
Defined.

(** The prune task's announcement is not tied to its removal: when a machine
    sends a heartbeat between the scan and the removal, it stays online, yet
    every subscriber of its tenant is told that it left. *)
Theorem prune_announces_live_machine `{Serde OnlineDelta.t} d k m now now' g c q :
  registry_wf g -> online_machine d k g = Some m ->
  (d, m) ∈ prune_scan now g -> cutoff now' <= now ->
  c ∈ subscribers (tenant_at d g) -> queues g !! c = Some q ->
  let g' := prune_entry now' (d, m) (heartbeat d k now g) in
  online_machine d k g' = Some (set_last_seen now m) /\
  queues g' !! c = Some (q ++ [leave_frame m]).
Proof.
  intros Hwf Hon _ Hcut Hc Hq g'.
  assert (registry_wf (heartbeat d k now g)) as Hwf'
    by (by eapply step_wf; [|apply StHeartbeat]).
  unfold online_machine in Hon. destruct (inner g !! d) as [t|] eqn:Et; [|done]. cbn in Hon.
  assert (heartbeat d k now g = set_tenant d (mkTenant (<[k := set_last_seen now m]> (machines t)) (subscribers t)) g) as Eh
    by (unfold heartbeat; by rewrite Et, Hon).
  unfold g'. split.
  - rewrite prune_entry_online, prune_remove_online. cbn [fst snd]. rewrite Eh, online_set_tenant.
    rewrite decide_True by done. cbn [machines]. rewrite lookup_insert_eq. cbn [mbind option_bind].
    change (MachineInfo.last_seen (set_last_seen now m)) with now.
    assert (now <? cutoff now' = false) as -> by lia. by rewrite andb_false_r.
  - unfold prune_entry. cbn [fst snd]. rewrite broadcast_queue by (by eapply step_wf; [|apply StPruneRemove]).
    rewrite prune_remove_subs, prune_remove_queues, Eh.
    rewrite subscribers_inner by (by rewrite (inner_tenant_at _ _ _ Et)).
    rewrite decide_True by done. cbn [queues set_tenant]. by rewrite Hq.
Qed.

Lemma prune_announces_live_machine_witness :
  queues (prune_entry (H := demo_codec) 40050 ("ser163", demo_info "m1" 5)
            (heartbeat "ser163" "m1" 40000 demo_reg)) !! 0%nat =
    Some ([] ++ [leave_frame (H := demo_codec) (demo_info "m1" 5)]).
Proof.
  refine (proj2 (prune_announces_live_machine (H := demo_codec) "ser163" "m1" (demo_info "m1" 5) 40000 40050
    demo_reg 0 [] registry_invariant_witness _ _ _ _ _)).
  - vm_compute. reflexivity.
  - apply prune_scan_elem. exists (mkTenant {["m1" := demo_info "m1" 5]} [0%nat]), "m1".
    split_and!; vm_compute; reflexivity.
  - vm_compute. discriminate.
  - vm_compute. left.
  - vm_compute. reflexivity.
Defined.

Lemma registry_register_wf d i g : registry_wf g -> registry_wf (snd (register d i g)).
Proof. intros Hwf. exact (step_wf _ _ Hwf (StRegister d i g)). Qed.

Lemma broadcast_except_wf d f c g : registry_wf g -> registry_wf (broadcast_except d f c g).
Proof. intros Hwf. exact (step_wf _ _ Hwf (StBroadcastExcept d f c g)). Qed.

Lemma broadcast_except_self d f c g :
  registry_wf g -> queues (broadcast_except d f c g) !! c = queues g !! c.
Proof.
  intros Hwf. unfold broadcast_except. destruct (inner g !! d) as [t|] eqn:E; [|done]. cbn [queues].
  rewrite fold_send_except_lookup by (by eapply wf_nodup). by rewrite decide_False by naive_solver.
Qed.

Lemma subscribe_online d g d' k : online_machine d' k (snd (subscribe d g)) = online_machine d' k g.
Proof.
  cbn [subscribe snd]. unfold online_machine. cbn [inner].
  destruct (decide (d' = d)) as [->|Hne]; [|by rewrite lookup_insert_ne].
  rewrite lookup_insert_eq. cbn [mbind option_bind machines].
  destruct (tenant_at_cases d g) as [->|[-> ->]]; [done|]. cbn [machines tenant_default].
  apply lookup_empty.
Qed.

(** The registration handshake has a gap: a session takes its snapshot when it
    registers and subscribes in a later step, so a machine that joins in between
    is neither in the snapshot it is sent nor announced to it, although both are
    online. *)
Theorem join_gap `{Serde OnlineDelta.t} d a b g :
  registry_wf g -> online_machine d (MachineInfo.machine_id b) g = None ->
  MachineInfo.machine_id a <> MachineInfo.machine_id b ->
  let '(snap_a, g1) := register d a g in
  let g2 := snd (register d b g1) in
  let '(_, chan_b, g3) := subscribe d g2 in
  let g4 := broadcast_except d (join_frame b) chan_b g3 in
  let '(_, chan_a, g5) := subscribe d g4 in
  let g6 := broadcast_except d (join_frame a) chan_a g5 in
  b ∉ snap_a /\ queues g6 !! chan_a = Some [] /\
  online_machine d (MachineInfo.machine_id b) g6 = Some b.
Proof.
  intros Hwf Hb Hne.
  pose proof (registry_register_wf d a g Hwf) as Hwf1.
  destruct (register d a g) as [snap_a g1] eqn:E1. cbn [snd] in Hwf1.
  pose proof (registry_register_wf d b g1 Hwf1) as Hwf2. cbv zeta.
  pose proof (subscribe_wf d _ Hwf2) as Hwf3.
  destruct (subscribe d (snd (register d b g1))) as [[sb chan_b] g3] eqn:E3. cbn [snd] in Hwf3.
  pose proof (broadcast_except_wf d (join_frame b) chan_b g3 Hwf3) as Hwf4.
  pose proof (subscribe_wf d _ Hwf4) as Hwf5.
  destruct (subscribe d (broadcast_except d (join_frame b) chan_b g3)) as [[sa chan_a] g5] eqn:E5.
  cbn [snd] in Hwf5. split_and!.
  - unfold register in E1. injection E1 as <- <-. intros (k & Hk)%values_in.
    destruct (decide (k = MachineInfo.machine_id a)) as [->|Hka].
    + rewrite lookup_insert_eq in Hk. congruence.
    + rewrite lookup_insert_ne in Hk by done. destruct (tenant_wf d g Hwf) as [Hkeys _].
      pose proof (Hkeys _ _ Hk) as <-. unfold online_machine in Hb.
      destruct (tenant_at_cases d g) as [E|[_ E]]; [|rewrite E in Hk; cbn in Hk; by rewrite lookup_empty in Hk].
      rewrite E in Hb. cbn in Hb. congruence.
  - rewrite broadcast_except_self by done. unfold subscribe in E5. injection E5 as <- <- <-.
    cbn [queues]. by rewrite lookup_insert_eq.
  - rewrite (online_inner _ _ g5) by apply broadcast_except_inner.
    pose proof (subscribe_online d (broadcast_except d (join_frame b) chan_b g3) d (MachineInfo.machine_id b)) as H5.
    rewrite E5 in H5. cbn [snd] in H5. rewrite H5.
    rewrite (online_inner _ _ g3) by apply broadcast_except_inner.
    pose proof (subscribe_online d (snd (register d b g1)) d (MachineInfo.machine_id b)) as H3.
    rewrite E3 in H3. cbn [snd] in H3. rewrite H3. cbn [register snd]. rewrite online_set_tenant.
    rewrite decide_True by done. cbn [machines]. by rewrite lookup_insert_eq.
Qed.

Lemma join_gap_witness :
  demo_info "m2" 9 ∉ fst (register "ser163" (demo_info "m1" 5) registry_default).
Proof.
  refine (proj1 (join_gap (H := demo_codec) "ser163" (demo_info "m1" 5) (demo_info "m2" 9) registry_default
    registry_default_wf _ _)).
  - reflexivity.
  - discriminate.
Defined.
