(* ===== verification/Tenants.v ===== *)
(** * Tenant registry and authentication

    [nsmt-server/src/tenants.rs].  The store keeps, per user domain, the domain's
    public key and the machine keys seen so far; [tenants.json] holds what was
    last persisted.  The table's lock makes every method one atomic step (a
    persist reads the table and writes the file afterwards). *)

From S2P Require Import Prelude Paths Wire Messages Crypto.

Record TenantRecord : Type := mkTenantRecord {
  domain_pubkey : string;
  machines : gmap string string;
}.

#[export] Instance TenantRecord_eq_dec : EqDecision TenantRecord.
Proof. solve_decision. Defined.

(** [TenantFile], and the table [TenantStore::inner]. *)
Abbreviation TenantMap := (gmap string TenantRecord).

Definition record_default : TenantRecord := mkTenantRecord "" ∅.

Definition tenants_path (e : env) : string := path_join (nsmt_home e) "tenants.json".

Section TenantStore.
Context `{Serde (gmap string TenantRecord)} `{HexCodec} `{Ed25519}.

Definition reload (e : env) (fs : files) (g : TenantMap) : result NsmtError unit * TenantMap :=
  let p := tenants_path e in
  if negb (fs_exists fs p) then (Ok tt, g)
  else
    match read_to_string fs p with
    | None => (Err (IoError "read"), g)
    | Some raw =>
        match from_slice (as_bytes raw) with
        | None => (Err (JsonError "tenants"), g)
        | Some file => (Ok tt, file)
        end
    end.

(** [load]: a failed reload leaves the table empty. *)
Definition load (e : env) (fs : files) : TenantMap := snd (reload e fs ∅).

Definition persist (e : env) (g : TenantMap) (fs : files) : result NsmtError unit * files :=
  match create_dir_all (nsmt_home e) fs with
  | None => (Err (IoError "create_dir_all"), fs)
  | Some fs' =>
      match fs_write (tenants_path e) (to_vec g) fs' with
      | None => (Err (IoError "write"), fs')
      | Some fs'' => (Ok tt, fs'')
      end
  end.

Definition count (g : TenantMap) : nat := size g.

Definition set_pubkey (domain pubkey : string) (g : TenantMap) : TenantMap :=
  let r := default record_default (g !! domain) in
  <[domain := mkTenantRecord pubkey (machines r)]> g.

Definition upsert_tenant (e : env) (domain pubkey : string) (g : TenantMap) (fs : files)
    : result NsmtError unit * TenantMap * files :=
  let g' := set_pubkey domain pubkey g in
  let '(r, fs') := persist e g' fs in (r, g', fs').

Definition verify_auth (domain nonce signature : string) (g : TenantMap) : result string unit :=
  match g !! domain with
  | Some t =>
      if verify (domain_pubkey t) (as_bytes nonce) signature then Ok tt else Err "auth_failed"
  | None => Err "tenant_not_found"
  end.

Definition register_msg (machine_id agent_tag : string) : bytes :=
  as_bytes (machine_id +:+ String (u8_of 10) agent_tag).

Definition verify_register (domain machine_id agent_tag machine_pubkey signature : string)
    (g : TenantMap) : result string unit * TenantMap :=
  if negb (verify machine_pubkey (register_msg machine_id agent_tag) signature)
  then (Err "bad_machine_signature", g)
  else
    match g !! domain with
    | None => (Err "tenant_not_found", g)
    | Some t =>
        match machines t !! machine_id with
        | Some existing =>
            if decide (existing = machine_pubkey) then (Ok tt, g)
            else (Err "machine_hijack_detected", g)
        | None =>
            (Ok tt, <[domain := mkTenantRecord (domain_pubkey t)
                                  (<[machine_id := machine_pubkey]> (machines t))]> g)
        end
    end.

(** The steps the running server takes on the table (it reloads only when it
    starts). *)
Inductive tstep : TenantMap -> TenantMap -> Prop :=
| TsUpsert d pk g : tstep g (set_pubkey d pk g)
| TsRegister d m tag pk sig g : tstep g (snd (verify_register d m tag pk sig g)).

Definition machine_key (d m : string) (g : TenantMap) : option string :=
  t ← g !! d; machines t !! m.
End TenantStore.

(** ** Lemmas *)

Section TenantFacts.
Context `{Serde (gmap string TenantRecord)} `{HexCodec} `{Ed25519}.

Lemma tstep_pinned d m k g g' :
  machine_key d m g = Some k -> tstep g g' -> machine_key d m g' = Some k.
Proof.
  unfold machine_key. intros Hk Hs. revert Hk.
  destruct Hs as [d' pk g|d' m' tag pk sig g];
    (destruct (g !! d) as [t|] eqn:Ed; [|done]); intros Hk; cbn in Hk.
  - unfold set_pubkey. destruct (decide (d' = d)) as [->|]; [|by rewrite lookup_insert_ne, Ed].
    by rewrite lookup_insert_eq, Ed.
  - unfold verify_register. destruct (negb _); cbn [snd]; [by rewrite Ed|].
    destruct (g !! d') as [t'|] eqn:E'; cbn [snd]; [|by rewrite Ed].
    destruct (machines t' !! m') as [x|] eqn:Em; [case_decide; cbn [snd]; by rewrite Ed|]. cbn [snd].
    destruct (decide (d' = d)) as [->|]; [|by rewrite lookup_insert_ne, Ed].
    rewrite lookup_insert_eq. cbn. simplify_eq.
    destruct (decide (m' = m)) as [->|]; [congruence|by rewrite lookup_insert_ne].
Qed.

Lemma tsteps_pinned d m k g g' :
  machine_key d m g = Some k -> rtc tstep g g' -> machine_key d m g' = Some k.
Proof. intros Hk Hr. induction Hr; [done|]. eauto using tstep_pinned. Qed.

Lemma register_pins d m tag pk sig g g' :
  verify_register d m tag pk sig g = (Ok tt, g') ->
  machine_key d m g' = Some pk /\ verify pk (register_msg m tag) sig = true.
Proof.
  unfold verify_register, machine_key. destruct (verify _ _ _) eqn:Ev; cbn [negb]; [|done].
  destruct (g !! d) as [t|] eqn:Ed; [|done]. destruct (machines t !! m) as [x|] eqn:Em.
  - case_decide; [|done]. intros [= <-]. subst. by rewrite Ed.
  - intros [= <-]. rewrite lookup_insert_eq. cbn. by rewrite lookup_insert_eq.
Qed.

Lemma upsert_ok e d pk g fs fs1 fs2 :
  create_dir_all (nsmt_home e) fs = Some fs1 ->
  fs_write (tenants_path e) (to_vec (set_pubkey d pk g)) fs1 = Some fs2 ->
  upsert_tenant e d pk g fs = (Ok tt, set_pubkey d pk g, fs2).
Proof. intros Hc Hw. unfold upsert_tenant, persist. by rewrite Hc, Hw. Qed.

(** What was saved is what the next start loads. *)
Lemma upsert_loads `{!SerdeLaws (gmap string TenantRecord)} e d pk g fs g' fs' :
  upsert_tenant e d pk g fs = (Ok tt, g', fs') -> g' = set_pubkey d pk g /\ load e fs' = g'.
Proof.
  unfold upsert_tenant, persist. destruct (create_dir_all _ _) as [fs1|]; [|done].
  destruct (fs_write _ _ _) as [fs2|] eqn:Ew; [|done]. intros [= <- <-]. split; [done|].
  unfold load, reload, fs_exists, fs_is_file, read_to_string.
  rewrite (fs_read_write _ _ _ _ Ew). cbn [orb negb mbind option_bind].
  by rewrite to_vec_utf8, as_of_bytes, from_to_vec.
Qed.
End TenantFacts.

(** ** Properties *)

(** Machine identities cannot be taken over while the server runs: once a
    machine has registered with a key, then whatever tenants and machines are
    added in between, a later registration of that machine succeeds only with
    the same key and a signature under it, any other key being answered with
    [machine_hijack_detected]; a refused registration changes nothing. *)
Theorem hijack_protection `{HexCodec} `{Ed25519} d m tag pk sig g0 g1 g2 tag' pk' sig' :
  verify_register d m tag pk sig g0 = (Ok tt, g1) -> rtc tstep g1 g2 ->
  (forall g3, verify_register d m tag' pk' sig' g2 = (Ok tt, g3) ->
     pk' = pk /\ verify pk (register_msg m tag') sig' = true /\ g3 = g2) /\
  (pk' <> pk -> verify pk' (register_msg m tag') sig' = true ->
   verify_register d m tag' pk' sig' g2 = (Err "machine_hijack_detected", g2)) /\
  (forall e, fst (verify_register d m tag' pk' sig' g2) = Err e ->
     snd (verify_register d m tag' pk' sig' g2) = g2).
Proof.
  intros [Hk _]%register_pins Hr. pose proof (tsteps_pinned _ _ _ _ _ Hk Hr) as Hk2.
  unfold machine_key in Hk2. destruct (g2 !! d) as [t|] eqn:Ed; [|done]. cbn in Hk2.
  unfold verify_register. rewrite Ed, Hk2. split_and!.
  - intros g3. destruct (verify _ _ _) eqn:Ev; cbn [negb]; [|done]. case_decide; [|done].
    intros [= <-]. by subst.
  - intros Hne ->. cbn [negb]. by rewrite decide_False.
  - intros e. repeat case_match; done.
Qed.

Definition demo_machine_kp : KeyPair := generate (replicate 32 (u8_of 9)).
Definition demo_tenants : TenantMap := set_pubkey "ser163" "00" ∅.
Definition demo_tenants1 : TenantMap :=
  snd (verify_register "ser163" "m1" "maka" (public_hex demo_machine_kp)
         (sign demo_machine_kp (register_msg "m1" "maka")) demo_tenants).

Definition demo_thief : KeyPair := generate (replicate 32 (u8_of 6)).

Lemma hijack_protection_witness :
  verify_register "ser163" "m1" "maka" (public_hex demo_thief)
    (sign demo_thief (register_msg "m1" "maka")) demo_tenants1
  = (Err "machine_hijack_detected", demo_tenants1).
Proof.
  refine (proj1 (proj2 (hijack_protection "ser163" "m1" "maka" (public_hex demo_machine_kp)
    (sign demo_machine_kp (register_msg "m1" "maka")) demo_tenants demo_tenants1 demo_tenants1
    "maka" (public_hex demo_thief) (sign demo_thief (register_msg "m1" "maka")) _ _)) _ _).
  - apply fst_pair. vm_compute. reflexivity.
  - apply rtc_refl.
  - vm_compute. discriminate.
  - vm_compute. reflexivity.
Defined.

(** Authentication: [verify_auth] accepts exactly a known tenant with a
    signature of the nonce under its current domain key, so the owner of the key
    always gets in, and no operation on another tenant changes the answer. *)
Theorem verify_auth_exact `{HexLaws} `{Ed25519Laws} d nonce sig kp g :
  (verify_auth d nonce sig g = Ok tt <->
     exists t, g !! d = Some t /\ verify (domain_pubkey t) (as_bytes nonce) sig = true) /\
  (keypair_wf kp ->
     verify_auth d nonce (sign kp (as_bytes nonce)) (set_pubkey d (public_hex kp) g) = Ok tt) /\
  (forall d', d' <> d -> forall pk, verify_auth d nonce sig (set_pubkey d' pk g) = verify_auth d nonce sig g) /\
  (forall d' m tag pk s,
     verify_auth d nonce sig (snd (verify_register d' m tag pk s g)) = verify_auth d nonce sig g).
Proof.
  split_and!.
  - unfold verify_auth. destruct (g !! d) as [t|] eqn:E.
    + destruct (verify _ _ _) eqn:Ev; split; [by eauto | done | done |].
      intros (t' & [= <-] & Ev'). congruence.
    + split; [done|]. by intros (t & [=] & _).
  - intros Hwf. unfold verify_auth, set_pubkey. rewrite lookup_insert_eq. cbn [domain_pubkey].
    by rewrite verify_sign.
  - intros d' Hne pk. unfold verify_auth, set_pubkey. by rewrite lookup_insert_ne.
  - intros d' m tag pk s. unfold verify_auth, verify_register.
    destruct (negb _); [done|]. destruct (g !! d') as [t'|] eqn:E; [|done].
    destruct (machines t' !! m); [by case_decide|]. cbn [snd].
    destruct (decide (d' = d)) as [->|]; [|by rewrite lookup_insert_ne].
    by rewrite lookup_insert_eq, E.
Qed.

Lemma verify_auth_exact_witness :
  verify_auth "ser163" "n" (sign demo_machine_kp (as_bytes "n"))
    (set_pubkey "ser163" (public_hex demo_machine_kp) ∅) = Ok tt.
Proof.
  refine (proj1 (proj2 (verify_auth_exact "ser163" "n" "" demo_machine_kp ∅)) _).
  split; reflexivity.
Defined.

(** What [upsert_tenant] persisted is what the next start loads: the whole
    table, machine keys included; a registration that follows is kept in memory
    only, so after a restart that machine's key is no longer pinned and another
    key can claim it. *)
Theorem tenants_persist `{SerdeLaws (gmap string TenantRecord)} `{HexCodec} `{Ed25519}
    e d pk g fs g' fs' m tag mpk sig g'' :
  upsert_tenant e d pk g fs = (Ok tt, g', fs') ->
  load e fs' = g' /\
  (verify_register d m tag mpk sig g' = (Ok tt, g'') -> machine_key d m g' = None ->
   machine_key d m g'' = Some mpk /\ machine_key d m (load e fs') = None /\
   forall pk2 sig2, verify pk2 (register_msg m tag) sig2 = true ->
     fst (verify_register d m tag pk2 sig2 (load e fs')) = Ok tt).
Proof.
  intros [-> Hl]%upsert_loads.
  split; [done|]. intros Hr Hnone. rewrite Hl. split_and!; [by apply register_pins in Hr as [? _]|done|].
  intros pk2 sig2 Hv. unfold verify_register. rewrite Hv. cbn [negb].
  unfold machine_key, set_pubkey in *. rewrite lookup_insert_eq in Hnone |- *. cbn in *.
  by rewrite Hnone.
Qed.

#[export] Instance TenantRecord_countable : Countable TenantRecord :=
  inj_countable' (fun r => (domain_pubkey r, machines r)) (fun p => mkTenantRecord (fst p) (snd p))
    (fun r => match r with mkTenantRecord _ _ => eq_refl end).

Definition demo_tenant_serde : Serde (gmap string TenantRecord) := countable_serde _.

Definition demo_tenant_disk : files :=
  <[resolve (tenants_path demo_env) := File (@to_vec _ demo_tenant_serde demo_tenants)]> demo_home.

Lemma tenants_persist_witness :
  load (H := demo_tenant_serde) demo_env demo_tenant_disk = demo_tenants.
Proof.
  refine (proj1 (tenants_persist (H := demo_tenant_serde) (H0 := countable_serde_laws _)
    demo_env "ser163" "00" ∅ ∅ demo_tenants demo_tenant_disk "m1" "maka" "" "" ∅ _)).
  - apply (upsert_ok demo_env "ser163" "00" ∅ ∅ demo_home).
    + apply some_default. vm_compute. reflexivity.
    + unfold tenants_path. apply fs_write_plain; vm_compute; [reflexivity..|discriminate].
Defined.
