(* ===== verification/Db.v ===== *)
(** * User database

    [nsmt-server/src/db.rs].  The two tables are lists of rows; the SQL statements
    of the source are the functions below (the [UNIQUE] and [PRIMARY KEY]
    constraints included).  Argon2 is the class [Argon2]; the clock is read once
    per call.  A query can fail: [db_up] says whether the database answers. *)

From S2P Require Import Prelude Wire Crypto.

Definition DEFAULT_FREE_QUOTA_BYTES : Z := 50 * 1024 * 1024.
Definition PRO_QUOTA_BYTES : Z := 1024 * 1024 * 1024.

Inductive DbKind : Set := Sqlite | MySql | Postgres.

(** The driver [UserDb::connect] picks from the URL. *)
Definition db_kind (url : string) : DbKind :=
  if starts_with "postgres" url then Postgres
  else if starts_with "mysql" url then MySql
  else Sqlite.

Record UserRow : Set := mkUser {
  id : Z; username : string; password_hash : string; domain : string;
  plan_col : string; created_at : Z }.

Record SessionRow : Set := mkSession { token : string; user_id : Z; session_expires : Z }.

Record UserDb : Set := mkUserDb { users : list UserRow; sessions : list SessionRow; next_id : Z }.

Class Argon2 : Type := {
  hash_password : bytes -> bytes -> result string string;
  verify_password : string -> bytes -> result string bool;
}.

Class Argon2Laws `{Argon2} : Prop := {
  verify_hash : forall salt pw h, hash_password salt pw = Ok h -> verify_password h pw = Ok true;
}.

(** [SELECT … WHERE username = ?] and [WHERE domain = ?] *)
Definition find_user (u : string) (db : UserDb) : option UserRow :=
  list_find (fun r => username r = u) (users db) ≫= fun p => Some (snd p).
Definition find_domain (d : string) (db : UserDb) : option UserRow :=
  list_find (fun r => domain r = d) (users db) ≫= fun p => Some (snd p).

Definition created_le (a b : UserRow) : Prop := created_at a <= created_at b.
#[export] Instance created_le_dec : RelDecision created_le.
Proof. intros a b. unfold created_le. apply _. Defined.

Section Db.
Context `{HexCodec} `{Sha256} `{Argon2}.

Definition make_token (u : string) (now : Z) : string :=
  "t-" +:+ u +:+ "-" +:+ hex_encode (sha256 (as_bytes (u +:+ ":" +:+ dec now))).

(** [issue_token]: the insert selects the user's row and is ignored when it fails
    (a token that is already there violates the primary key). *)
Definition issue_token (u : string) (now : Z) (db : UserDb) : string * UserDb :=
  let tok := make_token u now in
  (tok,
   match find_user u db with
   | Some r =>
       if existsb (fun s => bool_decide (token s = tok)) (sessions db) then db
       else mkUserDb (users db)
              (sessions db ++ [mkSession tok (id r) (as_i64 (wrap64 (now + 7 * 24 * 3600 * 1000)))])
              (next_id db)
   | None => db
   end).

(** [register]; [err] is the database's message for a failed insert. *)
Definition register (u password : string) (salt : bytes) (now : Z) (db_up : bool) (err : string) (db : UserDb)
    : result string string * UserDb :=
  match hash_password salt (as_bytes password) with
  | Err e => (Err ("hash: " +:+ e), db)
  | Ok h =>
      if negb db_up || existsb (fun r => bool_decide (username r = u \/ domain r = u)) (users db)
      then (Err ("注册失败（可能用户名已存在）: " +:+ err), db)
      else
        let db' := mkUserDb (users db ++ [mkUser (next_id db) u h u "free" (as_i64 now)])
                     (sessions db) (next_id db + 1) in
        let '(tok, db'') := issue_token u now db' in (Ok tok, db'')
  end.

Definition login (u password : string) (now : Z) (db_up : bool) (db : UserDb)
    : result string string * UserDb :=
  if negb db_up then (Err "db: ", db)
  else
    match find_user u db with
    | None => (Err "用户不存在", db)
    | Some r =>
        match verify_password (password_hash r) (as_bytes password) with
        | Err e => (Err ("hash parse: " +:+ e), db)
        | Ok true => let '(tok, db') := issue_token u now db in (Ok tok, db')
        | Ok false => (Err "密码错误", db)
        end
    end.

Definition plan (d : string) (db_up : bool) (db : UserDb) : result string string :=
  if negb db_up then Err "db: "
  else match find_domain d db with
       | Some r => Ok (plan_col r)
       | None => Ok "free"
       end.

Definition quota_for_plan (p : string) : Z :=
  if decide (p = "pro") then PRO_QUOTA_BYTES else DEFAULT_FREE_QUOTA_BYTES.

Definition set_plan_row (u p : string) (r : UserRow) : UserRow :=
  if decide (username r = u)
  then mkUser (id r) (username r) (password_hash r) (domain r) p (created_at r) else r.

Definition set_plan (u p : string) (db_up : bool) (db : UserDb) : result string string * UserDb :=
  if negb (bool_decide (p = "free")) && negb (bool_decide (p = "pro"))
  then (Err ("unknown plan: " +:+ p), db)
  else if negb db_up then (Err "db: ", db)
  else
    let db' := mkUserDb (map (set_plan_row u p) (users db)) (sessions db) (next_id db) in
    if existsb (fun r => bool_decide (username r = u)) (users db) then (Ok p, db')
    else (Err "用户不存在", db').

(** [list_users]: [(username, plan, created)] by creation time. *)
Definition list_users (db_up : bool) (db : UserDb) : result string (list (string * string * Z)) :=
  if negb db_up then Err "db: "
  else Ok (map (fun r => (username r, plan_col r, Z.max 0 (created_at r)))
             (merge_sort created_le (users db))).

(** What the tables satisfy: unique user names, the tenant is named after its
    user, known plans, ids below the counter. *)
Record db_wf (db : UserDb) : Prop := {
  wf_usernames : NoDup (username <$> users db);
  wf_domains : Forall (fun r => domain r = username r) (users db);
  wf_plans : Forall (fun r => plan_col r = "free" \/ plan_col r = "pro") (users db);
  wf_ids : Forall (fun r => id r < next_id db) (users db);
}.
End Db.

(** ** Lemmas *)

Lemma find_user_spec u db r :
  db_wf db -> find_user u db = Some r <-> r ∈ users db /\ username r = u.
Proof.
  intros [Hn _ _ _]. unfold find_user. split.
  - destruct (list_find _ _) as [[i x]|] eqn:E; [|done]. cbn. intros [= <-].
    apply list_find_Some in E as (Hl & Hp & _). split; [by eapply list_elem_of_lookup_2|done].
  - intros [Hin Hu]. destruct (list_find (fun r => username r = u) (users db)) as [[i x]|] eqn:E; cbn.
    + apply list_find_Some in E as (Hl & Hp & _). f_equal.
      apply list_elem_of_lookup in Hin as [j Hj].
      assert (i = j) as <-; [|congruence].
      eapply (NoDup_lookup _ i j u Hn); rewrite list_lookup_fmap, ?Hl, ?Hj; cbn; congruence.
    + apply list_find_None in E. rewrite Forall_forall in E. by apply E in Hin.
Qed.

Lemma find_domain_user d db : db_wf db -> find_domain d db = find_user d db.
Proof.
  intros [_ Hd _ _]. unfold find_domain, find_user. f_equal. induction Hd as [|r l Hr _ IH]; [done|].
  cbn. rewrite Hr. case_decide; [done|]. by rewrite IH.
Qed.

Lemma username_set_plan u p r : username (set_plan_row u p r) = username r.
Proof. unfold set_plan_row. by case_decide. Qed.

Section DbFacts.
Context `{HexCodec} `{Sha256} `{Argon2}.

Lemma issue_token_users u now db : users (snd (issue_token u now db)) = users db /\
  next_id (snd (issue_token u now db)) = next_id db.
Proof. unfold issue_token. cbn [snd]. destruct (find_user u db); [|done]. by case_match. Qed.

Lemma wf_same_users db db' :
  users db' = users db -> next_id db' = next_id db -> db_wf db -> db_wf db'.
Proof. intros E1 E2 [? ? ? ?]. by split; rewrite ?E1, ?E2. Qed.

Lemma db_register_wf u pw salt now up err db :
  db_wf db -> db_wf (snd (register u pw salt now up err db)).
Proof.
  intros Hwf. unfold register. destruct (hash_password _ _) as [h|e]; [|done].
  destruct (negb up || existsb _ _) eqn:E; [done|]. apply orb_false_iff in E as [_ E].
  assert (Forall (fun r => username r <> u) (users db)) as Hnew.
  { apply Forall_forall. intros r Hr <-. apply list_elem_of_In in Hr.
    assert (existsb (fun r0 => bool_decide (username r0 = username r \/ domain r0 = username r)) (users db) = true) as C; [|congruence].
    apply existsb_exists. exists r. split; [done|]. apply bool_decide_eq_true. by left. }
  set (db' := mkUserDb _ _ _). pose proof (issue_token_users u now db') as [E1 E2].
  destruct (issue_token u now db') as [tok db'']. cbn [snd] in *.
  apply (wf_same_users db'); [done..|]. destruct Hwf as [Hn Hd Hp Hi]. split; cbn [users next_id db'].
  - rewrite fmap_app. apply NoDup_app. split_and!; [done| |by apply NoDup_singleton].
    intros x (r & -> & Hr)%list_elem_of_fmap Hx. rewrite Forall_forall in Hnew.
    apply (Hnew r Hr). cbn in Hx. by apply list_elem_of_singleton in Hx.
  - apply Forall_app. split; [done|]. by constructor.
  - apply Forall_app. split; [done|]. constructor; [by left|done].
  - apply Forall_app. split; [|constructor; [cbn; lia|done]].
    eapply Forall_impl; [exact Hi|]. cbn. intros; lia.
Qed.

Lemma set_plan_wf u p up db : db_wf db -> db_wf (snd (set_plan u p up db)).
Proof.
  intros Hwf. unfold set_plan. destruct (_ && _) eqn:E; [done|]. destruct up; [|done]. cbn [negb].
  assert (db_wf (mkUserDb (map (set_plan_row u p) (users db)) (sessions db) (next_id db))) as H';
    [|by case_match].
  destruct Hwf as [Hn Hd Hp Hi]. split; cbn [users next_id].
  - rewrite <- list_fmap_compose. erewrite list_fmap_ext; [exact Hn|]. intros; apply username_set_plan.
  - apply Forall_map. eapply Forall_impl; [exact Hd|]. intros r Hr; cbn in *.
    unfold set_plan_row. by destruct (decide (username r = u)).
  - apply Forall_map. eapply Forall_impl; [exact Hp|]. intros r Hr; cbn in *.
    unfold set_plan_row. destruct (decide (username r = u)); [|done]. cbn. apply andb_false_iff in E.
    rewrite !negb_false_iff, !bool_decide_eq_true in E. done.
  - apply Forall_map. eapply Forall_impl; [exact Hi|]. intros r Hr; cbn in *.
    unfold set_plan_row. by destruct (decide (username r = u)).
Qed.
End DbFacts.

(** The quota a user's plan gives ([quota_for] with a database). *)
Definition user_quota (d : string) (db_up : bool) (db : UserDb) : Z :=
  match plan d db_up db with
  | Ok p => quota_for_plan p
  | Err _ => quota_for_plan "free"
  end.

Section DbLifecycle.
Context `{HexCodec} `{Sha256} `{Argon2Laws}.

Lemma register_ok u pw salt now up err db tok db' :
  register u pw salt now up err db = (Ok tok, db') ->
  up = true /\ tok = make_token u now /\ Forall (fun r => username r <> u) (users db) /\
  exists h, hash_password salt (as_bytes pw) = Ok h /\
    users db' = users db ++ [mkUser (next_id db) u h u "free" (as_i64 now)].
Proof.
  unfold register. destruct (hash_password _ _) as [h|e]; [|done].
  destruct (negb up || existsb _ _) eqn:E; [done|]. apply orb_false_iff in E as [Eu E].
  set (db1 := mkUserDb _ _ _). pose proof (issue_token_users u now db1) as [E1 _].
  destruct (issue_token u now db1) as [t d] eqn:Et. cbn [snd] in E1. intros [= <- <-].
  split_and!; [by destruct up | unfold issue_token in Et; congruence | | by exists h].
  apply Forall_forall. intros r Hr <-. apply list_elem_of_In in Hr.
  assert (existsb (fun r0 => bool_decide (username r0 = username r \/ domain r0 = username r)) (users db) = true) as C; [|congruence].
  apply existsb_exists. exists r. split; [done|]. apply bool_decide_eq_true. by left.
Qed.

(** The row of a user that has just registered. *)
Lemma registered_row u pw salt now up err db tok db' :
  db_wf db -> register u pw salt now up err db = (Ok tok, db') ->
  exists h, hash_password salt (as_bytes pw) = Ok h /\ db_wf db' /\
    find_user u db' = Some (mkUser (next_id db) u h u "free" (as_i64 now)) /\
    find_domain u db' = Some (mkUser (next_id db) u h u "free" (as_i64 now)).
Proof.
  intros Hwf Hr. pose proof (db_register_wf u pw salt now up err db Hwf) as Hwf'. rewrite Hr in Hwf'. cbn [snd] in Hwf'.
  destruct (register_ok _ _ _ _ _ _ _ _ _ Hr) as (_ & _ & _ & h & Hh & Hu). exists h.
  assert (find_user u db' = Some (mkUser (next_id db) u h u "free" (as_i64 now))) as Hf
    by (apply find_user_spec; [done|]; rewrite Hu; set_solver).
  split_and!; [done..|]. by rewrite find_domain_user.
Qed.

Lemma registered_login u pw salt now up err db tok db' now2 :
  db_wf db -> register u pw salt now up err db = (Ok tok, db') ->
  fst (login u pw now2 true db') = Ok (make_token u now2).
Proof.
  intros Hwf Hr. destruct (registered_row _ _ _ _ _ _ _ _ _ Hwf Hr) as (h & Hh & _ & Hf & _).
  unfold login. cbn [negb]. rewrite Hf. cbn [password_hash]. by rewrite (verify_hash _ _ _ Hh).
Qed.

Lemma registered_quota u pw salt now up err db tok db' :
  db_wf db -> register u pw salt now up err db = (Ok tok, db') -> user_quota u true db' = DEFAULT_FREE_QUOTA_BYTES.
Proof.
  intros Hwf Hr. destruct (registered_row _ _ _ _ _ _ _ _ _ Hwf Hr) as (h & _ & _ & _ & Hf).
  unfold user_quota, plan. cbn [negb]. by rewrite Hf.
Qed.

Lemma set_plan_domain u p d db :
  db_wf db -> (p = "free" \/ p = "pro") ->
  find_domain d (snd (set_plan u p true db)) = set_plan_row u p <$> find_domain d db.
Proof.
  intros Hwf Hp. unfold set_plan.
  assert (negb (bool_decide (p = "free")) && negb (bool_decide (p = "pro")) = false) as ->.
  { apply andb_false_iff. rewrite !negb_false_iff, !bool_decide_eq_true. done. }
  cbn [negb]. assert (forall l, list_find (fun r => domain r = d) (map (set_plan_row u p) l) ≫= (fun q => Some (snd q))
    = set_plan_row u p <$> (list_find (fun r => domain r = d) l ≫= (fun q => Some (snd q)))) as Hl.
  { induction l as [|r l IH]; [done|]. cbn.
    assert (domain (set_plan_row u p r) = domain r) as -> by (unfold set_plan_row; by destruct (decide (username r = u))).
    destruct (decide (domain r = d)); [done|].
    destruct (list_find _ l) as [[i x]|], (list_find _ (map _ l)) as [[j y]|]; cbn in *; congruence. }
  unfold find_domain. destruct (existsb _ _); cbn [snd users]; apply Hl.
Qed.
End DbLifecycle.

(** ** Properties *)

(** C36: A user's life in the database: a registration that succeeds gives a free
    tenant of that name and stores the hash of the password; a second one is refused
    without effect; from then on a login succeeds, with a token, exactly when Argon2
    verifies the given password against that hash, which it does for the registered
    one, and is refused without effect otherwise; a wrong plan is refused without
    effect, an upgrade changes that user's quota and nobody else's, and the tables
    stay well formed. *)
Theorem user_lifecycle `{HexCodec} `{Sha256} `{Argon2Laws} u pw salt now err db tok db' :
  db_wf db -> register u pw salt now true err db = (Ok tok, db') ->
  db_wf db' /\
  user_quota u true db' = DEFAULT_FREE_QUOTA_BYTES /\
  (forall pw2 salt2 now2, is_ok (fst (register u pw2 salt2 now2 true err db')) = false /\
     snd (register u pw2 salt2 now2 true err db') = db') /\
  (exists h, hash_password salt (as_bytes pw) = Ok h /\ forall pw2 now2,
     login u pw2 now2 true db' =
       match verify_password h (as_bytes pw2) with
       | Ok true => (Ok (make_token u now2), snd (issue_token u now2 db'))
       | Ok false => (Err "密码错误", db')
       | Err e => (Err ("hash parse: " +:+ e), db')
       end) /\
  (forall now2, fst (login u pw now2 true db') = Ok (make_token u now2)) /\
  (forall p, p <> "free" -> p <> "pro" -> set_plan u p true db' = (Err ("unknown plan: " +:+ p), db')) /\
  user_quota u true (snd (set_plan u "pro" true db')) = PRO_QUOTA_BYTES /\
  (forall d, d <> u -> user_quota d true (snd (set_plan u "pro" true db')) = user_quota d true db').
Proof.
  intros Hwf Hr.
  destruct (register_ok _ _ _ _ _ _ _ _ _ Hr) as (_ & _ & _ & h & _ & Hu).
  destruct (registered_row _ _ _ _ _ _ _ _ _ Hwf Hr) as (h2 & Hh2 & Hwf' & Hfu & Hfd).
  set (row := mkUser (next_id db) u h u "free" (as_i64 now)) in *.
  split_and!.
  - done.
  - by apply (registered_quota u pw salt now true err db tok).
  - intros pw2 salt2 now2. unfold register. destruct (hash_password salt2 _); [|done].
    assert (existsb (fun r => bool_decide (username r = u \/ domain r = u)) (users db') = true) as ->; [|done].
    apply existsb_exists. exists row. split; [|by apply bool_decide_eq_true; left].
    apply list_elem_of_In. rewrite Hu. set_solver.
  - exists h2. split; [done|]. intros pw2 now2. unfold login. cbn [negb]. rewrite Hfu. cbn [password_hash].
    by destruct (verify_password _ _) as [[]|].
  - intros now2. exact (registered_login _ _ _ _ _ _ _ _ _ now2 Hwf Hr).
  - intros p H1' H2'. unfold set_plan. by rewrite !bool_decide_eq_false_2.
  - unfold user_quota, plan. cbn [negb]. rewrite set_plan_domain, Hfd by (done || by right). cbn.
    unfold set_plan_row. cbn. by rewrite decide_True.
  - intros d Hd. unfold user_quota, plan. cbn [negb]. rewrite set_plan_domain by (done || by right).
    destruct (find_domain d db') as [r|] eqn:E; [|done]. cbn.
    unfold set_plan_row. rewrite decide_False; [done|]. intros Hur. apply Hd.
    unfold find_domain in E. destruct (list_find _ _) as [[i x]|] eqn:El; [|done]. cbn in E.
    injection E as ->. apply list_find_Some in El as (Hl & <- & _).
    destruct Hwf' as [_ Hdd _ _]. rewrite Forall_forall in Hdd.
    rewrite (Hdd r) by (by eapply list_elem_of_lookup_2). done.
Qed.

Definition demo_db : UserDb := mkUserDb [] [] 1.
Definition demo_argon : Argon2 := {|
  hash_password salt pw := Ok (of_bytes pw);
  verify_password h pw := Ok (bool_decide (as_bytes h = pw));
|}.

Lemma demo_argon_laws : @Argon2Laws demo_argon.
Proof.
  split. intros salt pw h. cbn. intros [= <-]. rewrite as_of_bytes. by rewrite bool_decide_eq_true_2.
Qed.

Lemma user_lifecycle_witness :
  let db1 := snd (register (H1 := demo_argon) "ann" "pw" [] 5 true "dup" demo_db) in
  fst (login (H1 := demo_argon) "ann" "pw" 7 true db1) = Ok (make_token "ann" 7) /\
  login (H1 := demo_argon) "ann" "PW" 7 true db1 = (Err "密码错误", db1).
Proof.
  intros db1.
  destruct (user_lifecycle (H1 := demo_argon) (H2 := demo_argon_laws) "ann" "pw" [] 5 "dup" demo_db (make_token "ann" 5) db1)
    as (_ & _ & _ & (h & Hh & Hl) & Hin & _).
  - by split; constructor.
  - apply fst_pair. vm_compute. reflexivity.
  - split; [apply Hin|]. rewrite Hl. injection Hh as <-. reflexivity.
Defined.
