(* ===== verification/State.v ===== *)
(** * Server state: quotas, object owners, tenant stores

    [nsmt-server/src/state.rs].  The three tables are behind locks held for the
    body of each method.  The registry and the lock table are their own files;
    the memory pool is [MemoryPool] of [Memory]. *)

From S2P Require Import Prelude Paths Wire Crypto Store Locks Registry Db.

Section State.
Context `{Backend}.

Record ServerState : Type := mkServerState {
  registry : Reg.Registry;
  locks : LockTable;
  db : option UserDb;
  object_stores : gmap string store;
  object_owners : gmap string (gmap string string);
  usage_bytes : gmap string Z;
}.

(** [ServerState::new] with the database connection's outcome. *)
Definition state_new (connected : result string UserDb) : ServerState :=
  mkServerState Reg.registry_default ∅
    (match connected with Ok d => Some d | Err _ => None end) ∅ ∅ ∅.

Definition quota_bytes (e : env) : Z :=
  match e "NSMT_QUOTA_BYTES" ≫= parse_u64 with
  | Some v => v
  | None => 1024 * 1024 * 1024
  end.

Definition quota_for (e : env) (db_up : bool) (d : string) (st : ServerState) : Z :=
  match db st with
  | Some b => user_quota d db_up b
  | None => quota_bytes e
  end.

(** The locked part of [try_reserve_quota], for a limit read before. *)
Definition reserve (limit : Z) (d : string) (n : Z) (usage : gmap string Z) : bool * gmap string Z :=
  let used := default 0 (usage !! d) in
  if wrap64 (used + n) >? limit then (false, usage)
  else (true, <[d := wrap64 (used + n)]> usage).

Definition set_usage (u : gmap string Z) (st : ServerState) : ServerState :=
  mkServerState (registry st) (locks st) (db st) (object_stores st) (object_owners st) u.

Definition try_reserve_quota (e : env) (db_up : bool) (d : string) (n : Z) (st : ServerState)
    : bool * ServerState :=
  let '(ok, u) := reserve (quota_for e db_up d st) d n (usage_bytes st) in (ok, set_usage u st).

Definition record_object_owner (d blob machine : string) (st : ServerState) : ServerState :=
  mkServerState (registry st) (locks st) (db st) (object_stores st)
    (<[d := <[blob := machine]> (default ∅ (object_owners st !! d))]> (object_owners st)) (usage_bytes st).

Definition object_owner (d blob : string) (st : ServerState) : option string :=
  m ← object_owners st !! d; m !! blob.

Definition sanitize_domain (s : string) : string := sanitize s.

Definition objects_root (base d : string) : string :=
  path_join (path_join (path_join base "server") (sanitize_domain d)) "objects".

(** [object_store_for]; [build] is the S3 client's builder. *)
Definition object_store_for (build : env -> result string unit) (e : env) (base d : string)
    (st : ServerState) (w : World) : store * ServerState * World :=
  match object_stores st !! d with
  | Some s => (s, st, w)
  | None =>
      let '(s, w') := from_env_tenant build e (objects_root base d) d w in
      (s, mkServerState (registry st) (locks st) (db st) (<[d := s]> (object_stores st))
            (object_owners st) (usage_bytes st), w')
  end.

(** What a tenant's store can look like. *)
Definition store_shape (e : env) (base d : string) (s : store) : Prop :=
  s = LocalObjectStore (objects_root base d) /\ e "NSMT_OBJECT_STORE" <> Some "s3" \/
  (exists inner, s = PrefixedObjectStore inner ("t/" +:+ d +:+ "/objects/") /\
     (inner = S3ObjectStore \/ (exists i, inner = MemoryObjectStore i) \/
      inner = LocalObjectStore (objects_root base d))).

Definition stores_wf (e : env) (base : string) (st : ServerState) : Prop :=
  forall d s, object_stores st !! d = Some s -> store_shape e base d s.
End State.

(** ** Lemmas *)

Lemma sanitize_char_plain c : clean_char (sanitize_char c) && negb (Ascii.eqb (sanitize_char c) "."%char) = true.
Proof. revert c. apply byte_cases. by vm_compute. Qed.

Lemma sanitize_clean s : sanitize s <> EmptyString -> clean_seg (sanitize s) = true.
Proof.
  intros Hn. unfold sanitize in *. set (t := str_filter _ s) in *.
  assert (str_all clean_char (str_map sanitize_char t) = true) as Hc.
  { clear. induction t as [|c t IH]; [done|]. cbn. rewrite IH, andb_true_r.
    pose proof (sanitize_char_plain c) as E. by apply andb_true_iff in E as [-> _]. }
  assert (str_mem "." (str_map sanitize_char t) = false) as Hd.
  { clear. induction t as [|c t IH]; [done|]. cbn [str_map str_mem]. rewrite IH, orb_false_r.
    pose proof (sanitize_char_plain c) as E. apply andb_true_iff in E as [_ E].
    apply negb_true_iff in E. by rewrite Ascii.eqb_sym. }
  unfold clean_seg, plain_name. rewrite Hc, (str_all_not_mem clean_char "/" _) by done.
  rewrite bool_decide_eq_false_2; [done|]. intros [E|[E|E]]; [done|rewrite E in Hd; done..].
Qed.

Lemma sanitize_nonempty s : clean_seg s = true -> sanitize s <> EmptyString.
Proof.
  destruct s as [|c s]; [done|]. unfold clean_seg. rewrite andb_true_iff. intros [_ H].
  cbn in H. apply andb_true_iff in H as [Hc _]. unfold sanitize. cbn [str_filter].
  assert (implb (clean_char c) (negb (is_cont c)) = true) as E.
  { revert c Hc. intros c _. revert c. apply byte_cases. by vm_compute. }
  rewrite Hc in E. cbn in E. by rewrite E.
Qed.

Lemma objects_root_resolve base d :
  clean_seg d = true ->
  resolve (objects_root base d) = (fst (resolve base), snd (resolve base) ++ ["server"; sanitize d; "objects"]).
Proof.
  intros Hd. unfold objects_root, sanitize_domain.
  pose proof (clean_seg_plain _ (sanitize_clean d (sanitize_nonempty d Hd))) as Hp.
  rewrite resolve_join_plain by done. rewrite resolve_join_plain by done. cbn [fst snd].
  rewrite resolve_join_plain by done. cbn [fst snd]. by rewrite <- !app_assoc.
Qed.

Section StateFacts.
Context `{BackendLaws}.

Lemma s3_from_env_ok build e s : s3_from_env build e = Ok s -> s = S3ObjectStore.
Proof.
  unfold s3_from_env, rbind, ok_or. repeat (case_match; try done). congruence.
Qed.

Lemma from_env_tenant_shape build e base d w :
  store_shape e base d (fst (from_env_tenant build e (objects_root base d) d w)).
Proof.
  unfold from_env_tenant, from_env_or, store_shape.
  destruct (decide (e "NSMT_OBJECT_STORE" = Some "s3")) as [Es|Es].
  - right. destruct (s3_from_env build e) as [s|err] eqn:E3.
    + apply s3_from_env_ok in E3 as ->. rewrite decide_True by (by left). cbn [fst].
      rewrite prefixed_new_objects. eauto.
    + rewrite decide_True by (by left). cbn [fst]. rewrite prefixed_new_objects. eauto 6.
  - destruct (decide (e "NSMT_OBJECT_STORE" = Some "memory")) as [Em|Em].
    + right. unfold memory_default. rewrite decide_True by (by right). cbn [fst].
      rewrite prefixed_new_objects. eauto 7.
    + rewrite decide_False by naive_solver. by left.
Qed.

Lemma object_store_for_wf build e base d st w s st' w' :
  stores_wf e base st -> object_store_for build e base d st w = (s, st', w') ->
  stores_wf e base st' /\ store_shape e base d s.
Proof.
  intros Hwf. unfold object_store_for. destruct (object_stores st !! d) as [s0|] eqn:E.
  - intros [= <- <- <-]. eauto.
  - pose proof (from_env_tenant_shape build e base d w) as Hs.
    destruct (from_env_tenant _ _ _ _ _) as [s1 w1]. cbn [fst] in Hs. intros [= <- <- <-].
    split; [|done]. intros d' s'. cbn [object_stores].
    intros [[<- <-]|[_ ?]]%lookup_insert_Some; [done|eauto].
Qed.
End StateFacts.

(** A sequence of reservations of all tenants: the answers and the final table. *)
Fixpoint run_reserve (limit : string -> Z) (reqs : list (string * Z)) (usage : gmap string Z)
    : list bool * gmap string Z :=
  match reqs with
  | [] => ([], usage)
  | (d, n) :: reqs' =>
      let '(ok, u) := reserve (limit d) d n usage in
      let '(oks, u') := run_reserve limit reqs' u in (ok :: oks, u')
  end.

(** The bytes granted to [d]. *)
Fixpoint granted (d : string) (reqs : list (string * Z)) (oks : list bool) : Z :=
  match reqs, oks with
  | (d', n) :: reqs', ok :: oks' =>
      (if bool_decide (d' = d) && ok then n else 0) + granted d reqs' oks'
  | _, _ => 0
  end.

Definition used_of (d : string) (usage : gmap string Z) : Z := default 0 (usage !! d).

Lemma reserve_spec limit d n usage :
  0 <= n -> 0 <= used_of d usage -> used_of d usage + n < 2 ^ 64 ->
  let '(ok, u) := reserve limit d n usage in
  ok = (used_of d usage + n <=? limit) /\
  used_of d u = used_of d usage + (if ok then n else 0) /\
  forall d', d' <> d -> used_of d' u = used_of d' usage.
Proof.
  intros Hn Hu Hw. unfold reserve. fold (used_of d usage).
  assert (wrap64 (used_of d usage + n) = used_of d usage + n) as -> by (apply Z.mod_small; lia).
  destruct (used_of d usage + n >? limit) eqn:E.
  - split_and!; [lia | lia | done].
  - split_and!; [lia | by unfold used_of at 1; rewrite lookup_insert_eq |].
    intros d' Hd. unfold used_of. by rewrite lookup_insert_ne.
Qed.

(** ** Properties *)

(** C30: The quota holds over any interleaving of uploads of all tenants: as long
    as no declared size overflows the counter, a tenant's counter is exactly what
    it was granted, a request is granted exactly when it fits, and nobody ever
    holds more than the quota. *)
Theorem quota_sound limit reqs usage d :
  Forall (fun r => 0 <= snd r) reqs -> 0 <= used_of d usage <= limit d ->
  (forall d', 0 <= used_of d' usage) ->
  (forall d', used_of d' usage + fold_right (fun r acc => snd r + acc) 0 reqs < 2 ^ 64) ->
  let '(oks, u) := run_reserve limit reqs usage in
  used_of d u = used_of d usage + granted d reqs oks /\ used_of d u <= limit d /\
  (forall d1 n1 rest, reqs = (d1, n1) :: rest ->
     head oks = Some (used_of d1 usage + n1 <=? limit d1)).
Proof.
  intros Hn Hd Hpos Hsum.
  assert (forall oks u, run_reserve limit reqs usage = (oks, u) ->
    used_of d u = used_of d usage + granted d reqs oks /\ used_of d u <= limit d) as Hgen.
  { revert usage Hd Hpos Hsum. induction Hn as [|[d0 n0] reqs Hn0 Hn IH]; intros usage Hd Hpos Hsum oks u Hrun.
    - injection Hrun as <- <-. cbn. lia.
    - cbn [run_reserve fold_right snd] in *.
      assert (0 <= fold_right (fun r acc => snd r + acc) 0 reqs) as Hs0.
      { clear -Hn. induction Hn; cbn; lia. }
      pose proof (reserve_spec (limit d0) d0 n0 usage Hn0 (Hpos d0) ltac:(specialize (Hsum d0); lia)) as Hr.
      destruct (reserve (limit d0) d0 n0 usage) as [ok u1]. destruct Hr as (Hok & Hu1 & Hoth).
      destruct (run_reserve limit reqs u1) as [oks' u'] eqn:Er. injection Hrun as <- <-.
      assert (forall d', 0 <= used_of d' u1 <= used_of d' usage + n0) as Hb.
      { intros d'. specialize (Hpos d'). destruct (decide (d' = d0)) as [->|Hne];
          [rewrite Hu1; destruct ok; lia | rewrite Hoth by done; lia]. }
      assert (used_of d u1 <= limit d) as Hl1.
      { destruct (decide (d = d0)) as [->|Hne]; [|by rewrite Hoth by done; lia].
        rewrite Hu1. destruct ok; lia. }
      destruct (IH u1) with (oks := oks') (u := u') as [E1 E2]; [specialize (Hb d); lia | | |done|].
      { intros d'. apply Hb. }
      { intros d'. specialize (Hb d'). specialize (Hsum d'). lia. }
      split; [|done]. cbn [granted]. rewrite E1.
      destruct (decide (d0 = d)) as [->|Hne].
      + rewrite bool_decide_eq_true_2 by done. rewrite Hu1. cbn [andb]. destruct ok; lia.
      + rewrite bool_decide_eq_false_2 by done. rewrite Hoth by done. cbn [andb]. lia. }
  destruct (run_reserve limit reqs usage) as [oks u] eqn:Er.
  destruct (Hgen _ _ eq_refl) as [E1 E2]. split_and!; [done|done|].
  intros d1 n1 rest ->. cbn [run_reserve] in Er.
  pose proof (reserve_spec (limit d1) d1 n1 usage) as Hr.
  destruct (reserve _ _ _ _) as [ok u1]. destruct (run_reserve limit rest u1) as [oks' u'].
  injection Er as <- <-. cbn [head]. f_equal. apply Hr.
  - by apply Forall_cons in Hn as [? _].
  - done.
  - specialize (Hsum d1). cbn [fold_right snd] in Hsum. apply Forall_cons in Hn as [_ Hn].
    assert (0 <= fold_right (fun r acc => snd r + acc) 0 rest) by (clear -Hn; induction Hn; cbn; lia). lia.
Qed.

Lemma quota_sound_witness :
  used_of "a" (snd (run_reserve (fun _ => 100) [("a", 60); ("b", 90); ("a", 50); ("a", 40)] ∅)) = 0 + 100.
Proof.
  refine (proj1 (quota_sound (fun _ => 100) [("a", 60); ("b", 90); ("a", 50); ("a", 40)] ∅ "a" _ _ _ _)).
  - repeat constructor; cbn; lia.
  - vm_compute. split; discriminate.
  - intros d. unfold used_of. rewrite lookup_empty. cbn. lia.
  - intros d. unfold used_of. rewrite lookup_empty. cbn. lia.
Defined.

(** The declared size is added without an overflow check: an upload that
    declares a size close to 2^64 wraps the sum below the limit, is granted, and
    lowers the tenant's counter, so the quota can be reset at will. *)
Theorem quota_wrap_bypass limit d usage :
  0 < used_of d usage <= limit -> used_of d usage < 2 ^ 64 ->
  let n := 2 ^ 64 - used_of d usage in
  0 <= n < 2 ^ 64 /\ fst (reserve limit d n usage) = true /\
  used_of d (snd (reserve limit d n usage)) = 0.
Proof.
  intros Hu Hw n. unfold n. split; [lia|]. unfold reserve. fold (used_of d usage).
  assert (wrap64 (used_of d usage + (2 ^ 64 - used_of d usage)) = 0) as ->.
  { unfold wrap64. replace (used_of d usage + (2 ^ 64 - used_of d usage)) with (2 ^ 64) by lia. done. }
  destruct (0 >? limit) eqn:E; [lia|]. cbn [fst snd]. split; [done|].
  unfold used_of. by rewrite lookup_insert_eq.
Qed.

Lemma quota_wrap_bypass_witness :
  fst (reserve 100 "a" (2 ^ 64 - 90) {["a" := 90]}) = true.
Proof. refine (proj1 (proj2 (quota_wrap_bypass 100 "a" {["a" := 90]} _ _))); vm_compute; split; congruence. Defined.

Section Isolation.
Context `{BackendLaws}.

Lemma prefixed_key_split d k :
  clean_seg d = true -> clean_seg k = true ->
  str_split "/" (prefixed_key ("t/" +:+ d +:+ "/objects/") k) = ["t"; d; "objects"; k].
Proof.
  intros Hd Hk. rewrite prefixed_key_plain by (by apply clean_seg_plain). rewrite !str_app_assoc.
  change ("t/" +:+ d +:+ "/objects/" +:+ k) with
    ("t" +:+ String "/" (d +:+ String "/" ("objects" +:+ String "/" k))).
  rewrite !str_split_app. rewrite !str_split_single; try done; by apply plain_no_slash, clean_seg_plain.
Qed.

Lemma CDisk_inj l l' : CDisk l = CDisk l' -> l = l'.
Proof. congruence. Qed.

Lemma shape_targets e base d1 d2 s1 s2 k1 k2 :
  clean_seg d1 = true -> clean_seg d2 = true -> clean_seg k1 = true -> clean_seg k2 = true ->
  store_shape e base d1 s1 -> store_shape e base d2 s2 -> sanitize d1 <> sanitize d2 ->
  target s1 k1 <> target s2 k2.
Proof.
  intros Hd1 Hd2 Hk1 Hk2 Hs1 Hs2 Hne.
  assert (d1 <> d2) as Hd by congruence.
  pose proof (prefixed_key_split d1 k1 Hd1 Hk1) as P1.
  pose proof (prefixed_key_split d2 k2 Hd2 Hk2) as P2.
  assert (forall d k, clean_seg d = true -> clean_seg k = true ->
    clean_key (prefixed_key ("t/" +:+ d +:+ "/objects/") k) = true) as Hck.
  { intros d k Hd' Hk'. rewrite prefixed_key_plain by (by apply clean_seg_plain). by apply tenant_prefix_clean. }
  assert (forall d k, clean_seg d = true -> clean_key k = true -> exists more,
    resolve (path_join (objects_root base d) k) =
      (fst (resolve base), snd (resolve base) ++ "server" :: sanitize d :: "objects" :: more)) as Hloc.
  { intros d k Hd' Hk'. rewrite resolve_join_clean by done. rewrite objects_root_resolve by done.
    cbn [fst snd]. eexists. by rewrite <- app_assoc. }
  assert (forall r1 r2 d d', sanitize d <> sanitize d' ->
    (fst (resolve base), snd (resolve base) ++ "server" :: sanitize d :: "objects" :: r1) <>
    (fst (resolve base), snd (resolve base) ++ "server" :: sanitize d' :: "objects" :: r2)) as Hneq.
  { intros r1 r2 d d' Hnd E%(f_equal snd). cbn [snd] in E. apply (inj (app _)) in E. congruence. }
  pose proof (clean_seg_key _ Hk1) as Hc1. pose proof (clean_seg_key _ Hk2) as Hc2.
  pose proof (Hck _ _ Hd1 Hk1) as Hp1. pose proof (Hck _ _ Hd2 Hk2) as Hp2.
  assert (prefixed_key ("t/" +:+ d1 +:+ "/objects/") k1 <> prefixed_key ("t/" +:+ d2 +:+ "/objects/") k2) as Hpk
    by (intros E; rewrite E in P1; congruence).
  destruct Hs1 as [[-> _]|(i1 & -> & [->|[[n1 ->]| ->]])];
    destruct Hs2 as [[-> _]|(i2 & -> & [->|[[n2 ->]| ->]])]; cbn [target]; try done;
    rewrite ?obj_path_clean by done; try congruence;
    (edestruct (Hloc d1) as [m1 ->]; [done|done|]); (edestruct (Hloc d2) as [m2 ->]; [done|done|]);
    intros E; apply (Hneq m1 m2 d1 d2 Hne); by apply CDisk_inj in E.
Qed.
End Isolation.

(** C19: Tenants are isolated in the object store, whichever backend is configured
    and whatever was cached before: after the stores of two domains were handed out,
    nothing that is put into one or deleted from it changes what the other reads.
    The domains and object ids are plain names of letters, digits, [-], [_] and [.],
    and the domains differ once sanitized ([sanitize_collision] is about domains that
    do not). *)
Theorem tenant_store_isolation `{BackendLaws} build e base d1 d2 st w s1 st1 w1 s2 st2 w2 k1 k2 :
  stores_wf e base st -> clean_seg d1 = true -> clean_seg d2 = true ->
  clean_seg k1 = true -> clean_seg k2 = true -> sanitize d1 <> sanitize d2 ->
  object_store_for build e base d1 st w = (s1, st1, w1) ->
  object_store_for build e base d2 st1 w1 = (s2, st2, w2) ->
  (forall b r wa wb, put s1 k1 b wa = (r, wb) -> get s2 k2 wb = get s2 k2 wa) /\
  (forall r wa wb, store_delete s1 k1 wa = (r, wb) -> get s2 k2 wb = get s2 k2 wa).
Proof.
  intros Hwf Hd1 Hd2 Hk1 Hk2 Hne E1 E2.
  destruct (object_store_for_wf _ _ _ _ _ _ _ _ _ Hwf E1) as [Hwf1 Hs1].
  destruct (object_store_for_wf _ _ _ _ _ _ _ _ _ Hwf1 E2) as [_ Hs2].
  assert (target s2 k2 <> target s1 k1) as Ht by (apply not_eq_sym; by apply (shape_targets e base d1 d2)).
  split; intros *; intros E.
  - exact (only_at_frame _ _ _ _ _ (put_only _ _ _ _ _ _ E) Ht).
  - exact (only_at_frame _ _ _ _ _ (delete_only _ _ _ _ _ E) Ht).
Qed.

Definition demo_state : ServerState := state_new (Err "no database").
Definition demo_s3_env : env := fun v =>
  if decide (v = "NSMT_OBJECT_STORE") then Some "s3" else Some "x".

Lemma tenant_store_isolation_witness :
  get (PrefixedObjectStore S3ObjectStore "t/bob/objects/") "k"
      (snd (put (PrefixedObjectStore S3ObjectStore "t/ann/objects/") "k" (as_bytes "1") demo_world))
  = get (PrefixedObjectStore S3ObjectStore "t/bob/objects/") "k" demo_world.
Proof.
  refine (proj1 (tenant_store_isolation (fun _ => Ok tt) demo_s3_env "/srv" "ann" "bob" demo_state demo_world
    _ (snd (fst (object_store_for (fun _ => Ok tt) demo_s3_env "/srv" "ann" demo_state demo_world))) demo_world _ _ _ "k" "k" _ _ _ _ _ _ _ _) (as_bytes "1") (Ok tt) demo_world _ _).
  - intros d s. change (object_stores demo_state) with (∅ : gmap string store). by rewrite lookup_empty.
  - reflexivity.
  - reflexivity.
  - reflexivity.
  - reflexivity.
  - discriminate.
  - vm_compute. reflexivity.
  - vm_compute. reflexivity.
  - apply fst_pair. vm_compute. reflexivity.
Defined.

(** Two different valid user domains whose names sanitize alike, such as
    [a.b] and [a_b], are given the same directory by the local store: each reads
    and overwrites the other's objects. *)
Theorem sanitize_collision `{BackendLaws} build e base d1 d2 st w s1 st1 w1 s2 st2 w2 :
  e "NSMT_OBJECT_STORE" = None -> sanitize d1 = sanitize d2 ->
  object_stores st !! d1 = None -> object_stores st !! d2 = None -> d1 <> d2 ->
  object_store_for build e base d1 st w = (s1, st1, w1) ->
  object_store_for build e base d2 st1 w1 = (s2, st2, w2) ->
  s1 = s2 /\ w2 = w.
Proof.
  intros He Hs H1 H2 Hne. unfold object_store_for at 1. rewrite H1.
  unfold from_env_tenant, from_env_or. rewrite He. rewrite !decide_False by naive_solver.
  intros [= <- <- <-]. unfold object_store_for. cbn [object_stores].
  rewrite lookup_insert_ne, H2 by done. unfold from_env_tenant, from_env_or. rewrite He.
  rewrite !decide_False by naive_solver. intros [= <- _ <-].
  unfold objects_root, sanitize_domain. by rewrite Hs.
Qed.

Lemma sanitize_collision_witness :
  fst (fst (object_store_for (fun _ => Ok tt) (fun _ => None) "/srv" "a.b" demo_state demo_world)) =
  LocalObjectStore (objects_root "/srv" "a_b").
Proof.
  refine (proj1 (sanitize_collision (fun _ => Ok tt) (fun _ => None) "/srv" "a.b" "a_b" demo_state demo_world
    _ (snd (fst (object_store_for (fun _ => Ok tt) (fun _ => None) "/srv" "a.b" demo_state demo_world))) demo_world _ _ demo_world _ _ _ _ _ _ _)).
  - reflexivity.
  - reflexivity.
  - reflexivity.
  - reflexivity.
  - discriminate.
  - vm_compute. reflexivity.
  - vm_compute. reflexivity.
Defined.
