(* ===== verification/Tree.v ===== *)
(** * Directory trees and the server's file store

    [ServerFs], [tree_hash] and [diff] of [nsmt-server/src/fs.rs].  Objects go
    through the object store; trees are JSON files on the server's disk. *)

From S2P Require Import Prelude Paths Wire Messages Crypto Store.

Abbreviation entry := FileTreeEntry.t.

(** Entries by path, as [sort_by(|a, b| a.path.cmp(&b.path))] orders them. *)
Definition path_le (a b : entry) : Prop := String.le (FileTreeEntry.path a) (FileTreeEntry.path b).
#[export] Instance path_le_dec : RelDecision path_le.
Proof. intros a b. unfold path_le. apply _. Defined.

Definition sort_entries (l : list entry) : list entry := merge_sort path_le l.

Section Tree.
Context `{HexCodec} `{Sha256}.

(** The bytes one entry adds to the hash: the modification time is not among
    them. *)
Definition entry_bytes (e : entry) : bytes :=
  as_bytes (FileTreeEntry.path e) ++ as_bytes (FileTreeEntry.blob_id e) ++
  le_bytes 2 (FileTreeEntry.mode e) ++ le_bytes 8 (FileTreeEntry.size e).

Definition tree_hash (t : FileTree.t) : string :=
  hex_encode (sha256 (concat (map entry_bytes (sort_entries (FileTree.entries t))))).

(** [object_id] of the client: the name an object is stored under. *)
Definition object_id (b : bytes) : string := hex_encode (sha256 b).
End Tree.

(** ** [ServerFs::diff] *)

Definition old_map (old : option FileTree.t) : gmap string entry :=
  match old with
  | Some o => fold_left (fun m e => <[FileTreeEntry.path e := e]> m) (FileTree.entries o) ∅
  | None => ∅
  end.

Definition same_content (o e : entry) : bool :=
  bool_decide (FileTreeEntry.blob_id o = FileTreeEntry.blob_id e) &&
  (FileTreeEntry.mtime_ns o =? FileTreeEntry.mtime_ns e).

(** One turn of the loop over the latest entries. *)
Definition diff_step (acc : list string * gmap string entry) (e : entry)
    : list string * gmap string entry :=
  let '(changed, m) := acc in
  let p := FileTreeEntry.path e in
  (match m !! p with
   | None => changed ++ [p]
   | Some o => if same_content o e then changed else changed ++ [p]
   end, delete p m).

Definition diff (old latest : option FileTree.t) : list string * list string :=
  let '(changed, m) :=
    match latest with
    | Some l => fold_left diff_step (FileTree.entries l) ([], old_map old)
    | None => ([], old_map old)
    end in
  (changed, fst <$> map_to_list m).

(** ** [ServerFs] *)

Section ServerFs.
Context `{Backend} `{Serde FileTree.t}.

Record ServerFs : Type := mkServerFs { root : string; objects : store }.

Definition server_fs_new (base d : string) (objs : store) : ServerFs :=
  mkServerFs (path_join (path_join base "server") (sanitize d)) objs.

Definition trees_dir (s : ServerFs) : string := path_join (root s) "trees".
Definition latest_path (s : ServerFs) : string := path_join (trees_dir s) "latest.json".
Definition tree_path (s : ServerFs) (h : string) : string := path_join (trees_dir s) (h +:+ ".json").

Definition put_object (s : ServerFs) (blob : string) (b : bytes) (w : World) := put (objects s) blob b w.
Definition get_object (s : ServerFs) (blob : string) (w : World) : option bytes := get (objects s) blob w.
Definition object_exists (s : ServerFs) (blob : string) (w : World) : bool := exists_ (objects s) blob w.

Definition save_tree (s : ServerFs) (t : FileTree.t) (w : World) : result string unit * World :=
  match create_dir_all (trees_dir s) (disk w) with
  | None => (Err "create_dir_all", w)
  | Some d1 =>
      match fs_write (tree_path s (FileTree.tree_hash t)) (to_vec t) d1 with
      | None => (Err "write", set_disk d1 w)
      | Some d2 =>
          match fs_write (latest_path s) (to_vec t) d2 with
          | None => (Err "write", set_disk d2 w)
          | Some d3 => (Ok tt, set_disk d3 w)
          end
      end
  end.

Definition read_tree (p : string) (w : World) : option FileTree.t :=
  if negb (fs_exists (disk w) p) then None
  else s ← read_to_string (disk w) p; from_slice (as_bytes s).

Definition get_tree (s : ServerFs) (h : string) (w : World) : option FileTree.t :=
  read_tree (tree_path s h) w.

Definition latest_tree (s : ServerFs) (w : World) : option FileTree.t :=
  read_tree (latest_path s) w.

Definition temp_path_for (s : ServerFs) (blob : string) : string :=
  path_join (path_join (root s) "tmp") (blob +:+ ".part").
End ServerFs.

(** ** Lemmas *)

#[export] Instance path_le_trans : Transitive path_le.
Proof. intros a b c. unfold path_le. apply transitivity. Qed.
#[export] Instance path_le_total : Total path_le.
Proof. intros a b. unfold path_le. apply (total String.le). Qed.

Lemma sort_entries_perm l : sort_entries l ≡ₚ l.
Proof. apply merge_sort_Permutation. Qed.

(** Entries at distinct paths are told apart by their paths. *)
Lemma path_NoDup_inj (l : list entry) x y :
  NoDup (FileTreeEntry.path <$> l) -> x ∈ l -> y ∈ l ->
  FileTreeEntry.path x = FileTreeEntry.path y -> x = y.
Proof.
  intros Hn [i Hi]%list_elem_of_lookup [j Hj]%list_elem_of_lookup E.
  assert (i = j) as <-; [|congruence].
  eapply (NoDup_lookup _ i j (FileTreeEntry.path x) Hn); rewrite list_lookup_fmap, ?Hi, ?Hj; cbn; congruence.
Qed.

(** Sorting forgets the order of entries with distinct paths. *)
Lemma sort_entries_unique l l' :
  l ≡ₚ l' -> NoDup (FileTreeEntry.path <$> l) -> sort_entries l = sort_entries l'.
Proof.
  intros Hp Hn. apply (StronglySorted_unique_strong path_le).
  - intros x1 x2 H1 H2 H12 H21.
    rewrite sort_entries_perm in H1. rewrite sort_entries_perm, <- Hp in H2.
    apply (path_NoDup_inj l); [done..|by apply (anti_symm String.le)].
  - apply StronglySorted_merge_sort; apply _.
  - apply StronglySorted_merge_sort; apply _.
  - by rewrite !sort_entries_perm.
Qed.

Lemma fold_insert_lookup (l : list entry) (m : gmap string entry) p :
  NoDup (FileTreeEntry.path <$> l) ->
  fold_left (fun m e => <[FileTreeEntry.path e := e]> m) l m !! p =
    match list_find (fun e => FileTreeEntry.path e = p) l with
    | Some (_, e) => Some e
    | None => m !! p
    end.
Proof.
  revert m. induction l as [|e l IH]; intros m Hn; [done|]. cbn in Hn |- *.
  apply NoDup_cons in Hn as [Hnot Hn]. rewrite IH by done.
  destruct (decide (FileTreeEntry.path e = p)) as [<-|Hne].
  - destruct (list_find _ l) as [[i x]|] eqn:E; [|by rewrite lookup_insert_eq].
    apply list_find_Some in E as (Hl & Hx & _). exfalso. apply Hnot.
    rewrite <- Hx. apply list_elem_of_fmap_2. by eapply list_elem_of_lookup_2.
  - destruct (list_find _ l) as [[i x]|]; cbn; [done|]. by rewrite lookup_insert_ne.
Qed.

(** The entry of a tree at a path. *)
Definition entry_at (t : option FileTree.t) (p : string) : option entry :=
  o ← t; x ← list_find (fun e => FileTreeEntry.path e = p) (FileTree.entries o); Some (snd x).

Definition distinct_paths (t : option FileTree.t) : Prop :=
  match t with
  | Some o => NoDup (FileTreeEntry.path <$> FileTree.entries o)
  | None => True
  end.

Lemma old_map_lookup old p : distinct_paths old -> old_map old !! p = entry_at old p.
Proof.
  destruct old as [o|]; cbn; intros Hn; [|apply lookup_empty].
  rewrite fold_insert_lookup by done. unfold entry_at. cbn.
  destruct (list_find _ _) as [[i x]|]; [done|apply lookup_empty].
Qed.

Lemma entry_at_in t p e :
  distinct_paths (Some t) ->
  entry_at (Some t) p = Some e <-> e ∈ FileTree.entries t /\ FileTreeEntry.path e = p.
Proof.
  cbn. intros Hn. unfold entry_at. cbn. split.
  - destruct (list_find _ _) as [[i x]|] eqn:E; [|done]. cbn. intros [= <-].
    apply list_find_Some in E as (Hl & Hx & _). split; [by eapply list_elem_of_lookup_2|done].
  - intros [Hin <-]. destruct (list_find _ _) as [[i x]|] eqn:E; cbn.
    + apply list_find_Some in E as (Hl & Hx & _). f_equal.
      apply list_elem_of_lookup in Hin as [j Hj]. assert (i = j) as <-; [|congruence].
      eapply (NoDup_lookup _ i j (FileTreeEntry.path e) Hn); rewrite list_lookup_fmap, ?Hl, ?Hj; cbn; congruence.
    + apply list_find_None in E. rewrite Forall_forall in E. by apply E in Hin.
Qed.

(** An entry the loop reports, given the old table. *)
Definition changed_by (m : gmap string entry) (e : entry) : bool :=
  match m !! FileTreeEntry.path e with
  | Some o => negb (same_content o e)
  | None => true
  end.

(** The loop: what it reports and what it leaves in the table. *)
Lemma diff_fold l changed m :
  NoDup (FileTreeEntry.path <$> l) ->
  let '(changed', m') := fold_left diff_step l (changed, m) in
  changed' = changed ++ (FileTreeEntry.path <$> filter (fun e => changed_by m e = true) l) /\
  forall p, m' !! p = (if decide (p ∈ FileTreeEntry.path <$> l) then None else m !! p).
Proof.
  revert changed m. induction l as [|e l IH]; intros changed m Hn; cbn [fold_left].
  { split; [by rewrite app_nil_r|]. intros p. by rewrite decide_False by set_solver. }
  apply NoDup_cons in Hn as [Hnot Hn]. cbn [diff_step].
  set (c' := match m !! _ with Some _ => _ | None => _ end).
  specialize (IH c' (delete (FileTreeEntry.path e) m) Hn).
  destruct (fold_left diff_step l _) as [changed' m']. destruct IH as [-> Hm]. split.
  - assert (filter (fun x => changed_by (delete (FileTreeEntry.path e) m) x = true) l =
            filter (fun x => changed_by m x = true) l) as ->.
    { apply filter_bool_ext. intros x Hx. unfold changed_by.
      rewrite lookup_delete_ne; [done|]. intros E. apply Hnot. rewrite E.
      by apply list_elem_of_fmap_2. }
    assert (c' = changed ++ (if changed_by m e then [FileTreeEntry.path e] else [])) as ->.
    { unfold c', changed_by. destruct (m !! _) as [o|]; [|done].
      destruct (same_content o e); [by rewrite app_nil_r|done]. }
    rewrite filter_cons. destruct (changed_by m e).
    + rewrite decide_True by done. by rewrite <- app_assoc.
    + rewrite decide_False by done. by rewrite app_nil_r.
  - intros p. rewrite Hm. cbn [fmap list_fmap]. destruct (decide (p = FileTreeEntry.path e)) as [->|Hp].
    + rewrite (decide_True _ _ (P := FileTreeEntry.path e ∈ FileTreeEntry.path e :: _)) by set_solver.
      case_decide; [done|]. by rewrite lookup_delete_eq.
    + rewrite lookup_delete_ne by done. case_decide; case_decide; set_solver.
Qed.

(** ** The hashed text determines the tree

    The pre-image has no separators; for trees a client builds (UTF-8 paths,
    64-digit object ids, mode [0o644]) it can be cut into entries again, because
    the mode's first byte [0xA4] after a hex digit occurs nowhere in UTF-8 text. *)

Definition A4 : byte := u8_of 164.

(** The text before and after the first [A4] that follows an ASCII byte. *)
Fixpoint cut (prev_ascii : bool) (l : bytes) : option (bytes * bytes) :=
  match l with
  | [] => None
  | c :: t =>
      if prev_ascii && Ascii.eqb c A4 then Some ([], t)
      else p ← cut (u8_val c <? 128) t; Some (c :: fst p, snd p)
  end.

Definition prepend (b : bytes) (r : option (bytes * bytes)) : option (bytes * bytes) :=
  p ← r; Some (b ++ fst p, snd p).

Lemma prepend_cons c b r : prepend (c :: b) r = (p ← prepend b r; Some (c :: fst p, snd p)).
Proof. by destruct r as [[]|]. Qed.

Lemma eqb_A4 c : Ascii.eqb c A4 = (u8_val c =? 164).
Proof.
  destruct (Ascii.eqb_spec c A4) as [->|Hne]; [done|]. symmetry. apply Z.eqb_neq.
  intros E. apply Hne. apply (inj u8_val). by rewrite E.
Qed.

Lemma cut_skip pa c t : u8_val c <> 164 \/ pa = false ->
  cut pa (c :: t) = (p ← cut (u8_val c <? 128) t; Some (c :: fst p, snd p)).
Proof.
  intros H. cbn [cut]. rewrite eqb_A4. destruct pa; cbn [andb]; [|done].
  destruct H as [H|]; [|done]. by apply Z.eqb_neq in H as ->.
Qed.

Lemma cut_utf8 b rest r pa :
  utf8_valid b = true -> (forall pa', cut pa' rest = r) -> cut pa (b ++ rest) = prepend b r.
Proof.
  remember (length b) as n eqn:Hn. revert b pa Hn.
  induction n as [n IH] using (well_founded_induction lt_wf). intros b pa -> Hv Hr.
  destruct b as [|c t]; [rewrite app_nil_l, Hr; by destruct r as [[]|]|].
  rewrite prepend_cons. cbn [utf8_valid] in Hv. cbn [app].
  destruct (u8_val c <? 128) eqn:E1.
  { rewrite cut_skip by lia. rewrite E1. rewrite (IH (length t)); [done|cbn; lia|done..]. }
  destruct ((194 <=? u8_val c) && (u8_val c <=? 223)) eqn:E2.
  { destruct t as [|c1 t]; [done|]. apply andb_true_iff in Hv as [_ Hv].
    rewrite cut_skip by lia. rewrite E1. cbn [app]. rewrite cut_skip by (by right).
    rewrite prepend_cons. rewrite (IH (length t)); [done|cbn; lia|done..]. }
  destruct ((224 <=? u8_val c) && (u8_val c <=? 239)) eqn:E3.
  { destruct t as [|c1 [|c2 t]]; [done..|]. rewrite !andb_true_iff in Hv.
    destruct Hv as [[[[H1 H2] _] _] Hv]. unfold is_cont in H1, H2.
    rewrite cut_skip by lia. rewrite E1. cbn [app]. rewrite cut_skip by (by right).
    assert (u8_val c1 <? 128 = false) as -> by lia. rewrite cut_skip by (by right).
    rewrite !prepend_cons. rewrite (IH (length t)); [done|cbn; lia|done..]. }
  destruct ((240 <=? u8_val c) && (u8_val c <=? 244)) eqn:E4; [|done].
  destruct t as [|c1 [|c2 [|c3 t]]]; [done..|]. rewrite !andb_true_iff in Hv.
  destruct Hv as [[[[[H1 H2] H3] _] _] Hv]. unfold is_cont in H1, H2, H3.
  rewrite cut_skip by lia. rewrite E1. cbn [app]. rewrite cut_skip by (by right).
  assert (u8_val c1 <? 128 = false) as -> by lia. rewrite cut_skip by (by right).
  assert (u8_val c2 <? 128 = false) as -> by lia. rewrite cut_skip by (by right).
  rewrite !prepend_cons. rewrite (IH (length t)); [done|cbn; lia|done..].
Qed.

(** A non-empty ASCII text before the marker. *)
Lemma cut_ascii b rest pa :
  b <> [] -> forallb (fun c => u8_val c <? 128) b = true -> cut pa (b ++ A4 :: rest) = Some (b, rest).
Proof.
  revert pa. induction b as [|c b IH]; intros pa Hne Hb; [done|]. cbn [forallb app] in *.
  apply andb_true_iff in Hb as [Hc Hb]. rewrite cut_skip by lia. rewrite Hc.
  destruct b as [|c' b]; [by cbn|]. by rewrite IH.
Qed.

(** An entry as [build_tree] makes it. *)
Record honest (e : entry) : Prop := {
  honest_path : utf8_valid (as_bytes (FileTreeEntry.path e)) = true;
  honest_blob : String.length (FileTreeEntry.blob_id e) = 64%nat;
  honest_hex : str_all is_hexdigit (FileTreeEntry.blob_id e) = true;
  honest_mode : FileTreeEntry.mode e = 420;
  honest_size : 0 <= FileTreeEntry.size e < 2 ^ 64;
}.

(** What the hash speaks about. *)
Definition entry_key (e : entry) : string * string * Z :=
  (FileTreeEntry.path e, FileTreeEntry.blob_id e, FileTreeEntry.size e).

Lemma as_bytes_length s : length (as_bytes s) = String.length s.
Proof. induction s as [|c s IH]; [done|]. cbn. by rewrite <- IH. Qed.

Lemma entry_bytes_cut e rest :
  honest e ->
  cut false (entry_bytes e ++ rest) =
    Some (as_bytes (FileTreeEntry.path e) ++ as_bytes (FileTreeEntry.blob_id e),
          u8_of 1 :: le_bytes 8 (FileTreeEntry.size e) ++ rest).
Proof.
  intros [Hp Hb Hh Hm Hs]. unfold entry_bytes. rewrite Hm, <- !app_assoc.
  assert (le_bytes 2 420 = [A4; u8_of 1]) as -> by done. cbn [app].
  rewrite (cut_utf8 _ _ (Some (as_bytes (FileTreeEntry.blob_id e),
    u8_of 1 :: le_bytes 8 (FileTreeEntry.size e) ++ rest))); [done|done|].
  intros pa. apply cut_ascii.
  - intros E. rewrite <- as_bytes_length, E in Hb. done.
  - rewrite <- str_all_bytes. eapply str_all_impl; [|exact Hh].
    intros c Hc. unfold is_hexdigit, is_digit in Hc. lia.
Qed.

Lemma app_inj_length {A} (a b c d : list A) : length b = length d -> a ++ b = c ++ d -> a = c /\ b = d.
Proof. intros Hl E. apply app_inj_2 in E; [done|]. done. Qed.

Lemma hashed_inj l l' :
  Forall honest l -> Forall honest l' ->
  concat (map entry_bytes l) = concat (map entry_bytes l') -> map entry_key l = map entry_key l'.
Proof.
  assert (forall e rest, entry_bytes e ++ rest <> []) as Hne.
  { intros e rest E. apply (f_equal length) in E. unfold entry_bytes in E. rewrite !length_app, !le_bytes_length in E.
    cbn in E. lia. }
  intros Hl; revert l'. induction Hl as [|e l He _ IH]; intros l' Hl' E; cbn [map concat] in *.
  - destruct Hl' as [|e' l' He' _]; [done|]. cbn in E. by apply eq_sym, Hne in E.
  - destruct Hl' as [|e' l' He' Hl']; cbn [map concat] in *; [by apply Hne in E|].
    apply (f_equal (cut false)) in E. rewrite !entry_bytes_cut in E by done.
    assert (forall (p q : bytes * bytes), Some p = Some q -> fst p = fst q /\ snd p = snd q) as Hpq
      by (intros [] [] [= -> ->]; done).
    apply Hpq in E as [E1 E2]. cbn [fst snd] in E1, E2.
    apply app_inj_length in E1 as [E3%(inj as_bytes) E4%(inj as_bytes)].
    2:{ rewrite !as_bytes_length, (honest_blob e), (honest_blob e') by done. done. }
    apply (f_equal tail) in E2. cbn [tail] in E2.
    apply app_inj_1 in E2 as [E5 E6]; [|by rewrite !le_bytes_length].
    f_equal; [|by apply IH]. unfold entry_key. apply (f_equal le_val) in E5.
    rewrite !le_val_bytes in E5. change (2 ^ (8 * Z.of_nat 8)) with (2 ^ 64) in E5.
    rewrite !Z.mod_small in E5 by (by apply honest_size). by rewrite E3, E4, E5.
Qed.

Lemma suffixed_plain h s :
  str_mem "/" h = false -> str_mem "/" s = false -> (3 <= String.length s)%nat -> plain_name (h +:+ s) = true.
Proof.
  intros Hh Hs Hl. unfold plain_name. rewrite str_mem_app, Hh, Hs, bool_decide_eq_false_2; [done|].
  intros E. assert (String.length (h +:+ s) <= 2)%nat as Hc by (by destruct E as [->|[->| ->]]; cbn; lia).
  rewrite str_length_app in Hc. lia.
Qed.

Lemma str_app_inj_r a b s : a +:+ s = b +:+ s -> a = b.
Proof.
  intros E%(f_equal as_bytes). rewrite !as_bytes_app in E. apply app_inj_length in E as [E _]; [|done].
  by apply (inj as_bytes).
Qed.

Lemma json_path_inj d a b :
  str_mem "/" a = false -> str_mem "/" b = false ->
  resolve (path_join d (a +:+ ".json")) = resolve (path_join d (b +:+ ".json")) -> a = b.
Proof.
  intros Ha Hb E%resolve_join_plain_inj; [by apply str_app_inj_r in E|apply suffixed_plain; cbn; done || lia..].
Qed.

Section TreeFiles.
Context `{Backend} `{SerdeLaws FileTree.t}.

Lemma read_tree_file p t w :
  fs_read (disk w) p = Some (to_vec t) -> read_tree p w = Some t.
Proof.
  intros E. unfold read_tree, fs_exists, fs_is_file, read_to_string. rewrite E. cbn [orb negb mbind option_bind].
  rewrite to_vec_utf8. cbn [mbind option_bind]. by rewrite as_of_bytes, from_to_vec.
Qed.

Lemma save_tree_ok s t w w' :
  save_tree s t w = (Ok tt, w') ->
  exists d1 d2 d3, create_dir_all (trees_dir s) (disk w) = Some d1 /\
    fs_write (tree_path s (FileTree.tree_hash t)) (to_vec t) d1 = Some d2 /\
    fs_write (latest_path s) (to_vec t) d2 = Some d3 /\ w' = set_disk d3 w.
Proof.
  unfold save_tree. destruct (create_dir_all _ _) as [d1|]; [|done].
  destruct (fs_write _ _ d1) as [d2|] eqn:E2; [|done].
  destruct (fs_write _ _ d2) as [d3|] eqn:E3; [|done]. intros [= <-]. by exists d1, d2, d3.
Qed.
End TreeFiles.

(** Changing anything but the paths of a sorted list leaves it sorted. *)
Lemma sort_sorted_map (g : entry -> entry) l :
  NoDup (FileTreeEntry.path <$> l) -> (forall e, FileTreeEntry.path (g e) = FileTreeEntry.path e) ->
  sort_entries (map g (sort_entries l)) = map g (sort_entries l).
Proof.
  intros Hn Hg. apply (Sorted_unique_strong path_le).
  - intros x y Hx Hy Hxy Hyx. rewrite sort_entries_perm in Hx.
    apply (path_NoDup_inj (map g (sort_entries l))); [|done..|by apply (anti_symm String.le)].
    rewrite <- list_fmap_compose. erewrite (list_fmap_ext _ FileTreeEntry.path); [|intros; apply Hg].
    by rewrite sort_entries_perm.
  - apply Sorted_merge_sort. apply _.
  - apply (Sorted_fmap g path_le path_le).
    + intros x y. unfold path_le. by rewrite !Hg.
    + apply Sorted_merge_sort. apply _.
  - apply sort_entries_perm.
Qed.

Lemma NoDup_fmap_filter {A B} (f : A -> B) (P : A -> Prop) `{forall x, Decision (P x)} (l : list A) :
  NoDup (f <$> l) -> NoDup (f <$> filter P l).
Proof.
  induction l as [|x l IH]; [done|]. rewrite fmap_cons. intros [Hx Hn]%NoDup_cons.
  rewrite filter_cons. destruct (decide (P x)); [|by apply IH]. rewrite fmap_cons.
  apply NoDup_cons. split; [|by apply IH]. intros (y & E & [_ Hy]%list_elem_of_filter)%list_elem_of_fmap.
  apply Hx. rewrite E. by apply list_elem_of_fmap_2.
Qed.

(** What the loop over the latest tree leaves: the changed paths, and the old map
    without the paths that are still there. *)
Lemma diff_loop old latest p :
  distinct_paths old -> distinct_paths latest ->
  exists changed m', (match latest with
    | Some l => fold_left diff_step (FileTree.entries l) ([], old_map old)
    | None => ([], old_map old) end) = (changed, m') /\ NoDup changed /\
    (p ∈ changed <-> exists e, entry_at latest p = Some e /\
       forall o, entry_at old p = Some o -> same_content o e = false) /\
    m' !! p = match entry_at latest p with Some _ => None | None => entry_at old p end.
Proof.
  intros Ho Hl. destruct latest as [l|].
  - pose proof (diff_fold (FileTree.entries l) [] (old_map old) Hl) as Hf.
    destruct (fold_left diff_step _ _) as [changed m']. destruct Hf as [-> Hm].
    eexists _, m'. split; [done|]. cbn [app]. split_and!.
    + by apply NoDup_fmap_filter.
    + rewrite list_elem_of_fmap. split.
      * intros (e & -> & [Hc Hin]%list_elem_of_filter). exists e.
        split; [by apply (entry_at_in l)|]. intros o Hoa. unfold changed_by in Hc.
        rewrite (old_map_lookup old _ Ho), Hoa in Hc. by apply negb_true_iff in Hc.
      * intros (e & He & Hd). apply (entry_at_in l) in He as [Hin <-]; [|done].
        exists e. split; [done|]. apply list_elem_of_filter. split; [|done].
        unfold changed_by. rewrite (old_map_lookup old _ Ho).
        destruct (entry_at old _) as [o|]; [|done]. by rewrite (Hd o eq_refl).
    + rewrite Hm, (old_map_lookup old _ Ho).
      destruct (entry_at (Some l) p) as [e|] eqn:Ee.
      * apply (entry_at_in l) in Ee as [Hin <-]; [|done].
        rewrite decide_True; [done|]. by apply list_elem_of_fmap_2.
      * rewrite decide_False; [done|]. intros (e & -> & Hin)%list_elem_of_fmap.
        assert (entry_at (Some l) (FileTreeEntry.path e) = Some e) by (by apply (entry_at_in l)).
        congruence.
  - exists [], (old_map old). split_and!; [done|constructor| |by apply old_map_lookup].
    split; [set_solver|]. by intros (e & He & _).
Qed.

(** The report in terms of lookups by path. *)
Lemma diff_spec old latest p :
  distinct_paths old -> distinct_paths latest ->
  let '(changed, removed) := diff old latest in
  NoDup changed /\ NoDup removed /\
  (p ∈ changed <-> exists e, entry_at latest p = Some e /\
     forall o, entry_at old p = Some o -> same_content o e = false) /\
  (p ∈ removed <-> is_Some (entry_at old p) /\ entry_at latest p = None) /\
  (p ∉ changed -> p ∉ removed ->
     match entry_at old p, entry_at latest p with
     | Some o, Some e => same_content o e = true
     | None, None => True
     | _, _ => False
     end).
Proof.
  intros Ho Hl. destruct (diff_loop old latest p Ho Hl) as (changed & m' & E & Hn & Hc & Hm). unfold diff. rewrite E.
  assert (p ∈ (fst <$> map_to_list m') <-> is_Some (entry_at old p) /\ entry_at latest p = None) as Hr.
  { rewrite list_elem_of_fmap. split.
    - intros ([q o] & -> & Hq%elem_of_map_to_list). cbn in Hm |- *. rewrite Hm in Hq.
      destruct (entry_at latest q); [done|]. split; [by eexists|done].
    - intros [[o Hoo] Hno]. exists (p, o). split; [done|]. apply elem_of_map_to_list.
      by rewrite Hm, Hno. }
  split_and!; [done|apply NoDup_fst_map_to_list|done|done|].
  rewrite Hc, Hr. intros Hnc Hnr.
  destruct (entry_at old p) as [o|] eqn:Eo, (entry_at latest p) as [e|] eqn:Ee; [| | |done].
  - destruct (same_content o e) eqn:Es; [done|]. exfalso. apply Hnc. exists e.
    split; [done|]. by intros o' [= <-].
  - apply Hnr. split; [by eexists|done].
  - apply Hnc. exists e. by split.
Qed.

(** ** Properties *)

(** C22: The change report is exact: for trees with distinct paths, [changed]
    lists, once each, the paths of the latest tree that the old tree lacks or has
    with another content or modification time, [removed] the old paths the latest
    tree lacks; a path in neither list has the same content in both trees or is
    in neither. *)
Theorem diff_exact old latest p :
  distinct_paths old -> distinct_paths latest ->
  let '(changed, removed) := diff old latest in
  NoDup changed /\ NoDup removed /\
  (p ∈ changed <-> exists e, entry_at latest p = Some e /\
     forall o, entry_at old p = Some o -> same_content o e = false) /\
  (p ∈ removed <-> is_Some (entry_at old p) /\ entry_at latest p = None) /\
  (p ∉ changed -> p ∉ removed ->
     match entry_at old p, entry_at latest p with
     | Some o, Some e => same_content o e = true
     | None, None => True
     | _, _ => False
     end).
Proof. apply diff_spec. Qed.

Definition demo_entry (p b : string) (mt : Z) : entry := FileTreeEntry.mk p b 420 3 mt.
Definition demo_old_tree : FileTree.t := FileTree.mk "" [demo_entry "a" "1" 1; demo_entry "b" "2" 1].
Definition demo_new_tree : FileTree.t := FileTree.mk "" [demo_entry "b" "2" 9; demo_entry "c" "3" 1].

Lemma diff_exact_witness :
  fst (diff (Some demo_old_tree) (Some demo_new_tree)) = ["b"; "c"] /\
  ("a" ∈ snd (diff (Some demo_old_tree) (Some demo_new_tree)) <->
     is_Some (entry_at (Some demo_old_tree) "a") /\ entry_at (Some demo_new_tree) "a" = None).
Proof.
  split; [vm_compute; reflexivity|].
  assert (distinct_paths (Some demo_old_tree)) as H1 by (cbn; repeat constructor; set_solver).
  assert (distinct_paths (Some demo_new_tree)) as H2 by (cbn; repeat constructor; set_solver).
  pose proof (diff_exact (Some demo_old_tree) (Some demo_new_tree) "a" H1 H2) as E.
  destruct (diff (Some demo_old_tree) (Some demo_new_tree)) as [c r].
  exact (proj1 (proj2 (proj2 (proj2 E)))).
Defined.

(** The tree hash names the tree's content: it does not depend on the order in
    which the entries were collected nor on modification times, and two trees
    built by clients with the same hash have the same paths, object ids and sizes
    unless SHA-256 collides, although the hashed text has no separators. *)
Theorem tree_hash_identifies `{HexLaws} `{Sha256} t t' :
  NoDup (FileTreeEntry.path <$> FileTree.entries t) ->
  (FileTree.entries t ≡ₚ FileTree.entries t' -> tree_hash t = tree_hash t') /\
  (forall touch : entry -> Z, tree_hash (FileTree.mk (FileTree.tree_hash t)
     (map (fun e => FileTreeEntry.mk (FileTreeEntry.path e) (FileTreeEntry.blob_id e)
                      (FileTreeEntry.mode e) (FileTreeEntry.size e) (touch e)) (sort_entries (FileTree.entries t))))
   = tree_hash t) /\
  (Forall honest (FileTree.entries t) -> Forall honest (FileTree.entries t') -> tree_hash t = tree_hash t' ->
   map entry_key (sort_entries (FileTree.entries t)) = map entry_key (sort_entries (FileTree.entries t')) \/
   exists x y, x <> y /\ sha256 x = sha256 y).
Proof.
  intros Hn. split_and!.
  - intros Hp. unfold tree_hash. by rewrite (sort_entries_unique _ _ Hp Hn).
  - intros touch. unfold tree_hash. cbn [FileTree.entries]. do 2 f_equal.
    rewrite sort_sorted_map by done.
    rewrite map_map. done.
  - intros Ht Ht' E. unfold tree_hash in E. apply (inj hex_encode) in E.
    destruct (decide (concat (map entry_bytes (sort_entries (FileTree.entries t))) =
                      concat (map entry_bytes (sort_entries (FileTree.entries t'))))) as [Eq|Hne].
    + left. apply hashed_inj; [by rewrite sort_entries_perm..|done].
    + right. eauto.
Qed.

Definition demo_blob : string := hex_encode (replicate 32 (u8_of 17)).
Definition demo_honest (p : string) : entry := FileTreeEntry.mk p demo_blob 420 3 1.
Definition demo_hash_tree : FileTree.t := FileTree.mk "" [demo_honest "b"; demo_honest "a"].

Lemma tree_hash_identifies_witness :
  tree_hash demo_hash_tree = tree_hash (FileTree.mk "" [demo_honest "a"; demo_honest "b"]).
Proof.
  refine (proj1 (tree_hash_identifies demo_hash_tree (FileTree.mk "" [demo_honest "a"; demo_honest "b"]) _) _).
  - cbn. repeat constructor; set_solver.
  - cbn. constructor.
Defined.

(** Saving a tree and reading it back: the saved tree is the latest one and is
    found under its hash, trees saved earlier under other hashes are still found
    as they were, and no object is touched. *)
Theorem tree_store_roundtrip `{Backend} `{SerdeLaws FileTree.t} s t w w' h :
  save_tree s t w = (Ok tt, w') -> str_mem "/" (FileTree.tree_hash t) = false ->
  FileTree.tree_hash t <> "latest" ->
  latest_tree s w' = Some t /\ get_tree s (FileTree.tree_hash t) w' = Some t /\
  (str_mem "/" h = false -> h <> FileTree.tree_hash t -> h <> "latest" ->
   get_tree s h w' = get_tree s h w) /\
  bucket w' = bucket w /\ mems w' = mems w.
Proof.
  intros (d1 & d2 & d3 & E1 & E2 & E3 & ->)%save_tree_ok Hs Hne. unfold latest_tree, get_tree.
  assert (forall a, str_mem "/" a = false -> a <> "latest" ->
    resolve (tree_path s a) <> resolve (latest_path s)) as Hlat.
  { intros a Ha Hal E. apply Hal. by apply (json_path_inj (trees_dir s) a "latest"). }
  split_and!; [| | |done..].
  - apply read_tree_file. cbn [disk set_disk]. by eapply fs_read_write.
  - apply read_tree_file. cbn [disk set_disk].
    rewrite (fs_read_write_ne _ _ _ _ _ (Hlat _ Hs Hne) E3). by eapply fs_read_write.
  - intros Hh Hht Hhl. unfold read_tree, fs_exists, fs_is_file, fs_is_dir, read_to_string.
    assert (resolve (tree_path s h) <> resolve (tree_path s (FileTree.tree_hash t))) as Hr.
    { intros E. apply Hht. by apply (json_path_inj (trees_dir s)). }
    cbn [disk set_disk]. rewrite (fs_read_write_ne _ _ _ _ _ (Hlat _ Hh Hhl) E3).
    rewrite (fs_read_write_ne _ _ _ _ _ Hr E2), (create_dir_all_read _ _ _ _ E1).
    destruct (fs_read (disk w) (tree_path s h)) as [b|] eqn:Eb; [done|]. cbn [orb mbind option_bind].
    by repeat case_match.
Qed.

Definition demo_tree_serde : Serde FileTree.t := countable_serde _.
Definition demo_server : ServerFs := server_fs_new "/srv" "ser163" (LocalObjectStore "/srv/objects").
Definition demo_small_tree : FileTree.t := FileTree.mk "ab12" [].
Definition demo_tree_world : World :=
  snd (save_tree (H0 := demo_tree_serde) demo_server demo_small_tree demo_world).

Lemma tree_store_roundtrip_witness :
  latest_tree (H0 := demo_tree_serde) demo_server demo_tree_world = Some demo_small_tree.
Proof.
  refine (proj1 (tree_store_roundtrip (H0 := demo_tree_serde) (H1 := countable_serde_laws _)
    demo_server demo_small_tree demo_world demo_tree_world "" _ _ _)).
  - apply fst_pair. vm_compute. reflexivity.
  - reflexivity.
  - discriminate.
Defined.
