(* ===== verification/Archive.v ===== *)
(** * Tenant backup archives

    [tar_dir], [untar_dir] and [collect_files] of [nsmt-server/src/admin.rs]: the
    archive is a sequence of records, each with the 32-bit lengths of path and
    content, the path and the content. *)

From S2P Require Import Prelude Paths.

(** ** The format *)

(** [rel_bytes.len() as u32] keeps the low 32 bits. *)
Definition pack_record (r : string * bytes) : bytes :=
  le_bytes 4 (str_len (fst r)) ++ le_bytes 4 (len (snd r)) ++ as_bytes (fst r) ++ snd r.

Definition pack (rs : list (string * bytes)) : bytes := concat (map pack_record rs).

(** The loop of [untar_dir] over the rest of the buffer; a record takes at least
    eight bytes, so the fuel [unpack] passes is enough. *)
Fixpoint unpack_loop (fuel : nat) (l : bytes) : list (string * bytes) :=
  match fuel with
  | O => []
  | S fuel' =>
      if len l <? 8 then []
      else
        let rel_len := le_val (take 4 l) in
        let data_len := le_val (take 4 (drop 4 l)) in
        let body := drop 8 l in
        if rel_len + data_len >? len body then []
        else
          let rel := of_bytes (utf8_lossy (take (Z.to_nat rel_len) body)) in
          let data := take (Z.to_nat data_len) (drop (Z.to_nat rel_len) body) in
          (rel, data) :: unpack_loop fuel' (drop (Z.to_nat (rel_len + data_len)) body)
  end.

Definition unpack (l : bytes) : list (string * bytes) := unpack_loop (S (length l)) l.

(** ** The two directions *)

(** [collect_files]: the files below [rel], errors skipped. *)
Fixpoint collect_files (fuel : nat) (fs : files) (root : loc) (rel : list string) : list (list string) :=
  match fuel with
  | O => []
  | S fuel' =>
      match read_dir fs (below root rel) with
      | None => []
      | Some l =>
          concat (map (fun kv : string * node =>
            match snd kv with
            | Dir => collect_files fuel' fs root (rel ++ [fst kv])
            | File _ => [rel ++ [fst kv]]
            end) l)
      end
  end.

(** The files that can be read, with their contents. *)
Definition contents_of (fs : files) (root : loc) (rels : list (list string)) : list (list string * bytes) :=
  omap (fun rel => match fs !! below root rel with
                   | Some (File b) => Some (rel, b)
                   | _ => None
                   end) rels.

(** [rel.to_string_lossy()] *)
Definition record_of (x : list string * bytes) : string * bytes :=
  (of_bytes (utf8_lossy (as_bytes (str_join "/" (fst x)))), snd x).

Definition records_of (fs : files) (root : loc) (rels : list (list string)) : list (string * bytes) :=
  map record_of (contents_of fs root rels).

(** [tar_dir]: the number of entries, [-1] when the archive cannot be written. *)
Definition tar_dir (src out : string) (fs : files) : Z * files :=
  let rs := records_of fs (resolve src) (collect_files (S (depth fs)) fs (resolve src) []) in
  match fs_write out (pack rs) fs with
  | Some fs' => (len rs, fs')
  | None => (-1, fs)
  end.

(** One record: errors are dropped. *)
Definition restore_one (dst : string) (acc : Z * files) (r : string * bytes) : Z * files :=
  let '(n, fs) := acc in
  let target := path_join dst (fst r) in
  let fs1 := default fs (create_parent target fs) in
  match fs_write target (snd r) fs1 with
  | Some fs2 => (n + 1, fs2)
  | None => (n, fs1)
  end.

Definition untar_dir (archive dst : string) (fs : files) : Z * files :=
  match fs_read fs archive with
  | None => (-1, fs)
  | Some buf =>
      fold_left (restore_one dst) (unpack buf) (0, default fs (create_dir_all dst fs))
  end.

(** ** Lemmas *)

Definition record_ok (r : string * bytes) : Prop :=
  str_len (fst r) < 2 ^ 32 /\ len (snd r) < 2 ^ 32 /\ utf8_valid (as_bytes (fst r)) = true.

Lemma as_bytes_len s : Z.of_nat (length (as_bytes s)) = str_len s.
Proof.
  unfold str_len. f_equal. induction s as [|c s IH]; [done|]. cbn. by f_equal.
Qed.

Lemma unpack_pack fuel rs rest :
  Forall record_ok rs -> len rest < 8 -> (length rs < fuel)%nat -> unpack_loop fuel (pack rs ++ rest) = rs.
Proof.
  intros Hok Hr. revert fuel. induction Hok as [|[p d] rs (Hp & Hd & Hu) _ IH]; intros [|fuel] Hf; try (cbn in Hf; lia).
  - cbn [pack map concat app unpack_loop]. destruct (len rest <? 8) eqn:E; [done|lia].
  - cbn [fst snd] in *. unfold pack. cbn [map concat]. fold (pack rs). unfold pack_record. cbn [fst snd].
    rewrite <- !app_assoc. cbn [unpack_loop].
    set (l := le_bytes 4 (str_len p) ++ _).
    assert (len l >= 8) as Hl by (unfold l, len; rewrite !length_app, !le_bytes_length; lia).
    destruct (len l <? 8) eqn:E8; [lia|].
    assert (le_val (take 4 l) = str_len p) as ->.
    { unfold l. rewrite take_app_length' by (by rewrite le_bytes_length).
      rewrite le_val_bytes. apply Z.mod_small. unfold str_len in *. change (8 * Z.of_nat 4) with 32. lia. }
    assert (drop 4 l = le_bytes 4 (len d) ++ as_bytes p ++ d ++ pack rs ++ rest) as Hd4
      by (unfold l; by rewrite drop_app_length' by (by rewrite le_bytes_length)).
    rewrite Hd4. assert (le_val (take 4 (le_bytes 4 (len d) ++ as_bytes p ++ d ++ pack rs ++ rest)) = len d) as ->.
    { rewrite take_app_length' by (by rewrite le_bytes_length).
      rewrite le_val_bytes. apply Z.mod_small. unfold len in *. change (8 * Z.of_nat 4) with 32. lia. }
    assert (drop 8 l = as_bytes p ++ d ++ pack rs ++ rest) as ->.
    { change 8%nat with (4 + 4)%nat. rewrite <- drop_drop, Hd4. by rewrite drop_app_length' by (by rewrite le_bytes_length). }
    pose proof (as_bytes_len p) as Hlen.
    destruct (_ >? _) eqn:E; [exfalso; unfold len in *; rewrite !length_app in E; lia|].
    assert (Z.to_nat (str_len p) = length (as_bytes p)) as Hn by lia.
    assert (Z.to_nat (str_len p + len d) = length (as_bytes p ++ d)) as Hn2
      by (rewrite length_app; unfold len in *; lia).
    rewrite Hn2, (app_assoc (as_bytes p) d), drop_app_length, <- app_assoc, Hn.
    rewrite take_app_length, drop_app_length. rewrite take_app_length' by (unfold len; lia).
    rewrite utf8_lossy_valid, of_as_bytes by done. rewrite IH by (cbn in Hf; lia). done.
Qed.

Lemma pack_length rs : (length rs <= length (pack rs))%nat.
Proof.
  induction rs as [|r rs IH]; [done|]. unfold pack. cbn [map concat length]. fold (pack rs). unfold pack_record.
  rewrite !length_app, !le_bytes_length. lia.
Qed.

Lemma unpack_all rs : Forall record_ok rs -> unpack (pack rs) = rs.
Proof.
  intros Hok. unfold unpack. rewrite <- (app_nil_r (pack rs)) at 2.
  apply unpack_pack; [done|by cbn|]. pose proof (pack_length rs). lia.
Qed.

(** [collect_files] finds what is reached. *)
Lemma collect_spec fuel fs root rel segs :
  (0 < fuel)%nat -> (depth fs < fuel + length (snd (below root rel)))%nat -> is_dir_at fs (below root rel) = true ->
  segs ∈ collect_files fuel fs root rel <-> exists s b, segs = rel ++ s /\ reached fs root rel s b.
Proof.
  revert rel segs. induction fuel as [|fuel IH]; intros rel segs Hp Hf Hd; [lia|]. cbn [collect_files].
  destruct (read_dir fs (below root rel)) as [l|] eqn:El; [|by unfold read_dir in El; rewrite Hd in El].
  assert (forall n nd, (n, nd) ∈ l <-> fs !! below root (rel ++ [n]) = Some nd) as Hdir
    by (intros n nd; rewrite (read_dir_spec _ _ _ n nd El); by rewrite below_app).
  assert (forall n, fs !! below root (rel ++ [n]) = Some Dir -> forall segs,
    segs ∈ collect_files fuel fs root (rel ++ [n]) <->
    exists s b, segs = (rel ++ [n]) ++ s /\ reached fs root (rel ++ [n]) s b) as Hsub.
  { intros n Hn sg. pose proof (depth_bound _ _ _ Hn) as Hb. unfold below in Hb, Hf. cbn [snd] in Hb, Hf.
    rewrite !length_app in Hb. rewrite length_app in Hf. cbn [length] in Hb. apply IH.
    - lia.
    - unfold below. cbn [snd]. rewrite !length_app. cbn [length]. lia.
    - unfold is_dir_at. rewrite Hn. by rewrite orb_true_r. }
  rewrite list_elem_of_In, in_concat. split.
  - intros (part & Hin & Hs). apply in_map_iff in Hin as ([n nd] & <- & Hn). cbn [fst snd] in Hs.
    apply list_elem_of_In, Hdir in Hn. apply list_elem_of_In in Hs. destruct nd as [b|].
    + apply list_elem_of_singleton in Hs as ->. exists [n], b. by rewrite reached_file.
    + apply (Hsub n Hn) in Hs as (s & b & -> & Hr). destruct s as [|m s]; [by destruct Hr|].
      exists (n :: m :: s), b. rewrite reached_cons. by rewrite <- app_assoc.
  - intros (s & b & -> & Hr). destruct s as [|n [|m s]]; [by destruct Hr| |].
    + apply reached_file in Hr. exists [rel ++ [n]]. split; [|by left].
      apply in_map_iff. exists (n, File b). split; [done|]. by apply list_elem_of_In, Hdir.
    + apply reached_cons in Hr as [Hn Hr]. exists (collect_files fuel fs root (rel ++ [n])). split.
      * apply in_map_iff. exists (n, Dir). split; [done|]. by apply list_elem_of_In, Hdir.
      * apply list_elem_of_In, (Hsub n Hn). exists (m :: s), b. by rewrite <- app_assoc.
Qed.

(** ** Restoring *)

(** Paths and contents that fit in one directory tree. *)
Record tree_like (L : list (list string * bytes)) : Prop := {
  tl_names : forall s b, (s, b) ∈ L -> s <> [] /\ Forall (fun n => plain_name n = true) s;
  tl_fun : forall s b b', (s, b) ∈ L -> (s, b') ∈ L -> b' = b;
  tl_prefix : forall s b s' b' k, (s, b) ∈ L -> (s', b') ∈ L -> (0 < k < length s')%nat -> take k s' <> s;
}.

(** What lies below [D] after [done] was restored into an empty directory. *)
Record restored (D : loc) (done_ : list (list string * bytes)) (fs : files) : Prop := {
  rd_dirs : forall k, is_dir_at fs (fst D, take k (snd D)) = true;
  rd_files : forall s b, s <> [] -> fs !! below D s = Some (File b) <-> (s, b) ∈ done_;
  rd_subdirs : forall s, s <> [] -> fs !! below D s = Some Dir ->
    exists s' b' k, (s', b') ∈ done_ /\ (0 < k < length s')%nat /\ s = take k s';
}.

Section Restore.
Context (L : list (list string * bytes)) (HL : tree_like L).
Context (dst : string) (D : loc) (HD : resolve dst = D).

Lemma restore_parent done_ fs s b :
  (forall x, x ∈ done_ -> x ∈ L) -> (s, b) ∈ L -> restored D done_ fs ->
  exists fs1, mkdirs (fst D) [] (removelast (snd D ++ s)) fs = Some fs1.
Proof.
  intros Hsub Hin [Hd Hf Hs]. destruct (tl_names L HL s b Hin) as [Hne Hp].
  assert (length (removelast (snd D ++ s)) = length (snd D) + length s - 1)%nat as Hlen.
  { rewrite removelast_firstn_len, length_take, length_app. destruct s; [done|cbn; lia]. }
  apply mkdirs_total. intros k Hk. cbn [app].
  rewrite take_removelast by (rewrite length_app; destruct s; [done|cbn in *; lia]).
  destruct (decide (k <= length (snd D))%nat) as [Hle|Hgt].
  - left. rewrite take_app_le by done. apply Hd.
  - rewrite take_app_ge by lia. set (j := (k - length (snd D))%nat).
    change (fst D, snd D ++ take j s) with (below D (take j s)).
    assert (0 < j < length s)%nat as Hj by lia.
    assert (take j s <> []) as Hjne by (destruct j, s; cbn in *; try lia; done).
    destruct (fs !! below D (take j s)) as [[c|]|] eqn:E; [|left; unfold is_dir_at; rewrite E; by rewrite orb_true_r|by right].
    exfalso. apply Hf in E; [|done]. eapply (tl_prefix L HL (take j s) c s b j); [by apply Hsub|done|done|done].
Qed.

Lemma restore_step done_ fs n s b :
  (forall x, x ∈ done_ -> x ∈ L) -> (s, b) ∈ L -> restored D done_ fs ->
  exists fs', restore_one dst (n, fs) (str_join "/" s, b) = (n + 1, fs') /\ restored D ((s, b) :: done_) fs'.
Proof.
  intros Hsub Hin Hr. destruct (tl_names L HL s b Hin) as [Hne Hp].
  destruct (restore_parent done_ fs s b Hsub Hin Hr) as [fs1 Hm]. destruct Hr as [Hd Hf Hs].
  assert (resolve (path_join dst (str_join "/" s)) = below D s) as Et by (by rewrite <- HD; apply resolve_join_segs).
  assert (create_parent (path_join dst (str_join "/" s)) fs = Some fs1) as Hc by (unfold create_parent; by rewrite Et).
  destruct (mkdirs_spec _ _ _ _ _ Hm) as (Hspec & Hmono & Hout & _).
  assert (fs1 !! below D s = fs !! below D s) as Hsame.
  { apply Hout. intros (k & _ & Hk). unfold below in Hk. cbn [snd app] in Hk. apply (f_equal length) in Hk.
    rewrite length_take, removelast_firstn_len, length_take, length_app in Hk. destruct s; [done|]. cbn [length] in Hk. lia. }
  assert (is_dir_at fs1 (below D s) = false) as Hnd.
  { unfold is_dir_at. rewrite plain_not_dotdot by done. rewrite Hsame. destruct (fs !! below D s) as [[|]|] eqn:E; try done.
    destruct (Hs s Hne E) as (s' & b' & k & Hin' & Hk & ->). exfalso.
    eapply (tl_prefix L HL (take k s') b s' b' k); [done|by apply Hsub|done|done]. }
  assert (is_dir_at fs1 (parent_loc (below D s)) = true) as Hpar by (rewrite <- Et; by apply (create_parent_dir _ _ _ Hc)).
  exists (<[below D s := File b]> fs1). unfold restore_one. cbn [fst snd]. rewrite Hc. cbn [default from_option id].
  unfold fs_write. rewrite Et, Hnd, Hpar. split; [done|].
  split.
  - intros k. assert ((fst D, take k (snd D)) <> below D s) as Hneq.
    { unfold below. intros [= E]. apply (f_equal length) in E. rewrite length_take, length_app in E.
      destruct s; [done|cbn in E; lia]. }
    pose proof (Hmono _ (Hd k)) as Hk. unfold is_dir_at in *. by rewrite lookup_insert_ne.
  - intros s' b' Hne'. rewrite elem_of_cons. destruct (decide (s' = s)) as [->|Hn].
    + rewrite lookup_insert_eq. split; [intros [= ->]; by left|].
      intros [[= ->]|Hold]; [done|]. f_equal. f_equal. symmetry. exact (tl_fun L HL s b b' Hin (Hsub _ Hold)).
    + rewrite lookup_insert_ne by (intros E%below_inj; done). rewrite <- Hf by done.
      destruct (Hspec (below D s')) as [->|[-> ->]]; naive_solver.
  - intros s' Hne' Hl. destruct (decide (s' = s)) as [->|Hn]; [by rewrite lookup_insert_eq in Hl|].
    rewrite lookup_insert_ne in Hl by (intros E%below_inj; done).
    destruct (fs !! below D s') as [nd|] eqn:E.
    + destruct (Hspec (below D s')) as [Heq|[Hnone _]]; [|congruence].
      destruct (Hs s' Hne') as (s2 & b2 & k & Hx & Hk & ->); [congruence|].
      exists s2, b2, k. split_and!; [by right|lia|lia|done].
    + destruct (mkdirs_new _ _ _ _ _ Hm E Hl) as [_ Htake]. unfold below in Htake. cbn [snd] in Htake.
      exists s, b, (length s'). split; [by left|].
      assert (length s' < length s)%nat as Hlt.
      { pose proof (f_equal length Htake) as Hl2. rewrite length_take, removelast_firstn_len, length_take in Hl2.
        rewrite !length_app in Hl2. destruct s; [done|cbn in *; lia]. }
      split; [destruct s'; [done|cbn in *; lia]|].
      rewrite take_removelast in Htake by (rewrite !length_app; lia).
      rewrite length_app, take_app_add in Htake. by apply app_inv_head in Htake.
Qed.

Lemma restore_all todo : forall done_ fs n,
  (forall x, x ∈ done_ ++ todo -> x ∈ L) -> restored D done_ fs ->
  exists fs', fold_left (restore_one dst) (map (fun x => (str_join "/" (fst x), snd x)) todo) (n, fs) = (n + len todo, fs') /\
              restored D (rev todo ++ done_) fs'.
Proof.
  induction todo as [|[s b] todo IH]; intros done_ fs n Hsub Hr.
  { exists fs. unfold len. cbn. by rewrite Z.add_0_r. }
  destruct (restore_step done_ fs n s b) as (fs1 & Hstep & Hr1); [set_solver..|done|].
  destruct (IH ((s, b) :: done_) fs1 (n + 1)) as (fs2 & Hf2 & Hr2); [set_solver|done|].
  exists fs2. cbn [map fold_left fst snd]. rewrite Hstep, Hf2. split.
  - f_equal. unfold len. cbn [length]. lia.
  - cbn [rev]. by rewrite <- app_assoc.
Qed.
End Restore.

Lemma contents_spec fs root rels segs b :
  (segs, b) ∈ contents_of fs root rels <-> segs ∈ rels /\ fs !! below root segs = Some (File b).
Proof.
  unfold contents_of. rewrite list_elem_of_omap. split.
  - intros (x & Hx & E). repeat case_match; simplify_eq. done.
  - intros [Hx E]. exists segs. by rewrite E.
Qed.

(** What is reached from a directory fits in one tree. *)
Lemma reached_tree fs root rels :
  (forall segs, segs ∈ rels -> exists b, reached fs root [] segs b) ->
  (forall segs, segs ∈ rels -> Forall (fun n => plain_name n = true) segs) ->
  tree_like (contents_of fs root rels).
Proof.
  intros Hr Hp. split.
  - intros s b [Hs _]%contents_spec. destruct (Hr s Hs) as (b' & Hne & _). by split; [|apply Hp].
  - intros s b b' [_ Hb]%contents_spec [_ Hb']%contents_spec. congruence.
  - intros s b s' b' k [_ Hb]%contents_spec [Hs' _]%contents_spec Hk E.
    destruct (Hr s' Hs') as (b2 & _ & _ & Hd). specialize (Hd k Hk). cbn [app] in Hd. congruence.
Qed.

Lemma record_of_valid L :
  (forall s b, (s, b) ∈ L -> utf8_valid (as_bytes (str_join "/" s)) = true) ->
  map record_of L = map (fun x => (str_join "/" (fst x), snd x)) L.
Proof.
  intros Hu. apply map_ext_in. intros [s b] Hin%list_elem_of_In. unfold record_of. cbn [fst snd].
  by rewrite utf8_lossy_valid, of_as_bytes by (by eapply Hu).
Qed.

(** ** A backup restored elsewhere *)

(** What the archive format can hold: names of one component each, lengths below
    [2^32]. *)
Definition archivable (segs : list string) (b : bytes) : Prop :=
  Forall (fun n => plain_name n = true) segs /\ utf8_valid (as_bytes (str_join "/" segs)) = true /\
  str_len (str_join "/" segs) < 2 ^ 32 /\ len b < 2 ^ 32.

(** [src] was archived in state [fs]; later, in state [fs2], the archive is
    restored to a [dst] that has nothing below it. *)
Record restorable (src archive dst : string) (fs fs2 : files) (n : Z) (fs1 fs3 : files) : Prop := {
  rs_dir : is_dir_at fs (resolve src) = true;
  rs_tar : tar_dir src archive fs = (n, fs1);
  rs_written : 0 <= n;
  rs_files : forall segs b, reached fs (resolve src) [] segs b -> archivable segs b;
  rs_same : fs_read fs2 archive = fs_read fs1 archive;
  rs_made : create_dir_all dst fs2 = Some fs3;
  rs_empty : forall s, s <> [] -> fs3 !! below (resolve dst) s = None;
}.

(** C14: [tar_dir] then [untar_dir]: the same number of entries, and the restored
    directory has exactly the files of the source, with their contents. *)
Theorem backup_restore_exact src archive dst fs fs2 n fs1 fs3 :
  restorable src archive dst fs fs2 n fs1 fs3 ->
  exists fs4, untar_dir archive dst fs2 = (n, fs4) /\
    forall segs b, segs <> [] ->
      fs4 !! below (resolve dst) segs = Some (File b) <-> reached fs (resolve src) [] segs b.
Proof.
  intros [Hd Ht Hn Hfiles Hsame Hmade Hempty].
  set (rels := collect_files (S (depth fs)) fs (resolve src) []).
  assert (forall segs, segs ∈ rels <-> exists b, reached fs (resolve src) [] segs b) as Hrels.
  { intros segs. unfold rels. rewrite collect_spec; [naive_solver|lia|lia|].
    unfold below. rewrite app_nil_r. by destruct (resolve src). }
  set (L := contents_of fs (resolve src) rels).
  assert (forall segs b, (segs, b) ∈ L <-> reached fs (resolve src) [] segs b) as HinL.
  { intros segs b. unfold L. rewrite contents_spec, Hrels. split; [|unfold reached; naive_solver].
    intros [(b' & Hr) Hb]. destruct Hr as (? & Hb' & ?). split; [done|]. split; [|done]. exact Hb. }
  assert (tree_like L) as HL.
  { apply reached_tree; [by intros; apply Hrels|]. intros segs [b Hr]%Hrels. by apply (Hfiles segs b). }
  pose proof (record_of_valid L ltac:(intros s b Hin; by apply (Hfiles s b), HinL)) as Hrec.
  unfold tar_dir, records_of in Ht. fold rels in Ht. change (contents_of _ _ rels) with L in Ht.
  destruct (fs_write archive _ fs) as [fsw|] eqn:Ew; [|injection Ht as <- <-; lia]. injection Ht as <- <-.
  unfold untar_dir. rewrite Hsame, (fs_read_write _ _ _ _ Ew), Hmade. cbn [default from_option id].
  rewrite Hrec, unpack_all.
  - destruct (restore_all L HL dst (resolve dst) eq_refl L [] fs3 0) as (fs4 & Hf & Hr4).
    + intros x. by rewrite app_nil_l.
    + split; [|intros s b Hs; rewrite Hempty by done; set_solver|intros s Hs; by rewrite Hempty].
      intros k. eapply (mkdirs_prefixes _ []); [done|exact Hmade].
    + exists fs4. rewrite Hf. split; [by unfold len; rewrite length_map|]. intros segs b Hs.
      rewrite (rd_files _ _ _ Hr4 segs b Hs), app_nil_r, list_elem_of_In, <- in_rev, <- list_elem_of_In. apply HinL.
  - apply List.Forall_forall. intros r ([s b] & <- & Hin%list_elem_of_In)%in_map_iff.
    destruct (Hfiles s b) as (_ & Hu & Hl & Hb); [by apply HinL|]. by split_and!.
Qed.

(** Two files, one in a subdirectory. *)
Definition sample_nodes : list (loc * node) := [((true, ["d"]), Dir); ((true, ["d"; "x"]), File (as_bytes "1")); ((true, ["d"; "s"]), Dir);
               ((true, ["d"; "s"; "y"]), File (as_bytes "22"))].

Definition sample_disk : files := list_to_map sample_nodes.

Definition sample_archived : files :=
  <[(true, ["a"]) := File (pack [("x", as_bytes "1"); ("s/y", as_bytes "22")])]> sample_disk.

Example sample_tar : tar_dir "/d" "/a" sample_disk = (2, sample_archived).
Proof. apply (bool_decide_unpack _). vm_compute. exact I. Qed.

Lemma sample_restorable :
  restorable "/d" "/a" "/e" sample_disk sample_archived 2 sample_archived (<[(true, ["e"]) := Dir]> sample_archived).
Proof.
  split; [vm_compute; reflexivity|apply sample_tar|lia| |reflexivity|apply (bool_decide_unpack _); vm_compute; exact I|].
  - intros segs b (_ & Hl & _). apply (elem_of_list_to_map_2 sample_nodes) in Hl.
    change (resolve "/d") with (true, ["d"]) in Hl. unfold sample_nodes, below in Hl. cbn [fst snd app] in Hl.
    set_unfold in Hl. destruct Hl as [|[|[|[|[]]]]]; simplify_eq; unfold archivable; split_and!; repeat constructor.
  - intros s Hs. change (resolve "/e") with (true, ["e"]). unfold below, sample_archived. cbn [fst snd].
    rewrite !lookup_insert_ne by (intros [= E]; destruct s; done).
    apply not_elem_of_list_to_map_1. cbn. set_solver.
Qed.

Lemma backup_restore_exact_witness :
  exists fs4, untar_dir "/a" "/e" sample_archived = (2, fs4) /\
    forall segs b, segs <> [] ->
      fs4 !! below (resolve "/e") segs = Some (File b) <-> reached sample_disk (resolve "/d") [] segs b.
Proof. exact (backup_restore_exact _ _ _ _ _ _ _ _ sample_restorable). Defined.
