(* ===== verification/Admin.v ===== *)
(** * The control API of the server

    [nsmt-server/src/admin.rs]: the handlers behind the routes of [spawn], and
    [ygg admin add-tenant] of [nsmt-server/src/main.rs].  A request reaches a handler with
    typed arguments; the handlers act on the server state, the tenant table and
    the disk they share with the sessions. *)

From S2P Require Import Prelude Json Paths Wire Messages Crypto Store Locks Registry Tenants Db State Archive.

Definition machine_json (m : MachineInfo.t) : json :=
  JObj [("machine_id", JStr (MachineInfo.machine_id m)); ("agents", JArr (map JStr (MachineInfo.agents m)));
        ("addr", JStr (MachineInfo.addr m)); ("peer_addr", JStr (MachineInfo.peer_addr m));
        ("machine_pubkey", JStr (MachineInfo.machine_pubkey m)); ("last_seen", JInt (MachineInfo.last_seen m))].

(** [AdminState] without the shared state, and the process it runs in. *)
Record AdminCfg : Type := mkAdminCfg {
  log_file : string; started_at : Z; admin_token : option string; a_env : env; a_pid : Z }.

(** What [AdminState] shares with the sessions. *)
Record Sys : Type := mkSys { sys_state : ServerState; sys_tenants : TenantMap; sys_disk : files }.

(** What the outside contributes to one call: the clock, the salt, whether the
    database answers, and the texts of its and the system's errors ([login], [set_plan]
    and [list_users] answer [db: ] and the driver's text, which is left out here). *)
Record Call : Type := mkCall { c_now : Z; c_salt : bytes; c_db_up : bool; c_db_err : string; c_io_err : string }.

(** The routes of [spawn]. *)
Inductive Request : Set :=
| ReqStatus
| ReqListTenants
| ReqAddTenant (domain pubkey : string)
| ReqOnline
| ReqLocks
| ReqLogs (lines : option Z)
| ReqRegister (username password : string)
| ReqLogin (username password : string)
| ReqSetKey (domain pubkey : string)
| ReqListUsers
| ReqUpgrade (username plan : string)
| ReqRestart
| ReqBackup (domain : option string)
| ReqRestore (archive domain : string).

(** [spawn]: the configuration it reads. *)
Definition spawn_cfg (e : env) (now pid : Z) : AdminCfg :=
  mkAdminCfg
    (match e "NSMT_LOG_FILE" with
     | Some f => f
     | None => match e "HOME" with
               | Some h => path_join h ".nsmt/logs/ygg.log"
               | None => ".nsmt/logs/ygg.log"
               end
     end)
    now
    (match e "NSMT_ADMIN_TOKEN" with
     | Some t => if str_len t =? 0 then None else Some t
     | None => None
     end) e pid.

(** [tok] is the readable value of the [x-admin-token] header. *)
Definition authorized (cfg : AdminCfg) (tok : option string) : bool :=
  match admin_token cfg with
  | Some t => bool_decide (tok = Some t)
  | None => true
  end.

Section Admin.
Context `{Serde (gmap string TenantRecord)} `{HexCodec} `{Sha256} `{Argon2}.

Definition set_db (d : UserDb) (s : Sys) : Sys :=
  let st := sys_state s in
  mkSys (mkServerState (registry st) (locks st) (Some d) (object_stores st) (object_owners st) (usage_bytes st))
    (sys_tenants s) (sys_disk s).

(** [tenants.upsert_tenant(..)] on the shared table. *)
Definition upsert (cfg : AdminCfg) (domain pubkey : string) (s : Sys) : result NsmtError unit * Sys :=
  let '(r, t, fs) := upsert_tenant (a_env cfg) domain pubkey (sys_tenants s) (sys_disk s) in
  (r, mkSys (sys_state s) t fs).

(** ** Reading *)

Definition status (cfg : AdminCfg) (c : Call) (tok : option string) (s : Sys) : json :=
  if negb (authorized cfg tok) then unauthorized
  else JObj [("status", JStr "ok"); ("pid", JInt (a_pid cfg)); ("uptime_s", JInt ((c_now c - started_at cfg) / 1000));
             ("tenants", JInt (Z.of_nat (count (sys_tenants s))));
             ("usage_bytes", jmap JInt (usage_bytes (sys_state s)));
             ("quota_bytes", JInt (quota_bytes (a_env cfg)))].

Definition tenant_json (usage : gmap string Z) (kv : string * TenantRecord) : json :=
  JObj [("domain", JStr (fst kv)); ("machines", JInt (Z.of_nat (size (Tenants.machines (snd kv)))));
        ("usage_bytes", JInt (default 0 (usage !! fst kv)))].

Definition list_tenants (cfg : AdminCfg) (tok : option string) (s : Sys) : json :=
  if negb (authorized cfg tok) then unauthorized
  else JObj [("tenants", JArr (map (tenant_json (usage_bytes (sys_state s))) (map_to_list (sys_tenants s))))].

Definition list_online (cfg : AdminCfg) (tok : option string) (s : Sys) : json :=
  if negb (authorized cfg tok) then unauthorized
  else JObj [("online", jmap (fun l => JArr (map machine_json l)) (Reg.all_online (registry (sys_state s))))].

Definition list_locks (cfg : AdminCfg) (tok : option string) (s : Sys) : json :=
  if negb (authorized cfg tok) then unauthorized
  else JObj [("locks", jmap JStr (snapshot (locks (sys_state s))))].

(** The last [n] lines of a text. *)
Definition tail_lines (n : Z) (content : string) : string :=
  str_join (String LF EmptyString) (rev (take (Z.to_nat n) (rev (lines content)))).

Definition logs (cfg : AdminCfg) (c : Call) (tok : option string) (n : option Z) (s : Sys) : json :=
  if negb (authorized cfg tok) then unauthorized
  else
    let lines := Z.min (default 200 n) 5000 in
    match read_to_string (sys_disk s) (log_file cfg) with
    | Some t => JObj [("file", JStr (log_file cfg)); ("lines", JInt lines); ("content", JStr (tail_lines lines t))]
    | None => jerror ("log file " +:+ log_file cfg +:+ ": " +:+ c_io_err c)
    end.

Definition user_json (usage : gmap string Z) (u : string * string * Z) : json :=
  let '(name, p, created) := u in
  JObj [("username", JStr name); ("plan", JStr p); ("quota_bytes", JInt (quota_for_plan p));
        ("usage_bytes", JInt (default 0 (usage !! name))); ("created_at", JInt created)].

Definition admin_list_users (cfg : AdminCfg) (c : Call) (tok : option string) (s : Sys) : json :=
  if negb (authorized cfg tok) then unauthorized
  else match db (sys_state s) with
       | None => jerror "user db not enabled"
       | Some d =>
           match list_users (c_db_up c) d with
           | Ok us => JObj [("users", JArr (map (user_json (usage_bytes (sys_state s))) us))]
           | Err e => jerror e
           end
       end.

(** ** Tenants and users *)

Definition add_tenant (cfg : AdminCfg) (c : Call) (tok : option string) (domain pubkey : string) (s : Sys) : json * Sys :=
  if negb (authorized cfg tok) then (unauthorized, s)
  else
    let '(r, s') := upsert cfg domain pubkey s in
    (match r with
     | Ok _ => JObj [("ok", JBool true); ("tenant", JStr domain)]
     | Err _ => jerror (c_io_err c)
     end, s').

Definition register_user (cfg : AdminCfg) (c : Call) (username password : string) (s : Sys) : json * Sys :=
  match db (sys_state s) with
  | None => (jerror "user db not enabled (set NSMT_DB_URL)", s)
  | Some d =>
      let u := str_trim username in
      if (str_len u =? 0) || (str_len u >? 64) || (str_len password <? 6)
      then (jerror "username 1-64 chars, password >= 6", s)
      else
        match register u password (c_salt c) (c_now c) (c_db_up c) (c_db_err c) d with
        | (Ok tok, d') =>
            (JObj [("ok", JBool true); ("token", JStr tok); ("domain", JStr u); ("quota_bytes", JInt (quota_for_plan "free"))],
             snd (upsert cfg u "" (set_db d' s)))
        | (Err e, d') => (jerror e, set_db d' s)
        end
  end.

Definition login_user (c : Call) (username password : string) (s : Sys) : json * Sys :=
  match db (sys_state s) with
  | None => (jerror "user db not enabled", s)
  | Some d =>
      match login username password (c_now c) (c_db_up c) d with
      | (Ok tok, d') => (JObj [("ok", JBool true); ("token", JStr tok)], set_db d' s)
      | (Err e, d') => (jerror e, set_db d' s)
      end
  end.

Definition set_tenant_key (cfg : AdminCfg) (c : Call) (domain pubkey : string) (s : Sys) : json * Sys :=
  if negb (str_len pubkey =? 64) then (jerror "pubkey must be 64 hex chars", s)
  else
    let '(r, s') := upsert cfg domain pubkey s in
    (match r with
     | Ok _ => JObj [("ok", JBool true); ("domain", JStr domain)]
     | Err _ => jerror (c_io_err c)
     end, s').

Definition upgrade_user (cfg : AdminCfg) (c : Call) (tok : option string) (username p : string) (s : Sys) : json * Sys :=
  if negb (authorized cfg tok) then (unauthorized, s)
  else match db (sys_state s) with
       | None => (jerror "user db not enabled", s)
       | Some d =>
           match set_plan username p (c_db_up c) d with
           | (Ok p', d') =>
               (JObj [("ok", JBool true); ("username", JStr username); ("plan", JStr p');
                      ("quota_bytes", JInt (quota_for_plan p'))], set_db d' s)
           | (Err e, d') => (jerror e, set_db d' s)
           end
       end.

(** [admin_restart]: the answer, and the exit code the process ends with 300 ms
    later. *)
Definition admin_restart (cfg : AdminCfg) (tok : option string) : json * option Z :=
  if negb (authorized cfg tok) then (unauthorized, None)
  else (JObj [("ok", JBool true); ("restarting", JBool true); ("pid", JInt (a_pid cfg))], Some 3).

(** ** Backup and restore *)

Definition tenant_dir (e : env) (domain : string) : string :=
  path_join (path_join (nsmt_home e) "server") (sanitize domain).

Definition backups_dir (e : env) : string := path_join (nsmt_home e) "backups".

Definition archive_path (e : env) (domain : string) (ts : Z) : string :=
  path_join (backups_dir e) (domain +:+ "-" +:+ dec ts +:+ ".tar").

Definition set_disk (fs : files) (s : Sys) : Sys := mkSys (sys_state s) (sys_tenants s) fs.

Definition backup_tenant (cfg : AdminCfg) (c : Call) (tok : option string) (q : option string) (s : Sys) : json * Sys :=
  if negb (authorized cfg tok) then (unauthorized, s)
  else match q with
       | None => (jerror "missing domain", s)
       | Some domain =>
           let src := tenant_dir (a_env cfg) domain in
           if negb (fs_exists (sys_disk s) src) then (jerror ("tenant dir not found: " +:+ src), s)
           else
             let fs1 := default (sys_disk s) (create_dir_all (backups_dir (a_env cfg)) (sys_disk s)) in
             let out := archive_path (a_env cfg) domain (c_now c) in
             let '(count, fs2) := tar_dir src out fs1 in
             (JObj [("ok", JBool (0 <=? count)); ("domain", JStr domain); ("archive", JStr out);
                    ("entries", JInt (Z.max count 0))], set_disk fs2 s)
       end.

Definition restore_tenant (cfg : AdminCfg) (tok : option string) (archive domain : string) (s : Sys) : json * Sys :=
  if negb (authorized cfg tok) then (unauthorized, s)
  else if negb (fs_exists (sys_disk s) archive) then (jerror ("archive not found: " +:+ archive), s)
  else
    let '(count, fs2) := untar_dir archive (tenant_dir (a_env cfg) domain) (sys_disk s) in
    (JObj [("ok", JBool (0 <=? count)); ("domain", JStr domain); ("restored_entries", JInt (Z.max count 0))],
     set_disk fs2 s).

(** ** The router: the answer, the state after it, and the exit code if the
    process will end. *)
Definition handle (cfg : AdminCfg) (c : Call) (tok : option string) (r : Request) (s : Sys) : json * Sys * option Z :=
  match r with
  | ReqStatus => (status cfg c tok s, s, None)
  | ReqListTenants => (list_tenants cfg tok s, s, None)
  | ReqAddTenant d pk => (add_tenant cfg c tok d pk s, None)
  | ReqOnline => (list_online cfg tok s, s, None)
  | ReqLocks => (list_locks cfg tok s, s, None)
  | ReqLogs n => (logs cfg c tok n s, s, None)
  | ReqRegister u pw => (register_user cfg c u pw s, None)
  | ReqLogin u pw => (login_user c u pw s, None)
  | ReqSetKey d pk => (set_tenant_key cfg c d pk s, None)
  | ReqListUsers => (admin_list_users cfg c tok s, s, None)
  | ReqUpgrade u p => (upgrade_user cfg c tok u p s, None)
  | ReqRestart => let '(j, x) := admin_restart cfg tok in (j, s, x)
  | ReqBackup q => (backup_tenant cfg c tok q s, None)
  | ReqRestore a d => (restore_tenant cfg tok a d s, None)
  end.

(** ** Start-up *)

(** What [main] does with its arguments before it listens. *)
Inductive Boot : Set :=
| Listen
| Panic
| Exit (r : result NsmtError unit).

(** [ygg admin add-tenant <domain> <pubkey>]; [args] holds the program's name
    first. *)
Definition boot (e : env) (args : list string) (fs : files) : Boot * files :=
  if bool_decide (args !! 1%nat = Some "admin") || bool_decide (args !! 2%nat = Some "admin") then
    if bool_decide (args !! 2%nat = Some "add-tenant") then
      match args !! 3%nat, args !! 4%nat with
      | Some domain, Some pubkey =>
          let '(r, _, fs') := upsert_tenant e domain pubkey (load e fs) fs in (Exit r, fs')
      | _, _ => (Panic, fs)
      end
    else (Listen, fs)
  else (Listen, fs).

(** The address of the control API. *)
Definition control_addr (e : env) (args : list string) : option string :=
  match e "NSMT_CONTROL_ADDR" with
  | Some x => Some x
  | None => list_find (fun x => x = "--control") args ≫= fun p => args !! S (fst p)
  end.

(** Where the server listens; what is not an address is replaced without a word. *)
Definition bind_arg (addr_ok : string -> bool) (args : list string) : string :=
  match args !! 1%nat with
  | Some s => if addr_ok s then s else "0.0.0.0:5555"
  | None => "0.0.0.0:5555"
  end.

(** [persist_cert]: the certificate of this start, for clients to trust. *)
Definition cert_dir (e : env) : string :=
  match e "NSMT_HOME" with
  | Some h => h
  | None => match e "HOME" with Some h => h +:+ "/.nsmt" | None => ".nsmt" end
  end.

Definition persist_cert (e : env) (cert : bytes) (fs : files) : option files :=
  fs1 ← create_dir_all (cert_dir e) fs; fs_write (cert_dir e +:+ "/ygg.crt") cert fs1.
End Admin.

(** ** Lemmas *)

(** The requests whose handlers ask for the token. *)
Definition guarded (r : Request) : bool :=
  match r with
  | ReqRegister _ _ | ReqLogin _ _ | ReqSetKey _ _ => false
  | _ => true
  end.

(** What no request can do: touch the sessions' state, unpin a machine's key, remove
    a tenant, or break the user tables. *)
Record contained (s s' : Sys) : Prop := {
  ct_state : let st := sys_state s in let st' := sys_state s' in
    registry st' = registry st /\ locks st' = locks st /\ object_stores st' = object_stores st /\
    object_owners st' = object_owners st /\ usage_bytes st' = usage_bytes st;
  ct_pinned : forall d m k, machine_key d m (sys_tenants s) = Some k -> machine_key d m (sys_tenants s') = Some k;
  ct_kept : forall d, is_Some (sys_tenants s !! d) -> is_Some (sys_tenants s' !! d);
  ct_db : db (sys_state s) = db (sys_state s') \/
    exists d d', db (sys_state s) = Some d /\ db (sys_state s') = Some d' /\ (db_wf d -> db_wf d');
}.

(** The tenant an open request names. *)
Definition names (r : Request) : option string :=
  match r with
  | ReqRegister u _ => Some (str_trim u)
  | ReqSetKey d _ => Some d
  | _ => None
  end.

(** What anybody can do: change the tenant the request names, and so the file of the
    tenant table, and add users on the free plan. *)
Record open_only (e : env) (r : Request) (s s' : Sys) : Prop := {
  oo_tenants : forall d, names r <> Some d -> sys_tenants s' !! d = sys_tenants s !! d;
  oo_files : forall q, resolve q <> resolve (tenants_path e) -> fs_read (sys_disk s') q = fs_read (sys_disk s) q;
  oo_users : forall d d', db (sys_state s) = Some d -> db (sys_state s') = Some d' ->
    exists more, users d' = users d ++ more /\ Forall (fun u => plan_col u = "free") more;
}.

#[export] Instance contained_refl : Reflexive contained.
Proof. intros s. by split; [split_and!|..|left]. Qed.

Section AdminFacts.
Context `{Serde (gmap string TenantRecord)} `{HexCodec} `{Sha256} `{Argon2}.

Lemma set_pubkey_lookup d pk g x :
  set_pubkey d pk g !! x =
    if decide (x = d) then Some (mkTenantRecord pk (Tenants.machines (default record_default (g !! d)))) else g !! x.
Proof.
  unfold set_pubkey. case_decide as E; [subst; by rewrite lookup_insert_eq|by rewrite lookup_insert_ne].
Qed.

(** [upsert] sets the key in memory, whether or not the table could be saved. *)
Lemma upsert_effect cfg d pk s :
  sys_state (snd (upsert cfg d pk s)) = sys_state s /\
  sys_tenants (snd (upsert cfg d pk s)) = set_pubkey d pk (sys_tenants s).
Proof. unfold upsert, upsert_tenant. by destruct (persist _ _ _). Qed.

Lemma upsert_files cfg d pk s q : resolve q <> resolve (tenants_path (a_env cfg)) ->
  fs_read (sys_disk (snd (upsert cfg d pk s))) q = fs_read (sys_disk s) q.
Proof.
  intros Hq. unfold upsert, upsert_tenant, persist. destruct (create_dir_all _ _) as [fs1|] eqn:Ec; [|done].
  rewrite <- (create_dir_all_read _ _ _ q Ec). destruct (fs_write _ _ _) eqn:Ew; [|done]. by eapply fs_read_write_ne.
Qed.

Lemma upsert_contained cfg d pk s s0 :
  contained s0 s -> contained s0 (snd (upsert cfg d pk s)).
Proof.
  destruct (upsert_effect cfg d pk s) as [Hs Ht]. intros [Hst Hpin Hkept Hdb]. split; rewrite ?Hs, ?Ht; [done| | |done].
  - intros d' m k Hk. unfold machine_key in *. rewrite set_pubkey_lookup. specialize (Hpin d' m k Hk).
    case_decide as E; [subst|done]. by destruct (sys_tenants s !! d).
  - intros d' Hd. rewrite set_pubkey_lookup. case_decide; [by eexists|by apply Hkept].
Qed.

Lemma set_db_contained d d' s :
  db (sys_state s) = Some d -> (db_wf d -> db_wf d') -> contained s (set_db d' s).
Proof. intros Hd Hwf. split; [by split_and!|done|done|]. right. by exists d, d'. Qed.

Lemma login_wf u pw now up d : db_wf d -> db_wf (snd (login u pw now up d)).
Proof.
  intros Hwf. unfold login. repeat case_match; try done.
  all: match goal with E : issue_token ?u ?n ?d = _ |- _ =>
         pose proof (issue_token_users u n d) as [E1 E2]; rewrite E in E1, E2; cbn [snd] in *;
         by apply (wf_same_users d) end.
Qed.
Lemma set_disk_contained fs s : contained s (set_disk fs s).
Proof. by split; [split_and!|..|left]. Qed.


(** The three open handlers. *)
Lemma same_users_more (d d' : UserDb) :
  users d' = users d -> exists more, users d' = users d ++ more /\ Forall (fun u => plan_col u = "free") more.
Proof. intros ->. exists []. by rewrite app_nil_r. Qed.

Lemma register_user_open cfg c u pw s : open_only (a_env cfg) (ReqRegister u pw) s (snd (register_user cfg c u pw s)).
Proof.
  assert (open_only (a_env cfg) (ReqRegister u pw) s s) as Hs by (split; try done; intros d d' -> [= ->]; by apply same_users_more).
  unfold register_user. destruct (db (sys_state s)) as [d|] eqn:Ed; [|done]. destruct (_ || _); [done|].
  unfold register. destruct (hash_password _ _) as [h|e]; [|by split; try done; intros ? ?; rewrite Ed; intros [= <-] [= <-]; apply same_users_more].
  destruct (negb _ || _); [by split; try done; intros ? ?; rewrite Ed; intros [= <-] [= <-]; apply same_users_more|].
  set (db1 := mkUserDb _ _ _). pose proof (issue_token_users (str_trim u) (c_now c) db1) as [E1 _].
  destruct (issue_token _ _ db1) as [t d1]. cbn [snd] in *. destruct (upsert_effect cfg (str_trim u) "" (set_db d1 s)) as [Es Et].
  split.
  - intros x Hx. rewrite Et, set_pubkey_lookup, decide_False; [done|]. intros ->. by apply Hx.
  - intros q Hq. by rewrite upsert_files.
  - intros x y Hx. rewrite Es. cbn. rewrite Hx in Ed. intros [= <-]. injection Ed as <-. rewrite E1. eexists. split; [done|]. by repeat constructor.
Qed.

Lemma login_user_open e c u pw s : open_only e (ReqLogin u pw) s (snd (login_user c u pw s)).
Proof.
  unfold login_user. destruct (db (sys_state s)) as [d|] eqn:Ed; [|split; try done; intros ? ?; by rewrite Ed].
  assert (users (snd (login u pw (c_now c) (c_db_up c) d)) = users d) as Hu.
  { unfold login. repeat case_match; try done.
    match goal with E : issue_token ?u ?n ?d = _ |- _ => pose proof (issue_token_users u n d) as [E1 _]; by rewrite E in E1 end. }
  destruct (login _ _ _ _ d) as [[t|x] d']; cbn [snd] in *;
    (split; [done..|]; intros ? ?; rewrite Ed; intros [= <-] [= <-]; by apply same_users_more).
Qed.

Lemma set_tenant_key_open cfg c d pk s : open_only (a_env cfg) (ReqSetKey d pk) s (snd (set_tenant_key cfg c d pk s)).
Proof.
  unfold set_tenant_key. destruct (negb _); cbn [snd]; [split; try done; intros x y Hx Hy; apply same_users_more; congruence|].
  destruct (upsert_effect cfg d pk s) as [Es Et]. pose proof (fun q => upsert_files cfg d pk s q) as Hf.
  destruct (upsert cfg d pk s) as [r s']. cbn [snd] in *. split.
  - intros x Hx. rewrite Et, set_pubkey_lookup, decide_False; [done|]. intros ->. by apply Hx.
  - done.
  - intros x y Hx Hy. rewrite Es in Hy. apply same_users_more. congruence.
Qed.

(** Every handler that changes the state. *)
Lemma add_tenant_contained cfg c tok d pk s : contained s (snd (add_tenant cfg c tok d pk s)).
Proof.
  unfold add_tenant. destruct (negb _); [done|]. pose proof (upsert_contained cfg d pk s s ltac:(done)) as Hc.
  by destruct (upsert cfg d pk s).
Qed.

Lemma set_tenant_key_contained cfg c d pk s : contained s (snd (set_tenant_key cfg c d pk s)).
Proof.
  unfold set_tenant_key. destruct (negb _); [done|]. pose proof (upsert_contained cfg d pk s s ltac:(done)) as Hc.
  by destruct (upsert cfg d pk s).
Qed.

Lemma register_user_contained cfg c u pw s : contained s (snd (register_user cfg c u pw s)).
Proof.
  unfold register_user. destruct (db (sys_state s)) as [d|] eqn:Ed; [|done].
  destruct (_ || _); [done|]. pose proof (db_register_wf (str_trim u) pw (c_salt c) (c_now c) (c_db_up c) (c_db_err c) d) as Hwf.
  destruct (register _ _ _ _ _ _ d) as [[tok|e] d']; cbn [snd] in *; [apply upsert_contained|]; by apply (set_db_contained d).
Qed.

Lemma login_user_contained c u pw s : contained s (snd (login_user c u pw s)).
Proof.
  unfold login_user. destruct (db (sys_state s)) as [d|] eqn:Ed; [|done].
  pose proof (login_wf u pw (c_now c) (c_db_up c) d) as Hwf.
  destruct (login _ _ _ _ d) as [[tok|e] d']; cbn [snd] in *; by apply (set_db_contained d).
Qed.

Lemma upgrade_user_contained cfg c tok u p s : contained s (snd (upgrade_user cfg c tok u p s)).
Proof.
  unfold upgrade_user. destruct (negb _); [done|]. destruct (db (sys_state s)) as [d|] eqn:Ed; [|done].
  pose proof (set_plan_wf u p (c_db_up c) d) as Hwf.
  destruct (set_plan _ _ _ d) as [[q|e] d']; cbn [snd] in *; by apply (set_db_contained d).
Qed.

Lemma backup_contained cfg c tok q s : contained s (snd (backup_tenant cfg c tok q s)).
Proof.
  unfold backup_tenant. destruct (negb _); [done|]. destruct q as [d|]; [|done]. destruct (negb _); [done|].
  destruct (tar_dir _ _ _). apply set_disk_contained.
Qed.

Lemma restore_contained cfg tok a d s : contained s (snd (restore_tenant cfg tok a d s)).
Proof.
  unfold restore_tenant. destruct (negb _); [done|]. destruct (negb _); [done|].
  destruct (untar_dir _ _ _). apply set_disk_contained.
Qed.
End AdminFacts.

Lemma set_key_sets `{Serde (gmap string TenantRecord)} `{HexLaws} `{Sha256} `{Argon2} `{Ed25519Laws} cfg c d kp s :
  keypair_wf kp ->
  sys_state (snd (set_tenant_key cfg c d (public_hex kp) s)) = sys_state s /\
  sys_tenants (snd (set_tenant_key cfg c d (public_hex kp) s)) = set_pubkey d (public_hex kp) (sys_tenants s).
Proof.
  intros [Hl Hv]. unfold set_tenant_key.
  assert ((str_len (public_hex kp) =? 64) = true) as ->.
  { unfold public_hex, str_len. by rewrite hex_encode_length, Hv, ed_public_length by done. }
  cbn [negb]. pose proof (upsert_effect cfg d (public_hex kp) s) as He.
  by destruct (upsert cfg d (public_hex kp) s).
Qed.

Create HintDb admin.
#[export] Hint Resolve add_tenant_contained set_tenant_key_contained register_user_contained login_user_contained
  upgrade_user_contained backup_contained restore_contained : admin.
#[export] Hint Extern 1 (contained _ _) => reflexivity : admin.

Lemma handle_contained `{Serde (gmap string TenantRecord)} `{HexCodec} `{Sha256} `{Argon2} cfg c tok r s :
  contained s (snd (fst (handle cfg c tok r s))).
Proof. destruct r; cbn [handle fst snd]; auto with admin. destruct (admin_restart cfg tok); cbn; auto with admin. Qed.

(** ** Properties *)


(** The tenant key is not protected by the admin token: whoever reaches the control
    API sets the key of any domain and from then on authenticates as that domain,
    while a signature the new key does not verify is refused. *)
Theorem open_key_takeover `{Serde (gmap string TenantRecord)} `{HexLaws} `{Sha256} `{Argon2} `{Ed25519Laws}
    cfg c tok d kp s :
  keypair_wf kp ->
  let '(j, s', x) := handle cfg c tok (ReqSetKey d (public_hex kp)) s in
  x = None /\ (forall nonce, verify_auth d nonce (sign kp (as_bytes nonce)) (sys_tenants s') = Ok tt) /\
  (forall nonce sig, verify (public_hex kp) (as_bytes nonce) sig = false ->
     verify_auth d nonce sig (sys_tenants s') = Err "auth_failed").
Proof.
  intros Hkp. cbn [handle]. pose proof (set_key_sets cfg c d kp s Hkp) as [_ Ht].
  destruct (set_tenant_key cfg c d (public_hex kp) s) as [j s']. cbn [snd] in Ht. rewrite Ht. unfold verify_auth.
  rewrite set_pubkey_lookup, decide_True by done. cbn [domain_pubkey]. split_and!; [done| |].
  - intros nonce. by rewrite verify_sign.
  - intros nonce sig Hv. by rewrite Hv.
Qed.

Definition demo_call : Call := mkCall 7 [] true "dup" "io".
Definition demo_cfg : AdminCfg := mkAdminCfg "ygg.log" 0 (Some "secret") demo_env 42.
Definition demo_sys : Sys := mkSys (state_new (Ok demo_db)) demo_tenants demo_home.

(** A stranger without the token takes over the tenant [ser163]. *)
Lemma open_key_takeover_witness :
  verify_auth "ser163" "n" (sign demo_thief (as_bytes "n"))
    (sys_tenants (snd (fst (handle (H := demo_tenant_serde) (H2 := demo_argon) demo_cfg demo_call None
       (ReqSetKey "ser163" (public_hex demo_thief)) demo_sys)))) = Ok tt.
Proof.
  pose proof (open_key_takeover (H := demo_tenant_serde) (H3 := demo_argon) demo_cfg demo_call None "ser163" demo_thief demo_sys) as T.
  destruct (handle _ _ _ _ _) as [[j s'] x]. apply T. by split; vm_compute.
Defined.

(** C29: Signing up: a well-formed registration the database accepts gives a token and
    a tenant of the user's name with the free quota and no other change to the
    tenants; an existing tenant of that name keeps its machines but loses its key,
    so its owner's signatures count no more.  The password logs in, and after the
    user has set a key the tenant can be used. *)
Theorem self_service `{Serde (gmap string TenantRecord)} `{HexLaws} `{Sha256} `{Argon2Laws} `{Ed25519Laws}
    cfg c tok name pw d t d' s kp :
  db (sys_state s) = Some d -> db_wf d -> keypair_wf kp ->
  let u := str_trim name in
  0 < str_len u <= 64 -> 6 <= str_len pw ->
  register u pw (c_salt c) (c_now c) (c_db_up c) (c_db_err c) d = (Ok t, d') ->
  let '(j1, s1, _) := handle cfg c tok (ReqRegister name pw) s in
  let '(_, s2, _) := handle cfg c tok (ReqSetKey u (public_hex kp)) s1 in
  jget "token" j1 = JStr t /\ jget "domain" j1 = JStr u /\
  (forall x, x <> u -> sys_tenants s1 !! x = sys_tenants s !! x) /\
  sys_tenants s1 !! u = Some (mkTenantRecord "" (Tenants.machines (default record_default (sys_tenants s !! u)))) /\
  (forall nonce sig, verify_auth u nonce sig (sys_tenants s1) = if verify "" (as_bytes nonce) sig then Ok tt else Err "auth_failed") /\
  (forall nonce, verify_auth u nonce (sign kp (as_bytes nonce)) (sys_tenants s2) = Ok tt) /\
  quota_for (a_env cfg) true u (sys_state s2) = DEFAULT_FREE_QUOTA_BYTES /\
  (forall c2, c_db_up c2 = true ->
     jget "token" (fst (fst (handle cfg c2 None (ReqLogin u pw) s2))) = JStr (make_token u (c_now c2))).
Proof.
  intros Hd Hwf Hkp u Hu Hpw Hreg. cbn [handle]. unfold register_user. rewrite Hd. fold u.
  assert ((str_len u =? 0) || (str_len u >? 64) || (str_len pw <? 6) = false) as -> by lia.
  rewrite Hreg. destruct (upsert_effect cfg u "" (set_db d' s)) as [Hs1 Ht1].
  set (s1 := snd (upsert cfg u "" (set_db d' s))) in *. cbn [sys_tenants set_db] in Ht1.
  pose proof (set_key_sets cfg c u kp s1 Hkp) as [Hs2 Ht2].
  destruct (set_tenant_key cfg c u (public_hex kp) s1) as [j2 s2]. cbn [snd] in Hs2, Ht2.
  assert (db (sys_state s2) = Some d') as Hd2 by (by rewrite Hs2, Hs1).
  split_and!; [done|done| | | | | |].
  - intros x Hx. by rewrite Ht1, set_pubkey_lookup, decide_False.
  - by rewrite Ht1, set_pubkey_lookup, decide_True.
  - intros nonce sig. unfold verify_auth. rewrite Ht1, set_pubkey_lookup, decide_True by done. done.
  - intros nonce. unfold verify_auth. rewrite Ht2, set_pubkey_lookup, decide_True by done. cbn [domain_pubkey].
    by rewrite verify_sign.
  - unfold quota_for. rewrite Hd2. by eapply registered_quota.
  - intros c2 Hc2. cbn [handle fst]. unfold login_user. rewrite Hd2, Hc2.
    pose proof (registered_login _ _ _ _ _ _ _ _ _ (c_now c2) Hwf Hreg) as Hl.
    destruct (login u pw (c_now c2) true d') as [r d2]. cbn [fst] in Hl. by rewrite Hl.
Qed.

Definition demo_signup : result string string * UserDb :=
  register (H1 := demo_argon) "bob" "secret1" [] 7 true "dup" demo_db.

Lemma self_service_witness :
  let s1 := snd (fst (handle (H := demo_tenant_serde) (H2 := demo_argon) demo_cfg demo_call None (ReqRegister " bob" "secret1") demo_sys)) in
  let s2 := snd (fst (handle (H := demo_tenant_serde) (H2 := demo_argon) demo_cfg demo_call None (ReqSetKey "bob" (public_hex demo_thief)) s1)) in
  verify_auth "bob" "n" (sign demo_thief (as_bytes "n")) (sys_tenants s2) = Ok tt.
Proof.
  pose proof (self_service (H := demo_tenant_serde) (H3 := demo_argon) (H4 := demo_argon_laws) demo_cfg demo_call None
    " bob" "secret1" demo_db (make_token "bob" 7) (snd demo_signup) demo_sys demo_thief) as T.
  cbn zeta in T. change (str_trim " bob") with "bob" in T.
  destruct (handle demo_cfg demo_call None (ReqRegister _ _) _) as [[j1 s1] x1]. cbn [fst snd].
  destruct (handle demo_cfg demo_call None (ReqSetKey _ _) _) as [[j2 s2] x2]. cbn [fst snd].
  apply T; [done|by split; constructor|by split; vm_compute|by vm_compute|by vm_compute|].
  apply fst_pair. vm_compute. reflexivity.
Defined.

(** [ygg admin add-tenant] while the server runs: the tenant is on disk and would
    be there after a restart, but the running server does not know it, and the next
    key the control API sets writes the server's own table over it: the tenant is
    gone from the disk as well. *)
Theorem cli_tenant_lost `{SerdeLaws (gmap string TenantRecord)} `{HexCodec} `{Ed25519} e d pk d2 pk2 g fs fs1 g2 fs2 :
  boot e ["ygg"; "admin"; "add-tenant"; d; pk] fs = (Exit (Ok tt), fs1) ->
  g !! d = None -> d2 <> d -> upsert_tenant e d2 pk2 g fs1 = (Ok tt, g2, fs2) ->
  domain_pubkey <$> load e fs1 !! d = Some pk /\
  (forall nonce sig, verify_auth d nonce sig g = Err "tenant_not_found") /\
  load e fs2 !! d = None.
Proof.
  unfold boot. cbn. destruct (upsert_tenant e d pk (load e fs) fs) as [[r g1] fs1'] eqn:E1.
  intros [= -> ->] Hd Hne [-> Hl2]%upsert_loads. apply upsert_loads in E1 as [-> Hl1].
  rewrite Hl1, Hl2, !set_pubkey_lookup, decide_True, decide_False by done. split_and!; [done| |done].
  intros nonce sig. unfold verify_auth. by rewrite Hd.
Qed.

Lemma cli_tenant_lost_witness :
  load (H := demo_tenant_serde) demo_env
    (snd (upsert_tenant (H := demo_tenant_serde) demo_env "ser163" "00" ∅
            (snd (boot (H := demo_tenant_serde) demo_env ["ygg"; "admin"; "add-tenant"; "ann"; "11"] ∅)))) !! "ann" = None.
Proof.
  eapply (cli_tenant_lost (H := demo_tenant_serde) (H0 := countable_serde_laws _) demo_env "ann" "11" "ser163" "00" ∅ ∅).
  - apply fst_pair. vm_compute. reflexivity.
  - done.
  - done.
  - apply fst3_pair. vm_compute. reflexivity.
Defined.
