(* ===== verification/Supervisor.v ===== *)
(** * The supervisor

    [nsmt-admin/src/main.rs]: the loop that keeps a server process running, the
    arguments it is started with, and the web handlers, which forward requests to the
    server's control API ([Admin]).  The handlers only read the process record, so the
    loop's steps are the only ones that change it; starting, polling and probing
    a process are answered by the system and are arguments here. *)

From S2P Require Import Prelude Json Paths Messages Crypto Tenants Db State Admin.

Module Sup.

(** ** Arguments *)

(** [split_ygg_args]: what follows the first [--] is for the server. *)
Definition split_ygg_args (args : list string) : list string * list string :=
  match list_find (fun x => x = "--") args with
  | Some (i, _) => (take i args, drop (S i) args)
  | None => (args, [])
  end.

Record Opts : Type := mkOpts { o_ygg : string; o_control : string; o_bind : string; o_token : option string }.

Definition opts_default (e : env) : Opts :=
  mkOpts (default "ygg" (e "YGG_BIN")) "127.0.0.1:8091" "127.0.0.1:8090"
    (match e "NSMT_ADMIN_TOKEN" with
     | Some t => if str_len t =? 0 then None else Some t
     | None => None
     end).

(** The loop over the own arguments; an option that is the last argument has no
    value: the first three then keep what they have, [--token] loses it. *)
Fixpoint parse_opts (own : list string) (o : Opts) : Opts :=
  match own with
  | [] => o
  | k :: rest =>
      if decide (k = "--ygg") then
        match rest with v :: r => parse_opts r (mkOpts v (o_control o) (o_bind o) (o_token o)) | [] => o end
      else if decide (k = "--control") then
        match rest with v :: r => parse_opts r (mkOpts (o_ygg o) v (o_bind o) (o_token o)) | [] => o end
      else if decide (k = "--bind") then
        match rest with v :: r => parse_opts r (mkOpts (o_ygg o) (o_control o) v (o_token o)) | [] => o end
      else if decide (k = "--token") then
        match rest with
        | v :: r => parse_opts r (mkOpts (o_ygg o) (o_control o) (o_bind o) (Some v))
        | [] => mkOpts (o_ygg o) (o_control o) (o_bind o) None
        end
      else parse_opts rest o
  end.

(** ** The process *)

Record YggProcess : Type := mkYgg {
  pid : option Z; started_at : option Z; exit_code : option Z; restarts : Z; backoff_ms : Z;
  child : option Z (* the handle, by the process's id *) }.

Definition ygg_init : YggProcess := mkYgg None None None 0 0 None.

(** [spawn_ygg] for the id the system gave the new process. *)
Definition spawn_ygg (r : result string Z) (now : Z) (p : YggProcess) : result string unit * YggProcess :=
  match r with
  | Err e => (Err e, p)
  | Ok n => (Ok tt, mkYgg (Some n) (Some now) None (restarts p) 0 (Some n))
  end.

(** What [try_wait] answers. *)
Inductive Polled : Set :=
| Exited (code : option Z)
| Running
| WaitFailed.

(** One round of [wait_child]: [None] means that it sleeps and polls again. *)
Definition wait_poll (o : Polled) (p : YggProcess) : option (option Z) * YggProcess :=
  match child p with
  | None => (Some None, p)
  | Some _ =>
      let gone := mkYgg None (started_at p) (exit_code p) (restarts p) (backoff_ms p) None in
      match o with
      | Exited code => (Some code, gone)
      | Running => (None, p)
      | WaitFailed => (Some None, gone)
      end
  end.

(** [(g.backoff_ms * 2).clamp(0, 10_000)]; code 3 is a restart that was asked for. *)
Definition after_exit (code : option Z) (p : YggProcess) : YggProcess :=
  mkYgg None (started_at p) (exit_code p) (wrap64 (restarts p + 1))
    (if decide (code = Some 3) then 0 else Z.min (wrap64 (backoff_ms p * 2)) 10000) None.

Definition backoff (p : YggProcess) : Z := Z.max (backoff_ms p) 500.

(** Where the loop is. *)
Inductive Phase : Set :=
| Start
| Wait
| Sleep (ms : Z).

(** What happens to it. *)
Inductive Event : Set :=
| EvSpawn (r : result string Z) (now : Z)
| EvPoll (o : Polled)
| EvWake.

(** The loop's steps; [None] when the event does not fit the place. *)
Definition sup_step (ev : Event) (s : Phase * YggProcess) : option (Phase * YggProcess) :=
  let '(ph, p) := s in
  match ph, ev with
  | Start, EvSpawn r now =>
      match pid p with
      | Some _ => None
      | None => match spawn_ygg r now p with
                | (Ok _, p') => Some (Wait, p')
                | (Err _, p') => Some (Sleep 2000, p')
                end
      end
  | Start, EvPoll _ => match pid p with Some _ => Some (Wait, p) | None => None end
  | Wait, EvPoll o =>
      match wait_poll o p with
      | (None, p') => Some (Wait, p')
      | (Some code, p') => let p2 := after_exit code p' in Some (Sleep (backoff p2), p2)
      end
  | Sleep _, EvWake => Some (Start, p)
  | _, _ => None
  end.

Fixpoint sup_run (evs : list Event) (s : Phase * YggProcess) : option (Phase * YggProcess) :=
  match evs with
  | [] => Some s
  | ev :: evs' => s' ← sup_step ev s; sup_run evs' s'
  end.

Definition sup_init : Phase * YggProcess := (Start, ygg_init).

(** ** Stopping a process *)

Inductive Cmd : Set := KillTerm | KillProbe | KillKill.

(** The probes: [alive k] says whether the k-th one still finds the process. *)
Fixpoint probes (n k : nat) (alive : nat -> bool) : list Cmd :=
  match n with
  | O => [KillKill]
  | S n' => KillProbe :: if alive k then probes n' (S k) alive else []
  end.

(** [terminate] on Unix: the commands it runs. *)
Definition terminate (alive : nat -> bool) : list Cmd := KillTerm :: probes 40 0 alive.

(** ** The web handlers *)

Record HttpReq : Type := mkHttp { h_post : bool; h_url : string; h_token : option string; h_body : option json }.

(** [AdminState] without the process record. *)
Record SupCfg : Type := mkSupCfg { control_base : string; s_token : option string }.

Section Web.
(** The HTTP client: the JSON answer, [Ok None] for an answer that is not JSON, or
    the text of a failed request; [W] is the server's side. *)
Context {W : Type} (send : HttpReq -> W -> result string (option json) * W).

Definition sup_authorized (s : SupCfg) (header : option string) : bool :=
  match s_token s with
  | Some t => bool_decide (header = Some t)
  | None => true
  end.

(** The answer that is handed on. *)
Definition relay (r : result string (option json)) : json :=
  match r with
  | Ok j => default (JObj []) j
  | Err e => jerror e
  end.

Definition authed_get (s : SupCfg) (url : string) : HttpReq := mkHttp false url (s_token s) None.

Definition proxy_get (s : SupCfg) (header : option string) (path : string) (w : W) : json * W :=
  if negb (sup_authorized s header) then (unauthorized, w)
  else let '(r, w') := send (authed_get s (control_base s +:+ path)) w in (relay r, w').

Definition proxy_post (s : SupCfg) (header : option string) (path : string) (body : json) (w : W) : json * W :=
  if negb (sup_authorized s header) then (unauthorized, w)
  else let '(r, w') := send (mkHttp true (control_base s +:+ path) (s_token s) (Some body)) w in (relay r, w').

Definition proxy_status s h := proxy_get s h "/api/status".
Definition proxy_tenants s h := proxy_get s h "/api/tenants".
Definition proxy_online s h := proxy_get s h "/api/online".
Definition proxy_locks s h := proxy_get s h "/api/locks".
Definition proxy_users s h := proxy_get s h "/api/users".
Definition proxy_add_tenant s h := proxy_post s h "/api/tenants".
Definition proxy_restore s h := proxy_post s h "/api/restore".

Definition proxy_logs s h (n : option Z) (level : option string) :=
  proxy_get s h ("/api/logs?lines=" +:+ dec (default 200 n) +:+
                 match level with Some l => "&filter=" +:+ l | None => "" end).

Definition proxy_backup s h (domain : option string) :=
  proxy_get s h (match domain with Some d => "/api/backup?domain=" +:+ d | None => "/api/backup" end).

(** [api_restart]: it takes no header; the last component is what it does to the
    process itself when the control API cannot be reached. *)
Definition api_restart (s : SupCfg) (p : YggProcess) (alive : nat -> bool) (w : W) : json * W * list Cmd :=
  match pid p with
  | None => (jerror "ygg not running", w, [])
  | Some n =>
      let '(r, w') := send (mkHttp true (control_base s +:+ "/api/admin/restart") (s_token s) None) w in
      match r with
      | Ok v => (JObj [("ok", JBool true); ("via", JStr "control"); ("pid", JInt n);
                       ("detail", default (JObj []) v)], w', [])
      | Err _ => (JObj [("ok", JBool true); ("via", JStr "kill"); ("pid", JInt n)], w', terminate alive)
      end
  end.

(** [api_process]; [ps] gives CPU and memory use of a process. *)
Definition api_process (s : SupCfg) (p : YggProcess) (now : Z) (ps : Z -> option (json * json)) : json :=
  let usage := default (JInt 0, JInt 0) (pid p ≫= ps) in
  JObj [("pid", match pid p with Some n => JInt n | None => JNull end);
        ("running", JBool (match pid p with Some _ => true | None => false end));
        ("uptime_s", JInt (match started_at p with Some t => (now - t) / 1000 | None => 0 end));
        ("restarts", JInt (restarts p)); ("cpu_pct", fst usage); ("mem_mb", snd usage);
        ("control", JStr (control_base s))].
End Web.

(** ** A control API to talk to

    The server's routes that take no arguments. *)
Definition route (post : bool) (path : string) : option Request :=
  if decide (post = false /\ path = "/api/status") then Some ReqStatus
  else if decide (post = false /\ path = "/api/tenants") then Some ReqListTenants
  else if decide (post = false /\ path = "/api/online") then Some ReqOnline
  else if decide (post = false /\ path = "/api/locks") then Some ReqLocks
  else if decide (post = false /\ path = "/api/users") then Some ReqListUsers
  else if decide (post = true /\ path = "/api/admin/restart") then Some ReqRestart
  else None.

Section Control.
Context `{Serde (gmap string TenantRecord)} `{HexCodec} `{Sha256} `{Argon2}.

(** A server with configuration [cfg] behind [base]; the state also holds the exit
    code once the process is going to end. *)
Definition control (base : string) (cfg : AdminCfg) (c : Call) (rq : HttpReq) (w : Sys * option Z)
    : result string (option json) * (Sys * option Z) :=
  match strip_prefix base (h_url rq) ≫= route (h_post rq) with
  | Some r =>
      let '(j, s', x) := handle cfg c (h_token rq) r (fst w) in
      (Ok (Some j), (s', match x with Some _ => x | None => snd w end))
  | None => (Ok None, w)
  end.
End Control.
End Sup.

Import Sup.

(** ** Lemmas *)

(** How often the process ended during [evs], as the loop sees it. *)
Fixpoint exits (evs : list Event) : Z :=
  match evs with
  | [] => 0
  | EvPoll (Exited _) :: evs' | EvPoll WaitFailed :: evs' => 1 + exits evs'
  | _ :: evs' => exits evs'
  end.

(** [n] exits so far: the record has a process and a handle exactly while the loop
    waits for it, the back-off is zero, and a pause lasts 500 ms after an exit and
    2 s after a failed start. *)
Definition sup_inv (n : Z) (s : Phase * YggProcess) : Prop :=
  backoff_ms (snd s) = 0 /\ restarts (snd s) = wrap64 n /\
  match fst s with
  | Wait => exists k, pid (snd s) = Some k /\ child (snd s) = Some k
  | Start => pid (snd s) = None /\ child (snd s) = None
  | Sleep ms => (ms = 500 \/ ms = 2000) /\ pid (snd s) = None /\ child (snd s) = None
  end.

Definition exit_of (ev : Event) : Z :=
  match ev with EvPoll (Exited _) | EvPoll WaitFailed => 1 | _ => 0 end.

Lemma exits_cons ev evs : exits (ev :: evs) = exit_of ev + exits evs.
Proof. destruct ev as [r t|[c| |]|]; cbn [exits exit_of]; lia. Qed.

Lemma after_exit_inv code n p :
  backoff_ms p = 0 -> restarts p = wrap64 n ->
  sup_inv (1 + n) (Sleep (backoff (after_exit code p)), after_exit code p).
Proof.
  intros Hb Hr. unfold after_exit, backoff, sup_inv. rewrite Hb, Hr. cbn [fst snd backoff_ms restarts pid child].
  assert ((if decide (code = Some 3) then 0 else Z.min (wrap64 (0 * 2)) 10000) = 0) as -> by (by case_decide).
  split_and!; [done| |by left|done|done]. unfold wrap64. rewrite Zplus_mod_idemp_l. f_equal. lia.
Qed.

Lemma sup_step_inv n ev s s' : sup_inv n s -> sup_step ev s = Some s' -> sup_inv (exit_of ev + n) s'.
Proof.
  destruct s as [[| |ms] p]; intros (Hb & Hr & Hp) Hs; cbn [fst snd] in *.
  - destruct Hp as [Hp Hc]. destruct ev as [r now|o|]; cbn in Hs; rewrite ?Hp in Hs; try done.
    destruct r as [k|e]; cbn in Hs; injection Hs as <-; split_and!; cbn; try done; first [by eexists|by split; [right|]].
  - destruct Hp as (k & Hp & Hc). destruct ev as [r now|o|]; cbn in Hs; try done. unfold wait_poll in Hs. rewrite Hc in Hs.
    destruct o as [code| |]; cbn in Hs; injection Hs as <-; cbn [exit_of]; [by apply after_exit_inv| |by apply after_exit_inv].
    split_and!; [done|done|by exists k].
  - destruct Hp as [_ Hp]. destruct ev as [r now|o|]; cbn in Hs; try done. by injection Hs as <-.
Qed.

Lemma sup_run_inv evs : forall n s s', sup_inv n s -> sup_run evs s = Some s' -> sup_inv (n + exits evs) s'.
Proof.
  induction evs as [|ev evs IH]; intros n s s' Hi Hr.
  - injection Hr as <-. by rewrite Z.add_0_r.
  - cbn [sup_run] in Hr. destruct (sup_step ev s) as [s1|] eqn:E; [|done]. cbn in Hr.
    rewrite exits_cons. replace (n + (exit_of ev + exits evs)) with ((exit_of ev + n) + exits evs) by lia.
    eapply IH; [by eapply sup_step_inv|done].
Qed.

Lemma sup_init_inv : sup_inv 0 sup_init.
Proof. by split_and!. Qed.

Lemma sup_run_app a b s : sup_run (a ++ b) s = s' ← sup_run a s; sup_run b s'.
Proof.
  revert s. induction a as [|ev a IH]; intros s; [done|]. cbn [app sup_run].
  destruct (sup_step ev s) as [s1|]; [cbn; apply IH|done].
Qed.

Lemma waits k p n : child p = Some n -> sup_run (replicate k (EvPoll Running)) (Wait, p) = Some (Wait, p).
Proof. intros Hc. induction k as [|k IH]; [done|]. cbn. unfold wait_poll. rewrite Hc. cbn. exact IH. Qed.

Lemma probes_spec n k alive :
  (exists j, (j < n)%nat /\ alive (k + j)%nat = false /\ (forall i, (i < j)%nat -> alive (k + i)%nat = true) /\
     probes n k alive = replicate (S j) KillProbe) \/
  ((forall i, (i < n)%nat -> alive (k + i)%nat = true) /\ probes n k alive = replicate n KillProbe ++ [KillKill]).
Proof.
  revert k. induction n as [|n IH]; intros k; [right; split; [lia|done]|]. cbn [probes].
  destruct (alive k) eqn:E.
  - assert (forall i, alive (S k + i)%nat = alive (k + S i)%nat) as Hs by (intros i; f_equal; lia).
    destruct (IH (S k)) as [(j & Hj & Ha & Hb & ->)|[Hb ->]].
    + left. exists (S j). split_and!; [lia|by rewrite <- Hs| |done]. intros [|i] Hi; [by rewrite Nat.add_0_r|].
      rewrite <- Hs. apply Hb. lia.
    + right. split; [|done]. intros [|i] Hi; [by rewrite Nat.add_0_r|]. rewrite <- Hs. apply Hb. lia.
  - left. exists 0%nat. split_and!; [lia|by rewrite Nat.add_0_r|lia|done].
Qed.

(** ** Properties *)

(** C16: The supervisor, whatever happens to it: it never has two processes, it counts
    their exits, and it is never stuck.  Its pause is always 500 ms after an exit and
    2 s after a failed start: the back-off meant to grow stays zero. *)
Theorem supervisor_invariant evs ph p :
  sup_run evs sup_init = Some (ph, p) ->
  restarts p = wrap64 (exits evs) /\
  (forall r now, is_Some (sup_step (EvSpawn r now) (ph, p)) -> pid p = None /\ child p = None) /\
  (forall n, pid p = Some n -> child p = Some n /\ ph = Wait) /\
  (forall ms, ph = Sleep ms -> ms = 500 \/ ms = 2000) /\
  backoff_ms p = 0 /\
  (exists ev, is_Some (sup_step ev (ph, p))).
Proof.
  intros Hr. destruct (sup_run_inv _ _ _ _ sup_init_inv Hr) as (Hb & Hn & Hp). cbn [fst snd] in *.
  rewrite Z.add_0_l in Hn. split_and!; [done| | | |done|].
  - intros r now [s' Hs]. destruct ph; [exact Hp|done|done].
  - intros n Hn'. destruct ph as [| |ms]; [naive_solver| |naive_solver]. destruct Hp as (k & Hk & Hc). split; congruence.
  - intros ms ->. by destruct Hp.
  - destruct ph as [| |ms].
    + exists (EvSpawn (Ok 0) 0). destruct Hp as [Hp _]. cbn. rewrite Hp. by eexists.
    + exists (EvPoll Running). destruct Hp as (k & _ & Hc). cbn. unfold wait_poll. rewrite Hc. by eexists.
    + exists EvWake. by eexists.
Qed.

Lemma supervisor_invariant_witness :
  restarts (mkYgg None (Some 1) None 1 0 None) = wrap64 1 /\ backoff_ms (mkYgg None (Some 1) None 1 0 None) = 0.
Proof.
  destruct (supervisor_invariant [EvSpawn (Ok 9) 1; EvPoll Running; EvPoll (Exited (Some 1))] (Sleep 500)
    (mkYgg None (Some 1) None 1 0 None)) as (Hn & _ & _ & _ & Hb & _); [by vm_compute|]. by split.
Defined.

(** A server process that ends, for whatever reason and after however many polls,
    is replaced after one pause as soon as a new one can be started, and until then
    every failed start is tried again. *)
Theorem supervisor_revives evs p k o m n now :
  sup_run evs sup_init = Some (Wait, p) -> o <> Running ->
  exists p', sup_run (replicate k (EvPoll Running) ++ EvPoll o :: EvWake ::
                      mjoin (replicate m [EvSpawn (Err "spawn") now; EvWake]) ++ [EvSpawn (Ok n) now]) (Wait, p)
             = Some (Wait, p') /\
    pid p' = Some n /\ child p' = Some n /\ started_at p' = Some now /\ restarts p' = wrap64 (restarts p + 1).
Proof.
  intros Hr Ho. destruct (sup_run_inv _ _ _ _ sup_init_inv Hr) as (Hb & _ & c & _ & Hc). cbn [fst snd] in *.
  rewrite sup_run_app, (waits k p c) by done. cbn [mbind option_bind sup_run sup_step]. unfold wait_poll. rewrite Hc.
  assert (forall q, pid q = None -> sup_run (mjoin (replicate m [EvSpawn (Err "spawn") now; EvWake])) (Start, q) = Some (Start, q)) as Hfail.
  { intros q Hq. induction m as [|m IH]; [done|]. cbn. rewrite Hq. cbn. exact IH. }
  set (gone := mkYgg None (started_at p) (exit_code p) (restarts p) (backoff_ms p) None).
  assert (exists code, match o with Exited c0 => (Some c0, gone) | Running => (None, p) | WaitFailed => (Some None, gone) end
    = (Some code, gone)) as [code ->] by (destruct o; [by eexists|done|by eexists]).
  cbn [mbind option_bind sup_step sup_run]. rewrite sup_run_app, Hfail by done. cbn. eexists. by split_and!.
Qed.

Lemma supervisor_revives_witness :
  exists p', sup_run [EvPoll Running; EvPoll (Exited (Some 3)); EvWake; EvSpawn (Err "spawn") 5; EvWake; EvSpawn (Ok 10) 5]
               (Wait, mkYgg (Some 9) (Some 1) None 0 0 (Some 9)) = Some (Wait, p') /\ pid p' = Some 10.
Proof.
  destruct (supervisor_revives [EvSpawn (Ok 9) 1] (mkYgg (Some 9) (Some 1) None 0 0 (Some 9)) 1 (Exited (Some 3)) 1 10 5)
    as (p' & Hr & Hp & _); [by vm_compute|done|]. by exists p'.
Defined.

(** The restart button asks for no token: whoever reaches the web interface makes
    the supervisor send its own token to the server, which then ends with code 3,
    although every other forwarded request needs the token. *)
Theorem open_restart `{Serde (gmap string TenantRecord)} `{HexCodec} `{Sha256} `{Argon2} cfg c s p n alive w t :
  s_token s = Some t -> admin_token cfg = Some t -> pid p = Some n ->
  let '(j, (w', x), cmds) := api_restart (control (control_base s) cfg c) s p alive (w, None) in
  jget "via" j = JStr "control" /\ jget "restarting" (jget "detail" j) = JBool true /\
  w' = w /\ x = Some 3 /\ cmds = [] /\
  (forall header path, header <> Some t ->
     proxy_get (control (control_base s) cfg c) s header path (w, None) = (unauthorized, (w, None))).
Proof.
  intros Hs Ha Hp. unfold api_restart. rewrite Hp. unfold control at 1. cbn [h_url h_post h_token].
  rewrite strip_prefix_app. cbn [mbind option_bind]. change (route true "/api/admin/restart") with (Some ReqRestart).
  cbn [handle fst snd]. unfold admin_restart, authorized. rewrite Ha, Hs, bool_decide_eq_true_2 by done. cbn [negb].
  split_and!; try done. intros header path Hh. unfold proxy_get, sup_authorized. by rewrite Hs, bool_decide_eq_false_2.
Qed.

Lemma open_restart_witness :
  snd (snd (fst (api_restart (control (H := demo_tenant_serde) (H2 := demo_argon) "http://h" demo_cfg demo_call)
    (mkSupCfg "http://h" (Some "secret")) (mkYgg (Some 9) (Some 1) None 0 0 (Some 9)) (fun _ => true) (demo_sys, None)))) = Some 3.
Proof.
  pose proof (open_restart (H := demo_tenant_serde) (H2 := demo_argon) demo_cfg demo_call (mkSupCfg "http://h" (Some "secret"))
    (mkYgg (Some 9) (Some 1) None 0 0 (Some 9)) 9 (fun _ => true) demo_sys "secret" eq_refl eq_refl eq_refl) as T.
  cbn [control_base] in T. destruct (api_restart _ _ _ _ _) as [[j [w' x]] cmds]. apply T.
Defined.

(** Stopping a process: TERM first, at most 40 probes, and KILL exactly when all
    of them still find it. *)
Theorem terminate_bounded alive :
  (length (terminate alive) <= 42)%nat /\ head (terminate alive) = Some KillTerm /\
  (KillKill ∈ terminate alive <-> forall i, (i < 40)%nat -> alive i = true).
Proof.
  unfold terminate. destruct (probes_spec 40 0 alive) as [(j & Hj & Ha & _ & ->)|[Hb ->]].
  - split_and!; [cbn [length]; rewrite length_replicate; lia|done|]. split.
    + intros [?|Hin%elem_of_replicate]%elem_of_cons; [done|by destruct Hin].
    + intros Hall. rewrite Hall in Ha by lia. done.
  - split_and!; [cbn [length]; rewrite length_app, length_replicate; cbn; lia|done|]. split; [|set_solver].
    intros _ i Hi. by apply Hb.
Qed.
