(* ===== verification/Memory.v ===== *)
(** * Memory pool and local fallback

    [nsmt-memory/src/lib.rs] (the gateway client), [nsmt-server/src/memory.rs] (the
    pool of shards behind a server) and [nsmt-client/src/memory.rs] (the client's
    local fallback).  The HTTP exchange itself is the interface [Gateway]: what a
    request to a gateway came back with. *)

From S2P Require Import Prelude Json Paths Messages Crypto.

Module RecallResp.
Record t : Set := mk { context : string; strategy : string; memory_count : Z; code : Z; message : string }.
End RecallResp.

Module CaptureResp.
Record t : Set := mk { l0_recorded : Z; scheduler_notified : bool }.
End CaptureResp.

Module SearchResp.
Record t : Set := mk { results : string; total : Z; strategy : string }.
End SearchResp.

(** A failed exchange: it timed out, or another transport or JSON error. *)
Record http_error : Set := mkHttpError { is_timeout : bool; text : string }.

Inductive MemoryError : Set :=
| Http (e : http_error)
| GatewayCode (code : Z) (msg : string)
| Timeout.

(** [reqwest]: a POST of named text fields (for the health check a GET), and the
    answer parsed as JSON. *)
Class Gateway : Type := {
  send_health : string -> Z -> result http_error (result http_error json);
  send_recall : string -> list (string * string) -> Z -> result http_error (result http_error RecallResp.t);
  send_capture : string -> list (string * string) -> Z -> result http_error CaptureResp.t;
  send_search : string -> string -> Z -> Z -> result http_error SearchResp.t;
}.

Record TencentClient : Set := mkTencent { base : string; timeout : Z }.

Definition tencent_new (b : string) : TencentClient := mkTencent (trim_end_matches "/" b) 1500.
Definition with_timeout (t : Z) (c : TencentClient) : TencentClient := mkTencent (base c) t.
Definition base_url (c : TencentClient) : string := base c.

(** The interface sessions use. *)
Class MemoryPool : Type := {
  pool_recall : MemoryRecall.t -> result MemoryError MemoryRecallResult.t;
  pool_capture : MemoryCapture.t -> result MemoryError MemoryCaptureResult.t;
}.

Section Memory.
Context `{Gateway}.

Definition health (c : TencentClient) : result MemoryError json :=
  match send_health (base c +:+ "/health") (timeout c) with
  | Err e | Ok (Err e) => Err (Http e)
  | Ok (Ok j) => Ok j
  end.

Definition gw_recall (c : TencentClient) (query session_key : string) : result MemoryError RecallResp.t :=
  match send_recall (base c +:+ "/recall") [("query", query); ("session_key", session_key)] (timeout c) with
  | Err e => Err (if is_timeout e then Timeout else Http e)
  | Ok (Err e) => Err (Http e)
  | Ok (Ok r) => if RecallResp.code r =? 0 then Ok r else Err (GatewayCode (RecallResp.code r) (RecallResp.message r))
  end.

Definition gw_capture (c : TencentClient) (user assistant session_key : string) (session_id : option string)
    : result MemoryError CaptureResp.t :=
  let body := [("user_content", user); ("assistant_content", assistant); ("session_key", session_key)] ++
              match session_id with Some sid => [("session_id", sid)] | None => [] end in
  match send_capture (base c +:+ "/capture") body (timeout c) with
  | Err e => Err (Http e)
  | Ok r => Ok r
  end.

Definition search_memories (c : TencentClient) (query : string) (limit : Z) : result MemoryError SearchResp.t :=
  match send_search (base c +:+ "/search/memories") query limit (timeout c) with
  | Err e => Err (Http e)
  | Ok r => Ok r
  end.

(** ** The server's pool *)

Abbreviation Pool := (list TencentClient).

Definition pool_new (b : string) : Pool := [with_timeout 1500 (tencent_new b)].
Definition from_gateways (gs : list string) : Pool := map (fun g => with_timeout 1500 (tencent_new g)) gs.

Definition pool_from_env (e : env) : Pool :=
  match e "NSMT_POOL_GATEWAYS" with
  | Some g =>
      let l := List.filter (fun s => negb (str_len s =? 0))
                 (map (fun s => trim_end_matches "/" (str_trim s)) (str_split "," g)) in
      match l with
      | [] => pool_new (default "http://127.0.0.1:8420" (e "NSMT_POOL_GATEWAY"))
      | _ => from_gateways l
      end
  | None => pool_new (default "http://127.0.0.1:8420" (e "NSMT_POOL_GATEWAY"))
  end.

Definition content_le (a b : MemoryHit.t) : Prop := String.le (MemoryHit.content a) (MemoryHit.content b).
#[export] Instance content_le_dec : RelDecision content_le.
Proof. intros a b. unfold content_le. apply _. Defined.

Definition hit_of (r : RecallResp.t) : list MemoryHit.t :=
  if str_len (str_trim (RecallResp.context r)) =? 0 then []
  else [MemoryHit.mk (RecallResp.context r) "" 0 "user"].

Definition recall_one (c : TencentClient) (msg : MemoryRecall.t) (elapsed : Z)
    : result MemoryError MemoryRecallResult.t :=
  r <-? gw_recall c (MemoryRecall.query msg) ("pool:" +:+ MemoryRecall.request_id msg);
  Ok (MemoryRecallResult.mk (MemoryRecall.request_id msg) "pool" (hit_of r) elapsed).

(** The answers of all shards, in the order of the shards. *)
Definition fan_out (p : Pool) (msg : MemoryRecall.t) : list (result MemoryError RecallResp.t) :=
  map (fun c => gw_recall c (MemoryRecall.query msg) ("pool:" +:+ MemoryRecall.request_id msg)) p.

Definition recall (p : Pool) (msg : MemoryRecall.t) (elapsed : Z) : result MemoryError MemoryRecallResult.t :=
  match p with
  | [c] => recall_one c msg elapsed
  | _ =>
      let limit := Z.max (MemoryRecall.limit msg) 1 in
      let answers := fan_out p msg in
      let hits := concat (map (fun r => match r with Ok r => hit_of r | Err _ => [] end) answers) in
      let failed := length (List.filter (fun r => negb (is_ok r)) answers) in
      Ok (MemoryRecallResult.mk (MemoryRecall.request_id msg)
            (if decide (failed = length p) then "pool_unavailable" else "pool")
            (take (Z.to_nat limit) (merge_sort content_le hits)) elapsed)
  end.

Section Sharded.
Context `{Sha256}.

(** [None]: the remainder by an empty pool panics. *)
Definition shard_for (p : Pool) (fqn : string) : option nat :=
  if decide (p = []) then None
  else Some (Z.to_nat (be_val (take 8 (sha256 (as_bytes fqn))) mod len p)).

Definition capture (p : Pool) (msg : MemoryCapture.t) : option (result MemoryError MemoryCaptureResult.t) :=
  i ← shard_for p (MemoryCapture.fqn msg);
  c ← p !! i;
  Some (r <-? gw_capture c (MemoryCapture.user_content msg) (MemoryCapture.assistant_content msg) (MemoryCapture.fqn msg) None;
        Ok (MemoryCaptureResult.mk (MemoryCapture.request_id msg) (CaptureResp.l0_recorded r >? 0) false)).
End Sharded.

(** ** The client's fallback *)

Definition fallback_from_env (e : env) : TencentClient :=
  with_timeout 1500 (tencent_new (default "http://127.0.0.1:8420" (e "NSMT_LOCAL_GATEWAY"))).

Definition recall_local (c : TencentClient) (query request_id : string) : result MemoryError MemoryRecallResult.t :=
  r <-? gw_recall c query ("local:" +:+ request_id);
  Ok (MemoryRecallResult.mk request_id "local"
        (if str_len (str_trim (RecallResp.context r)) =? 0 then []
         else [MemoryHit.mk (RecallResp.context r) "local" 0 "machine"]) 0).

Definition capture_local (c : TencentClient) (user assistant fqn : string) : result MemoryError unit :=
  _ <-? gw_capture c user assistant fqn None; Ok tt.
End Memory.

(** ** Lemmas *)

Lemma concat_elem {A} (ls : list (list A)) x : x ∈ concat ls <-> exists l, l ∈ ls /\ x ∈ l.
Proof.
  rewrite list_elem_of_In, in_concat. split; intros (l & H1 & H2); exists l; by rewrite ?list_elem_of_In in *.
Qed.

Lemma filter_length_all {A} (f : A -> bool) l : length (List.filter f l) = length l <-> forall x, x ∈ l -> f x = true.
Proof.
  induction l as [|a l IH]; [split; [set_solver|done]|]. cbn [List.filter].
  assert (length (List.filter f l) <= length l)%nat as Hle by apply filter_length_le.
  destruct (f a) eqn:E; cbn [length].
  - rewrite Nat.succ_inj_wd, IH. split; [intros Hl x [->|Hx]%elem_of_cons; auto|intros Hl x Hx; apply Hl; by right].
  - split; [lia|]. intros Hl. specialize (Hl a ltac:(by left)). congruence.
Qed.

#[export] Instance content_le_total : Total content_le.
Proof. intros a b. unfold content_le. apply (total String.le). Qed.
#[export] Instance content_le_trans : Transitive content_le.
Proof. intros a b c. unfold content_le. apply transitivity. Qed.

Lemma sorted_take {A} (R : A -> A -> Prop) n l : StronglySorted R l -> StronglySorted R (take n l).
Proof.
  intros Hs. revert n. induction Hs as [|a l Hs IH Ha]; intros [|n]; try constructor; [apply IH|by apply Forall_take].
Qed.

Lemma sorted_take_drop {A} (R : A -> A -> Prop) n l x y :
  StronglySorted R l -> x ∈ take n l -> y ∈ drop n l -> R x y.
Proof.
  intros Hs. revert n. induction Hs as [|a l Hs IH Ha]; intros [|n] Hx Hy; cbn in *; try set_solver.
  apply elem_of_cons in Hx as [->|Hx]; [|by eapply IH].
  rewrite Forall_forall in Ha. apply Ha. rewrite <- (take_drop n l). set_solver.
Qed.

Section MemoryFacts.
Context `{Gateway}.

Lemma pool_from_env_nonempty e : pool_from_env e <> [].
Proof. unfold pool_from_env. by repeat case_match. Qed.

Lemma shard_for_ok `{Sha256} p fqn : p <> [] -> exists i c, shard_for p fqn = Some i /\ p !! i = Some c.
Proof.
  intros Hp. unfold shard_for. rewrite decide_False by done. set (v := be_val _).
  assert (0 < len p) by (destruct p; [done|unfold len; cbn; lia]).
  pose proof (Z.mod_pos_bound v (len p) ltac:(lia)) as Hb. unfold len in *.
  destruct (lookup_lt_is_Some_2 p (Z.to_nat (v mod Z.of_nat (length p)))) as [c Hc]; [lia|eauto].
Qed.

Lemma fan_out_elem p msg r :
  r ∈ fan_out p msg <->
  exists c, c ∈ p /\ r = gw_recall c (MemoryRecall.query msg) ("pool:" +:+ MemoryRecall.request_id msg).
Proof.
  unfold fan_out. rewrite list_elem_of_In, in_map_iff.
  split; intros (c & H1 & H2); exists c; rewrite ?list_elem_of_In in *; done.
Qed.

(** When every shard fails, the answer is an error (one shard) or an empty result
    that names the pool unavailable. *)
Lemma recall_outage p msg elapsed :
  p <> [] -> (forall a, a ∈ fan_out p msg -> is_ok a = false) ->
  match recall p msg elapsed with
  | Ok r => r
  | Err _ => MemoryRecallResult.mk (MemoryRecall.request_id msg) "pool_unavailable" [] 0
  end = MemoryRecallResult.mk (MemoryRecall.request_id msg) "pool_unavailable" []
          (if decide (length p = 1%nat) then 0 else elapsed).
Proof.
  intros Hp Hall.
  assert (concat (map (fun r => match r with Ok r => hit_of r | Err _ => [] end) (fan_out p msg)) = []) as Hhits.
  { revert Hall. generalize (fan_out p msg). induction l as [|a l IH]; intros Hall; [done|]. cbn.
    rewrite IH by (intros; apply Hall; by right). specialize (Hall a ltac:(by left)). by destruct a. }
  assert (length (List.filter (fun r => negb (is_ok r)) (fan_out p msg)) = length p) as Hf.
  { assert (length p = length (fan_out p msg)) as -> by (unfold fan_out; by rewrite length_map).
    apply filter_length_all. intros a Ha. by rewrite Hall. }
  destruct p as [|c [|c2 p]]; [done| |].
  - cbn [recall]. unfold recall_one. specialize (Hall _ ltac:(left)). cbn in Hall. by destruct (gw_recall c _ _).
  - unfold recall. rewrite Hhits, decide_True by exact Hf. cbn [length]. rewrite decide_False by lia.
    by destruct (Z.to_nat _).
Qed.
End MemoryFacts.

(** The pool a server is configured with, as its sessions see it; [elapsed] is what
    the clock measures.  A pool from the environment has a shard, so the last case
    does not occur. *)
Definition server_pool `{Gateway} `{Sha256} (e : env) (elapsed : MemoryRecall.t -> Z) : MemoryPool := {|
  pool_recall msg := recall (pool_from_env e) msg (elapsed msg);
  pool_capture msg := default (Err Timeout) (capture (pool_from_env e) msg);
|}.

(** ** Properties *)

(** C32: What a sharded pool answers: with two shards or more, a recall never fails;
    it says the pool is unavailable exactly when every shard failed, and returns at
    most the asked number of memories, each the non-blank answer of some shard, in
    order of content; a shard's answer is missing only when the limit is reached by
    answers that come before it.  A capture goes to one shard, chosen by the
    namespace alone, and is committed exactly when that shard recorded something. *)
Theorem pool_contract `{Gateway} `{Sha256} p msg elapsed fqn :
  (2 <= length p)%nat ->
  (exists r, recall p msg elapsed = Ok r /\
     (MemoryRecallResult.source r = "pool_unavailable" <->
        forall a, a ∈ fan_out p msg -> is_ok a = false) /\
     StronglySorted content_le (MemoryRecallResult.memories r) /\
     (length (MemoryRecallResult.memories r) <= Z.to_nat (Z.max (MemoryRecall.limit msg) 1))%nat /\
     (forall h, h ∈ MemoryRecallResult.memories r -> exists a, Ok a ∈ fan_out p msg /\ h ∈ hit_of a) /\
     (forall a h, Ok a ∈ fan_out p msg -> h ∈ hit_of a -> h ∉ MemoryRecallResult.memories r ->
        length (MemoryRecallResult.memories r) = Z.to_nat (Z.max (MemoryRecall.limit msg) 1) /\
        forall h', h' ∈ MemoryRecallResult.memories r -> content_le h' h)) /\
  (exists i c, p !! i = Some c /\
     forall m, MemoryCapture.fqn m = fqn -> exists r, capture p m = Some r /\
     (forall x, gw_capture c (MemoryCapture.user_content m) (MemoryCapture.assistant_content m) fqn None = Ok x ->
        exists y, r = Ok y /\ (MemoryCaptureResult.committed y = true <-> 0 < CaptureResp.l0_recorded x)) /\
     (forall err, gw_capture c (MemoryCapture.user_content m) (MemoryCapture.assistant_content m) fqn None = Err err ->
        r = Err err)).
Proof.
  intros Hp. set (limit := Z.to_nat (Z.max (MemoryRecall.limit msg) 1)).
  set (hits := concat (map (fun r => match r with Ok r => hit_of r | Err _ => [] end) (fan_out p msg))).
  assert (forall h, h ∈ hits <-> exists a, Ok a ∈ fan_out p msg /\ h ∈ hit_of a) as Hhits.
  { intros h. unfold hits. rewrite concat_elem. split.
    - intros (l & Hl & Hh). apply list_elem_of_In, in_map_iff in Hl as ([a|e] & <- & Ha); [|set_solver].
      exists a. by rewrite list_elem_of_In.
    - intros (a & Ha & Hh). exists (hit_of a). split; [|done].
      apply list_elem_of_In, in_map_iff. exists (Ok a). by rewrite list_elem_of_In in Ha. }
  split.
  - assert (recall p msg elapsed = Ok (MemoryRecallResult.mk (MemoryRecall.request_id msg)
      (if decide (length (List.filter (fun r => negb (is_ok r)) (fan_out p msg)) = length p) then "pool_unavailable" else "pool")
      (take limit (merge_sort content_le hits)) elapsed)) as ->
      by (destruct p as [|c1 [|c2 p]]; [cbn in Hp; lia|cbn in Hp; lia|done]).
    eexists. split; [done|]. cbn [MemoryRecallResult.source MemoryRecallResult.memories].
    pose proof (StronglySorted_merge_sort content_le hits) as Hs.
    assert (forall h, h ∈ merge_sort content_le hits <-> h ∈ hits) as Hm
      by (intros h; by rewrite merge_sort_Permutation).
    split_and!.
    + assert (length p = length (fan_out p msg)) as -> by (unfold fan_out; by rewrite length_map).
      case_decide as Hd; rewrite filter_length_all in Hd; (split; [|done || (intros Ha; exfalso)]).
      * intros _ a Ha. specialize (Hd a Ha). by apply negb_true_iff.
      * done.
      * apply Hd. intros a Ha'. by rewrite Ha.
    + by apply sorted_take.
    + rewrite length_take. lia.
    + intros h Hh. apply Hhits, Hm. rewrite <- (take_drop limit (merge_sort content_le hits)). set_solver.
    + intros a h Ha Hh Hn. assert (h ∈ merge_sort content_le hits) as Hin by (apply Hm, Hhits; eauto).
      rewrite <- (take_drop limit (merge_sort content_le hits)), elem_of_app in Hin.
      destruct Hin as [?|Hin]; [done|]. split.
      * rewrite length_take. apply list_elem_of_lookup in Hin as [j Hj].
        apply lookup_lt_Some in Hj. rewrite length_drop in Hj. lia.
      * intros h' Hh'. by eapply sorted_take_drop.
  - destruct (shard_for_ok p fqn) as (i & c & Hi & Hc); [by intros ->; cbn in Hp; lia|].
    exists i, c. split; [done|]. intros m <-. unfold capture. rewrite Hi. cbn [mbind option_bind].
    rewrite Hc. cbn [mbind option_bind]. eexists. split; [done|]. split.
    + intros x ->. eexists. split; [done|]. cbn.
      destruct (CaptureResp.l0_recorded x >? 0) eqn:E; split; try done; lia.
    + by intros err ->.
Qed.

Definition demo_gateway : Gateway := {|
  send_health _ _ := Ok (Ok (JObj [("status", JStr "ok")]));
  send_recall url _ _ := if starts_with "http://a" url then Ok (Ok (RecallResp.mk "ctx" "" 1 0 ""))
                         else Err (mkHttpError true "timeout");
  send_capture _ _ _ := Ok (CaptureResp.mk 1 true);
  send_search _ _ _ _ := Ok (SearchResp.mk "" 0 "");
|}.
Definition demo_shards : list TencentClient := from_gateways ["http://a/"; "http://b"].
Definition demo_recall : MemoryRecall.t := MemoryRecall.mk "r1" "q" "user" 5 1500 true.

Lemma pool_contract_witness :
  exists r, recall (H := demo_gateway) demo_shards demo_recall 3 = Ok r /\
    MemoryRecallResult.source r <> "pool_unavailable".
Proof.
  destruct (pool_contract (H := demo_gateway) demo_shards demo_recall 3 "ser163/m1/maka") as ((r & Hr & Hs & _) & _);
    [cbn; lia|].
  exists r. split; [exact Hr|]. intros Hu. pose proof (proj1 Hs Hu (Ok (RecallResp.mk "ctx" "" 1 0 "")) ltac:(left)) as Ho. discriminate Ho.
Defined.
