(* ===== verification/Session.v ===== *)
(** * Server sessions

    [nsmt-server/src/session.rs]: one task per connection.  The handler is a
    state-and-error monad over the session: the server state and the disk it
    shares with other sessions, its pending upload and the frames it sent.  A
    frame is sent when it can be encoded; the memory pool is the interface
    [MemoryPool] of [Memory]; each call into the registry, the lock table or the server state
    is one atomic step, so other sessions act between frames. *)

From S2P Require Import Prelude Paths Wire Messages Codec Crypto Store Locks Registry Tenants Db State Tree Memory.

(** Why a session task ends early: an error it returns, or a panic. *)
Inductive serr : Set :=
| SErr (e : NsmtError)
| SMsg (m : string)
| SPanic.

(** [nonce()]: the clock and the host's machine id. *)
Definition nonce (now : Z) (machine_id : string) : string :=
  "nsmt-nonce-" +:+ dec now +:+ "-" +:+ machine_id.

Record PendingUpload : Type := mkPending {
  pu_blob_id : string;
  pu_size : Z;
  total_chunks : Z;
  temp_path : string;
  received : list bool;
  received_count : Z;
}.

Section Session.
Context `{Backend} `{Codec} `{HexCodec} `{Ed25519} `{Sha256} `{Aead} `{MemoryPool}.

(** What is fixed for the connection: the server's environment, whether info
    messages are logged, the builder of the S3 client, the peer's address. *)
Record Conn : Type := mkConn {
  c_env : env;
  log_info : bool;
  s3_build : env -> result string unit;
  remote_addr : string;
  db_up : bool;
}.

Record Sess : Type := mkSess {
  sv : ServerState;
  tenants : TenantMap;
  world : World;
  pending_upload : option PendingUpload;
  out : list Frame;
}.

Definition M (A : Type) : Type := Sess -> result serr A * Sess.
Definition ret {A} (a : A) : M A := fun s => (Ok a, s).
Definition fail {A} (e : serr) : M A := fun s => (Err e, s).
Definition mbind_ {A B} (m : M A) (k : A -> M B) : M B := fun s =>
  match m s with
  | (Ok a, s') => k a s'
  | (Err e, s') => (Err e, s')
  end.
Notation "x <~ c ; k" := (mbind_ c (fun x => k)) (at level 100, c at next level, right associativity).

Definition gets {A} (f : Sess -> A) : M A := fun s => (Ok (f s), s).
Definition set_sv (v : ServerState) : M unit := fun s =>
  (Ok tt, mkSess v (tenants s) (world s) (pending_upload s) (out s)).
Definition set_world (w : World) : M unit := fun s =>
  (Ok tt, mkSess (sv s) (tenants s) w (pending_upload s) (out s)).
Definition set_tenants (t : TenantMap) : M unit := fun s =>
  (Ok tt, mkSess (sv s) t (world s) (pending_upload s) (out s)).
Definition set_pending (p : option PendingUpload) : M unit := fun s =>
  (Ok tt, mkSess (sv s) (tenants s) (world s) p (out s)).
Definition lift {A} (r : result NsmtError A) : M A :=
  match r with Ok a => ret a | Err e => fail (SErr e) end.

(** [fs.send(&f).await?] and [fs.send_json(..).await?] *)
Definition send (f : Frame) : M unit :=
  _ <~ lift (encode f);
  fun s => (Ok tt, mkSess (sv s) (tenants s) (world s) (pending_upload s) (out s ++ [f])).
Definition send_json {T} `{Serde T} (ty : FrameType.t) (v : T) : M unit := send (from_json ty 0 v).

(** Steps on the shared state, its registry and its lock table. *)
Definition state_op {A} (f : ServerState -> A * ServerState) : M A := fun s =>
  let '(a, v) := f (sv s) in
  (Ok a, mkSess v (tenants s) (world s) (pending_upload s) (out s)).
Definition reg_op {A} (f : Reg.Registry -> A * Reg.Registry) : M A := fun s =>
  let v := sv s in
  let '(a, r) := f (registry v) in
  (Ok a, mkSess (mkServerState r (locks v) (db v) (object_stores v) (object_owners v) (usage_bytes v))
           (tenants s) (world s) (pending_upload s) (out s)).
Definition lock_op_ {A} (f : LockTable -> A * LockTable) : M A := fun s =>
  let v := sv s in
  let '(a, l) := f (locks v) in
  (Ok a, mkSess (mkServerState (registry v) l (db v) (object_stores v) (object_owners v) (usage_bytes v))
           (tenants s) (world s) (pending_upload s) (out s)).
Definition reg_do (f : Reg.Registry -> Reg.Registry) : M unit := reg_op (fun r => (tt, f r)).

Definition send_error (code message : string) (request_id : option string) : M unit :=
  send_json FrameType.Error (ErrorMsg.mk code message request_id).

(** ** Chunks *)

Definition slice (l : bytes) (a b : Z) : bytes := take (Z.to_nat (b - a)) (drop (Z.to_nat a) l).

(** The chunk of an object a [FILE_GET] is answered with. *)
Definition chunk_of (data : bytes) (idx : Z) : bytes :=
  let start := wrap64 (idx * CHUNK_SIZE) in
  if start <? len data then slice data start (Z.min (start + CHUNK_SIZE) (len data)) else [].

(** [handle_chunk] on the disk: the new upload record and the disk, or an error
    (with the disk as the steps before it left it). *)
Definition handle_chunk (e : env) (pu : PendingUpload) (payload : bytes) (user_domain : string) (fs : files)
    : result serr PendingUpload * files :=
  if len payload <? 4 then (Ok pu, fs)
  else
    let idx := le_val (take 4 payload) in
    if (total_chunks pu <=? idx) || default false (received pu !! Z.to_nat idx) then (Ok pu, fs)
    else
      match (match from_env e (Some user_domain) with
             | Some k => e2e_decrypt k (drop 4 payload) idx
             | None => Ok (drop 4 payload)
             end) with
      | Err x => (Err (SErr x), fs)
      | Ok data =>
          match create_parent (temp_path pu) fs with
          | None => (Err (SMsg "create_dir_all"), fs)
          | Some fs1 =>
              match fs_write_at (temp_path pu) (wrap64 (idx * CHUNK_SIZE)) data fs1 with
              | None => (Err (SMsg "write"), fs1)
              | Some fs2 =>
                  (Ok (mkPending (pu_blob_id pu) (pu_size pu) (total_chunks pu) (temp_path pu)
                         (<[Z.to_nat idx := true]> (received pu)) (wrap64 (received_count pu + 1))), fs2)
              end
          end
      end.

(** [(0..pu.total_chunks).collect()] *)
Definition all_chunks (n : Z) : list Z := seqZ 0 n.

(** ** The ready loop *)

(** What the handshake established. *)
Record Ident : Type := mkIdent {
  user_domain : string;
  reg_machine : string;
  server_fs : ServerFs;
  my_tx : nat;
}.

(** A [FILE_CHUNK] frame. *)
Definition on_chunk (c : Conn) (i : Ident) (payload : bytes) : M unit :=
  p <~ gets pending_upload;
  match p with
  | None => ret tt
  | Some pu =>
      w <~ gets world;
      let '(r, fs) := handle_chunk (c_env c) pu payload (user_domain i) (disk w) in
      _ <~ set_world (set_disk fs w);
      match r with
      | Err e => fail e
      | Ok pu' =>
          if received_count pu' =? total_chunks pu' then
            _ <~ set_pending None;
            w <~ gets world;
            bytes <~ lift (ok_or (fs_read (disk w) (temp_path pu')) (IoError "read"));
            let '(r, w') := put_object (server_fs i) (pu_blob_id pu') bytes w in
            _ <~ set_world w';
            _ <~ (match r with Ok _ => ret tt | Err m => fail (SMsg m) end);
            w <~ gets world;
            _ <~ set_world (set_disk (default (disk w) (fs_remove (temp_path pu') (disk w))) w);
            _ <~ state_op (fun v => (tt, record_object_owner (user_domain i) (pu_blob_id pu') (reg_machine i) v));
            send_json FrameType.FilePutAck
              (FilePutAck.mk (pu_blob_id pu') (all_chunks (total_chunks pu')) true)
          else set_pending (Some pu')
      end
  end.

Definition on_memory_recall (msg : MemoryRecall.t) : M unit :=
  match pool_recall msg with
  | Ok r => send_json FrameType.MemoryRecallResult r
  | Err _ => send_json FrameType.MemoryRecallResult
               (MemoryRecallResult.mk (MemoryRecall.request_id msg) "pool_unavailable" [] 0)
  end.

Definition on_memory_capture (msg : MemoryCapture.t) : M unit :=
  match pool_capture msg with
  | Ok r => send_json FrameType.MemoryCaptureResult r
  | Err _ => send_json FrameType.MemoryCaptureResult
               (MemoryCaptureResult.mk (MemoryCapture.request_id msg) false true)
  end.

(** The log lines slice the hashes: [info!] evaluates them when it is enabled. *)
Definition log_slices (c : Conn) (hashes : list string) : M unit :=
  if log_info c && negb (forallb (slice_ok 12) hashes) then fail SPanic else ret tt.

Definition on_file_tree (c : Conn) (i : Ident) (tree : FileTree.t) : M unit :=
  let t := FileTree.mk (tree_hash tree) (FileTree.entries tree) in
  _ <~ log_slices c [FileTree.tree_hash tree; FileTree.tree_hash t];
  w <~ gets world;
  let '(r, w') := save_tree (server_fs i) t w in
  _ <~ set_world w';
  match r with Ok _ => ret tt | Err m => fail (SMsg m) end.

Definition on_file_diff (c : Conn) (i : Ident) (d : FileDiff.t) : M unit :=
  w <~ gets world;
  let old := get_tree (server_fs i) (FileDiff.old_tree d) w in
  let latest := latest_tree (server_fs i) w in
  let '(changed, removed) := diff old latest in
  _ <~ log_slices c (map FileTree.tree_hash (option_list old ++ option_list latest));
  send_json FrameType.FileDiffResult (FileDiffResult.mk changed removed latest).

Definition on_file_get (c : Conn) (i : Ident) (g : FileGet.t) : M unit :=
  w <~ gets world;
  match get_object (server_fs i) (FileGet.blob_id g) w with
  | Some data =>
      let idx := default 0 (FileGet.chunk_index g) in
      let chunk := chunk_of data idx in
      match from_env (c_env c) (Some (user_domain i)) with
      | Some k =>
          enc <~ lift (e2e_encrypt k chunk idx);
          send (mkFrame FrameType.FileChunk (u8_of 1) 0 (le_bytes 4 idx ++ enc))
      | None => send (frame_new FrameType.FileChunk 0 (le_bytes 4 idx ++ chunk))
      end
  | None =>
      v <~ gets sv;
      let owner := object_owner (user_domain i) (FileGet.blob_id g) v in
      let peer_hint :=
        match owner with
        | Some o => default "" (MachineInfo.peer_addr <$> Reg.online_machine (user_domain i) o (registry v))
        | None => ""
        end in
      _ <~ send_error "0xE020"
             (if str_len peer_hint =? 0 then "object not found" else "object not found; peer=" +:+ peer_hint) None;
      match owner with
      | Some o =>
          if bool_decide (o = reg_machine i) then ret tt
          else reg_do (Reg.broadcast (user_domain i)
                 (from_json FrameType.PeerHint 0 (PeerHint.mk (FileGet.blob_id g) (remote_addr c))))
      | None => ret tt
      end
  end.

(** [vec![false; n]] panics above [isize::MAX]. *)
Definition on_file_put (c : Conn) (i : Ident) (fp : FilePut.t) : M unit :=
  ok <~ state_op (try_reserve_quota (c_env c) (db_up c) (user_domain i) (FilePut.size fp));
  if negb ok then send_error "0xE040" "quota_exceeded" None
  else
    let p := temp_path_for (server_fs i) (FilePut.blob_id fp) in
    w <~ gets world;
    _ <~ set_world (set_disk (default (disk w) (fs_remove p (disk w))) w);
    if FilePut.total_chunks fp >=? 2 ^ 63 then fail SPanic
    else
      _ <~ set_pending (Some (mkPending (FilePut.blob_id fp) (FilePut.size fp) (FilePut.total_chunks fp) p
             (replicate (Z.to_nat (FilePut.total_chunks fp)) false) 0));
      send_json FrameType.FilePutAck (FilePutAck.mk (FilePut.blob_id fp) [] false).

Definition notify (i : Ident) (path event : string) (holder : option string) : M unit :=
  reg_do (Reg.broadcast_except (user_domain i)
    (from_json FrameType.LockNotify 0 (LockNotify.mk path event holder)) (my_tx i)).

Definition on_lock_acquire (i : Ident) (l : LockAcquire.t) (now : Z) : M unit :=
  r <~ lock_op_ (acquire (LockAcquire.path l) (LockAcquire.requester l) (LockAcquire.ttl_ms l) now);
  match r with
  | Ok exp =>
      _ <~ send_json FrameType.LockGranted (LockGranted.mk (LockAcquire.path l) exp);
      notify i (LockAcquire.path l) "locked" (Some (LockAcquire.requester l))
  | Err holder => send_json FrameType.LockDenied (LockDenied.mk (LockAcquire.path l) holder)
  end.

Definition on_lock_renew (l : LockRenew.t) (now : Z) : M unit :=
  _ <~ lock_op_ (renew (LockRenew.path l) (LockRenew.requester l) 30000 now);
  send_json FrameType.LockGranted (LockGranted.mk (LockRenew.path l) (wrap64 (now + 30000))).

Definition on_lock_release (i : Ident) (l : LockRelease.t) : M unit :=
  _ <~ lock_op_ (release (LockRelease.path l) (LockRelease.requester l));
  notify i (LockRelease.path l) "unlocked" None.

(** The dispatcher: [payload_json()?] ends the session on a bad payload. *)
Definition on_frame (c : Conn) (i : Ident) (now : Z) (f : Frame) : M unit :=
  match frame_type f with
  | FrameType.FileChunk => on_chunk c i (payload f)
  | FrameType.Heartbeat => reg_do (Reg.heartbeat (user_domain i) (reg_machine i) now)
  | FrameType.MemoryRecall => m <~ lift (payload_json f); on_memory_recall m
  | FrameType.MemoryCapture => m <~ lift (payload_json f); on_memory_capture m
  | FrameType.FileTree => m <~ lift (payload_json f); on_file_tree c i m
  | FrameType.FileDiff => m <~ lift (payload_json f); on_file_diff c i m
  | FrameType.FileGet => m <~ lift (payload_json f); on_file_get c i m
  | FrameType.FilePut => m <~ lift (payload_json f); on_file_put c i m
  | FrameType.LockAcquire => m <~ lift (payload_json f); on_lock_acquire i m now
  | FrameType.LockRenew => m <~ lift (payload_json f); on_lock_renew m now
  | FrameType.LockRelease => m <~ lift (payload_json f); on_lock_release i m
  | _ => ret tt
  end.

(** One turn of [select!]: the timer, a frame of the tenant's channel, or what
    [recv] returned.  [true] means the loop goes on. *)
Inductive event : Set :=
| Tick
| FromChannel
| Received (r : result NsmtError (option Frame)).

(** [rx.recv()] takes the head of the queue. *)
Definition take_queued (chan : nat) (r : Reg.Registry) : option Frame * Reg.Registry :=
  match Reg.queues r !! chan with
  | Some (f :: q) => (Some f, Reg.mkRegistry (Reg.inner r) (<[chan := q]> (Reg.queues r)) (Reg.next_chan r))
  | _ => (None, r)
  end.

Definition on_event (c : Conn) (i : Ident) (now : Z) (ev : event) : M bool :=
  match ev with
  | Tick => _ <~ reg_do (Reg.heartbeat (user_domain i) (reg_machine i) now); ret true
  | FromChannel =>
      f <~ reg_op (take_queued (my_tx i));
      match f with
      | Some f => fun s => match send f s with (Ok _, s') => (Ok true, s') | (Err _, s') => (Ok false, s') end
      | None => ret true
      end
  | Received (Ok (Some f)) => _ <~ on_frame c i now f; ret true
  | Received (Ok None) => ret false
  | Received (Err _) => ret false
  end.

(** The loop, and the announcement when it ends without an error. *)
Fixpoint ready_loop (c : Conn) (i : Ident) (evs : list (Z * event)) : M unit :=
  match evs with
  | [] => ret tt
  | (now, ev) :: evs' => go <~ on_event c i now ev; if go then ready_loop c i evs' else ret tt
  end.

Definition leave_info (machine : string) : MachineInfo.t := MachineInfo.mk machine [] "" "" "" 0.

Definition session_end (i : Ident) : M unit :=
  reg_do (Reg.broadcast (user_domain i) (Reg.leave_frame (leave_info (reg_machine i)))).

(** ** The handshake *)

(** [fs.recv().await?.ok_or_else(..)?] *)
Definition expect (m : string) (r : result NsmtError (option Frame)) : M Frame :=
  match r with
  | Ok (Some f) => ret f
  | Ok None => fail (SMsg m)
  | Err e => fail (SErr e)
  end.

Definition machine_info (c : Conn) (reg : Register.t) (now : Z) : MachineInfo.t :=
  MachineInfo.mk (Register.machine_id reg) [Register.agent_tag reg] (remote_addr c)
    (Register.peer_addr reg) (Register.machine_pubkey reg) now.

(** The data directory. *)
Definition session_home (e : env) : string :=
  match e "NSMT_HOME" with
  | Some h => h
  | None => match e "HOME" with
            | Some h => h +:+ "/.nsmt"
            | None => ".nsmt"
            end
  end.

(** HELLO, AUTH, REGISTER; [None]: refused with an error frame. *)
Definition handshake (c : Conn) (now : Z) (host : string)
    (r1 r2 r3 : result NsmtError (option Frame)) : M (option Ident) :=
  f1 <~ expect "eof before hello" r1;
  match frame_type f1 with
  | FrameType.Hello =>
      hello <~ lift (payload_json f1);
      let auth_nonce := nonce now host in
      _ <~ send_json FrameType.HelloAck (HelloAck.mk auth_nonce true);
      f2 <~ expect "eof before auth" r2;
      auth <~ lift (payload_json f2);
      t <~ gets tenants;
      match verify_auth (Hello.user_domain hello) auth_nonce (Auth.nonce_signature auth) t with
      | Err e => _ <~ send_error "0xE002" ("auth_failed: " +:+ e) None; ret None
      | Ok _ =>
          f3 <~ expect "eof before register" r3;
          reg <~ lift (payload_json f3);
          let '(res, t') := verify_register (Hello.user_domain hello) (Register.machine_id reg)
                (Register.agent_tag reg) (Register.machine_pubkey reg) (Register.machine_signature reg) t in
          _ <~ set_tenants t';
          match res with
          | Err e => _ <~ send_error "0xE004" ("register_failed: " +:+ e) None; ret None
          | Ok _ =>
              let d := Hello.user_domain hello in
              let info := machine_info c reg now in
              snapshot <~ reg_op (Reg.register d info);
              _ <~ send_json FrameType.RegisterAck (RegisterAck.mk snapshot);
              tx <~ reg_op (fun r => let '(_, tx, r') := Reg.subscribe d r in (tx, r'));
              _ <~ reg_do (Reg.broadcast_except d (Reg.join_frame info) tx);
              let home := session_home (c_env c) in
              s <~ gets (fun s => s);
              let '(objs, v', w') := object_store_for (s3_build c) (c_env c) home d (sv s) (world s) in
              _ <~ set_sv v';
              _ <~ set_world w';
              ret (Some (mkIdent d (Register.machine_id reg) (server_fs_new home d objs) tx))
          end
      end
  | _ => fail (SMsg "expected HELLO")
  end.

(** When the task ends, its receiver is dropped: the channel closes, but stays
    among the subscribers. *)
Definition drop_rx {A} (i : Ident) (m : M A) : M A := fun s =>
  let '(r, s') := m s in
  let '(_, s'') := reg_do (Reg.close_chan (my_tx i)) s' in (r, s'').

(** [handle] *)
Definition handle (c : Conn) (now : Z) (host : string)
    (r1 r2 r3 : result NsmtError (option Frame)) (evs : list (Z * event)) : M unit :=
  i <~ handshake c now host r1 r2 r3;
  match i with
  | None => ret tt
  | Some i => drop_rx i (_ <~ ready_loop c i evs; session_end i)
  end.
End Session.

#[global] Notation "x <~ c ; k" := (mbind_ c (fun x => k))
  (at level 100, c at next level, right associativity) : nsmt_scope.

(** ** Chunk arithmetic *)

(** [bytes.len().div_ceil(CHUNK_SIZE)] *)
Definition n_chunks (data : bytes) : Z := (len data + CHUNK_SIZE - 1) / CHUNK_SIZE.

Lemma CHUNK_pos : 0 < CHUNK_SIZE.
Proof. done. Qed.
#[global] Opaque CHUNK_SIZE.

Lemma n_chunks_spec data i :
  0 <= i -> i < n_chunks data <-> i * CHUNK_SIZE < len data.
Proof.
  intros Hi. pose proof CHUNK_pos. unfold n_chunks.
  pose proof (Z.div_mod (len data + CHUNK_SIZE - 1) CHUNK_SIZE ltac:(lia)).
  pose proof (Z.mod_pos_bound (len data + CHUNK_SIZE - 1) CHUNK_SIZE ltac:(lia)).
  set (q := (len data + CHUNK_SIZE - 1) / CHUNK_SIZE) in *. split; nia.
Qed.

Lemma n_chunks_nonneg data : 0 <= n_chunks data.
Proof. pose proof CHUNK_pos. unfold n_chunks, len. apply Z.div_pos; lia. Qed.

Lemma slice_lookup l a b j :
  0 <= a -> slice l a b !! j = (if decide (Z.of_nat j < b - a) then l !! (Z.to_nat a + j)%nat else None).
Proof.
  intros Ha. unfold slice. case_decide.
  - rewrite lookup_take_lt by lia. by rewrite lookup_drop.
  - apply lookup_ge_None_2. rewrite length_take. lia.
Qed.

Lemma slice_length l a b : 0 <= a -> a <= b <= len l -> len (slice l a b) = b - a.
Proof. intros Ha Hb. unfold slice, len in *. rewrite length_take, length_drop. lia. Qed.

(** The chunk that goes with an index in range. *)
Lemma chunk_of_in data i :
  0 <= i -> i * CHUNK_SIZE < len data -> len data < 2 ^ 63 ->
  chunk_of data i = slice data (i * CHUNK_SIZE) (Z.min (i * CHUNK_SIZE + CHUNK_SIZE) (len data)).
Proof.
  intros Hi Hl Hm. pose proof CHUNK_pos. unfold chunk_of.
  assert (wrap64 (i * CHUNK_SIZE) = i * CHUNK_SIZE) as -> by (apply Z.mod_small; nia).
  destruct (i * CHUNK_SIZE <? len data) eqn:E; [done|lia].
Qed.

(** ** Reassembly *)

(** The temporary file holds the chunks marked as received. *)
Record part_ok (data : bytes) (pu : PendingUpload) (f : bytes) : Prop := {
  pk_total : total_chunks pu = n_chunks data;
  pk_length : length (received pu) = Z.to_nat (n_chunks data);
  pk_count : received_count pu = len (filter (fun b : bool => b = true) (received pu));
  pk_size : (length f <= length data)%nat;
  pk_data : forall i, received pu !! Z.to_nat i = Some true -> 0 <= i ->
    forall j, i * CHUNK_SIZE <= Z.of_nat j < (i + 1) * CHUNK_SIZE -> (j < length data)%nat -> f !! j = data !! j;
}.

Lemma count_insert_true l i :
  l !! i = Some false -> length (filter (fun b : bool => b = true) (<[i := true]> l)) =
  S (length (filter (fun b : bool => b = true) l)).
Proof.
  revert i. induction l as [|b l IH]; intros [|i] H; [done|done| |].
  - injection H as ->. change (<[0%nat := true]> (false :: l)) with (true :: l).
    rewrite !filter_cons. by rewrite decide_True, decide_False by done.
  - change (<[S i := true]> (b :: l)) with (b :: <[i := true]> l).
    rewrite !filter_cons. case_decide; cbn [length]; by rewrite IH.
Qed.

Lemma count_all_true (l : list bool) :
  length (filter (fun b : bool => b = true) l) = length l <-> Forall (fun b => b = true) l.
Proof.
  induction l as [|b l IH]; [split; done|]. rewrite filter_cons, Forall_cons, <- IH.
  pose proof (length_filter (fun b : bool => b = true) l).
  case_decide; cbn [length]; split; [intros; split; [done|lia]|intros [_ ?]; lia|intros; lia|by intros [? _]].
Qed.

Lemma part_complete data pu f :
  part_ok data pu f -> received_count pu = total_chunks pu -> f = data.
Proof.
  intros [Ht Hl Hc Hs Hd] Hall. pose proof CHUNK_pos. pose proof (n_chunks_nonneg data).
  assert (Forall (fun b => b = true) (received pu)) as Hf.
  { apply count_all_true. rewrite Hc, Ht in Hall. rewrite Hl. unfold len in Hall. lia. }
  apply list_eq. intros j. destruct (decide (j < length data)%nat) as [Hj|Hj].
  - set (i := Z.of_nat j / CHUNK_SIZE).
    pose proof (Z.div_mod (Z.of_nat j) CHUNK_SIZE ltac:(lia)).
    pose proof (Z.mod_pos_bound (Z.of_nat j) CHUNK_SIZE ltac:(lia)). fold i in H1.
    assert (0 <= i) by (apply Z.div_pos; lia).
    assert (i < n_chunks data) by (apply n_chunks_spec; unfold len; [done|nia]).
    apply (Hd i); [|done|nia|done].
    rewrite Forall_forall in Hf. destruct (lookup_lt_is_Some_2 (received pu) (Z.to_nat i)) as [b Hb]; [lia|].
    rewrite Hb. f_equal. apply Hf. by eapply list_elem_of_lookup_2.
  - rewrite !lookup_ge_None_2 by lia. done.
Qed.

(** One chunk is stored: the bytes of its range, nothing else. *)
Lemma part_step data pu f i :
  part_ok data pu f -> 0 <= i -> i < n_chunks data -> len data < 2 ^ 63 ->
  received pu !! Z.to_nat i = Some false ->
  part_ok data
    (mkPending (pu_blob_id pu) (pu_size pu) (total_chunks pu) (temp_path pu)
       (<[Z.to_nat i := true]> (received pu)) (wrap64 (received_count pu + 1)))
    (write_at (Z.to_nat (wrap64 (i * CHUNK_SIZE))) (chunk_of data i) f).
Proof.
  intros [Ht Hl Hc Hs Hd] Hi Hn Hm Hf. pose proof CHUNK_pos as HC.
  pose proof (proj1 (n_chunks_spec data i Hi) Hn) as Hlt.
  rewrite chunk_of_in by done. set (e := Z.min (i * CHUNK_SIZE + CHUNK_SIZE) (len data)).
  assert (wrap64 (i * CHUNK_SIZE) = i * CHUNK_SIZE) as -> by (apply Z.mod_small; nia).
  set (o := i * CHUNK_SIZE) in *. assert (0 <= o) by nia.
  assert (len (slice data o e) = e - o) as Hsl by (apply slice_length; lia).
  assert (length (slice data o e) = Z.to_nat (e - o)) as Hsl' by (unfold len in Hsl; lia).
  assert (slice data o e <> []) as Hne by (intros E; rewrite E in Hsl'; cbn in Hsl'; unfold len in *; lia).
  split; cbn [total_chunks received received_count].
  - done.
  - by rewrite length_insert.
  - unfold len in *. rewrite count_insert_true by done. rewrite Hc.
    pose proof (length_filter (fun b : bool => b = true) (received pu)).
    assert (n_chunks data < 2 ^ 63 + 1).
    { unfold n_chunks, len. apply Z.div_lt_upper_bound; [lia|]. nia. }
    unfold wrap64. rewrite Z.mod_small; lia.
  - rewrite write_at_some, !length_app, length_take, length_replicate, length_drop, Hsl' by done.
    unfold len in *. lia.
  - intros k Hk Hk0 j Hj Hjl. rewrite write_at_lookup, Hsl' by done.
    destruct (decide (Z.to_nat o <= j < Z.to_nat o + Z.to_nat (e - o))%nat) as [Hin|Hout].
    + rewrite slice_lookup by lia. rewrite decide_True by lia. f_equal. lia.
    + assert (Z.to_nat k <> Z.to_nat i) as Hki.
      { intros E. assert (k = i) as -> by lia. apply Hout. unfold len, o in *. lia. }
      rewrite list_lookup_insert_ne in Hk by done.
      pose proof (Hd k Hk Hk0 j Hj Hjl) as Hfj. case_decide; [|done].
      rewrite Hfj. by apply lookup_lt_is_Some_2 in Hjl as [x ->].
Qed.

(** The disk can take the temporary file: its directory can be made and it is not
    a directory itself. *)
Definition tmp_ready (p : string) (fs : files) : Prop :=
  exists fs1, create_parent p fs = Some fs1 /\
    is_dir_at fs1 (parent_loc (resolve p)) = true /\ is_dir_at fs1 (resolve p) = false.

Lemma tmp_write p off d fs fs1 :
  create_parent p fs = Some fs1 -> is_dir_at fs1 (resolve p) = false ->
  exists fs2, fs_write_at p off d fs1 = Some fs2 /\
    fs_read fs2 p = Some (write_at (Z.to_nat off) d (default [] (fs_read fs p))) /\
    only_above (resolve p) fs fs2 /\ tmp_ready p fs2.
Proof.
  intros Hc Hd. pose proof (create_parent_dir _ _ _ Hc) as Hp.
  assert (forall q, fs_read fs1 q = fs_read fs q) as Hr by (intros q; by eapply mkdirs_read).
  unfold fs_write_at. rewrite Hr. set (b := write_at _ _ _).
  assert (fs_write p b fs1 = Some (<[resolve p := File b]> fs1)) as Hw
    by (unfold fs_write; by rewrite Hd, Hp).
  exists (<[resolve p := File b]> fs1). split_and!.
  - done.
  - by eapply fs_read_write.
  - etrans; [by eapply create_parent_above|by eapply fs_write_above].
  - exists (<[resolve p := File b]> fs1). split_and!.
    + eapply mkdirs_again; [exact Hc|]. intros l Hl. by eapply fs_write_dirs.
    + by eapply fs_write_dirs.
    + unfold is_dir_at in Hd |- *. apply orb_false_iff in Hd as [-> _]. by rewrite lookup_insert_eq.
Qed.

Section Upload.
Context `{HexCodec} `{Sha256} `{Aead}.

(** [p] is the payload of a chunk frame that carries chunk [i] of [data], as the
    server's keys decrypt it. *)
Definition carries (e : env) (d : string) (data p : bytes) (i : Z) : Prop :=
  4 <= len p /\ le_val (take 4 p) = i /\
  match from_env e (Some d) with
  | Some k => e2e_decrypt k (drop 4 p) i = Ok (chunk_of data i)
  | None => drop 4 p = chunk_of data i
  end.

(** The chunk payloads of an upload, one after the other. *)
Fixpoint feed (e : env) (d : string) (pu : PendingUpload) (ps : list bytes) (fs : files)
    : result serr PendingUpload * files :=
  match ps with
  | [] => (Ok pu, fs)
  | p :: ps' =>
      match handle_chunk e pu p d fs with
      | (Ok pu', fs') => feed e d pu' ps' fs'
      | (Err x, fs') => (Err x, fs')
      end
  end.

Lemma handle_chunk_seen e d data pu p i fs :
  carries e d data p i -> 0 <= i -> i < n_chunks data -> part_ok data pu (default [] (fs_read fs (temp_path pu))) ->
  received pu !! Z.to_nat i = Some true -> handle_chunk e pu p d fs = (Ok pu, fs).
Proof.
  intros (Hl & Hi & _) Hge Hn Hp Hr. unfold handle_chunk. rewrite Hi.
  destruct (len p <? 4) eqn:E; [lia|]. rewrite Hr. by rewrite orb_true_r.
Qed.

Lemma handle_chunk_new e d data pu p i fs :
  carries e d data p i -> 0 <= i -> i < n_chunks data -> len data < 2 ^ 63 ->
  part_ok data pu (default [] (fs_read fs (temp_path pu))) -> tmp_ready (temp_path pu) fs ->
  received pu !! Z.to_nat i = Some false ->
  exists pu' fs', handle_chunk e pu p d fs = (Ok pu', fs') /\
    part_ok data pu' (default [] (fs_read fs' (temp_path pu))) /\ is_Some (fs_read fs' (temp_path pu)) /\
    received pu' = <[Z.to_nat i := true]> (received pu) /\ temp_path pu' = temp_path pu /\
    pu_blob_id pu' = pu_blob_id pu /\ total_chunks pu' = total_chunks pu /\
    tmp_ready (temp_path pu) fs' /\
    only_above (resolve (temp_path pu)) fs fs'.
Proof.
  intros (Hl & Hi & Hdec) Hge Hn Hm Hp (fs1 & Hc & Hpd & Hd) Hr. unfold handle_chunk. rewrite Hi.
  destruct (len p <? 4) eqn:E; [lia|].
  rewrite (pk_total _ _ _ Hp), Hr. cbn [default].
  destruct (n_chunks data <=? i) eqn:E2; [lia|]. cbn [orb].
  assert ((match from_env e (Some d) with
           | Some k => e2e_decrypt k (drop 4 p) i
           | None => Ok (drop 4 p) end) = Ok (chunk_of data i)) as ->
    by (destruct (from_env e (Some d)); by rewrite ?Hdec).
  rewrite Hc. destruct (tmp_write _ (wrap64 (i * CHUNK_SIZE)) (chunk_of data i) _ _ Hc Hd)
    as (fs2 & -> & Hread & Hoth & Hready).
  eexists _, fs2. split; [done|]. rewrite Hread. split_and!; try done.
  cbn [default]. rewrite <- (pk_total _ _ _ Hp). by apply part_step.
Qed.

(** What holds between two chunks, given the indices seen so far. *)
Record progress (data : bytes) (seen : list Z) (pu : PendingUpload) (fs : files) : Prop := {
  pg_part : part_ok data pu (default [] (fs_read fs (temp_path pu)));
  pg_ready : tmp_ready (temp_path pu) fs;
  pg_seen : forall i, 0 <= i < n_chunks data -> received pu !! Z.to_nat i = Some (bool_decide (i ∈ seen));
  pg_file : seen <> [] -> is_Some (fs_read fs (temp_path pu));
}.

Lemma progress_step e d data seen pu p i fs :
  carries e d data p i -> 0 <= i < n_chunks data -> len data < 2 ^ 63 -> progress data seen pu fs ->
  exists pu' fs', handle_chunk e pu p d fs = (Ok pu', fs') /\ progress data (i :: seen) pu' fs' /\
    temp_path pu' = temp_path pu /\ pu_blob_id pu' = pu_blob_id pu /\ total_chunks pu' = total_chunks pu /\
    only_above (resolve (temp_path pu)) fs fs'.
Proof.
  intros Hc Hi Hm [Hp Hr Hs Hf]. pose proof (Hs i Hi) as Hb. destruct (bool_decide_reflect (i ∈ seen)) as [Hin|Hin].
  - exists pu, fs. split_and!; [apply (handle_chunk_seen e d data pu p i fs); [done|lia|lia|done|done]| |done..].
    split; [done|done| |].
    + intros j Hj. rewrite Hs by done. f_equal. apply bool_decide_ext. set_solver.
    + intros _. apply Hf. intros ->. set_solver.
  - destruct (handle_chunk_new e d data pu p i fs) as (pu' & fs' & E & Hp' & Hfile & Hrec & Ht & Hbl & Htot & Hrd & Hoth);
      [done|lia|lia|done|done|done|done|].
    exists pu', fs'. split_and!; [done| |done..]. split; rewrite ?Ht; [done|done| |done].
    intros j Hj. rewrite Hrec. destruct (decide (j = i)) as [->|Hne].
    + rewrite list_lookup_insert_eq by (rewrite (pk_length _ _ _ Hp); lia).
      by rewrite bool_decide_eq_true_2 by set_solver.
    + rewrite list_lookup_insert_ne by lia. rewrite Hs by done. f_equal. apply bool_decide_ext. set_solver.
Qed.

Lemma feed_progress e d data ps order seen pu fs :
  Forall2 (carries e d data) ps order -> Forall (fun i => 0 <= i < n_chunks data) order ->
  len data < 2 ^ 63 -> progress data seen pu fs ->
  exists pu' fs', feed e d pu ps fs = (Ok pu', fs') /\ progress data (rev order ++ seen) pu' fs' /\
    temp_path pu' = temp_path pu /\ pu_blob_id pu' = pu_blob_id pu /\ total_chunks pu' = total_chunks pu /\
    only_above (resolve (temp_path pu)) fs fs'.
Proof.
  intros H2 Ho Hm. revert seen pu fs. induction H2 as [|p i ps order Hc _ IH]; intros seen pu fs Hp.
  - exists pu, fs. by split_and!.
  - apply Forall_cons in Ho as [Hi Ho].
    destruct (progress_step e d data seen pu p i fs Hc Hi Hm Hp) as (pu1 & fs1 & E & Hp1 & Ht1 & Hb1 & Hn1 & Ho1).
    destruct (IH Ho _ _ _ Hp1) as (pu' & fs' & E' & Hp' & Ht' & Hb' & Hn' & Ho').
    exists pu', fs'. cbn [feed]. rewrite E, E'. cbn [rev]. rewrite <- app_assoc.
    split_and!; [done|done|congruence..|]. rewrite Ht1 in Ho'. by etrans.
Qed.

(** Completion is reached exactly when every index has been seen. *)
Lemma progress_complete data seen pu fs :
  progress data seen pu fs ->
  received_count pu = total_chunks pu <-> forall i, 0 <= i < n_chunks data -> i ∈ seen.
Proof.
  intros [Hp Hr Hs Hf]. pose proof (n_chunks_nonneg data). rewrite (pk_count _ _ _ Hp), (pk_total _ _ _ Hp).
  assert (len (filter (fun b : bool => b = true) (received pu)) = n_chunks data <->
    length (filter (fun b : bool => b = true) (received pu)) = length (received pu)) as ->
    by (rewrite (pk_length _ _ _ Hp); unfold len; lia).
  rewrite count_all_true, Forall_forall. split.
  - intros Hall i Hi. specialize (Hs i Hi).
    specialize (Hall _ (list_elem_of_lookup_2 _ _ _ Hs)). by apply bool_decide_eq_true in Hall.
  - intros Hall b [j Hj]%list_elem_of_lookup. pose proof (lookup_lt_Some _ _ _ Hj) as Hl.
    rewrite (pk_length _ _ _ Hp) in Hl. specialize (Hs (Z.of_nat j) ltac:(lia)).
    rewrite Nat2Z.id, Hj in Hs. injection Hs as ->. apply bool_decide_eq_true, Hall. lia.
Qed.
End Upload.

(** ** Session steps *)

(** Unfold the monad's plumbing. *)
Ltac sess_unfold :=
  unfold mbind_, gets, ret, fail, lift, set_world, set_sv, set_tenants, set_pending, reg_do, reg_op, state_op,
    lock_op_, send_json, send_error, send in *;
  cbn [fst snd sv tenants world pending_upload out disk bucket mems set_disk rbind] in *.

Lemma set_disk_twice `{Backend} d d' w : set_disk d (set_disk d' w) = set_disk d w.
Proof. done. Qed.

Lemma object_store_for_registry `{Backend} build e base d st w s st' w' :
  object_store_for build e base d st w = (s, st', w') -> registry st' = registry st.
Proof.
  unfold object_store_for. destruct (object_stores st !! d); [by intros [= _ <- _]|].
  destruct (from_env_tenant _ _ _ _ _). by intros [= _ <- _].
Qed.

Section Inversion.
Context `{Backend} `{Codec} `{HexCodec} `{Ed25519} `{Sha256} `{Aead} `{MemoryPool}.

(** Inversion of successful steps. *)
Lemma bind_ok {A B} (m : M A) (k : A -> M B) s b s' :
  mbind_ m k s = (Ok b, s') -> exists a s1, m s = (Ok a, s1) /\ k a s1 = (Ok b, s').
Proof. unfold mbind_. destruct (m s) as [[a|e] s1]; [eauto|done]. Qed.

Definition add_out (f : Frame) (s : Sess) : Sess :=
  mkSess (sv s) (tenants s) (world s) (pending_upload s) (out s ++ [f]).

Lemma send_ok f s u s' : send f s = (Ok u, s') -> s' = add_out f s /\ is_ok (encode f) = true.
Proof. unfold send, mbind_, lift, ret, fail. destruct (encode f); [|done]. by intros [= _ <-]. Qed.

Lemma send_json_ok {T} `{Serde T} ty (v : T) s u s' :
  send_json ty v s = (Ok u, s') -> s' = add_out (from_json ty 0 v) s.
Proof. by intros [-> _]%send_ok. Qed.

Lemma lift_ok {A} (r : result NsmtError A) s a s' : lift r s = (Ok a, s') -> r = Ok a /\ s' = s.
Proof. destruct r; unfold lift, ret, fail; intros [=]; by subst. Qed.

Lemma expect_ok m r s f s' : expect m r s = (Ok f, s') -> r = Ok (Some f) /\ s' = s.
Proof. destruct r as [[f'|]|]; unfold expect, ret, fail; intros [=]; by subst. Qed.

Definition with_registry (r : Reg.Registry) (s : Sess) : Sess :=
  mkSess (mkServerState r (locks (sv s)) (db (sv s)) (object_stores (sv s)) (object_owners (sv s)) (usage_bytes (sv s)))
    (tenants s) (world s) (pending_upload s) (out s).

Lemma reg_op_ok {A} (f : Reg.Registry -> A * Reg.Registry) s a s' :
  reg_op f s = (Ok a, s') -> a = fst (f (registry (sv s))) /\ s' = with_registry (snd (f (registry (sv s)))) s.
Proof. unfold reg_op. destruct (f _) as [x r]. by intros [= <- <-]. Qed.

Lemma reg_do_ok f s u s' : reg_do f s = (Ok u, s') -> s' = with_registry (f (registry (sv s))) s.
Proof. unfold reg_do. by intros [_ ->]%reg_op_ok. Qed.
End Inversion.

(** One successful bind: its first step [E] and the rest. *)
Ltac bind_inv H E := apply bind_ok in H as (? & ? & E & H).

Section SessionFacts.
Context `{Backend} `{Codec} `{HexCodec} `{Ed25519} `{Sha256} `{Aead} `{MemoryPool}.

(** A chunk that leaves the upload incomplete. *)
Lemma on_chunk_partial c i p s pu data seen idx :
  pending_upload s = Some pu -> progress data seen pu (disk (world s)) ->
  carries (c_env c) (user_domain i) data p idx -> 0 <= idx < n_chunks data -> len data < 2 ^ 63 ->
  ~ (forall j, 0 <= j < n_chunks data -> j ∈ idx :: seen) ->
  exists pu' fs', on_chunk c i p s =
      (Ok tt, mkSess (sv s) (tenants s) (set_disk fs' (world s)) (Some pu') (out s)) /\
    progress data (idx :: seen) pu' fs' /\ temp_path pu' = temp_path pu /\ pu_blob_id pu' = pu_blob_id pu /\
    only_above (resolve (temp_path pu)) (disk (world s)) fs'.
Proof.
  intros Hpd Hp Hc Hi Hm Hn.
  destruct (progress_step _ _ _ _ _ _ _ _ Hc Hi Hm Hp) as (pu' & fs' & E & Hp' & Ht & Hb & Htot & Hoth).
  exists pu', fs'. split_and!; [|done..]. unfold on_chunk. sess_unfold. rewrite Hpd, E.
  destruct (received_count pu' =? total_chunks pu') eqn:Ec; [|done].
  exfalso. apply Hn. apply (progress_complete _ _ _ _ Hp'). lia.
Qed.

(** The chunk that completes the upload. *)
Lemma on_chunk_last c i p s pu data seen idx :
  pending_upload s = Some pu -> progress data seen pu (disk (world s)) ->
  carries (c_env c) (user_domain i) data p idx -> 0 <= idx < n_chunks data -> len data < 2 ^ 63 ->
  (forall j, 0 <= j < n_chunks data -> j ∈ idx :: seen) ->
  exists w1, fs_read (disk w1) (temp_path pu) = Some data /\ bucket w1 = bucket (world s) /\ mems w1 = mems (world s) /\
    only_above (resolve (temp_path pu)) (disk (world s)) (disk w1) /\
    let ack := from_json FrameType.FilePutAck 0 (FilePutAck.mk (pu_blob_id pu) (all_chunks (n_chunks data)) true) in
    match put_object (server_fs i) (pu_blob_id pu) data w1 with
    | (Ok _, w2) =>
        is_ok (encode ack) = true ->
        on_chunk c i p s =
          (Ok tt, mkSess (record_object_owner (user_domain i) (pu_blob_id pu) (reg_machine i) (sv s)) (tenants s)
                    (set_disk (default (disk w2) (fs_remove (temp_path pu) (disk w2))) w2) None (out s ++ [ack]))
    | (Err m, w2) => on_chunk c i p s = (Err (SMsg m), mkSess (sv s) (tenants s) w2 None (out s))
    end.
Proof.
  intros Hpd Hp Hc Hi Hm Hall.
  destruct (progress_step _ _ _ _ _ _ _ _ Hc Hi Hm Hp) as (pu' & fs' & E & Hp' & Ht & Hb & Htot & Hoth).
  pose proof (proj2 (progress_complete _ _ _ _ Hp') Hall) as Hcount.
  assert (fs_read fs' (temp_path pu) = Some data) as Hread.
  { pose proof (pg_part _ _ _ _ Hp') as Hpart. rewrite Ht in Hpart.
    pose proof (part_complete _ _ _ Hpart Hcount) as Hd.
    destruct (pg_file _ _ _ _ Hp' ltac:(done)) as [b Hfb]. rewrite Ht in Hfb. rewrite Hfb in Hd |- *. cbn in Hd. congruence. }
  exists (set_disk fs' (world s)). split_and!; [done|done|done|done|]. cbv zeta.
  destruct (put_object _ _ _ _) as [[[]|m] w2] eqn:Eput.
  - intros Henc. unfold on_chunk. sess_unfold. rewrite Hpd, E. sess_unfold.
    rewrite Hcount, Z.eqb_refl. sess_unfold. rewrite Ht, Hread. cbn [ok_or]. sess_unfold.
    rewrite Hb, Eput. sess_unfold. rewrite Htot, (pk_total _ _ _ (pg_part _ _ _ _ Hp)).
    destruct (encode _) as [wire|x]; [|done]. done.
  - unfold on_chunk. sess_unfold. rewrite Hpd, E. sess_unfold. rewrite Hcount, Z.eqb_refl. sess_unfold.
    rewrite Ht, Hread. cbn [ok_or]. sess_unfold. rewrite Hb, Eput. by sess_unfold.
Qed.
End SessionFacts.

Section Runs.
Context `{Backend} `{Codec} `{HexCodec} `{Ed25519} `{Sha256} `{Aead} `{MemoryPool}.

(** The chunk frames of an upload, handled one after the other. *)
Fixpoint run_chunks (c : Conn) (i : Ident) (ps : list bytes) : M unit :=
  match ps with
  | [] => ret tt
  | p :: ps' => _ <~ on_chunk c i p; run_chunks c i ps'
  end.

Lemma run_chunks_app c i ps qs s :
  run_chunks c i (ps ++ qs) s =
    match run_chunks c i ps s with
    | (Ok _, s') => run_chunks c i qs s'
    | (Err e, s') => (Err e, s')
    end.
Proof.
  revert s. induction ps as [|p ps IH]; intros s; [done|]. cbn [app run_chunks]. unfold mbind_.
  destruct (on_chunk c i p s) as [[]s']; [apply IH|done].
Qed.

Lemma run_chunks_partial c i data ps order seen s pu :
  Forall2 (carries (c_env c) (user_domain i) data) ps order ->
  Forall (fun k => 0 <= k < n_chunks data) order -> len data < 2 ^ 63 ->
  pending_upload s = Some pu -> progress data seen pu (disk (world s)) ->
  (exists j, 0 <= j < n_chunks data /\ j ∉ order ++ seen) ->
  exists pu' fs', run_chunks c i ps s =
      (Ok tt, mkSess (sv s) (tenants s) (set_disk fs' (world s)) (Some pu') (out s)) /\
    progress data (rev order ++ seen) pu' fs' /\ temp_path pu' = temp_path pu /\ pu_blob_id pu' = pu_blob_id pu /\
    only_above (resolve (temp_path pu)) (disk (world s)) fs'.
Proof.
  intros Hps Ho Hm. revert seen s pu. induction Hps as [|p k ps order Hc _ IH]; intros seen s pu Hpd Hp (j & Hj & Hnot).
  - exists pu, (disk (world s)). split_and!; [|done..]. destruct s as [v t [d b m] pd o]. cbn in *. by rewrite Hpd.
  - apply Forall_cons in Ho as [Hk Ho]. cbn [run_chunks].
    destruct (on_chunk_partial c i p s pu data seen k Hpd Hp Hc Hk Hm) as (pu1 & fs1 & E & Hp1 & Ht1 & Hb1 & Ho1).
    { intros Hall. specialize (Hall j Hj). set_solver. }
    destruct (IH Ho (k :: seen) (mkSess (sv s) (tenants s) (set_disk fs1 (world s)) (Some pu1) (out s)) pu1)
      as (pu' & fs' & E' & Hp' & Ht' & Hb' & Ho'); [done|done| |].
    { exists j. split; [done|]. set_solver. }
    exists pu', fs'. unfold mbind_. rewrite E, E'. cbn [sv tenants world out rev disk set_disk] in *. rewrite <- app_assoc.
    rewrite Ht1 in Ho'. split_and!; [done|done|congruence..|by etrans].
Qed.

(** The upload record [FILE_PUT] makes. *)
Definition fresh_upload (blob tmp : string) (size n : Z) : PendingUpload :=
  mkPending blob size n tmp (replicate (Z.to_nat n) false) 0.

Lemma fresh_progress data blob tmp size fs :
  fs_read fs tmp = None -> tmp_ready tmp fs ->
  progress data [] (fresh_upload blob tmp size (n_chunks data)) fs.
Proof.
  intros Hn Hr. assert (forall n, filter (fun b : bool => b = true) (replicate n false) = []) as Hf
    by (induction n as [|n IH]; [done|cbn [replicate]; rewrite filter_cons, decide_False by done; done]).
  split; [|done| |done].
  - unfold fresh_upload. cbn [temp_path]. rewrite Hn. split; cbn [total_chunks received received_count default];
      [done|by rewrite length_replicate|by rewrite Hf|cbn; lia|].
    intros i Hi. apply lookup_replicate in Hi as [[=] _].
  - intros i Hi. cbn [fresh_upload received]. rewrite lookup_replicate_2 by lia.
    by rewrite bool_decide_eq_false_2 by set_solver.
Qed.
End Runs.

(** The reassembly of an upload, chunk by chunk. *)
Lemma upload_core `{Backend} `{Codec} `{HexCodec} `{Ed25519} `{Sha256} `{Aead} `{MemoryPool}
    c i data ps order p last late s blob tmp size :
  Forall2 (carries (c_env c) (user_domain i) data) ps order ->
  carries (c_env c) (user_domain i) data p last ->
  Forall (fun k => 0 <= k < n_chunks data) (last :: order) -> len data < 2 ^ 63 ->
  last ∉ order -> (forall j, 0 <= j < n_chunks data -> j ∈ last :: order) ->
  fs_read (disk (world s)) tmp = None -> tmp_ready tmp (disk (world s)) ->
  pending_upload s = Some (fresh_upload blob tmp size (n_chunks data)) ->
  out (snd (run_chunks c i ps s)) = out s /\
  exists w1, fs_read (disk w1) tmp = Some data /\ bucket w1 = bucket (world s) /\ mems w1 = mems (world s) /\
    only_above (resolve tmp) (disk (world s)) (disk w1) /\
    let ack := from_json FrameType.FilePutAck 0 (FilePutAck.mk blob (all_chunks (n_chunks data)) true) in
    match put_object (server_fs i) blob data w1 with
    | (Ok _, w2) =>
        is_ok (encode ack) = true ->
        run_chunks c i (ps ++ p :: late) s =
          (Ok tt, mkSess (record_object_owner (user_domain i) blob (reg_machine i) (sv s)) (tenants s)
                    (set_disk (default (disk w2) (fs_remove tmp (disk w2))) w2) None (out s ++ [ack]))
    | (Err m, w2) => run_chunks c i (ps ++ p :: late) s = (Err (SMsg m), mkSess (sv s) (tenants s) w2 None (out s))
    end.
Proof.
  intros Hps Hc [Hl Ho]%Forall_cons Hm Hnot Hall Hn Hr Hpd.
  destruct (run_chunks_partial c i data ps order [] s _ Hps Ho Hm Hpd (fresh_progress data blob tmp size _ Hn Hr))
    as (pu & fs & E & Hp & Ht & Hb & Hab).
  { exists last. split; [done|]. by rewrite app_nil_r. }
  cbn [temp_path pu_blob_id fresh_upload] in Ht, Hb. rewrite E. split; [done|]. rewrite app_nil_r in Hp.
  destruct (on_chunk_last c i p (mkSess (sv s) (tenants s) (set_disk fs (world s)) (Some pu) (out s)) pu data
    (rev order) last) as (w1 & Hread & Hbk & Hmm & Hab1 & Hres); [done|done|done|done|done| |].
  { intros j Hj. specialize (Hall j Hj). rewrite elem_of_cons in Hall |- *.
    destruct Hall as [->|Hin]; [by left|right]. apply list_elem_of_In, in_rev.
    rewrite rev_involutive. by apply list_elem_of_In. }
  rewrite Ht in Hread, Hres, Hab1. rewrite Hb in Hres. exists w1. split_and!; [done|done|done|by etrans|].
  rewrite run_chunks_app, E. cbn [run_chunks]. unfold mbind_. cbv zeta in Hres |- *.
  assert (forall q s', pending_upload s' = None -> run_chunks c i q s' = (Ok tt, s')) as Hlate.
  { induction q as [|x q IH]; intros s' Hs'; [done|]. cbn [run_chunks]. unfold mbind_.
    assert (on_chunk c i x s' = (Ok tt, s')) as ->; [|by apply IH].
    unfold on_chunk. sess_unfold. by rewrite Hs'. }
  destruct (put_object (server_fs i) blob data w1) as [[[]|m] w2].
  - intros Henc. rewrite (Hres Henc). by rewrite Hlate.
  - by rewrite Hres.
Qed.

(** ** Properties *)

(** C3: An upload is reassembled exactly: however the chunks of an object are
    ordered and however often they are repeated, nothing is sent before every
    chunk has arrived, and the chunk that completes the set makes the server
    store precisely the original bytes under the announced id, record the
    uploader as owner, remove the temporary file and acknowledge completion;
    chunks that come later are ignored. *)
Theorem upload_reassembled `{Backend} `{Codec} `{HexCodec} `{Ed25519} `{Sha256} `{Aead} `{MemoryPool}
    c i data ps order p last late s blob tmp size :
  Forall2 (carries (c_env c) (user_domain i) data) ps order ->
  carries (c_env c) (user_domain i) data p last ->
  Forall (fun k => 0 <= k < n_chunks data) (last :: order) -> len data < 2 ^ 63 ->
  last ∉ order -> (forall j, 0 <= j < n_chunks data -> j ∈ last :: order) ->
  fs_read (disk (world s)) tmp = None -> tmp_ready tmp (disk (world s)) ->
  pending_upload s = Some (fresh_upload blob tmp size (n_chunks data)) ->
  out (snd (run_chunks c i ps s)) = out s /\
  exists w1, fs_read (disk w1) tmp = Some data /\ bucket w1 = bucket (world s) /\ mems w1 = mems (world s) /\
    only_above (resolve tmp) (disk (world s)) (disk w1) /\
    let ack := from_json FrameType.FilePutAck 0 (FilePutAck.mk blob (all_chunks (n_chunks data)) true) in
    match put_object (server_fs i) blob data w1 with
    | (Ok _, w2) =>
        is_ok (encode ack) = true ->
        run_chunks c i (ps ++ p :: late) s =
          (Ok tt, mkSess (record_object_owner (user_domain i) blob (reg_machine i) (sv s)) (tenants s)
                    (set_disk (default (disk w2) (fs_remove tmp (disk w2))) w2) None (out s ++ [ack]))
    | (Err m, w2) => run_chunks c i (ps ++ p :: late) s = (Err (SMsg m), mkSess (sv s) (tenants s) w2 None (out s))
    end.
Proof. apply upload_core. Qed.

#[global] Transparent CHUNK_SIZE.

Definition demo_pool : MemoryPool := {|
  pool_recall _ := Err Timeout;
  pool_capture _ := Err Timeout;
|}.
Definition demo_conn : Conn := mkConn demo_env true (fun _ => Ok tt) "10.0.0.9:1" true.
Definition demo_ident : Ident := mkIdent "ser163" "m1" demo_server 0.
Definition demo_tmp : string := temp_path_for demo_server "ab12".
Definition demo_sess : Sess :=
  mkSess demo_state ∅ demo_world (Some (fresh_upload "ab12" demo_tmp 2 (n_chunks (as_bytes "hi")))) [].

Lemma upload_reassembled_witness :
  exists w1, fs_read (disk w1) demo_tmp = Some (as_bytes "hi").
Proof.
  destruct (upload_reassembled (H0 := ref_codec) (H5 := demo_pool) demo_conn demo_ident (as_bytes "hi") [] []
    (le_bytes 4 0 ++ as_bytes "hi") 0 [] demo_sess "ab12" demo_tmp 2) as (_ & w1 & Hr & _).
  - constructor.
  - split; [vm_compute; discriminate|]. split; [vm_compute; reflexivity|]. vm_compute. reflexivity.
  - constructor; [vm_compute; split; congruence|constructor].
  - vm_compute. reflexivity.
  - set_solver.
  - intros j Hj. assert (n_chunks (as_bytes "hi") = 1) as E by (vm_compute; reflexivity).
    rewrite E in Hj. assert (j = 0) as -> by lia. set_solver.
  - vm_compute. reflexivity.
  - exists (default ∅ (create_parent demo_tmp ∅)).
    split; [apply some_default; vm_compute; reflexivity|]. split; vm_compute; reflexivity.
  - reflexivity.
  - by exists w1.
Defined.

(** An empty file cannot be uploaded: the client announces zero chunks and
    sends none, so after the initial acknowledgement no frame but a chunk frame
    can complete the upload; and a chunk frame, whatever it holds, finds no
    temporary file and ends the session with an error. *)
Theorem empty_upload_never_completes `{Backend} `{Codec} `{HexCodec} `{Ed25519} `{Sha256} `{Aead} `{MemoryPool}
    c i s blob tmp size p :
  pending_upload s = Some (fresh_upload blob tmp size 0) -> fs_read (disk (world s)) tmp = None ->
  fst (on_chunk c i p s) = Err (SErr (IoError "read")) /\ out (snd (on_chunk c i p s)) = out s.
Proof.
  intros Hpd Hn. unfold on_chunk. sess_unfold. rewrite Hpd.
  assert (handle_chunk (c_env c) (fresh_upload blob tmp size 0) p (user_domain i) (disk (world s)) =
    (Ok (fresh_upload blob tmp size 0), disk (world s))) as ->.
  { unfold handle_chunk. destruct (len p <? 4); [done|]. cbn [total_chunks fresh_upload].
    pose proof (le_val_range (take 4 p)). destruct (0 <=? le_val (take 4 p)) eqn:E; [done|lia]. }
  sess_unfold. cbn [received_count total_chunks fresh_upload Z.eqb temp_path]. sess_unfold. rewrite Hn.
  cbn [ok_or]. by sess_unfold.
Qed.

Lemma empty_upload_never_completes_witness :
  fst (on_chunk (H0 := ref_codec) demo_conn demo_ident [] 
    (mkSess demo_state ∅ demo_world (Some (fresh_upload "e3b0" demo_tmp 0 0)) [])) = Err (SErr (IoError "read")).
Proof.
  refine (proj1 (empty_upload_never_completes (H0 := ref_codec) (H5 := demo_pool) demo_conn demo_ident
    (mkSess demo_state ∅ demo_world (Some (fresh_upload "e3b0" demo_tmp 0 0)) []) "e3b0" demo_tmp 0 [] _ _)).
  - reflexivity.
  - vm_compute. reflexivity.
Defined.

(** C8: Nobody gets past the handshake without proof: in a session that reaches the
    ready loop, the first frame was a HELLO for its domain, the second carried a
    signature of this connection's nonce that verifies under the domain's registered
    key, and the third named its machine and carried a signature of the machine id
    and agent tag that verifies under the public key given with it, to which the
    machine is pinned; the session is then online in that domain's registry with a
    channel of its own.  A refused client gets one error frame and leaves the
    registry as it was. *)
Theorem handshake_authenticated `{Backend} `{CodecLaws} `{HexCodec} `{Ed25519} `{Sha256} `{Aead} `{MemoryPool}
    c now host r1 r2 r3 s o s' :
  handshake c now host r1 r2 r3 s = (Ok o, s') ->
  match o with
  | Some i =>
      exists hello auth reg t,
        (exists f1, r1 = Ok (Some f1) /\ frame_type f1 = FrameType.Hello /\ payload_json f1 = Ok hello) /\
        (exists f2, r2 = Ok (Some f2) /\ payload_json f2 = Ok auth) /\
        (exists f3, r3 = Ok (Some f3) /\ payload_json f3 = Ok reg) /\
        user_domain i = Hello.user_domain hello /\ reg_machine i = Register.machine_id reg /\
        tenants s !! user_domain i = Some t /\
        verify (domain_pubkey t) (as_bytes (nonce now host)) (Auth.nonce_signature auth) = true /\
        verify (Register.machine_pubkey reg) (register_msg (reg_machine i) (Register.agent_tag reg))
          (Register.machine_signature reg) = true /\
        machine_key (user_domain i) (reg_machine i) (tenants s') = Some (Register.machine_pubkey reg) /\
        Reg.online_machine (user_domain i) (reg_machine i) (registry (sv s')) = Some (machine_info c reg now) /\
        my_tx i = Reg.next_chan (registry (sv s))
  | None => registry (sv s') = registry (sv s) /\ length (out s') = (length (out s) + 2)%nat
  end.
Proof.
  intros Hrun. unfold handshake in Hrun. bind_inv Hrun E1. apply expect_ok in E1 as [-> ->].
  destruct (frame_type x) eqn:Et; try done. bind_inv Hrun E2. apply lift_ok in E2 as [Eh ->].
  bind_inv Hrun E3. apply send_json_ok in E3 as ->.
  bind_inv Hrun E4. apply expect_ok in E4 as [-> ->]. bind_inv Hrun E5. apply lift_ok in E5 as [Ea ->].
  bind_inv Hrun E6. injection E6 as <- <-.
  destruct (verify_auth _ _ _ _) as [[]|ea] eqn:Ev.
  2:{ bind_inv Hrun E7. apply send_json_ok in E7 as ->. injection Hrun as <- <-.
      split; [done|]. unfold add_out. cbn [out]. rewrite !length_app. cbn. lia. }
  bind_inv Hrun E7. apply expect_ok in E7 as [-> ->]. bind_inv Hrun E8. apply lift_ok in E8 as [Er ->].
  destruct (verify_register _ _ _ _ _ _) as [[[]|er] t'] eqn:Evr; bind_inv Hrun E9; injection E9 as <- <-.
  2:{ bind_inv Hrun E10. apply send_json_ok in E10 as ->. injection Hrun as <- <-.
      split; [done|]. unfold add_out. cbn [out]. rewrite !length_app. cbn. lia. }
  bind_inv Hrun E10. apply reg_op_ok in E10 as [-> ->].
  bind_inv Hrun E11. apply send_json_ok in E11 as ->.
  bind_inv Hrun E12. apply reg_op_ok in E12 as [-> ->].
  bind_inv Hrun E13. apply reg_do_ok in E13 as ->.
  bind_inv Hrun E14. injection E14 as <- <-.
  destruct (object_store_for _ _ _ _ _ _) as [[objs v'] w'] eqn:Eo.
  apply object_store_for_registry in Eo.
  bind_inv Hrun E15. injection E15 as <- <-. bind_inv Hrun E16. injection E16 as <- <-.
  injection Hrun as <- <-. apply register_pins in Evr as [Hpin Hmv].
  unfold verify_auth in Ev. destruct (tenants s !! Hello.user_domain x0) as [t|] eqn:Etn; [|done].
  destruct (verify (domain_pubkey t) _ _) eqn:Evs; [|done].
  exists x0, x3, x5, t. cbn [user_domain reg_machine tenants sv my_tx].
  split_and!; try done; try (by eexists).
  - rewrite Eo. cbn [with_registry sv registry snd]. unfold add_out. cbn [sv registry].
    rewrite (online_inner _ _ _ _ (broadcast_except_inner _ _ _ _)).
    etransitivity; [exact (subscribe_online (Hello.user_domain x0) (snd (Reg.register (Hello.user_domain x0)
      (machine_info c x5 now) (registry (sv s)))) _ _)|]. cbn [Reg.register snd]. rewrite online_set_tenant, decide_True by done.
    cbn [Reg.machines]. apply lookup_insert_eq.
Qed.

Definition demo_key : KeyPair := generate (replicate 32 (u8_of 9)).
Definition demo_hello : Hello.t := Hello.mk "ser163" 1 "t".
Definition demo_auth : Auth.t := Auth.mk "" (sign demo_key (as_bytes (nonce 5 "h"))).
Definition demo_register : Register.t :=
  Register.mk "m1" "maka" "" (public_hex demo_key) (sign demo_key (register_msg "m1" "maka")).
Definition demo_login : Sess :=
  mkSess demo_state (set_pubkey "ser163" (public_hex demo_key) ∅) demo_world None [].
Definition demo_handshake : result serr (option Ident) * Sess :=
  handshake (H0 := ref_codec) demo_conn 5 "h"
    (Ok (Some (from_json (H := @codec_Hello ref_codec) FrameType.Hello 0 demo_hello)))
    (Ok (Some (from_json (H := @codec_Auth ref_codec) FrameType.Auth 0 demo_auth)))
    (Ok (Some (from_json (H := @codec_Register ref_codec) FrameType.Register 0 demo_register))) demo_login.

Definition accepted {A} (r : result serr (option A) * Sess) : bool :=
  match fst r with Ok (Some _) => true | _ => false end.

Lemma handshake_authenticated_witness :
  exists i s', demo_handshake = (Ok (Some i), s') /\ is_Some (Reg.online_machine (user_domain i) (reg_machine i) (registry (sv s'))).
Proof.
  assert (accepted demo_handshake = true) as Ha by (vm_compute; reflexivity).
  destruct demo_handshake as [[[i|]|e] s'] eqn:E; try discriminate Ha.
  exists i, s'. split; [reflexivity|].
  destruct (handshake_authenticated (H0 := ref_codec) (H1 := ref_codec_laws) (H6 := demo_pool)
    _ _ _ _ _ _ _ (Some i) s' E) as (hello & auth & reg & t & _ & _ & _ & _ & _ & _ & _ & _ & _ & Hon & _).
  by eexists.
Defined.

(** ** Relations every step of a handler respects *)

Section Preserves.
Context `{Backend} `{Codec}.

(** A relation on the shared state that ignores the rest of the session and the
    lock table. *)
Class SharedRel (R : relation Sess) : Prop := {
  shared_pre :: PreOrder R;
  shared_same : forall s s',
    registry (sv s') = registry (sv s) /\ db (sv s') = db (sv s) /\ object_stores (sv s') = object_stores (sv s) /\
    object_owners (sv s') = object_owners (sv s) /\ usage_bytes (sv s') = usage_bytes (sv s) ->
    tenants s' = tenants s -> R s s';
}.

Definition preserves {A} (R : relation Sess) (m : M A) : Prop := forall s, R s (snd (m s)).

Context {R : relation Sess} `{!SharedRel R}.

Lemma preserves_bind {A B} (m : M A) (k : A -> M B) :
  preserves R m -> (forall a, preserves R (k a)) -> preserves R (mbind_ m k).
Proof.
  intros Hm Hk s. unfold mbind_. specialize (Hm s). destruct (m s) as [[a|e] s1]; cbn [snd] in *; [|done].
  etransitivity; [exact Hm|]. apply Hk.
Qed.

Lemma preserves_id {A} (m : M A) :
  (forall s, sv (snd (m s)) = sv s /\ tenants (snd (m s)) = tenants s) -> preserves R m.
Proof. intros Hm s. destruct (Hm s) as [E1 E2]. apply shared_same; [by rewrite E1|done]. Qed.

Lemma preserves_lift {A} (r : result NsmtError A) : preserves R (lift r).
Proof. apply preserves_id. by destruct r. Qed.
Lemma preserves_ret {A} (a : A) : preserves R (ret a).
Proof. by apply preserves_id. Qed.
Lemma preserves_fail {A} e : preserves R (fail e : M A).
Proof. by apply preserves_id. Qed.
Lemma preserves_gets {A} (f : Sess -> A) : preserves R (gets f).
Proof. by apply preserves_id. Qed.
Lemma preserves_expect m r : preserves R (expect m r).
Proof. destruct r as [[f|]|e]; [apply preserves_ret|apply preserves_fail..]. Qed.
Lemma preserves_world w : preserves R (set_world w).
Proof. by apply preserves_id. Qed.
Lemma preserves_pending p : preserves R (set_pending p).
Proof. by apply preserves_id. Qed.
Lemma preserves_send f : preserves R (send f).
Proof. apply preserves_id. intros s. unfold send, mbind_, lift. by destruct (encode f). Qed.
Lemma preserves_send_json {T} `{Serde T} ty (v : T) : preserves R (send_json ty v).
Proof. apply preserves_send. Qed.
Lemma preserves_lock {A} (f : LockTable -> A * LockTable) : preserves R (lock_op_ f).
Proof. intros s. unfold lock_op_. destruct (f _). by apply shared_same. Qed.
Lemma preserves_reg {A} (f : Reg.Registry -> A * Reg.Registry) :
  (forall s, R s (with_registry (snd (f (registry (sv s)))) s)) -> preserves R (reg_op f).
Proof. intros Hf s. specialize (Hf s). unfold reg_op. by destruct (f _). Qed.
End Preserves.

#[export] Hint Resolve preserves_bind preserves_lift preserves_ret preserves_fail preserves_gets preserves_expect
  preserves_world preserves_pending preserves_send preserves_send_json preserves_lock : nsmt.

(** Every way through a handler is a sequence of such steps. *)
Ltac preserves_go :=
  repeat first
    [ progress intros
    | progress eauto with nsmt typeclass_instances nocore
    | apply preserves_bind
    | match goal with |- context [match ?x with _ => _ end] => destruct x end ].

(** ** What a session can touch *)

Section Isolation.
Context `{Backend} `{Codec} `{HexCodec} `{Ed25519} `{Sha256} `{Aead} `{MemoryPool}.

(** The subscribers of [d]'s sessions. *)
Definition subs_at (d : string) (s : Sess) : list nat := Reg.subscribers (Reg.tenant_at d (registry (sv s))).

(** The shared state of every tenant but [d] is the same, and no channel outside
    [d] received anything. *)
Definition others_same (d : string) (s s' : Sess) : Prop :=
  (forall d', d' <> d ->
     Reg.inner (registry (sv s')) !! d' = Reg.inner (registry (sv s)) !! d' /\
     usage_bytes (sv s') !! d' = usage_bytes (sv s) !! d' /\
     object_owners (sv s') !! d' = object_owners (sv s) !! d') /\
  object_stores (sv s') = object_stores (sv s) /\ tenants s' = tenants s /\ db (sv s') = db (sv s) /\
  subs_at d s' = subs_at d s /\
  forall ch, ch ∉ subs_at d s -> Reg.queues (registry (sv s')) !! ch = Reg.queues (registry (sv s)) !! ch.

#[export] Instance others_same_shared d : SharedRel (others_same d).
Proof.
  split.
  - split; [by intros s|]. intros a b c (A1 & A2 & A3 & A4 & A5 & A6) (B1 & B2 & B3 & B4 & B5 & B6).
    split; [|split_and!; try congruence].
    + intros d' Hd. specialize (A1 d' Hd). specialize (B1 d' Hd). naive_solver congruence.
    + intros ch Hch. rewrite B6, A6; [done|done|congruence].
  - intros s s' (E1 & E2 & E3 & E4 & E5) Et. unfold others_same, subs_at. by rewrite E1, E2, E3, E4, E5, Et.
Qed.

(** Steps on [d]'s own part of it. *)
Lemma keeps_reg_do d f :
  (forall r d', d' <> d -> Reg.inner (f r) !! d' = Reg.inner r !! d') ->
  (forall r, Reg.subscribers (Reg.tenant_at d (f r)) = Reg.subscribers (Reg.tenant_at d r)) ->
  (forall r ch, ch ∉ Reg.subscribers (Reg.tenant_at d r) -> Reg.queues (f r) !! ch = Reg.queues r !! ch) ->
  preserves (others_same d) (reg_do f).
Proof.
  intros F1 F2 F3 s. unfold others_same, subs_at; cbn [reg_do reg_op snd sv registry].
  split_and!; try done; [|by apply F3]. intros d0 Hd. by rewrite F1.
Qed.

Lemma keeps_broadcast d f : preserves (others_same d) (reg_do (Reg.broadcast d f)).
Proof.
  apply keeps_reg_do; intros.
  - by rewrite broadcast_inner.
  - apply subscribers_broadcast.
  - by apply broadcast_queue_out.
Qed.

Lemma keeps_broadcast_except d f x : preserves (others_same d) (reg_do (Reg.broadcast_except d f x)).
Proof.
  apply keeps_reg_do; intros.
  - by rewrite broadcast_except_inner.
  - unfold Reg.tenant_at. by rewrite broadcast_except_inner.
  - by apply broadcast_except_queue_out.
Qed.

Lemma keeps_heartbeat d k now : preserves (others_same d) (reg_do (Reg.heartbeat d k now)).
Proof.
  apply keeps_reg_do; intros; unfold Reg.heartbeat; repeat case_match; try done.
  - by apply lookup_insert_ne.
  - apply subscribers_inner. cbn. by erewrite inner_tenant_at.
Qed.

Lemma keeps_state {A} d (f : ServerState -> A * ServerState) :
  (forall v, registry (snd (f v)) = registry v /\ object_stores (snd (f v)) = object_stores v /\
     db (snd (f v)) = db v /\
     forall d', d' <> d -> usage_bytes (snd (f v)) !! d' = usage_bytes v !! d' /\
       object_owners (snd (f v)) !! d' = object_owners v !! d') ->
  preserves (others_same d) (state_op f).
Proof.
  intros Hf s. unfold others_same, subs_at, state_op. destruct (Hf (sv s)) as (E1 & E2 & E3 & E4).
  destruct (f (sv s)) as [a v]. cbn [snd sv tenants] in *. rewrite E1. split_and!; try done.
  intros d' Hd. destruct (E4 d' Hd). done.
Qed.

Lemma keeps_quota e up d n : preserves (others_same d) (state_op (try_reserve_quota e up d n)).
Proof.
  apply keeps_state. intros v. unfold try_reserve_quota, reserve. repeat case_match; cbn; split_and!; try done.
  all: intros; simplify_eq; split; try done. all: by rewrite lookup_insert_ne.
Qed.

Lemma keeps_owner d b m : preserves (others_same d) (state_op (fun v => (tt, record_object_owner d b m v))).
Proof.
  apply keeps_state. intros v. cbn. split_and!; try done. intros. split; [done|]. by rewrite lookup_insert_ne.
Qed.
End Isolation.

#[export] Hint Resolve keeps_broadcast keeps_broadcast_except keeps_heartbeat keeps_quota keeps_owner : nsmt.

Section FrameIsolation.
Context `{Backend} `{Codec} `{HexCodec} `{Ed25519} `{Sha256} `{Aead} `{MemoryPool}.

Lemma keeps_on_frame c i now f : preserves (others_same (user_domain i)) (on_frame c i now f).
Proof.
  unfold on_frame, on_chunk, on_memory_recall, on_memory_capture, on_file_tree, on_file_diff, on_file_get,
    on_file_put, on_lock_acquire, on_lock_renew, on_lock_release, notify, log_slices, send_error.
  preserves_go.
Qed.

(** tenant isolation of a session.  Whatever frame an authenticated session of
    tenant [d] receives, and whether the handler succeeds, fails or panics, the
    registry entry, the used quota and the object owners of every other tenant, the
    tenants' keys, the object stores and the database are what they were, and no
    channel outside [d]'s subscribers receives a frame. *)
Theorem session_frame_isolation c i now f s :
  others_same (user_domain i) s (snd (on_frame c i now f s)).
Proof. apply keeps_on_frame. Qed.
End FrameIsolation.

(** ** Locks as the frames use them *)

Section LockFrames.
Context `{Backend} `{Codec}.

Lemma send_locks f s : locks (sv (snd (send f s))) = locks (sv s).
Proof. unfold send, mbind_, lift. by destruct (encode f). Qed.

Lemma acquire_locks i l now s :
  locks (sv (snd (on_lock_acquire i l now s))) =
    snd (acquire (LockAcquire.path l) (LockAcquire.requester l) (LockAcquire.ttl_ms l) now (locks (sv s))).
Proof.
  unfold on_lock_acquire. unfold mbind_, lock_op_. destruct (acquire _ _ _ _ _) as [[exp|h] g]; cbn [snd].
  - set (s1 := mkSess _ _ _ _ _). pose proof (send_locks (from_json FrameType.LockGranted 0
      (LockGranted.mk (LockAcquire.path l) exp)) s1) as Hs. unfold send_json.
    by destruct (send _ s1) as [[[]|] s2].
  - apply send_locks.
Qed.

Lemma release_locks i l s :
  locks (sv (snd (on_lock_release i l s))) = snd (release (LockRelease.path l) (LockRelease.requester l) (locks (sv s))).
Proof. unfold on_lock_release, notify. sess_unfold. by destruct (release _ _ _). Qed.
End LockFrames.

(** A lock frame is believed: the handlers take the requester from the message,
    not from the session, and the path as it is, not under the tenant.  So a lock
    one session was granted is freed by a [LOCK_RELEASE] of any other session, of
    any tenant and machine, that names the same path and holder. *)
Theorem lock_frames_trust_requester `{Backend} `{Codec} i j l now exp s :
  fst (acquire (LockAcquire.path l) (LockAcquire.requester l) (LockAcquire.ttl_ms l) now (locks (sv s))) = Ok exp ->
  let s1 := snd (on_lock_acquire i l now s) in
  lock_holder (LockAcquire.path l) (locks (sv s1)) = Some (LockAcquire.requester l) /\
  lock_holder (LockAcquire.path l)
    (locks (sv (snd (on_lock_release j (LockRelease.mk (LockAcquire.path l) (LockAcquire.requester l)) s1)))) = None.
Proof.
  intros Ha. cbv zeta. rewrite release_locks, acquire_locks.
  destruct (acquire _ _ _ _ _) as [r g] eqn:E. cbn in Ha. subst r. apply acquire_granted in E as [_ ->].
  unfold lock_holder, release. cbn [snd LockRelease.path LockRelease.requester]. rewrite lookup_insert_eq.
  cbn [holder]. rewrite decide_True by done. cbn [snd]. by rewrite lookup_delete_eq.
Qed.

Definition other_ident : Ident := mkIdent "acme" "m9" demo_server 7.

Lemma lock_frames_trust_requester_witness :
  lock_holder "plan.md" (locks (sv (snd (on_lock_release (H0 := ref_codec) other_ident (LockRelease.mk "plan.md" "maka@m1")
    (snd (on_lock_acquire (H0 := ref_codec) demo_ident (LockAcquire.mk "plan.md" "maka@m1" 30000) 5 demo_sess)))))) = None.
Proof.
  exact (proj2 (lock_frames_trust_requester (H0 := ref_codec) demo_ident other_ident
    (LockAcquire.mk "plan.md" "maka@m1" 30000) 5 30005 demo_sess eq_refl)).
Defined.

(** A renewal is always confirmed: [LOCK_RENEW] answers LOCK_GRANTED with a
    lease of thirty seconds whatever the table says; when the requester does not
    hold the lock nothing is renewed and the client is told it was. *)
Theorem renew_always_granted `{Backend} `{Codec} l now s :
  let granted := from_json FrameType.LockGranted 0 (LockGranted.mk (LockRenew.path l) (wrap64 (now + 30000))) in
  is_ok (encode granted) = true ->
  fst (on_lock_renew l now s) = Ok tt /\ out (snd (on_lock_renew l now s)) = out s ++ [granted] /\
  (lock_holder (LockRenew.path l) (locks (sv s)) <> Some (LockRenew.requester l) ->
   locks (sv (snd (on_lock_renew l now s))) = locks (sv s)).
Proof.
  cbv zeta. intros He. unfold on_lock_renew. sess_unfold.
  destruct (renew _ _ _ _ _) as [b g] eqn:E. destruct (encode _); [|done]. split_and!; [done|done|].
  intros Hne. destruct (release_renew_nonholder (LockRenew.path l) (LockRenew.requester l) now 30000 _ Hne) as [_ Hr].
  cbn. congruence.
Qed.

Lemma renew_always_granted_witness :
  out (snd (on_lock_renew (H0 := ref_codec) (LockRenew.mk "plan.md" "hermes@m2") 5 demo_sess)) <> [] /\
  locks (sv (snd (on_lock_renew (H0 := ref_codec) (LockRenew.mk "plan.md" "hermes@m2") 5 demo_sess))) = ∅.
Proof.
  destruct (renew_always_granted (H0 := ref_codec) (LockRenew.mk "plan.md" "hermes@m2") 5 demo_sess) as (_ & -> & ->).
  - vm_compute. reflexivity.
  - split; [discriminate|reflexivity].
  - discriminate.
Defined.
