(* ===== verification/Select.v ===== *)
(** * Sessions at the level of the stream

    The ready loop of [nsmt-server/src/session.rs] waits with [tokio::select!] for the
    heartbeat, its channel and [FrameStream::recv] of [nsmt-core/src/wire.rs].  Here the
    bytes of the connection arrive in pieces; a [recv] that has not got its whole
    frame when another branch is taken is dropped, with the bytes it has read. *)

From S2P Require Import Prelude Paths Wire Messages Codec Crypto Store Locks Registry Tenants Db State Tree Memory Session.

(** ** One poll of [recv]

    It has read [buf] of what has arrived: [None] when it waits for more, else its
    result and the bytes it has not read. *)
Definition poll (buf : bytes) : option (result NsmtError (option Frame) * bytes) :=
  if (length buf <? 12)%nat then None
  else
    let header := take 12 buf in
    let rest := drop 12 buf in
    if negb (byte_at 0 header =? MAGIC) then Some (Err (InvalidMagic (byte_at 0 header)), rest)
    else if negb (byte_at 1 header =? PROTOCOL_VERSION) then Some (Err (UnsupportedVersion (byte_at 1 header)), rest)
    else if header_len header >? MAX_PAYLOAD_LEN then Some (Err (FrameTooLarge (header_len header)), rest)
    else
      let n := Z.to_nat (header_len header) in
      if (length rest <? n)%nat then None
      else Some (rmap (fmap (fun f => mkFrame (frame_type f) (flags f) (stream_id f) (take n rest)))
                   (decode (header ++ take n rest)), drop n rest).

(** What reaches the task: bytes, the end of the stream, the heartbeat, a frame
    queued on the channel. *)
Inductive net_event : Set :=
| Bytes (b : bytes)
| Closed
| HeartbeatDue
| Queued.

(** Each [recv] that completes is one turn of the loop; a turn reads at least a
    header. *)
Fixpoint drain (fuel : nat) (buf : bytes) : list event * bytes :=
  match fuel with
  | O => ([], buf)
  | S fuel' =>
      match poll buf with
      | None => ([], buf)
      | Some (r, rest) => let '(es, b) := drain fuel' rest in (Received r :: es, b)
      end
  end.

(** [recv] at the end of the stream. *)
Definition at_end (buf : bytes) : result NsmtError (option Frame) :=
  match buf with
  | [] => Ok None
  | _ => if (length buf <? 12)%nat then Err (Protocol "eof in frame header") else Err (Protocol "eof in frame payload")
  end.

(** The turns of [select!]; [buf] is what the [recv] in flight has read. *)
Fixpoint select_events (buf : bytes) (nets : list net_event) : list event :=
  match nets with
  | [] => []
  | Bytes c :: nets' => let '(es, b) := drain (S (length (buf ++ c))) (buf ++ c) in es ++ select_events b nets'
  | Closed :: nets' => Received (at_end buf) :: select_events [] nets'
  | HeartbeatDue :: nets' => Tick :: select_events [] nets'
  | Queued :: nets' => FromChannel :: select_events [] nets'
  end.

(** ** Lemmas *)

Lemma poll_frame f rest : frame_wf f -> poll (header_of f ++ payload f ++ rest) = Some (Ok (Some f), rest).
Proof.
  intros Hwf. destruct (header_bytes f (payload f ++ rest) Hwf) as (H0 & H1 & H2 & Ht & Hd). unfold poll.
  rewrite Ht, Hd, H0, H1, H2. destruct (Nat.ltb_spec (length (header_of f ++ payload f ++ rest)) 12) as [Hl|_].
  { rewrite length_app, header_of_length in Hl. lia. }
  change (negb (MAGIC =? MAGIC)) with false. change (negb (PROTOCOL_VERSION =? PROTOCOL_VERSION)) with false. cbv iota zeta.
  pose proof (wf_payload f Hwf). destruct (len (payload f) >? MAX_PAYLOAD_LEN) eqn:E; [lia|].
  unfold len. rewrite Nat2Z.id. destruct (Nat.ltb_spec (length (payload f ++ rest)) (length (payload f))) as [Hl|_].
  { rewrite length_app in Hl. lia. }
  rewrite take_app_length, drop_app_length. pose proof (decode_encode_app f [] Hwf) as Dec. rewrite app_nil_r in Dec.
  rewrite Dec. by destruct f.
Qed.

Lemma poll_short f n : frame_wf f -> (n < length (header_of f ++ payload f))%nat ->
  poll (take n (header_of f ++ payload f)) = None.
Proof.
  intros Hwf Hn. unfold poll. destruct (Nat.ltb_spec (length (take n (header_of f ++ payload f))) 12) as [|Hl]; [done|].
  rewrite length_take in Hl. rewrite length_app, header_of_length in Hn.
  assert (take n (header_of f ++ payload f) = header_of f ++ take (n - 12) (payload f)) as ->
    by (rewrite take_app_ge by (rewrite header_of_length; lia); by rewrite header_of_length).
  destruct (header_bytes f (take (n - 12) (payload f)) Hwf) as (H0 & H1 & H2 & Ht & Hd).
  rewrite Ht, Hd, H0, H1, H2. change (negb (MAGIC =? MAGIC)) with false.
  change (negb (PROTOCOL_VERSION =? PROTOCOL_VERSION)) with false. cbv iota zeta.
  pose proof (wf_payload f Hwf). destruct (len (payload f) >? MAX_PAYLOAD_LEN) eqn:E; [lia|].
  unfold len. rewrite Nat2Z.id. destruct (Nat.ltb_spec (length (take (n - 12) (payload f))) (length (payload f))) as [|Hl2]; [done|].
  rewrite length_take in Hl2. lia.
Qed.

(** A poll reads at least a header. *)
Lemma poll_shrinks buf r rest : poll buf = Some (r, rest) -> (length rest < length buf)%nat.
Proof.
  unfold poll. destruct (Nat.ltb_spec (length buf) 12) as [|Hl]; [done|]. cbv zeta.
  repeat (destruct (_ : bool); [first [done|intros [= _ <-]; rewrite length_drop; lia]|]). intros [= _ <-]. rewrite !length_drop. lia.
Qed.

Definition wire_of (f : Frame) : bytes := header_of f ++ payload f.
Definition wires (fs : list Frame) : bytes := concat (map wire_of fs).
Lemma wire_length f : (12 <= length (wire_of f))%nat.
Proof. unfold wire_of. rewrite length_app, header_of_length. lia. Qed.

Definition got (f : Frame) : event := Received (Ok (Some f)).

(** The bytes in flight are less than the next frame. *)
Definition in_flight (b : bytes) (fs : list Frame) : Prop :=
  match fs with [] => b = [] | f :: _ => (length b < length (wire_of f))%nat end.

Lemma drain_frames fs b t fuel :
  Forall frame_wf fs -> b ++ t = wires fs -> (length b < fuel)%nat ->
  exists fs1 fs2 b', fs = fs1 ++ fs2 /\ drain fuel b = (map got fs1, b') /\ b' ++ t = wires fs2 /\ in_flight b' fs2.
Proof.
  intros Hwf. revert b fuel. induction Hwf as [|f fs Hf Hwf IH]; intros b fuel Hb Hfu; (destruct fuel as [|fuel]; [lia|]); cbn [drain].
  - destruct b; [|done]. by exists [], [], [].
  - change (wires (f :: fs)) with (wire_of f ++ wires fs) in Hb. destruct (decide (length b < length (wire_of f))%nat) as [Hl|Hl].
    + assert (b = take (length b) (wire_of f)) as Eb.
      { rewrite <- (take_app_le (wire_of f) (wires fs)) by lia. rewrite <- Hb. by rewrite take_app_length. }
      assert (poll b = None) as -> by (rewrite Eb; by apply poll_short). by exists [], (f :: fs), b.
    + assert (b = wire_of f ++ drop (length (wire_of f)) b) as Eb.
      { rewrite <- (take_drop (length (wire_of f)) b) at 1. f_equal.
        rewrite <- (take_app_le b t) by lia. rewrite Hb. by rewrite take_app_length. }
      set (b2 := drop (length (wire_of f)) b) in *.
      assert (poll b = Some (Ok (Some f), b2)) as ->.
      { rewrite Eb. unfold wire_of. rewrite <- app_assoc. by apply poll_frame. }
      destruct (IH b2 fuel) as (fs1 & fs2 & b' & -> & E & Hb' & Hin).
      { rewrite Eb, <- app_assoc in Hb. by apply app_inv_head in Hb. }
      { pose proof (wire_length f). apply (f_equal length) in Eb. rewrite length_app in Eb. lia. }
      rewrite E. by exists (f :: fs1), fs2, b'.
Qed.

Lemma pieces_arrive fs buf cs rest :
  Forall frame_wf fs -> in_flight buf fs -> buf ++ concat cs = wires fs ->
  select_events buf (map Bytes cs ++ rest) = map got fs ++ select_events [] rest.
Proof.
  revert fs buf. induction cs as [|c cs IH]; intros fs buf Hwf Hin Hb; cbn [map app concat] in *.
  - rewrite app_nil_r in Hb. destruct fs as [|f fs]; cbn [in_flight] in Hin; [by subst|].
    exfalso. rewrite Hb in Hin. change (wires (f :: fs)) with (wire_of f ++ wires fs) in Hin. rewrite length_app in Hin. lia.
  - cbn [select_events]. rewrite app_assoc in Hb.
    destruct (drain_frames fs (buf ++ c) (concat cs) (S (length (buf ++ c))) Hwf Hb ltac:(lia)) as (fs1 & fs2 & b' & -> & -> & Hb' & Hin').
    apply Forall_app in Hwf as [_ Hwf]. rewrite map_app, <- app_assoc. f_equal. by apply IH.
Qed.

(** A turn that is not [recv]. *)
Definition other_turn (n : net_event) : option event :=
  match n with HeartbeatDue => Some Tick | Queued => Some FromChannel | _ => None end.

Lemma cut_frame f k n ev tail rest :
  frame_wf f -> (k < length (wire_of f))%nat -> other_turn n = Some ev ->
  select_events [] (Bytes (take k (wire_of f)) :: n :: Bytes tail :: rest) = ev :: select_events [] (Bytes tail :: rest).
Proof.
  intros Hf Hk Hn.
  assert (select_events [] (Bytes (take k (wire_of f)) :: n :: Bytes tail :: rest) =
    select_events (take k (wire_of f)) (n :: Bytes tail :: rest)) as ->.
  { cbn [select_events app]. unfold wire_of in *. cbn [drain]. by rewrite poll_short. }
  by destruct n; inversion Hn; subst.
Qed.

Lemma bad_magic b rest : (12 <= length b)%nat -> byte_at 0 (take 12 b) <> MAGIC ->
  exists evs, select_events [] (Bytes b :: rest) = Received (Err (InvalidMagic (byte_at 0 (take 12 b)))) :: evs.
Proof.
  intros Hl Hm. cbn [select_events app drain]. unfold poll at 1. destruct (Nat.ltb_spec (length b) 12) as [|_]; [lia|].
  destruct (Z.eqb_spec (byte_at 0 (take 12 b)) MAGIC) as [|_]; [done|]. cbn [negb].
  destruct (drain _ (drop 12 b)) as [es b']. by eexists.
Qed.

(** ** Properties *)

Section Loop.
Context `{Backend} `{Codec} `{HexCodec} `{Ed25519} `{Sha256} `{Aead} `{MemoryPool}.

(** The loop on the turns, all at the same clock reading. *)
Definition loop_at (c : Conn) (i : Ident) (now : Z) (evs : list event) : M unit :=
  ready_loop c i (map (pair now) evs).

Lemma loop_stops c i now e evs s : loop_at c i now (Received (Err e) :: evs) s = (Ok tt, s).
Proof. done. Qed.

Lemma loop_tick c i now evs s :
  loop_at c i now (Tick :: evs) s =
    loop_at c i now evs (snd (reg_do (Reg.heartbeat (user_domain i) (reg_machine i) now) s)).
Proof. done. Qed.
End Loop.

(** However the bytes of a session's frames are cut into pieces, the loop sees these
    frames and no other turns, so long as no other branch is taken while a frame is
    incomplete; between frames the other branches lose nothing. *)
Theorem frames_survive_fragmentation fs cs rest :
  Forall frame_wf fs -> concat cs = wires fs ->
  select_events [] (map Bytes cs ++ rest) = map got fs ++ select_events [] rest.
Proof. intros Hwf Hc. apply pieces_arrive; [done| |done]. destruct fs as [|f fs]; [done|]. pose proof (wire_length f). unfold in_flight. change (length []) with 0%nat. lia. Qed.

Lemma frames_survive_fragmentation_witness :
  select_events [] (map Bytes [take 5 demo_wire; take 10 (drop 5 demo_wire); drop 15 demo_wire] ++ [HeartbeatDue; Closed]) =
    map got demo_frames ++ [Tick; Received (Ok None)].
Proof.
  apply (frames_survive_fragmentation demo_frames _ [HeartbeatDue; Closed]).
  - repeat constructor; vm_compute; congruence.
  - vm_compute. reflexivity.
Defined.

(** C21: [recv] is not cancel safe.  When the heartbeat (or a queued frame) is handled
    while a frame has arrived only in part, that part is lost: the rest is read as a
    new header, and unless it happens to start with the magic byte the loop ends there.
    The session is over although every byte the client sent was correct, and the
    frame it was receiving was not handled. *)
Theorem recv_not_cancel_safe `{Backend} `{Codec} `{HexCodec} `{Ed25519} `{Sha256} `{Aead} `{MemoryPool} c i now f k rest s :
  frame_wf f -> (k < length (wire_of f))%nat -> (12 <= length (drop k (wire_of f)))%nat ->
  byte_at 0 (take 12 (drop k (wire_of f))) <> MAGIC ->
  loop_at c i now (select_events [] (Bytes (take k (wire_of f)) :: HeartbeatDue :: Bytes (drop k (wire_of f)) :: rest)) s =
    (Ok tt, snd (reg_do (Reg.heartbeat (user_domain i) (reg_machine i) now) s)).
Proof.
  intros Hf Hk Hl Hm. rewrite (cut_frame f k HeartbeatDue Tick) by done. rewrite loop_tick.
  destruct (bad_magic (drop k (wire_of f)) rest Hl Hm) as [evs ->]. apply loop_stops.
Qed.

Definition demo_frame : Frame := frame_new FrameType.Heartbeat 0 (as_bytes "hi").

Lemma recv_not_cancel_safe_witness :
  fst (loop_at (H0 := ref_codec) (H5 := demo_pool) demo_conn demo_ident 5 (select_events []
    [Bytes (take 1 (wire_of demo_frame)); HeartbeatDue; Bytes (drop 1 (wire_of demo_frame)); Closed]) demo_sess) = Ok tt.
Proof.
  rewrite (recv_not_cancel_safe (H0 := ref_codec) (H5 := demo_pool) demo_conn demo_ident 5 demo_frame 1 [Closed] demo_sess).
  - reflexivity.
  - repeat constructor; vm_compute; congruence.
  - vm_compute. lia.
  - vm_compute. lia.
  - vm_compute. congruence.
Defined.
