(* ===== verification/System.v ===== *)
(** * The server

    The process of [nsmt-server/src/main.rs]: the accept loop spawns a task per
    connection, and the tasks share the server state, the tenant table and the disk
    with the control API and the two clean-up loops.  A session task moves through
    the phases of [session.rs]; a step of the system is one turn of one task, so
    tasks interleave between the frames they handle. *)

From S2P Require Import Prelude Paths Wire Messages Codec Crypto Store Locks Registry Tenants Db State Tree Memory Session Admin.

(** What the process was started with: its environment, whether info messages are
    logged, the builder of the S3 client, the host's machine id, start time and pid. *)
Record Process : Type := mkProcess {
  p_env : env;
  p_log : bool;
  p_s3 : env -> result string unit;
  p_host : string;
  p_started : Z;
  p_pid : Z;
}.

(** Where a task of [handle] waits; the key is the one of its [REGISTER]. *)
Inductive Phase : Type :=
| AwaitHello
| AwaitAuth (domain nonce : string)
| AwaitRegister (domain : string)
| Ready (i : Ident) (key : string).

Record Task : Type := mkTask { tk_conn : Conn; tk_phase : Phase; tk_pending : option PendingUpload }.

Section ServerRecord.
Context `{Backend}.

Record Server : Type := mkServer {
  g_state : ServerState;
  g_tenants : TenantMap;
  g_world : World;
  g_tasks : gmap nat Task;
}.
End ServerRecord.

(** On whose behalf a step is taken: a tenant's once the client has proved that it
    holds the domain's key. *)
Inductive Actor : Set :=
| OfTenant (d : string)
| Stranger
| AdminApi
| Housekeeping
| Operator.

Section System.
Context `{Backend} `{Codec} `{HexCodec} `{Ed25519} `{Sha256} `{Aead} `{MemoryPool} `{Serde (gmap string TenantRecord)} `{Argon2}.

(** ** The phases of [handle]

    Each takes what [recv] returned; [None]: the task returns. *)

Definition hello_phase (now : Z) (host : string) (r : result NsmtError (option Frame)) : M (option Phase) :=
  f <~ expect "eof before hello" r;
  match frame_type f with
  | FrameType.Hello =>
      hello <~ lift (payload_json (T := Hello.t) f);
      _ <~ send_json FrameType.HelloAck (HelloAck.mk (nonce now host) true);
      ret (Some (AwaitAuth (Hello.user_domain hello) (nonce now host)))
  | _ => fail (SMsg "expected HELLO")
  end.

Definition auth_phase (d auth_nonce : string) (r : result NsmtError (option Frame)) : M (option Phase) :=
  f <~ expect "eof before auth" r;
  auth <~ lift (payload_json (T := Auth.t) f);
  t <~ gets tenants;
  match verify_auth d auth_nonce (Auth.nonce_signature auth) t with
  | Err e => _ <~ send_error "0xE002" ("auth_failed: " +:+ e) None; ret None
  | Ok _ => ret (Some (AwaitRegister d))
  end.

Definition register_phase (c : Conn) (now : Z) (d : string) (r : result NsmtError (option Frame)) : M (option Phase) :=
  f <~ expect "eof before register" r;
  reg <~ lift (payload_json (T := Register.t) f);
  t <~ gets tenants;
  let '(res, t') := verify_register d (Register.machine_id reg) (Register.agent_tag reg)
        (Register.machine_pubkey reg) (Register.machine_signature reg) t in
  _ <~ set_tenants t';
  match res with
  | Err e => _ <~ send_error "0xE004" ("register_failed: " +:+ e) None; ret None
  | Ok _ =>
      let info := machine_info c reg now in
      snapshot <~ reg_op (Reg.register d info);
      _ <~ send_json FrameType.RegisterAck (RegisterAck.mk snapshot);
      tx <~ reg_op (fun r => let '(_, tx, r') := Reg.subscribe d r in (tx, r'));
      _ <~ reg_do (Reg.broadcast_except d (Reg.join_frame info) tx);
      let home := session_home (c_env c) in
      s <~ gets (fun s => s);
      let '(objs, v', w') := object_store_for (s3_build c) (c_env c) home d (sv s) (world s) in
      _ <~ set_sv v';
      _ <~ set_world w';
      ret (Some (Ready (mkIdent d (Register.machine_id reg) (server_fs_new home d objs) tx) (Register.machine_pubkey reg)))
  end.

(** A turn of the ready loop, and the announcement when it was the last. *)
Definition ready_phase (c : Conn) (i : Ident) (key : string) (now : Z) (ev : event) : M (option Phase) :=
  go <~ on_event c i now ev;
  if go then ret (Some (Ready i key)) else _ <~ session_end i; ret None.

(** Before the ready loop a task only waits for frames. *)
Definition task_phase (c : Conn) (now : Z) (host : string) (ph : Phase) (ev : event) : M (option Phase) :=
  match ph, ev with
  | Ready i key, _ => ready_phase c i key now ev
  | AwaitHello, Received r => hello_phase now host r
  | AwaitAuth d n, Received r => auth_phase d n r
  | AwaitRegister d, Received r => register_phase c now d r
  | _, _ => ret (Some ph)
  end.

(** A task that returns, fails or panics drops its receiver. *)
Definition drop_phase (ph : Phase) (s : Sess) : Sess :=
  match ph with
  | Ready i _ => snd (reg_do (Reg.close_chan (my_tx i)) s)
  | _ => s
  end.

(** ** Steps *)

Definition view (t : Task) (g : Server) : Sess :=
  mkSess (g_state g) (g_tenants g) (g_world g) (tk_pending t) [].

(** One turn of task [n]: the frames it sends and the server after it. *)
Definition turn (p : Process) (n : nat) (t : Task) (now : Z) (ev : event) (g : Server) : list Frame * Server :=
  let '(r, s) := task_phase (tk_conn t) now (p_host p) (tk_phase t) ev (view t g) in
  match r with
  | Ok (Some ph) =>
      (out s, mkServer (sv s) (tenants s) (world s) (<[n := mkTask (tk_conn t) ph (pending_upload s)]> (g_tasks g)))
  | _ =>
      let s' := drop_phase (tk_phase t) s in
      (out s', mkServer (sv s') (tenants s') (world s') (delete n (g_tasks g)))
  end.

(** A connection is accepted. *)
Definition conn_of (p : Process) (remote : string) (db_up : bool) : Conn :=
  mkConn (p_env p) (p_log p) (p_s3 p) remote db_up.

Definition accept (p : Process) (n : nat) (remote : string) (db_up : bool) (g : Server) : Server :=
  mkServer (g_state g) (g_tenants g) (g_world g)
    (<[n := mkTask (conn_of p remote db_up) AwaitHello None]> (g_tasks g)).

(** The control API. *)
Definition admin_cfg (p : Process) : AdminCfg := spawn_cfg (p_env p) (p_started p) (p_pid p).
Definition sys_of (g : Server) : Sys := mkSys (g_state g) (g_tenants g) (disk (g_world g)).
Definition with_sys (s : Sys) (g : Server) : Server :=
  mkServer (sys_state s) (sys_tenants s) (Store.set_disk (sys_disk s) (g_world g)) (g_tasks g).

Definition with_reg (r : Reg.Registry) (g : Server) : Server :=
  let v := g_state g in
  mkServer (mkServerState r (locks v) (db v) (object_stores v) (object_owners v) (usage_bytes v))
    (g_tenants g) (g_world g) (g_tasks g).
Definition with_locks (l : LockTable) (g : Server) : Server :=
  let v := g_state g in
  mkServer (mkServerState (registry v) l (db v) (object_stores v) (object_owners v) (usage_bytes v))
    (g_tenants g) (g_world g) (g_tasks g).

(** [main] on a disk: the state is new, the tenant table is loaded, what was only in
    memory is gone. *)
Definition start (p : Process) (connected : result string UserDb) (w : World) : Server :=
  mkServer (state_new connected) (load (p_env p) (disk w)) (mkWorld (disk w) (bucket w) []) ∅.

Definition phase_actor (ph : Phase) : Actor :=
  match ph with
  | AwaitHello | AwaitAuth _ _ => Stranger
  | AwaitRegister d => OfTenant d
  | Ready i _ => OfTenant (user_domain i)
  end.

(** A turn of a task, a request to the control API that leaves the process running,
    or one that ends it (300 ms after its answer, which nothing in the state shows:
    what other tasks do in between are steps before), so that the supervisor starts
    it again; a step of the clean-up loops; a crash and the next start. *)
Inductive sstep (p : Process) : Actor -> Server -> Server -> Prop :=
| StAccept n remote up g : g_tasks g !! n = None -> sstep p Stranger g (accept p n remote up g)
| StTurn n t now ev g : g_tasks g !! n = Some t -> sstep p (phase_actor (tk_phase t)) g (snd (turn p n t now ev g))
| StAdmin c tok r g j s' : Admin.handle (admin_cfg p) c tok r (sys_of g) = (j, s', None) -> sstep p AdminApi g (with_sys s' g)
| StExit c tok r g j s' code connected : Admin.handle (admin_cfg p) c tok r (sys_of g) = (j, s', Some code) ->
    sstep p Operator g (start p connected (g_world (with_sys s' g)))
| StPrune now d m g : sstep p Housekeeping g (with_reg (Reg.prune_remove now d m (registry (g_state g))) g)
| StLeave d m g : sstep p Housekeeping g (with_reg (Reg.broadcast d (Reg.leave_frame m) (registry (g_state g))) g)
| StCleanup now g : sstep p Housekeeping g (with_locks (cleanup now (locks (g_state g))) g)
| StRestart connected g : sstep p Operator g (start p connected (g_world g)).

(** Runs in which only actors of [who] act. *)
Inductive srun (p : Process) (who : Actor -> Prop) : Server -> Server -> Prop :=
| srun_refl g : srun p who g g
| srun_step a g1 g2 g3 : who a -> sstep p a g1 g2 -> srun p who g2 g3 -> srun p who g1 g3.

Definition sreachable (p : Process) (g : Server) : Prop :=
  exists connected w, srun p (fun _ => True) (start p connected w) g.
End System.
