(* ===== verification/SystemSpec.v ===== *)
(** * What holds of the server as a whole

    Theorems about every state the steps of [System] lead to: what the tasks rely on,
    what one tenant's tasks can do to another, which key speaks for a machine, and
    how a frame gets from one session to another. *)

From S2P Require Import Prelude Paths Wire Messages Codec Crypto Store Locks Registry Tenants Db State Tree Memory Session Admin System.

(** ** The handshake in phases *)

Section Phases.
Context `{Backend} `{Codec} `{HexCodec} `{Ed25519} `{Sha256} `{Aead} `{MemoryPool}.

(** The phases one after the other, with nothing in between. *)
Definition phases (c : Conn) (now : Z) (host : string) (r1 r2 r3 : result NsmtError (option Frame)) : M (option Ident) :=
  p1 <~ hello_phase now host r1;
  match p1 with
  | Some (AwaitAuth d n) =>
      p2 <~ auth_phase d n r2;
      match p2 with
      | Some (AwaitRegister d) =>
          p3 <~ register_phase c now d r3;
          ret (match p3 with Some (Ready i _) => Some i | _ => None end)
      | _ => ret None
      end
  | _ => ret None
  end.

Lemma bind_assoc {A B D} (m : M A) (f : A -> M B) (g : B -> M D) s :
  mbind_ (mbind_ m f) g s = mbind_ m (fun a => mbind_ (f a) g) s.
Proof. unfold mbind_. by destruct (m s) as [[a|e] s1]. Qed.

Lemma bind_ext {A B} (m : M A) (f g : A -> M B) s :
  (forall a s1, m s = (Ok a, s1) -> f a s1 = g a s1) -> mbind_ m f s = mbind_ m g s.
Proof. intros Hfg. unfold mbind_. destruct (m s) as [[a|e] s1]; [by apply Hfg|done]. Qed.

Lemma bind_ret {A B} (a : A) (k : A -> M B) s : mbind_ (ret a) k s = k a s.
Proof. done. Qed.

Lemma bind_gets {A B} (f : Sess -> A) (k : A -> M B) s : mbind_ (gets f) k s = k (f s) s.
Proof. done. Qed.

(** The phases with no other task in between are the handshake. *)
Lemma handshake_phases c now host r1 r2 r3 s :
  handshake c now host r1 r2 r3 s = phases c now host r1 r2 r3 s.
Proof.
  unfold handshake, phases, hello_phase, auth_phase, register_phase. rewrite bind_assoc. apply bind_ext; intros f1 s1 _.
  destruct (frame_type f1); try reflexivity.
  do 2 (rewrite bind_assoc; apply bind_ext; intros ? ? _). rewrite bind_ret.
  rewrite bind_assoc. apply bind_ext; intros f2 s4 _. rewrite bind_assoc. apply bind_ext; intros auth s5 _.
  rewrite bind_assoc. apply bind_ext; intros t s6 [= <- <-].
  destruct (verify_auth _ _ _ _); [|rewrite bind_assoc; by apply bind_ext]. rewrite bind_ret, bind_assoc.
  apply bind_ext; intros f3 s7 [_ ->]%expect_ok. rewrite bind_assoc. apply bind_ext; intros reg s8 [_ ->]%lift_ok.
  rewrite bind_assoc, bind_gets.
  destruct (verify_register _ _ _ _ _ _) as [[u|e] t']; repeat (rewrite bind_assoc; apply bind_ext; intros ? ? _); [|done].
  destruct (object_store_for _ _ _ _ _ _) as [[objs v'] w']. done.
Qed.
End Phases.

(** ** What only grows *)

(** The registry grows: it stays well formed, no subscription or open channel is
    lost. *)
Record grows (r r' : Reg.Registry) : Prop := {
  gr_wf : Reg.registry_wf r -> Reg.registry_wf r';
  gr_subs : forall d ch, ch ∈ Reg.subscribers (Reg.tenant_at d r) -> ch ∈ Reg.subscribers (Reg.tenant_at d r');
  gr_open : forall ch, is_Some (Reg.queues r !! ch) -> is_Some (Reg.queues r' !! ch);
}.

#[export] Instance grows_preorder : PreOrder grows.
Proof. split; [by intros r|]. intros a b c [A1 A2 A3] [B1 B2 B3]. split; eauto. Qed.

Lemma subs_fresh r d ch : Reg.registry_wf r -> ch ∈ Reg.subscribers (Reg.tenant_at d r) -> (ch < Reg.next_chan r)%nat.
Proof.
  intros Hwf Hc. destruct (tenant_at_cases d r) as [E|[_ E]]; [by eapply Reg.wf_fresh|]. rewrite E in Hc. set_solver.
Qed.

Section Grows.
Context `{Codec}.

(** A step of the registry that leaves the channels open. *)
Lemma grows_step r r' :
  Reg.step r r' -> (forall d, Reg.subscribers (Reg.tenant_at d r') = Reg.subscribers (Reg.tenant_at d r)) ->
  (forall ch, is_Some (Reg.queues r !! ch) -> is_Some (Reg.queues r' !! ch)) -> grows r r'.
Proof. intros Hs Hsub Ho. split; [by eauto using step_wf| |done]. intros d ch. by rewrite Hsub. Qed.

Lemma fold_open (h : gmap nat (list Frame) -> nat -> gmap nat (list Frame)) l q ch :
  (forall q c, is_Some (q !! ch) -> is_Some (h q c !! ch)) -> is_Some (q !! ch) -> is_Some (fold_left h l q !! ch).
Proof. intros Hh. revert q. induction l as [|c l IH]; intros q Hq; [done|]. cbn. auto. Qed.

Lemma chan_send_open c f q ch : is_Some (q !! ch) -> is_Some (Reg.chan_send c f q !! ch).
Proof. intros [x Hx]. unfold Reg.chan_send. 
  destruct (decide (c = ch)) as [->|]; [rewrite lookup_alter_eq, Hx; by eexists|rewrite lookup_alter_ne by done; by eexists].
Qed.

Lemma grows_broadcast d f r : grows r (Reg.broadcast d f r).
Proof.
  apply grows_step; [constructor|intros; apply subscribers_broadcast|]. intros ch Hc. unfold Reg.broadcast.
  destruct (_ !! d); [|done]. apply fold_open; [|done]. intros. by apply chan_send_open.
Qed.

Lemma grows_broadcast_except d f x r : grows r (Reg.broadcast_except d f x r).
Proof.
  apply grows_step; [constructor| |].
  - intros d'. unfold Reg.tenant_at. by rewrite broadcast_except_inner.
  - intros ch Hc. unfold Reg.broadcast_except. destruct (_ !! d); [|done]. apply fold_open; [|done].
    intros. case_decide; [done|]. by apply chan_send_open.
Qed.

Lemma grows_heartbeat d m now r : grows r (Reg.heartbeat d m now r).
Proof.
  apply grows_step; [constructor| |]; unfold Reg.heartbeat; repeat case_match; try done.
  intros d'. apply subscribers_inner. cbn. by erewrite inner_tenant_at.
Qed.

Lemma grows_register d info r : grows r (snd (Reg.register d info r)).
Proof. apply grows_step; [constructor| |done]. intros d'. by apply subscribers_inner. Qed.

Lemma grows_prune now d m r : grows r (Reg.prune_remove now d m r).
Proof.
  apply grows_step; [constructor| |]; unfold Reg.prune_remove; repeat case_match; try done.
  intros d'. apply subscribers_inner. cbn. by erewrite inner_tenant_at.
Qed.

Lemma grows_take ch r : grows r (snd (take_queued ch r)).
Proof.
  unfold take_queued. destruct (Reg.queues r !! ch) as [[|f q]|] eqn:E; [done| |done]. split; [|done|].
  - by intros [? ? ? ?].
  - cbn. intros c Hc. destruct (decide (c = ch)) as [->|]; [rewrite lookup_insert_eq; by eexists|by rewrite lookup_insert_ne].
Qed.

(** The new channel of a session. *)
Lemma subscribed d r :
  let r' := snd (Reg.subscribe d r) in
  Reg.next_chan r ∈ Reg.subscribers (Reg.tenant_at d r') /\ is_Some (Reg.queues r' !! Reg.next_chan r).
Proof.
  cbn. unfold Reg.tenant_at at 1. cbn. rewrite !lookup_insert_eq. cbn. split; [set_solver|by eexists].
Qed.

Lemma grows_subscribe d r : grows r (snd (Reg.subscribe d r)).
Proof.
  split; [apply subscribe_wf| |].
  - intros d' ch Hc. cbn. unfold Reg.tenant_at at 1. cbn. destruct (decide (d' = d)) as [->|].
    + rewrite lookup_insert_eq. cbn. set_solver.
    + by rewrite lookup_insert_ne.
  - intros ch Hc. cbn. destruct (decide (ch = Reg.next_chan r)) as [->|];
      [rewrite lookup_insert_eq; by eexists|by rewrite lookup_insert_ne].
Qed.
End Grows.

#[export] Hint Resolve grows_broadcast grows_broadcast_except grows_heartbeat grows_register grows_prune grows_take
  grows_subscribe : nsmt.

Section Evolves.
Context `{Backend} `{Codec} `{HexCodec} `{Ed25519} `{Sha256} `{Aead} `{MemoryPool}.

(** What every turn of a task does to the shared state: channels, pinned machine
    keys and object stores are never lost. *)
Record evolves (e : env) (s s' : Sess) : Prop := {
  ev_reg : grows (registry (sv s)) (registry (sv s'));
  ev_pins : forall d m k, machine_key d m (tenants s) = Some k -> machine_key d m (tenants s') = Some k;
  ev_stores : forall d st, object_stores (sv s) !! d = Some st -> object_stores (sv s') !! d = Some st;
  ev_shape : stores_wf e (session_home e) (sv s) -> stores_wf e (session_home e) (sv s');
}.

#[export] Instance evolves_shared e : SharedRel (evolves e).
Proof.
  split.
  - split; [by intros s|]. intros a b c [A1 A2 A3 A4] [B1 B2 B3 B4]. split; eauto. by etransitivity.
  - intros s s' (E1 & E2 & E3 & E4 & E5) Et. split; rewrite ?E1, ?Et, ?E3; try done. unfold stores_wf. by rewrite E3.
Qed.

Lemma evolves_reg {A} e (f : Reg.Registry -> A * Reg.Registry) :
  (forall r, grows r (snd (f r))) -> preserves (evolves e) (reg_op f).
Proof. intros Hf. apply preserves_reg. intros s. by split. Qed.

Lemma evolves_subscribe e d :
  preserves (evolves e) (reg_op (fun r => let '(_, tx, r') := Reg.subscribe d r in (tx, r'))).
Proof. apply evolves_reg. intros r. apply grows_subscribe. Qed.

Lemma evolves_reg_do e f : (forall r, grows r (f r)) -> preserves (evolves e) (reg_do f).
Proof. intros Hf. by apply evolves_reg. Qed.

Lemma evolves_state {A} e (f : ServerState -> A * ServerState) :
  (forall v, registry (snd (f v)) = registry v /\ object_stores (snd (f v)) = object_stores v) ->
  preserves (evolves e) (state_op f).
Proof.
  intros Hf s. destruct (Hf (sv s)) as [E1 E2]. unfold state_op. destruct (f (sv s)) as [a v]. cbn in *.
  split; cbn; rewrite ?E1, ?E2; try done. unfold stores_wf. by rewrite E2.
Qed.

Lemma evolves_quota e en up d n : preserves (evolves e) (state_op (try_reserve_quota en up d n)).
Proof. apply evolves_state. intros v. unfold try_reserve_quota. by destruct (reserve _ _ _ _). Qed.

Lemma evolves_owner e d b m : preserves (evolves e) (state_op (fun v => (tt, record_object_owner d b m v))).
Proof. by apply evolves_state. Qed.
End Evolves.

#[export] Hint Resolve evolves_reg evolves_reg_do evolves_subscribe evolves_quota evolves_owner : nsmt.

Section Turns.
Context `{Backend} `{Codec} `{HexCodec} `{Ed25519} `{Sha256} `{Aead} `{MemoryPool}.

Lemma on_frame_evolves e c i now f : preserves (evolves e) (on_frame c i now f).
Proof.
  unfold on_frame, on_chunk, on_memory_recall, on_memory_capture, on_file_tree, on_file_diff, on_file_get,
    on_file_put, on_lock_acquire, on_lock_renew, on_lock_release, notify, log_slices, send_error.
  preserves_go.
Qed.

Lemma session_end_evolves e i : preserves (evolves e) (session_end i).
Proof. unfold session_end. preserves_go. Qed.

Lemma on_event_evolves e c i now ev : preserves (evolves e) (on_event c i now ev).
Proof.
  destruct ev as [| |[[f|]|x]]; cbn [on_event]; try (by preserves_go).
  - apply preserves_bind; [preserves_go|]. intros [f|]; [|preserves_go]. intros s.
    pose proof (preserves_send (R := evolves e) f s) as Hs. by destruct (send f s) as [[u|x] s'].
  - apply preserves_bind; [apply on_frame_evolves|preserves_go].
Qed.

(** The tenant's store is the one on record from now on. *)
Lemma object_store_for_records build e base d st w s st' w' :
  object_store_for build e base d st w = (s, st', w') ->
  registry st' = registry st /\ object_stores st' !! d = Some s /\
  (forall d' x, object_stores st !! d' = Some x -> object_stores st' !! d' = Some x) /\
  object_owners st' = object_owners st /\ usage_bytes st' = usage_bytes st.
Proof.
  unfold object_store_for. destruct (object_stores st !! d) as [s0|] eqn:E; [by intros [= <- <- <-]|].
  destruct (from_env_tenant _ _ _ _ _) as [s1 w1]. intros [= <- <- <-]. cbn. rewrite lookup_insert_eq. split_and!; [done..| |done|done].
  intros d' x Hx. rewrite lookup_insert_ne; [done|]. by intros ->; rewrite E in Hx.
Qed.

Lemma hello_phase_evolves e now host r : preserves (evolves e) (hello_phase now host r).
Proof. unfold hello_phase. preserves_go. Qed.

Lemma auth_phase_evolves e d n r : preserves (evolves e) (auth_phase d n r).
Proof. unfold auth_phase, send_error. preserves_go. Qed.

Lemma register_phase_evolves `{!BackendLaws} c now d r : preserves (evolves (c_env c)) (register_phase c now d r).
Proof.
  unfold register_phase. apply preserves_bind; [preserves_go|]. intros f.
  apply preserves_bind; [preserves_go|]. intros reg s. rewrite bind_gets.
  destruct (verify_register _ _ _ _ _ _) as [res t'] eqn:Ev.
  transitivity (mkSess (sv s) t' (world s) (pending_upload s) (out s)).
  { split; cbn; try done. intros d' m k Hk. eapply tstep_pinned; [exact Hk|].
    pose proof (TsRegister d (Register.machine_id reg) (Register.agent_tag reg) (Register.machine_pubkey reg)
      (Register.machine_signature reg) (tenants s)) as Hs. by rewrite Ev in Hs. }
  set (s1 := mkSess _ _ _ _ _). change (mbind_ (set_tenants t') ?k s) with (k tt s1). cbv beta.
  clearbody s1. revert s1. destruct res as [u|x]; [|unfold send_error; by preserves_go].
  match goal with |- forall s1, evolves ?e s1 (snd (?m s1)) => change (preserves (evolves e) m) end.
  do 4 (apply preserves_bind; [preserves_go|intros ?]). intros s2. rewrite bind_gets.
  destruct (object_store_for _ _ _ _ _ _) as [[objs v'] w'] eqn:Eo. cbn.
  pose proof (object_store_for_records _ _ _ _ _ _ _ _ _ Eo) as (Er & _ & Hs & _ & _).
  split; cbn; rewrite ?Er; [done|done|done|]. intros Hwf. by destruct (object_store_for_wf _ _ _ _ _ _ _ _ _ Hwf Eo).
Qed.

(** What the ready loop of a task relies on. *)
Record ready_ok (e : env) (i : Ident) (key : string) (v : ServerState) (ts : TenantMap) : Prop := {
  ro_pin : machine_key (user_domain i) (reg_machine i) ts = Some key;
  ro_sub : my_tx i ∈ Reg.subscribers (Reg.tenant_at (user_domain i) (registry v));
  ro_open : is_Some (Reg.queues (registry v) !! my_tx i);
  ro_store : exists objs, object_stores v !! user_domain i = Some objs /\
    server_fs i = server_fs_new (session_home e) (user_domain i) objs;
}.

Lemma ready_evolves e i key s s' : evolves e s s' -> ready_ok e i key (sv s) (tenants s) -> ready_ok e i key (sv s') (tenants s').
Proof. intros [[G1 G2 G3] E2 E3 E4] [R1 R2 R3 (o & R4 & R5)]. split; eauto. Qed.

(** Where a registration leads to. *)
Lemma register_phase_ready c now d r s ph s' :
  register_phase c now d r s = (Ok (Some ph), s') ->
  exists i key, ph = Ready i key /\ user_domain i = d /\ my_tx i = Reg.next_chan (registry (sv s)) /\
    ready_ok (c_env c) i key (sv s') (tenants s').
Proof.
  intros Hrun. unfold register_phase in Hrun. bind_inv Hrun E1. apply expect_ok in E1 as [_ ->].
  bind_inv Hrun E2. apply lift_ok in E2 as [_ ->]. rewrite bind_gets in Hrun.
  destruct (verify_register _ _ _ _ _ _) as [[[]|e] t'] eqn:Ev; bind_inv Hrun E3; injection E3 as <- <-.
  2:{ bind_inv Hrun E4. by apply send_json_ok in E4 as ->. }
  apply register_pins in Ev as [Hpin _].
  bind_inv Hrun E4. apply reg_op_ok in E4 as [-> ->]. bind_inv Hrun E5. apply send_json_ok in E5 as ->.
  bind_inv Hrun E6. apply reg_op_ok in E6 as [-> ->]. bind_inv Hrun E7. apply reg_do_ok in E7 as ->.
  rewrite bind_gets in Hrun. destruct (object_store_for _ _ _ _ _ _) as [[objs v'] w'] eqn:Eo.
  apply object_store_for_records in Eo as (Er & Hobj & _ & _ & _).
  bind_inv Hrun E8. injection E8 as <- <-. bind_inv Hrun E9. injection E9 as <- <-. injection Hrun as <- <-.
  eexists _, _. split_and!; [done|done|done|]. set (r0 := snd (Reg.register d (machine_info c x0 now) (registry (sv s)))) in *.
  destruct (subscribed d r0) as [Hsub Hopen]. split; cbn; [done| | |by eexists].
  all: rewrite Er; cbn.
  - apply (gr_subs _ _ (grows_broadcast_except _ _ _ _)). exact Hsub.
  - apply (gr_open _ _ (grows_broadcast_except _ _ _ _)). exact Hopen.
Qed.

Lemma ready_phase_evolves e c i key now ev : preserves (evolves e) (ready_phase c i key now ev).
Proof.
  apply preserves_bind; [apply on_event_evolves|intros []; [apply preserves_ret|]].
  apply preserves_bind; [apply session_end_evolves|intros []; apply preserves_ret].
Qed.

Lemma ready_phase_next c i key now ev s ph s' : ready_phase c i key now ev s = (Ok (Some ph), s') -> ph = Ready i key.
Proof. intros Hrun. unfold ready_phase in Hrun. bind_inv Hrun E1. destruct x; [by injection Hrun|by bind_inv Hrun E2]. Qed.

Lemma task_phase_evolves `{!BackendLaws} c now host ph ev : preserves (evolves (c_env c)) (task_phase c now host ph ev).
Proof.
  destruct ph as [|d n|d|i key], ev as [| |r]; cbn [task_phase]; try apply preserves_ret.
  - apply hello_phase_evolves.
  - apply auth_phase_evolves.
  - apply register_phase_evolves.
  - apply ready_phase_evolves.
  - apply ready_phase_evolves.
  - apply ready_phase_evolves.
Qed.

(** A phase that follows: only a registration makes a new ready loop. *)
Lemma task_phase_next `{!BackendLaws} c now host ph ev s i key s' :
  task_phase c now host ph ev s = (Ok (Some (Ready i key)), s') ->
  ph = Ready i key \/ (exists d, ph = AwaitRegister d) /\ my_tx i = Reg.next_chan (registry (sv s)) /\ ready_ok (c_env c) i key (sv s') (tenants s').
Proof.
  destruct ph as [|d n|d|i0 key0], ev as [| |r]; cbn [task_phase]; try (intros [=]; fail).
  - intros Hrun. unfold hello_phase in Hrun. bind_inv Hrun E1. destruct (frame_type x); try done.
    bind_inv Hrun E2. bind_inv Hrun E3. by injection Hrun.
  - intros Hrun. unfold auth_phase in Hrun. bind_inv Hrun E1. bind_inv Hrun E2. rewrite bind_gets in Hrun.
    destruct (verify_auth _ _ _ _); [done|]. by bind_inv Hrun E3.
  - intros (i' & k' & [= <- <-] & _ & Htx & Hok)%register_phase_ready. right. by eauto.
  - intros [= -> ->]%ready_phase_next. by left.
  - intros [= -> ->]%ready_phase_next. by left.
  - intros [= -> ->]%ready_phase_next. by left.
Qed.
End Turns.

(** ** The invariant *)

Section Invariant.
Context `{BackendLaws} `{Codec} `{HexCodec} `{Ed25519} `{Sha256} `{Aead} `{MemoryPool} `{Serde (gmap string TenantRecord)} `{Argon2}.

(** What holds between any two steps. *)
Record server_wf (p : Process) (g : Server) : Prop := {
  sw_reg : Reg.registry_wf (registry (g_state g));
  sw_stores : stores_wf (p_env p) (session_home (p_env p)) (g_state g);
  sw_conns : forall n t, g_tasks g !! n = Some t -> c_env (tk_conn t) = p_env p;
  sw_ready : forall n t i k, g_tasks g !! n = Some t -> tk_phase t = Ready i k ->
    ready_ok (p_env p) i k (g_state g) (g_tenants g);
  sw_apart : forall n m t u i j k l, g_tasks g !! n = Some t -> g_tasks g !! m = Some u ->
    tk_phase t = Ready i k -> tk_phase u = Ready j l -> my_tx i = my_tx j -> n = m;
}.

Definition shared (g : Server) : Sess := mkSess (g_state g) (g_tenants g) (g_world g) None [].

(** The shared state moves on under the same tasks. *)
Lemma wf_evolve p g s0 s :
  server_wf p g -> sv s0 = g_state g -> tenants s0 = g_tenants g -> evolves (p_env p) s0 s ->
  server_wf p (mkServer (sv s) (tenants s) (world s) (g_tasks g)).
Proof.
  intros [W1 W2 W3 W4 W5] Ev Et He. split; cbn; [|rewrite <- Ev in W2; by apply (ev_shape _ _ _ He)|done| |done].
  - apply (gr_wf _ _ (ev_reg _ _ _ He)). by rewrite Ev.
  - intros n t i k Hn Hp. apply (ready_evolves _ _ _ _ _ He). rewrite Ev, Et. by eapply W4.
Qed.

(** Tasks only end. *)
Lemma wf_tasks p g ts : server_wf p g -> ts ⊆ g_tasks g ->
  server_wf p (mkServer (g_state g) (g_tenants g) (g_world g) ts).
Proof.
  intros [W1 W2 W3 W4 W5] Hs. split; cbn; [done|done|..].
  - intros n t Hn. eapply W3. by eapply lookup_weaken.
  - intros n t i k Hn. eapply W4. by eapply lookup_weaken.
  - intros n m t u i j k l Hn Hm. eapply W5; by eapply lookup_weaken.
Qed.

(** A task goes on in another phase. *)
Lemma wf_task p g n t :
  server_wf p g -> c_env (tk_conn t) = p_env p ->
  (forall i k, tk_phase t = Ready i k -> ready_ok (p_env p) i k (g_state g) (g_tenants g) /\
     forall m u j l, m <> n -> g_tasks g !! m = Some u -> tk_phase u = Ready j l -> my_tx j <> my_tx i) ->
  server_wf p (mkServer (g_state g) (g_tenants g) (g_world g) (<[n := t]> (g_tasks g))).
Proof.
  intros [W1 W2 W3 W4 W5] He Hr. split; cbn; [done|done|..].
  - intros m u [[-> ->]|[Hne Hm]]%lookup_insert_Some; eauto.
  - intros m u i k [[-> ->]|[Hne Hm]]%lookup_insert_Some Hp; [by apply Hr|eauto].
  - intros m m' u u' i j k l [[<- <-]|[Hne Hm]]%lookup_insert_Some [[<- <-]|[Hne' Hm']]%lookup_insert_Some Hp Hp' Htx;
      [done| | |by eapply W5].
    + destruct (Hr i k Hp) as [_ Hx]. by destruct (Hx m' u' j l).
    + destruct (Hr j l Hp') as [_ Hx]. by destruct (Hx m u i k).
Qed.

(** A receiver is dropped with its task. *)
Lemma wf_close p g n t i k :
  server_wf p g -> g_tasks g !! n = Some t -> tk_phase t = Ready i k ->
  server_wf p (with_reg (Reg.close_chan (my_tx i) (registry (g_state g)))
    (mkServer (g_state g) (g_tenants g) (g_world g) (delete n (g_tasks g)))).
Proof.
  intros [W1 W2 W3 W4 W5] Hn Hp. split; cbn.
  - eapply step_wf; [done|apply Reg.StClose].
  - done.
  - intros m u [_ Hm]%lookup_delete_Some. eauto.
  - intros m u j l [Hne Hm]%lookup_delete_Some Hu. destruct (W4 m u j l Hm Hu) as [R1 R2 R3 R4].
    split; [done|done| |done]. cbn. rewrite lookup_delete_ne; [done|]. intros E. apply Hne. by eapply W5.
  - intros m m' u u' j j' l l' [_ Hm]%lookup_delete_Some [_ Hm']%lookup_delete_Some. by eapply W5.
Qed.

Lemma turn_wf p n t now ev g : server_wf p g -> g_tasks g !! n = Some t -> server_wf p (snd (turn p n t now ev g)).
Proof.
  intros Hwf Hn. unfold turn. pose proof (sw_conns _ _ Hwf _ _ Hn) as He.
  pose proof (task_phase_evolves (tk_conn t) now (p_host p) (tk_phase t) ev (view t g)) as Hev. rewrite He in Hev.
  destruct (task_phase _ _ _ _ _ _) as [r s] eqn:Er. cbn [snd] in Hev.
  pose proof (wf_evolve p g (view t g) s Hwf eq_refl eq_refl Hev) as W.
  set (g1 := mkServer (sv s) (tenants s) (world s) (g_tasks g)) in W.
  assert (server_wf p (snd (let s' := drop_phase (tk_phase t) s in
    (out s', mkServer (sv s') (tenants s') (world s') (delete n (g_tasks g)))))) as Hend.
  { destruct (tk_phase t) as [|d nn|d|i k] eqn:Ep; cbn [drop_phase snd]; try (exact (wf_tasks p g1 _ W (delete_subseteq _ _))).
    exact (wf_close p g1 n t i k W Hn Ep). }
  destruct r as [[ph|]|x]; [|exact Hend..]. cbn [snd].
  apply (wf_task p g1 n (mkTask (tk_conn t) ph (pending_upload s)) W He). cbn [tk_phase]. intros i k ->.
  apply task_phase_next in Er as [Ep|(_ & Htx & Hok)].
  - split; [by eapply (sw_ready _ _ W)|]. intros m u j l Hne Hm Hu E. apply Hne. by eapply (sw_apart _ _ W).
  - rewrite He in Hok. split; [exact Hok|]. intros m u j l Hne Hm Hu E.
    pose proof (ro_sub _ _ _ _ _ (sw_ready _ _ Hwf _ _ _ _ Hm Hu)) as Hsub.
    apply (subs_fresh _ _ _ (sw_reg _ _ Hwf)) in Hsub. rewrite E, Htx in Hsub. cbn in Hsub. lia.
Qed.

Lemma admin_evolves cfg c tok r g :
  evolves (p_env cfg) (shared g) (shared (with_sys (snd (fst (Admin.handle (admin_cfg cfg) c tok r (sys_of g)))) g)).
Proof.
  destruct (handle_contained (admin_cfg cfg) c tok r (sys_of g)) as [(E1 & E2 & E3 & E4 & E5) Hpin _ _].
  cbn in E1, E3, Hpin. split; cbn; rewrite ?E1, ?E3; [done|done|done|]. unfold stores_wf. by rewrite E3.
Qed.

Lemma reg_evolves e g r : grows (registry (g_state g)) r -> evolves e (shared g) (shared (with_reg r g)).
Proof. by split. Qed.

Lemma start_wf p connected w : server_wf p (start p connected w).
Proof. split; cbn; [apply registry_default_wf|intros d s; cbn; by rewrite lookup_empty|..]; intros *; by rewrite lookup_empty. Qed.

Lemma sstep_wf p a g g' : server_wf p g -> sstep p a g g' -> server_wf p g'.
Proof.
  intros Hwf Hs. destruct Hs as [n remote up g Hn|n t now ev g Hn|c tok r g j s' Hj|c tok r g j s' code connected Hj|now d m g|d m g|now g|connected g].
  - by apply wf_task.
  - by apply turn_wf.
  - pose proof (wf_evolve p g (shared g) _ Hwf eq_refl eq_refl (admin_evolves p c tok r g)) as Hs. by rewrite Hj in Hs.
  - apply start_wf.
  - refine (wf_evolve p g (shared g) _ Hwf eq_refl eq_refl (reg_evolves _ g _ _)). apply grows_prune.
  - refine (wf_evolve p g (shared g) _ Hwf eq_refl eq_refl (reg_evolves _ g _ _)). apply grows_broadcast.
  - refine (wf_evolve p g (shared g) (shared (with_locks (cleanup now (locks (g_state g))) g)) Hwf eq_refl eq_refl _).
    by apply shared_same.
  - apply start_wf.
Qed.

Lemma srun_wf p who g g' : server_wf p g -> srun p who g g' -> server_wf p g'.
Proof. intros Hwf Hr. induction Hr; [done|]. eauto using sstep_wf. Qed.
End Invariant.

(** ** Tenants apart *)

Section Apart.
Context `{Backend} `{Codec} `{HexCodec} `{Ed25519} `{Sha256} `{Aead} `{MemoryPool}.

(** The tenant's part of the shared state: its registry entry, its used bytes, its
    object owners and the queues of its sessions. *)
Record untouched (d : string) (v v' : ServerState) : Prop := {
  un_entry : Reg.inner (registry v') !! d = Reg.inner (registry v) !! d;
  un_usage : usage_bytes v' !! d = usage_bytes v !! d;
  un_owners : object_owners v' !! d = object_owners v !! d;
  un_queues : forall ch, ch ∈ Reg.subscribers (Reg.tenant_at d (registry v)) ->
    Reg.queues (registry v') !! ch = Reg.queues (registry v) !! ch;
}.

Lemma untouched_refl d v : untouched d v v.
Proof. by split. Qed.

Lemma untouched_trans d a b c : untouched d a b -> untouched d b c -> untouched d a c.
Proof.
  intros [A1 A2 A3 A4] [B1 B2 B3 B4]. split; try congruence. intros ch Hc. rewrite B4, A4; [done|done|].
  unfold Reg.tenant_at in *. by rewrite A1.
Qed.

Definition spares (d : string) (s s' : Sess) : Prop :=
  Reg.registry_wf (registry (sv s)) -> Reg.registry_wf (registry (sv s')) /\ untouched d (sv s) (sv s').

#[export] Instance spares_shared d : SharedRel (spares d).
Proof.
  split.
  - split; [by intros s Hs; split|]. intros a b c HA HB Hwf. destruct (HA Hwf) as [Hb Ha]. destruct (HB Hb) as [Hc Hbc].
    split; [done|]. by eapply untouched_trans.
  - intros s s' (E1 & E2 & E3 & E4 & E5) Et Hwf. rewrite E1. split; [done|]. split; by rewrite ?E1, ?E4, ?E5.
Qed.

(** A channel of another tenant's session. *)
Lemma foreign_chan d d0 r ch c :
  Reg.registry_wf r -> d0 <> d -> ch ∈ Reg.subscribers (Reg.tenant_at d r) -> c ∈ Reg.subscribers (Reg.tenant_at d0 r) -> ch <> c.
Proof.
  intros Hwf Hne Hc Hc0 ->. destruct (tenant_at_cases d r) as [Ed|[_ Ed]]; [|rewrite Ed in Hc; set_solver].
  destruct (tenant_at_cases d0 r) as [E0|[_ E0]]; [|rewrite E0 in Hc0; set_solver].
  apply Hne. exact (Reg.wf_one _ Hwf _ _ _ _ _ E0 Ed Hc0 Hc).
Qed.

(** A frame of another tenant. *)
Lemma others_spares d d0 s s' :
  d0 <> d -> others_same d0 s s' -> (Reg.registry_wf (registry (sv s)) -> Reg.registry_wf (registry (sv s'))) -> spares d s s'.
Proof.
  intros Hne (Ho & _ & _ & _ & _ & Hq) Hwf' Hwf. split; [auto|]. destruct (Ho d ltac:(done)) as (E1 & E2 & E3). split; [done..|].
  intros ch Hc. apply Hq. intros Hc0. by apply (foreign_chan d d0 _ ch ch Hwf Hne Hc Hc0).
Qed.

Lemma preserves_spares {A} d d0 (m : M A) e :
  d0 <> d -> preserves (others_same d0) m -> preserves (evolves e) m -> preserves (spares d) m.
Proof. intros Hne Ho He s. apply (others_spares d d0); [done|apply Ho|]. apply (gr_wf _ _ (ev_reg _ _ _ (He s))). Qed.

(** Registering with another tenant. *)
Lemma spares_register d d0 info : d0 <> d -> preserves (spares d) (reg_op (Reg.register d0 info)).
Proof.
  intros Hne. apply preserves_reg. intros s Hwf. split; [by apply registry_register_wf|].
  split; cbn; [by rewrite lookup_insert_ne|done..].
Qed.

Lemma spares_subscribe d d0 :
  d0 <> d -> preserves (spares d) (reg_op (fun r => let '(_, tx, r') := Reg.subscribe d0 r in (tx, r'))).
Proof.
  intros Hne. apply preserves_reg. intros s Hwf. split; [by apply (subscribe_wf d0)|].
  split; cbn; [by rewrite lookup_insert_ne|done..|]. intros ch Hc%subs_fresh; [|done]. by rewrite lookup_insert_ne by lia.
Qed.

Lemma spares_broadcast_except d d0 f x : d0 <> d -> preserves (spares d) (reg_do (Reg.broadcast_except d0 f x)).
Proof.
  intros Hne. eapply (preserves_spares d d0 _ (fun _ => None)); [done|apply keeps_broadcast_except|].
  apply evolves_reg_do. intros r. apply grows_broadcast_except.
Qed.

Lemma register_phase_spares c now d d0 r : d0 <> d -> preserves (spares d) (register_phase c now d0 r).
Proof.
  intros Hne. unfold register_phase. apply preserves_bind; [apply preserves_expect|intros f].
  apply preserves_bind; [apply preserves_lift|intros reg]. apply preserves_bind; [apply preserves_gets|intros t].
  destruct (verify_register _ _ _ _ _ _) as [res t']. apply preserves_bind; [by intros s Hwf; split|intros []].
  destruct res as [u|x]; [|unfold send_error; by preserves_go].
  apply preserves_bind; [by apply spares_register|intros snapshot].
  apply preserves_bind; [apply preserves_send_json|intros _]. apply preserves_bind; [by apply spares_subscribe|intros tx].
  apply preserves_bind; [by apply spares_broadcast_except|intros _ s]. rewrite bind_gets.
  destruct (object_store_for _ _ _ _ _ _) as [[objs v'] w'] eqn:Eo.
  apply object_store_for_records in Eo as (Er & _ & _ & Eo & Eu). intros Hwf. cbn. rewrite Er.
  split; [done|]. split; cbn; by rewrite ?Er, ?Eo, ?Eu.
Qed.

Lemma take_spares d d0 ch s :
  d0 <> d -> ch ∈ Reg.subscribers (Reg.tenant_at d0 (registry (sv s))) ->
  spares d s (with_registry (snd (take_queued ch (registry (sv s)))) s).
Proof.
  intros Hne Hsub Hwf. split; [exact (gr_wf _ _ (grows_take ch _) Hwf)|]. unfold take_queued.
  destruct (Reg.queues (registry (sv s)) !! ch) as [[|f q]|]; [by split| |by split].
  split; cbn; [done..|]. intros c Hc. apply lookup_insert_ne. intros ->.
  by apply (foreign_chan d d0 (registry (sv s)) c c).
Qed.

(** A turn of a ready loop: its own channel is the tenant's. *)
Lemma on_event_spares c i now ev d s :
  user_domain i <> d -> my_tx i ∈ Reg.subscribers (Reg.tenant_at (user_domain i) (registry (sv s))) ->
  spares d s (snd (on_event c i now ev s)).
Proof.
  intros Hne Hsub. destruct ev as [| |[[f|]|x]]; cbn [on_event]; try (by apply preserves_ret).
  - apply (preserves_spares d (user_domain i) _ (fun _ => None) Hne).
    + apply preserves_bind; [apply keeps_heartbeat|intros; apply preserves_ret].
    + apply (on_event_evolves _ c i now Tick).
  - transitivity (with_registry (snd (take_queued (my_tx i) (registry (sv s)))) s); [by apply (take_spares d (user_domain i))|].
    unfold mbind_, reg_op. destruct (take_queued _ _) as [[f|] r]; cbn [snd]; [|by apply preserves_ret].
    pose proof (preserves_send (R := spares d) f (with_registry r s)) as Hs. unfold with_registry in *.
    by destruct (send f _) as [[u|x] s'].
  - apply (preserves_spares d (user_domain i) _ (fun _ => None) Hne).
    + apply preserves_bind; [apply keeps_on_frame|intros; apply preserves_ret].
    + apply (on_event_evolves _ c i now (Received (Ok (Some f)))).
Qed.

Lemma ready_phase_spares c i key now ev d s :
  user_domain i <> d -> my_tx i ∈ Reg.subscribers (Reg.tenant_at (user_domain i) (registry (sv s))) ->
  spares d s (snd (ready_phase c i key now ev s)).
Proof.
  intros Hne Hsub. transitivity (snd (on_event c i now ev s)); [by apply on_event_spares|].
  unfold ready_phase, mbind_ at 1. destruct (on_event c i now ev s) as [[[]|x] s1]; cbn [snd]; [by apply preserves_ret| |reflexivity].
  revert s1. match goal with |- forall s1, spares d s1 (snd (?m s1)) => change (preserves (spares d) m) end.
  apply preserves_bind; [|intros; apply preserves_ret].
  apply (preserves_spares d (user_domain i) _ (fun _ => None) Hne); [apply keeps_broadcast|apply session_end_evolves].
Qed.

Lemma task_phase_spares c now host ph ev d s :
  phase_actor ph <> OfTenant d ->
  (forall i k, ph = Ready i k -> my_tx i ∈ Reg.subscribers (Reg.tenant_at (user_domain i) (registry (sv s)))) ->
  spares d s (snd (task_phase c now host ph ev s)).
Proof.
  intros Ha Hsub. assert (forall i k, ph = Ready i k -> user_domain i <> d) as Hi by (intros i k -> Hd; apply Ha; cbn; congruence).
  destruct ph as [|d0 n|d0|i key]; [| | |by destruct ev; (apply ready_phase_spares; [by eapply Hi|by eapply Hsub])].
  all: destruct ev as [| |r]; cbn [task_phase]; try (by apply preserves_ret).
  - revert s Hsub. intros s _. unfold hello_phase. by preserves_go.
  - unfold auth_phase, send_error. by preserves_go.
  - apply register_phase_spares. intros ->. by apply Ha.
Qed.
End Apart.

(** ** Delivery *)

Section Delivery.
Context `{BackendLaws} `{Codec} `{HexCodec} `{Ed25519} `{Sha256} `{Aead} `{MemoryPool} `{Serde (gmap string TenantRecord)} `{Argon2}.

(** Task [m] takes [k] frames from its channel: the frames it sends, and the server
    after it. *)
Fixpoint listen (p : Process) (m : nat) (now : Z) (k : nat) (g : Server) : list Frame * Server :=
  match k, g_tasks g !! m with
  | S k', Some u =>
      let '(fs, g1) := turn p m u now FromChannel g in
      let '(fs', g2) := listen p m now k' g1 in (fs ++ fs', g2)
  | _, _ => ([], g)
  end.

Lemma take_turn p m u j l now f q g :
  g_tasks g !! m = Some u -> tk_phase u = Ready j l -> is_ok (encode f) = true ->
  Reg.queues (registry (g_state g)) !! my_tx j = Some (f :: q) ->
  let r := registry (g_state g) in
  turn p m u now FromChannel g =
    ([f], with_reg (Reg.mkRegistry (Reg.inner r) (<[my_tx j := q]> (Reg.queues r)) (Reg.next_chan r)) g).
Proof.
  intros Hm Hp He Hq. cbv zeta. unfold turn. rewrite Hp. cbn [task_phase]. unfold ready_phase, on_event, take_queued.
  sess_unfold. cbn [view sv tenants world pending_upload out]. rewrite Hq. cbn [sv tenants world pending_upload out].
  unfold view in *. destruct (encode f); [|done]. cbn. unfold with_reg. cbn. f_equal. f_equal.
  apply insert_id. rewrite Hm. f_equal. destruct u as [c ph pd]. cbn in *. by subst.
Qed.

(** A listening session sends on what is in its queue, in order. *)
Lemma listen_drains p m j l now q rest g u :
  g_tasks g !! m = Some u -> tk_phase u = Ready j l -> Forall (fun f => is_ok (encode f) = true) q ->
  Reg.queues (registry (g_state g)) !! my_tx j = Some (q ++ rest) ->
  fst (listen p m now (length q) g) = q /\
  Reg.queues (registry (g_state (snd (listen p m now (length q) g)))) !! my_tx j = Some rest.
Proof.
  intros Hm Hp Hq. revert g Hm. induction Hq as [|f q Hf Hq IH]; intros g Hm Hqu; [done|]. cbn [listen length].
  rewrite Hm, (take_turn p m u j l now f (q ++ rest)) by done. cbv zeta.
  match goal with |- context [listen p m now (length q) ?g1] => destruct (IH g1) as [E1 E2] end.
  - done.
  - cbn. apply lookup_insert_eq.
  - destruct (listen p m now (length q) _) as [fs g2]. cbn [fst snd] in *. by rewrite E1.
Qed.

Definition locked_note (l : LockAcquire.t) : Frame :=
  from_json FrameType.LockNotify 0 (LockNotify.mk (LockAcquire.path l) "locked" (Some (LockAcquire.requester l))).

Lemma grant_runs i l now exp s :
  fst (acquire (LockAcquire.path l) (LockAcquire.requester l) (LockAcquire.ttl_ms l) now (locks (sv s))) = Ok exp ->
  let granted := from_json FrameType.LockGranted 0 (LockGranted.mk (LockAcquire.path l) exp) in
  is_ok (encode granted) = true ->
  let v := sv s in
  let g' := snd (acquire (LockAcquire.path l) (LockAcquire.requester l) (LockAcquire.ttl_ms l) now (locks v)) in
  on_lock_acquire i l now s =
    (Ok tt, mkSess (mkServerState (Reg.broadcast_except (user_domain i) (locked_note l) (my_tx i) (registry v))
                      g' (db v) (object_stores v) (object_owners v) (usage_bytes v))
              (tenants s) (world s) (pending_upload s) (out s ++ [granted])).
Proof.
  intros Ha granted He v g'. subst g'. unfold on_lock_acquire, mbind_ at 1, lock_op_. fold v in Ha |- *.
  destruct (acquire _ _ _ _ _) as [r lk]. cbn in Ha. subst r. unfold mbind_, send_json, send, lift, mbind_.
  fold granted. by destruct (encode granted).
Qed.

(** The turn in which a lock is granted. *)
Lemma lock_turn p n t i k now f l exp g :
  g_tasks g !! n = Some t -> tk_phase t = Ready i k ->
  frame_type f = FrameType.LockAcquire -> payload_json f = Ok l ->
  fst (acquire (LockAcquire.path l) (LockAcquire.requester l) (LockAcquire.ttl_ms l) now (locks (g_state g))) = Ok exp ->
  let granted := from_json FrameType.LockGranted 0 (LockGranted.mk (LockAcquire.path l) exp) in
  is_ok (encode granted) = true ->
  let v := g_state g in
  turn p n t now (Received (Ok (Some f))) g =
    ([granted], with_reg (Reg.broadcast_except (user_domain i) (locked_note l) (my_tx i) (registry v))
       (with_locks (snd (acquire (LockAcquire.path l) (LockAcquire.requester l) (LockAcquire.ttl_ms l) now (locks v))) g)).
Proof.
  intros Hn Hp Hf Hl Ha granted He v. pose proof (grant_runs i l now exp (view t g) Ha He) as Hrun. cbv zeta in Hrun.
  unfold turn. rewrite Hp. cbn [task_phase]. unfold ready_phase, on_event, on_frame. rewrite Hf, Hl.
  unfold lift. rewrite !bind_assoc, bind_ret. unfold mbind_ at 1. rewrite Hrun. cbn [mbind_ ret].
  unfold mbind_, ret. cbn [sv tenants world pending_upload out view app]. unfold with_reg, with_locks. cbn. f_equal. f_equal.
  apply insert_id. rewrite Hn. f_equal. destruct t as [c ph pd]. cbn in *. by subst.
Qed.

(** The turn in which the stream ends. *)
Lemma eof_turn p n t i k now r g :
  tk_phase t = Ready i k -> (r = Ok None \/ exists x, r = Err x) ->
  turn p n t now (Received r) g =
    ([], with_reg (Reg.close_chan (my_tx i) (Reg.broadcast (user_domain i) (Reg.leave_frame (leave_info (reg_machine i)))
        (registry (g_state g)))) (mkServer (g_state g) (g_tenants g) (g_world g) (delete n (g_tasks g)))).
Proof. intros Hp [-> |[x ->]]; unfold turn; by rewrite Hp. Qed.

(** The ready session of a task. *)
Definition ready_at (n : nat) (g : Server) : option (Ident * string) :=
  t ← g_tasks g !! n;
  match tk_phase t with Ready i k => Some (i, k) | _ => None end.

Lemma ready_at_inv n g i k : ready_at n g = Some (i, k) -> exists t, g_tasks g !! n = Some t /\ tk_phase t = Ready i k.
Proof.
  unfold ready_at. destruct (g_tasks g !! n) as [t|]; [|done]. cbn. destruct (tk_phase t) eqn:E; try done.
  intros [= <- <-]. eauto.
Qed.

Lemma sreachable_wf p g : sreachable p g -> server_wf p g.
Proof. intros (connected & w & Hr). eapply srun_wf; [|exact Hr]. apply start_wf. Qed.

Lemma ready_at_ok p n g i k : server_wf p g -> ready_at n g = Some (i, k) -> ready_ok (p_env p) i k (g_state g) (g_tenants g).
Proof. intros Hwf (t & Ht & Hp)%ready_at_inv. by eapply sw_ready. Qed.

(** Machine keys stay pinned while the server runs. *)
Lemma sstep_pins p a d m k g g' :
  a <> Operator -> sstep p a g g' -> machine_key d m (g_tenants g) = Some k -> machine_key d m (g_tenants g') = Some k.
Proof.
  intros Ha Hs Hk. destruct Hs as [n remote up g Hn|n t now ev g Hn|c tok r g j s' Hj|c tok r g j s' code connected Hj|now d' mi g|d' mi g|now g|connected g]; try done.
  - unfold turn. pose proof (task_phase_evolves (tk_conn t) now (p_host p) (tk_phase t) ev (view t g)) as Hev.
    destruct (task_phase _ _ _ _ _ _) as [r s]. cbn [snd] in Hev. pose proof (ev_pins _ _ _ Hev _ _ _ Hk) as Hs.
    assert (tenants (drop_phase (tk_phase t) s) = tenants s) as Hd by (by destruct (tk_phase t)).
    destruct r as [[ph|]|x]; cbn; by rewrite ?Hd.
  - pose proof (ct_pinned _ _ (handle_contained (admin_cfg p) c tok r (sys_of g)) d m k Hk) as Hs. by rewrite Hj in Hs.
Qed.

Lemma srun_pins p who d m k g g' :
  ~ who Operator -> srun p who g g' -> machine_key d m (g_tenants g) = Some k -> machine_key d m (g_tenants g') = Some k.
Proof.
  intros Hw Hr Hk. induction Hr as [|a g1 g2 g3 Ha Hs Hr IH]; [done|]. apply IH. eapply sstep_pins; [|done|done]. by intros ->.
Qed.

(** No step of somebody else reaches a tenant's part of the state. *)
Lemma sstep_untouched p a d g g' :
  server_wf p g -> a <> OfTenant d -> a <> Housekeeping -> a <> Operator -> sstep p a g g' -> untouched d (g_state g) (g_state g').
Proof.
  intros Hwf Ha Hh Ho Hs. destruct Hs as [n remote up g Hn|n t now ev g Hn|c tok r g j s' Hj|c tok r g j s' code connected Hj|now d' mi g|d' mi g|now g|connected g]; try done.
  - assert (forall i k, tk_phase t = Ready i k -> my_tx i ∈ Reg.subscribers (Reg.tenant_at (user_domain i) (registry (g_state g)))) as Hsub.
    { intros i k Hp. by apply (ro_sub _ _ _ _ _ (sw_ready _ _ Hwf _ _ _ _ Hn Hp)). }
    destruct (task_phase_spares (tk_conn t) now (p_host p) (tk_phase t) ev d (view t g) Ha Hsub (sw_reg _ _ Hwf)) as [Hw Hu].
    pose proof (task_phase_evolves (tk_conn t) now (p_host p) (tk_phase t) ev (view t g)) as Hev.
    unfold turn. destruct (task_phase _ _ _ _ _ _) as [r s]. cbn [snd] in Hw, Hu, Hev.
    assert (untouched d (g_state g) (sv (drop_phase (tk_phase t) s))) as Hd.
    { eapply untouched_trans; [exact Hu|]. destruct (tk_phase t) as [|d0 x|d0|i k] eqn:Ep; try apply untouched_refl.
      split; cbn; [done..|]. intros ch Hc. apply lookup_delete_ne. intros <-.
      assert (user_domain i <> d) as Hne by (intros E; apply Ha; cbn; congruence).
      apply (foreign_chan d (user_domain i) (registry (sv s)) (my_tx i) (my_tx i) Hw Hne Hc); [|done].
      apply (gr_subs _ _ (ev_reg _ _ _ Hev)). by eapply Hsub. }
    by destruct r as [[ph|]|x].
  - destruct (handle_contained (admin_cfg p) c tok r (sys_of g)) as [(E1 & _ & _ & E4 & E5) _ _ _].
    rewrite Hj in E1, E4, E5. cbn in *. split; cbn; by rewrite ?E1, ?E4, ?E5.
Qed.
End Delivery.

(** ** Properties *)

Section Properties.
Context `{BackendLaws} `{Codec} `{HexCodec} `{Ed25519} `{Sha256} `{Aead} `{MemoryPool} `{Serde (gmap string TenantRecord)} `{Argon2}.

(** C6: Whatever clients, the control API, the clean-up loops and restarts do, in every
    state of the server: the registry is well formed, every object store has the
    shape of its tenant's, and every session in its ready loop is registered under a
    pinned key, holds an open channel that is subscribed to its tenant and is no
    other session's, and uses its tenant's store. *)
Theorem system_invariant p g : sreachable p g -> server_wf p g.
Proof. apply sreachable_wf. Qed.

(** Everybody but a tenant's authenticated clients and the server's clean-up and
    restart. *)
Definition bystander (d : string) (a : Actor) : Prop :=
  match a with
  | OfTenant d' => d' <> d
  | Stranger | AdminApi => True
  | Housekeeping | Operator => False
  end.

(** C7: Tenant isolation of the whole server: whatever the sessions of other tenants,
    clients that have not proved the tenant's key (also those that said HELLO for it)
    and requests to the control API that do not restart the server do, in whatever
    order, a tenant's online list, bytes used and object owners stay what they were,
    the queues of its sessions receive nothing, and its pinned machine keys stay.
    The limit the bytes are compared with is not part of it: an upgrade changes the
    plan. *)
Theorem tenants_apart p d g g' :
  sreachable p g -> srun p (bystander d) g g' ->
  untouched d (g_state g) (g_state g') /\
  forall m k, machine_key d m (g_tenants g) = Some k -> machine_key d m (g_tenants g') = Some k.
Proof.
  intros Hg Hr. split; [|intros m k; eapply srun_pins; [|done]; by intros []].
  apply sreachable_wf in Hg. induction Hr as [|a g1 g2 g3 Ha Hs Hr IH]; [apply untouched_refl|].
  eapply untouched_trans; [|by eauto using sstep_wf].
  eapply sstep_untouched; [exact Hg| | | |exact Hs]; intros E; subst a; by apply Ha.
Qed.

(** C10: One key speaks for a machine: between two starts of the server, all sessions of
    a domain that call themselves the same machine, whenever they reach the ready
    loop, have registered with the same public key. *)
Theorem one_key_per_machine p g g' n m i j k l :
  sreachable p g -> srun p (fun a => a <> Operator) g g' ->
  ready_at n g = Some (i, k) -> ready_at m g' = Some (j, l) ->
  user_domain j = user_domain i -> reg_machine j = reg_machine i -> l = k.
Proof.
  intros Hg%sreachable_wf Hr Hn Hm Ed Em. pose proof (srun_wf _ _ _ _ Hg Hr) as Hg'.
  pose proof (ro_pin _ _ _ _ _ (ready_at_ok _ _ _ _ _ Hg Hn)) as Hk.
  pose proof (ro_pin _ _ _ _ _ (ready_at_ok _ _ _ _ _ Hg' Hm)) as Hl. rewrite Ed, Em in Hl.
  pose proof (srun_pins p (fun a => a <> Operator) _ _ _ g g' (fun Hx => Hx eq_refl) Hr Hk). congruence.
Qed.

(** C12: News of a lock: when one session is granted a lock, every other ready session of
    the tenant sends its client, after the frames that were waiting and in their
    order, the note of who locked what; the session that locked gets no note. *)
Theorem lock_news p g n m i j k l f lk exp now now' q :
  sreachable p g -> ready_at n g = Some (i, k) -> ready_at m g = Some (j, l) -> n <> m -> user_domain j = user_domain i ->
  frame_type f = FrameType.LockAcquire -> payload_json f = Ok lk ->
  fst (acquire (LockAcquire.path lk) (LockAcquire.requester lk) (LockAcquire.ttl_ms lk) now (locks (g_state g))) = Ok exp ->
  let granted := from_json FrameType.LockGranted 0 (LockGranted.mk (LockAcquire.path lk) exp) in
  is_ok (encode granted) = true -> Forall (fun f => is_ok (encode f) = true) (q ++ [locked_note lk]) ->
  Reg.queues (registry (g_state g)) !! my_tx j = Some q ->
  exists t, g_tasks g !! n = Some t /\
    let '(fs, g1) := turn p n t now (Received (Ok (Some f))) g in
    fs = [granted] /\ Reg.queues (registry (g_state g1)) !! my_tx i = Reg.queues (registry (g_state g)) !! my_tx i /\
    fst (listen p m now' (length q + 1) g1) = q ++ [locked_note lk].
Proof.
  intros Hg%sreachable_wf (t & Ht & Hp)%ready_at_inv (u & Hu & Hpu)%ready_at_inv Hne Ed Hf Hl Ha granted He Henc Hq.
  exists t. split; [done|]. rewrite (lock_turn p n t i k now f lk exp g Ht Hp Hf Hl Ha He).
  assert (my_tx j <> my_tx i) as Htx by (intros E; apply Hne; by eapply (sw_apart _ _ Hg)).
  pose proof (ro_sub _ _ _ _ _ (sw_ready _ _ Hg _ _ _ _ Hu Hpu)) as Hsub. rewrite Ed in Hsub.
  split_and!; [done|cbn; by apply broadcast_except_self, (sw_reg _ _ Hg)|].
  replace (length q + 1)%nat with (length (q ++ [locked_note lk])) by (rewrite length_app; cbn; lia).
  eapply (listen_drains p m j l now' _ []); [exact Hu|exact Hpu|done|]. cbn. rewrite app_nil_r.
  rewrite broadcast_except_queue by apply (sw_reg _ _ Hg). by rewrite decide_True, Hq by done.
Qed.

(** The end of a session: when its stream ends or breaks, every other session of the
    tenant is told that the machine left, and the task is gone with its receiver;
    but the machine is still in the online list, and the dead channel is still
    subscribed, for ever. *)
Theorem departed_lingers p g n i k now r :
  sreachable p g -> ready_at n g = Some (i, k) -> (r = Ok None \/ exists x, r = Err x) ->
  exists t, g_tasks g !! n = Some t /\
    let '(fs, g') := turn p n t now (Received r) g in
    fs = [] /\ g_tasks g' !! n = None /\
    (forall m j l, m <> n -> ready_at m g = Some (j, l) -> user_domain j = user_domain i ->
       exists q, Reg.queues (registry (g_state g)) !! my_tx j = Some q /\
         Reg.queues (registry (g_state g')) !! my_tx j = Some (q ++ [Reg.leave_frame (leave_info (reg_machine i))])) /\
    (forall d m, Reg.online_machine d m (registry (g_state g')) = Reg.online_machine d m (registry (g_state g))) /\
    my_tx i ∈ Reg.subscribers (Reg.tenant_at (user_domain i) (registry (g_state g'))) /\
    Reg.queues (registry (g_state g')) !! my_tx i = None.
Proof.
  intros Hg%sreachable_wf (t & Ht & Hp)%ready_at_inv Hr. exists t. split; [done|].
  rewrite (eof_turn p n t i k now r g Hp Hr). cbn. split_and!; [done|apply lookup_delete_eq| | | |apply lookup_delete_eq].
  - intros m j l Hne (u & Hu & Hpu)%ready_at_inv Ed. destruct (sw_ready _ _ Hg _ _ _ _ Hu Hpu) as [_ Hsub [q Hq] _].
    exists q. split; [done|]. rewrite lookup_delete_ne by (intros E; apply Hne; by eapply (sw_apart _ _ Hg)).
    rewrite broadcast_queue by apply (sw_reg _ _ Hg). rewrite Ed in Hsub. by rewrite decide_True, Hq.
  - intros d m. apply online_inner. cbn. apply broadcast_inner.
  - unfold Reg.tenant_at. cbn. rewrite broadcast_inner. exact (ro_sub _ _ _ _ _ (sw_ready _ _ Hg _ _ _ _ Ht Hp)).
Qed.
End Properties.

(** ** Witnesses: two sessions of one machine *)

Section Play.
Context `{Backend} `{Codec} `{HexCodec} `{Ed25519} `{Sha256} `{Aead} `{MemoryPool} `{Serde (gmap string TenantRecord)} `{Argon2}.

(** Turns by task number; a task that is gone takes none. *)
Definition play (p : Process) (ts : list (nat * Z * event)) (g : Server) : Server :=
  fold_left (fun g '(n, now, ev) => match g_tasks g !! n with Some t => snd (turn p n t now ev g) | None => g end) ts g.

Lemma play_run p (who : Actor -> Prop) ts g0 g :
  (forall a, who a) -> srun p who g0 g -> srun p who g0 (play p ts g).
Proof.
  intros Hw. revert g0. assert (forall g0, srun p who g0 (play p ts g0)) as Hp.
  { induction ts as [|[[n now] ev] ts IH]; intros g0; [apply srun_refl|]. cbn. destruct (g_tasks g0 !! n) as [t|] eqn:E; [|apply IH].
    eapply srun_step; [apply Hw|by apply StTurn|apply IH]. }
  intros g0 Hr. induction Hr as [g0|a g1 g2 g3 Ha Hs Hr IH]; [apply Hp|]. by eapply srun_step.
Qed.
End Play.

Definition demo_proc : Process := mkProcess demo_env true (fun _ => Ok tt) "h" 0 42.

Definition demo_added : Server :=
  let g := start (H6 := demo_tenant_serde) demo_proc (Err "no db") demo_world in
  with_sys (snd (fst (Admin.handle (H := demo_tenant_serde) (H2 := demo_argon) (admin_cfg demo_proc) demo_call None
    (ReqAddTenant "ser163" (public_hex demo_key)) (sys_of g)))) g.

Definition demo_accepted : Server :=
  accept demo_proc 1 "10.0.0.9:2" true (accept demo_proc 0 "10.0.0.9:1" true demo_added).

Definition demo_turns (n : nat) : list (nat * Z * event) :=
  [(n, 5, Received (Ok (Some (from_json (H := @codec_Hello ref_codec) FrameType.Hello 0 demo_hello))));
   (n, 5, Received (Ok (Some (from_json (H := @codec_Auth ref_codec) FrameType.Auth 0 demo_auth))));
   (n, 5, Received (Ok (Some (from_json (H := @codec_Register ref_codec) FrameType.Register 0 demo_register))))].

Definition demo_server2 : Server :=
  play (H0 := ref_codec) (H5 := demo_pool) demo_proc (demo_turns 0 ++ demo_turns 1) demo_accepted.

Lemma admin_step `{Backend} `{Codec} `{HexCodec} `{Ed25519} `{Sha256} `{Aead} `{MemoryPool} `{Serde (gmap string TenantRecord)} `{Argon2} p c tok r g :
  snd (Admin.handle (admin_cfg p) c tok r (sys_of g)) = None ->
  sstep p AdminApi g (with_sys (snd (fst (Admin.handle (admin_cfg p) c tok r (sys_of g)))) g).
Proof.
  intros Hx. apply (StAdmin p c tok r g (fst (fst (Admin.handle (admin_cfg p) c tok r (sys_of g))))).
  destruct (Admin.handle _ _ _ _ _) as [[j s'] x]. cbn in *. by subst.
Qed.

Lemma demo_reached : sreachable (H0 := ref_codec) (H5 := demo_pool) (H6 := demo_tenant_serde) (H7 := demo_argon) demo_proc demo_server2.
Proof.
  exists (Err "no db"), demo_world. apply play_run; [done|].
  eapply srun_step; [done|by apply (admin_step demo_proc demo_call None (ReqAddTenant "ser163" (public_hex demo_key)))|].
  eapply srun_step; [done|by apply (StAccept demo_proc 0 "10.0.0.9:1" true)|].
  eapply srun_step; [done|by apply (StAccept demo_proc 1 "10.0.0.9:2" true)|]. apply srun_refl.
Qed.

(** The ready session of a task, as far as it can be compared. *)
Definition ready_facts (n : nat) (g : Server) : option (string * string * nat * string) :=
  '(i, k) ← ready_at n g; Some (user_domain i, reg_machine i, my_tx i, k).

Lemma ready_facts_inv n g d m c k :
  ready_facts n g = Some (d, m, c, k) ->
  exists i, ready_at n g = Some (i, k) /\ user_domain i = d /\ reg_machine i = m /\ my_tx i = c.
Proof. unfold ready_facts. destruct (ready_at n g) as [[i k']|]; [|done]. intros [= <- <- <- <-]. eauto. Qed.

Lemma demo_ready0 : ready_facts 0 demo_server2 = Some ("ser163", "m1", 0%nat, public_hex demo_key).
Proof. vm_compute. reflexivity. Qed.
Lemma demo_ready1 : ready_facts 1 demo_server2 = Some ("ser163", "m1", 1%nat, public_hex demo_key).
Proof. vm_compute. reflexivity. Qed.

Lemma system_invariant_witness : machine_key "ser163" "m1" (g_tenants demo_server2) = Some (public_hex demo_key).
Proof.
  destruct (ready_facts_inv _ _ _ _ _ _ demo_ready1) as (i & Hi & Ed & Em & _).
  destruct (ready_at_inv _ _ _ _ Hi) as (t & Ht & Hp).
  pose proof (ro_pin _ _ _ _ _ (sw_ready _ _ (system_invariant _ _ demo_reached) _ _ _ _ Ht Hp)) as Hpin.
  by rewrite Ed, Em in Hpin.
Defined.

Definition demo_acme : Frame := from_json (H := @codec_Hello ref_codec) FrameType.Hello 0 (Hello.mk "acme" 1 "t").
Definition demo_stranger : Task := mkTask (conn_of demo_proc "10.0.0.7:1" true) AwaitHello None.
Definition demo_server3 : Server :=
  snd (turn (H0 := ref_codec) (H5 := demo_pool) demo_proc 2 demo_stranger 9 (Received (Ok (Some demo_acme)))
    (accept demo_proc 2 "10.0.0.7:1" true demo_server2)).

(** Another client says HELLO. *)
Lemma tenants_apart_witness : untouched "ser163" (g_state demo_server2) (g_state demo_server3).
Proof.
  apply (tenants_apart demo_proc "ser163" demo_server2 demo_server3 demo_reached).
  eapply srun_step; [|apply (StAccept demo_proc 2 "10.0.0.7:1" true demo_server2)|]; [exact I|vm_compute; reflexivity|].
  eapply srun_step; [|apply (StTurn demo_proc 2 demo_stranger 9 (Received (Ok (Some demo_acme))))|]; [exact I| |apply srun_refl].
  apply lookup_insert_eq.
Defined.

Lemma one_key_per_machine_witness : exists i j k l,
  ready_at 0 demo_server2 = Some (i, k) /\ ready_at 1 demo_server2 = Some (j, l) /\ l = k /\ my_tx i <> my_tx j.
Proof.
  destruct (ready_facts_inv _ _ _ _ _ _ demo_ready0) as (i & Hi & Ed & Em & Et).
  destruct (ready_facts_inv _ _ _ _ _ _ demo_ready1) as (j & Hj & Ed' & Em' & Et').
  pose proof (one_key_per_machine demo_proc demo_server2 demo_server2 0 1 i j _ _ demo_reached (srun_refl _ _ _) Hi Hj) as Hk.
  exists i, j, (public_hex demo_key), (public_hex demo_key). split_and!; [exact Hi|exact Hj|apply Hk; congruence|congruence].
Defined.

Definition demo_lock : LockAcquire.t := LockAcquire.mk "plan.md" "ser163/m1/maka" 30000.
Definition demo_lock_frame : Frame := from_json (H := @codec_LockAcquire ref_codec) FrameType.LockAcquire 0 demo_lock.
Definition demo_join : Frame :=
  Reg.join_frame (H := @codec_OnlineDelta ref_codec) (machine_info (conn_of demo_proc "10.0.0.9:2" true) demo_register 5).

(** The first session hears of the second one's arrival, then of its lock. *)
Lemma lock_news_witness : exists t, g_tasks demo_server2 !! 1%nat = Some t /\
  fst (listen (H1 := ref_codec) (H6 := demo_pool) demo_proc 0 7 2
    (snd (turn (H0 := ref_codec) (H5 := demo_pool) demo_proc 1 t 6 (Received (Ok (Some demo_lock_frame))) demo_server2))) =
  [demo_join; locked_note (H1 := ref_codec) demo_lock].
Proof.
  destruct (ready_facts_inv _ _ _ _ _ _ demo_ready0) as (j & Hj & Ed & _ & Et).
  destruct (ready_facts_inv _ _ _ _ _ _ demo_ready1) as (i & Hi & Ed' & _ & _).
  destruct (lock_news demo_proc demo_server2 1 0 i j _ _ demo_lock_frame demo_lock 30006 6 7 [demo_join]
    demo_reached Hi Hj) as (t & Ht & Hrun).
  - done.
  - congruence.
  - reflexivity.
  - vm_compute. reflexivity.
  - vm_compute. reflexivity.
  - vm_compute. reflexivity.
  - repeat constructor; vm_compute; reflexivity.
  - rewrite Et. vm_compute. reflexivity.
  - exists t. split; [exact Ht|]. destruct (turn _ _ _ _ _ _) as [fs g1]. by destruct Hrun as (_ & _ & Hrun).
Defined.

(** The machine of an ended session is still online. *)
Lemma departed_lingers_witness : exists t, g_tasks demo_server2 !! 1%nat = Some t /\
  g_tasks (snd (turn (H0 := ref_codec) (H5 := demo_pool) demo_proc 1 t 6 (Received (Ok None)) demo_server2)) !! 1%nat = None.
Proof.
  destruct (ready_facts_inv _ _ _ _ _ _ demo_ready1) as (i & Hi & _).
  destruct (departed_lingers demo_proc demo_server2 1 i _ 6 (Ok None) demo_reached Hi) as (t & Ht & Hrun); [by left|].
  exists t. split; [exact Ht|]. destruct (turn _ _ _ _ _ _) as [fs g1]. by destruct Hrun as (_ & Hrun & _).
Defined.
