(* ===== verification/Share.v ===== *)
(** * The client's shared directory

    The local half of [nsmt-client/src/fs.rs]: the object cache, the walk that
    turns the shared directory into a tree, and the materialization of a pulled
    object with its conflict copy.  Symbolic links are not modelled: the branch
    taken under [NSMT_SYMLINK_VIEW] stops at [LinkMade], after its effects on the
    cache.  Names on disk are UTF-8. *)

From S2P Require Import Prelude Paths Wire Messages Crypto Store Tree.

Definition share_dir (e : env) : string :=
  match e "NSMT_SHARE_DIR" with
  | Some d => d
  | None => match e "HOME" with Some h => path_join h "nsmt_share" | None => "nsmt_share" end
  end.

Definition objects_dir (e : env) : string :=
  match e "NSMT_OBJECTS_DIR" with
  | Some d => d
  | None => match e "HOME" with
            | Some h => path_join (path_join h ".nsmt") "objects"
            | None => ".nsmt/objects"
            end
  end.

(** [s.replace('x', "y")] for one character. *)
Definition str_replace (a b : ascii) : string -> string := str_map (fun c => if Ascii.eqb c a then b else c).

(** The path of an entry relative to the shared directory. *)
Definition rel_path (rel : list string) : string := str_replace "\" "/" (str_join "/" rel).

(** Conflict copies and local marks are left out. *)
Definition excluded (p : string) : bool := starts_with ".sync-conflict-" p || starts_with ".nsmt-" p.

Section Share.
Context `{HexCodec} `{Sha256}.

Definition file_entry (mt : loc -> Z) (root : loc) (rel : list string) (b : bytes) : entry :=
  FileTreeEntry.mk (rel_path rel) (object_id b) 420 (len b) (mt (below root rel)).

(** [walk]; the fuel bounds the depth, [None] is an I/O error or no fuel. *)
Fixpoint walk (fuel : nat) (mt : loc -> Z) (fs : files) (root : loc) (rel : list string) : option (list entry) :=
  match fuel with
  | O => None
  | S fuel' =>
      l ← read_dir fs (below root rel);
      parts ← mapM (fun kv : string * node =>
        let rel' := rel ++ [fst kv] in
        match snd kv with
        | Dir => walk fuel' mt fs root rel'
        | File b => Some (if excluded (rel_path rel') then [] else [file_entry mt root rel' b])
        end) l;
      Some (concat parts)
  end.

Definition build_tree (mt : loc -> Z) (dir : string) (fs : files) : option FileTree.t :=
  es ← walk (S (depth fs)) mt fs (resolve dir) [];
  let t := FileTree.mk "" (sort_entries es) in
  Some (FileTree.mk (tree_hash t) (FileTree.entries t)).

Definition ensure_object_local (e : env) (blob : string) (b : bytes) (fs : files) : option files :=
  fs1 ← create_dir_all (objects_dir e) fs;
  let p := path_join (objects_dir e) blob in
  if fs_exists fs1 p then Some fs1 else fs_write p b fs1.

Inductive mat : Type :=
| Written (fs : files)
| LinkMade (target obj : string) (fs : files)
| MatError (fs : files).

Definition materialize (e : env) (en : entry) (b : bytes) (fs : files) : mat :=
  let target := path_join (share_dir e) (FileTreeEntry.path en) in
  match create_parent target fs with
  | None => MatError fs
  | Some fs1 =>
      match e "NSMT_SYMLINK_VIEW" with
      | Some _ =>
          let obj := path_join (objects_dir e) (FileTreeEntry.blob_id en) in
          match (if fs_exists fs1 obj then Some fs1 else fs_write obj b fs1) with
          | None => MatError fs1
          | Some fs2 => LinkMade target obj (default fs2 (fs_remove target fs2))
          end
      | None =>
          match fs_write target b fs1 with
          | None => MatError fs1
          | Some fs2 => Written fs2
          end
      end
  end.

(** [sanitize_name] works on characters, as [sanitize] does. *)
Definition sanitize_name (s : string) : string := sanitize s.

Definition conflict_name (requester path : string) (ts : Z) : string :=
  ".sync-conflict-" +:+ sanitize_name requester +:+ "-" +:+ str_replace "/" "_" path +:+ "-" +:+ dec ts.

(** [with_file_name]: the same directory (a target that exists as a file has a
    last component). *)
Definition sibling (l : loc) (n : string) : loc := (fst l, removelast (snd l) ++ [n]).

(** [fs::copy] of a file that was just read. *)
Definition copy_to (l : loc) (b : bytes) (fs : files) : option files :=
  if is_dir_at fs l then None else Some (<[l := File b]> fs).

Definition materialize_with_conflict (e : env) (en : entry) (b : bytes) (requester : string) (ts : Z) (fs : files) : mat :=
  let target := path_join (share_dir e) (FileTreeEntry.path en) in
  let fs1 :=
    match fs_read fs target with
    | Some local =>
        if decide (object_id local = FileTreeEntry.blob_id en) then fs
        else default fs (copy_to (sibling (resolve target) (conflict_name requester (FileTreeEntry.path en) ts)) local fs)
    | None => fs
    end in
  materialize e en b fs1.
End Share.

(** ** Lemmas *)

Section ShareFacts.
Context `{HexCodec} `{Sha256}.

Definition listed (mt : loc -> Z) (fs : files) (root : loc) (rel : list string) (en : entry) : Prop :=
  exists segs b, reached fs root rel segs b /\ excluded (rel_path (rel ++ segs)) = false /\
    en = file_entry mt root (rel ++ segs) b.

Lemma walk_spec fuel mt fs root rel es en :
  walk fuel mt fs root rel = Some es -> en ∈ es <-> listed mt fs root rel en.
Proof.
  revert rel es. induction fuel as [|fuel IH]; intros rel es Hw; [done|]. cbn [walk] in Hw.
  apply bind_Some in Hw as (l & Hl & Hw). apply bind_Some in Hw as (parts & Hp & [= <-]).
  apply mapM_Some in Hp. rewrite list_elem_of_In, in_concat.
  assert (forall n nd, (n, nd) ∈ l <-> fs !! below root (rel ++ [n]) = Some nd) as Hdir
    by (intros n nd; rewrite (read_dir_spec _ _ _ n nd Hl); by rewrite below_app).
  split.
  - intros (part & [j Hj]%list_elem_of_In%list_elem_of_lookup & He%list_elem_of_In).
    destruct (Forall2_lookup_r _ _ _ _ _ Hp Hj) as ([n nd] & Hk & Hpart). cbn [fst snd] in Hpart.
    apply list_elem_of_lookup_2, Hdir in Hk. destruct nd as [b|].
    + injection Hpart as <-. destruct (excluded _) eqn:Ex; [set_solver|].
      apply list_elem_of_singleton in He as ->. exists [n], b. by rewrite reached_file.
    + pose proof (proj1 (IH _ _ Hpart) He) as (segs & b & Hr & Hx & ->).
      destruct segs as [|m segs]; [by destruct Hr|]. exists (n :: m :: segs), b.
      rewrite reached_cons. rewrite <- app_assoc in Hx |- *. done.
  - intros (segs & b & Hr & Hx & ->). destruct segs as [|n [|m segs]]; [by destruct Hr| |].
    + apply reached_file, Hdir, list_elem_of_lookup in Hr as [j Hj].
      destruct (Forall2_lookup_l _ _ _ _ _ Hp Hj) as (part & Hk & [= <-]). cbn [fst] in *.
      eexists. split; [apply list_elem_of_In; by eapply list_elem_of_lookup_2|].
      rewrite Hx. by left.
    + apply reached_cons in Hr as [Hn Hr]. apply Hdir, list_elem_of_lookup in Hn as [j Hj].
      destruct (Forall2_lookup_l _ _ _ _ _ Hp Hj) as (part & Hk & Hpart). cbn [fst snd] in Hpart.
      exists part. split; [apply list_elem_of_In; by eapply list_elem_of_lookup_2|].
      apply list_elem_of_In, (IH _ _ Hpart). exists (m :: segs), b. by rewrite <- app_assoc.
Qed.

Lemma walk_total fuel mt fs root rel :
  (0 < fuel)%nat -> is_dir_at fs (below root rel) = true ->
  (depth fs < fuel + length (snd (below root rel)))%nat -> is_Some (walk fuel mt fs root rel).
Proof.
  revert rel. induction fuel as [|fuel IH]; intros rel Hp Hd Hf; [lia|]. cbn [walk].
  destruct (read_dir fs (below root rel)) as [l|] eqn:El; [|by unfold read_dir in El; rewrite Hd in El].
  cbn [mbind option_bind].
  destruct (mapM _ l) as [parts|] eqn:Em; [by eexists|]. exfalso.
  apply mapM_None, Exists_exists in Em as ([n nd] & Hin & Hn). cbn [fst snd] in Hn.
  destruct nd as [b|]; [done|]. apply (read_dir_spec _ _ _ _ _ El) in Hin. rewrite below_app in Hin.
  pose proof (depth_bound _ _ _ Hin) as Hb. unfold below in Hb, Hf. cbn [snd] in Hb, Hf.
  rewrite !length_app in Hb. rewrite length_app in Hf. cbn [length] in Hb.
  destruct (IH (rel ++ [n])) as [x Hx]; [lia| | |congruence].
  - unfold is_dir_at. rewrite Hin. by rewrite orb_true_r.
  - unfold below. cbn [snd]. rewrite !length_app. cbn [length]. lia.
Qed.

Lemma tree_hash_entries t h : tree_hash (FileTree.mk h (FileTree.entries t)) = tree_hash t.
Proof. done. Qed.
End ShareFacts.

Lemma str_map_app f a b : str_map f (a +:+ b) = str_map f a +:+ str_map f b.
Proof. induction a as [|c a IH]; [done|]. change (String c a +:+ b) with (String c (a +:+ b)). cbn [str_map]. by rewrite IH. Qed.

Lemma excluded_component d r :
  excluded (str_replace "\" "/" d) = false -> excluded (str_replace "\" "/" (d +:+ String "/" r)) = false.
Proof.
  unfold excluded, str_replace. rewrite !orb_false_iff. intros [H1 H2]. rewrite str_map_app. cbn [str_map Ascii.eqb].
  change (str_map _ (String "/" r)) with (String "/" (str_map (fun c => if Ascii.eqb c "\" then "/"%char else c) r)).
  split; by apply starts_with_component.
Qed.

Lemma str_join_cons sep x l : l <> [] -> str_join sep (x :: l) = x +:+ sep +:+ str_join sep l.
Proof. by destruct l. Qed.

Lemma excluded_nested d l : l <> [] -> excluded (str_replace "\" "/" d) = false -> excluded (rel_path (d :: l)) = false.
Proof. intros Hl Hd. unfold rel_path. rewrite str_join_cons by done. apply (excluded_component d (str_join "/" l) Hd). Qed.

(** What [materialize] leaves alone, and what it writes. *)
Lemma materialize_written `{HexCodec} e en b fs fs' :
  materialize e en b fs = Written fs' ->
  let target := path_join (share_dir e) (FileTreeEntry.path en) in
  fs' !! resolve target = Some (File b) /\
  forall l nd, l <> resolve target -> fs !! l = Some nd -> fs' !! l = Some nd.
Proof.
  unfold materialize. destruct (create_parent _ fs) as [fs1|] eqn:Ec; [|done].
  destruct (e "NSMT_SYMLINK_VIEW"); [by repeat case_match|].
  destruct (fs_write _ b fs1) as [fs2|] eqn:Ew; [|done]. intros [= <-]. cbv zeta.
  unfold fs_write in Ew. repeat case_match; try done. injection Ew as <-.
  split; [by rewrite lookup_insert_eq|]. intros l nd Hl Hin. rewrite lookup_insert_ne by done.
  destruct (mkdirs_spec _ _ _ _ _ Ec) as (Hs & _). by destruct (Hs l) as [->|[Hn _]]; [|congruence].
Qed.

Lemma build_tree_total `{HexCodec} `{Sha256} mt dir fs :
  (is_dir_at fs (resolve dir) = true ->
   exists t, build_tree mt dir fs = Some t /\
     forall en, en ∈ FileTree.entries t <-> listed mt fs (resolve dir) [] en) /\
  (is_dir_at fs (resolve dir) = false -> build_tree mt dir fs = None).
Proof.
  assert (below (resolve dir) [] = resolve dir) as Hb
    by (unfold below; rewrite app_nil_r; by destruct (resolve dir)).
  split; intros Hd.
  - destruct (walk_total (S (depth fs)) mt fs (resolve dir) []) as [es Hes]; [lia|by rewrite Hb|lia|].
    unfold build_tree. rewrite Hes. eexists. split; [done|]. cbn [FileTree.entries].
    intros en. rewrite sort_entries_perm. by apply (walk_spec _ _ _ _ _ _ _ Hes).
  - unfold build_tree. cbn [walk]. unfold read_dir. by rewrite Hb, Hd.
Qed.

(** ** Properties *)

(** C23: The tree of the shared directory is exact: [build_tree] succeeds on every
    directory, whatever its depth; its entries are sorted and are precisely one
    per regular file that is reached through directories and is not excluded, with
    the file's relative path, the hash of its bytes as object id and its size; its
    hash is the hash the server computes. *)
Theorem build_tree_exact `{HexCodec} `{Sha256} mt dir fs :
  (is_dir_at fs (resolve dir) = true ->
   exists t, build_tree mt dir fs = Some t /\ FileTree.tree_hash t = tree_hash t /\
     StronglySorted path_le (FileTree.entries t) /\
     forall en, en ∈ FileTree.entries t <-> listed mt fs (resolve dir) [] en) /\
  (is_dir_at fs (resolve dir) = false -> build_tree mt dir fs = None).
Proof.
  split; [|apply build_tree_total]. intros Hd.
  destruct (proj1 (build_tree_total mt dir fs) Hd) as (t & Ht & He). exists t. split_and!; [done| | |done].
  all: unfold build_tree in Ht; apply bind_Some in Ht as (es & _ & [= <-]); cbn [FileTree.tree_hash FileTree.entries].
  - done.
  - apply StronglySorted_merge_sort; apply _.
Qed.

Definition demo_share_env : env := fun v => if decide (v = "NSMT_SHARE_DIR") then Some "/s" else None.
Definition demo_share : files :=
  {[ (true, ["s"]) := Dir; (true, ["s"; "d"]) := Dir; (true, ["s"; "d"; "a.md"]) := File (as_bytes "A");
     (true, ["s"; ".nsmt-mark"]) := File [] ]}.

Lemma build_tree_exact_witness :
  exists t, build_tree (fun _ => 1) "/s" demo_share = Some t /\
    file_entry (fun _ => 1) (true, ["s"]) ["d"; "a.md"] (as_bytes "A") ∈ FileTree.entries t.
Proof.
  destruct (proj1 (build_tree_exact (fun _ => 1) "/s" demo_share) eq_refl) as (t & Ht & _ & _ & He).
  exists t. split; [exact Ht|]. apply He. exists ["d"; "a.md"], (as_bytes "A").
  split; [|split; reflexivity]. split_and!; [discriminate|reflexivity|].
  intros k Hk. cbn in Hk. assert (k = 1%nat) as -> by lia. reflexivity.
Defined.

(** A pull over a file with other content. *)
Lemma conflict_written `{HexCodec} `{Sha256} e en b requester ts fs fs' local :
  materialize_with_conflict e en b requester ts fs = Written fs' ->
  let target := resolve (path_join (share_dir e) (FileTreeEntry.path en)) in
  let copy := sibling target (conflict_name requester (FileTreeEntry.path en) ts) in
  fs !! target = Some (File local) -> object_id local <> FileTreeEntry.blob_id en ->
  is_dir_at fs copy = false ->
  fs' !! target = Some (File b) /\ (copy <> target -> fs' !! copy = Some (File local)) /\
  (forall l x, l <> target -> l <> copy -> fs !! l = Some x -> fs' !! l = Some x).
Proof.
  unfold materialize_with_conflict. intros Hm. cbv zeta. apply materialize_written in Hm as [Ht Hother].
  intros Hl Hne Hd. unfold fs_read in Hother. rewrite Hl, decide_False in Hother by done.
  unfold copy_to in Hother. rewrite Hd in Hother. cbn [default from_option id] in Hother. split_and!; [done| |].
  - intros Hc. apply Hother; [done|]. by rewrite lookup_insert_eq.
  - intros l x Hlt Hlc Hx. apply Hother; [done|]. by rewrite lookup_insert_ne.
Qed.

(** C24: A pull never loses local work: when the file to be written exists with other
    content, its bytes are kept in a conflict copy next to it before the pulled
    bytes replace it (unless a directory is in the way of the copy); every other
    file stays as it was.  The copy is skipped only for a file that already has
    the pulled object's hash. *)
Theorem conflict_keeps_both `{HexCodec} `{Sha256} e en b requester ts fs fs' :
  materialize_with_conflict e en b requester ts fs = Written fs' ->
  let target := resolve (path_join (share_dir e) (FileTreeEntry.path en)) in
  let copy := sibling target (conflict_name requester (FileTreeEntry.path en) ts) in
  fs' !! target = Some (File b) /\
  (forall local, fs !! target = Some (File local) -> object_id local <> FileTreeEntry.blob_id en ->
     copy <> target -> is_dir_at fs copy = false -> fs' !! copy = Some (File local)) /\
  (forall l x, l <> target -> l <> copy -> fs !! l = Some x -> fs' !! l = Some x) /\
  (forall local, fs !! target = Some (File local) -> object_id local = FileTreeEntry.blob_id en ->
     forall l x, l <> target -> fs !! l = Some x -> fs' !! l = Some x).
Proof.
  intros Hm0. pose proof Hm0 as Hm. unfold materialize_with_conflict in Hm. cbv zeta. apply materialize_written in Hm as [Ht Hother].
  set (target := resolve (path_join (share_dir e) (FileTreeEntry.path en))) in *.
  set (copy := sibling target _) in *.
  split; [exact Ht|]. unfold fs_read in Hother. fold target in Hother. split_and!.
  - intros local Hl Hne Hc Hd. destruct (conflict_written _ _ _ _ _ _ _ _ Hm0 Hl Hne Hd) as (_ & Hk & _). exact (Hk Hc).
  - intros l x Hlt Hlc Hx. apply Hother; [done|]. repeat case_match; try done.
    unfold copy_to. fold copy. destruct (is_dir_at fs copy); [done|]. cbn [default from_option id].
    by rewrite lookup_insert_ne.
  - intros local Hl Heq l x Hlt Hx. apply Hother; [done|]. rewrite Hl. by rewrite decide_True.
Qed.

Definition demo_remote : entry := FileTreeEntry.mk "d/a.md" "00" 420 1 5.
Definition demo_pulled : mat :=
  materialize_with_conflict demo_share_env demo_remote (as_bytes "B") "ser163/m1/maka" 7 demo_share.
Definition mat_files (m : mat) : files := match m with Written fs => fs | LinkMade _ _ fs => fs | MatError fs => fs end.
Definition demo_copy : loc := (true, ["s"; "d"; ".sync-conflict-ser163_m1_maka-d_a.md-7"]).

Lemma demo_pulled_written : demo_pulled = Written (mat_files demo_pulled).
Proof.
  assert (match demo_pulled with Written _ => true | _ => false end = true) as H by (vm_compute; reflexivity).
  by destruct demo_pulled.
Qed.

Lemma conflict_keeps_both_witness :
  mat_files demo_pulled !! demo_copy = Some (File (as_bytes "A")).
Proof.
  pose proof (conflict_keeps_both demo_share_env demo_remote (as_bytes "B") "ser163/m1/maka" 7 demo_share
    (mat_files demo_pulled)) as Hk. destruct (Hk demo_pulled_written) as (_ & Hc & _).
  refine (Hc (as_bytes "A") _ _ _ _).
  - vm_compute. reflexivity.
  - vm_compute. discriminate.
  - vm_compute. discriminate.
  - vm_compute. reflexivity.
Defined.

(** Only conflict copies directly in the shared directory stay local.  The copy
    made for a file in a subdirectory lies in that subdirectory, its relative path
    does not start with the conflict prefix, and the next tree lists it: it is
    pushed and every other machine receives it. *)
Theorem nested_conflict_synced `{HexCodec} `{Sha256} e en b requester ts fs fs' mt d ds n local :
  materialize_with_conflict e en b requester ts fs = Written fs' ->
  resolve (path_join (share_dir e) (FileTreeEntry.path en)) = below (resolve (share_dir e)) ((d :: ds) ++ [n]) ->
  reached fs (resolve (share_dir e)) [] ((d :: ds) ++ [n]) local ->
  object_id local <> FileTreeEntry.blob_id en -> is_dir_at fs (resolve (share_dir e)) = true ->
  let c := conflict_name requester (FileTreeEntry.path en) ts in
  c <> n -> is_dir_at fs (below (resolve (share_dir e)) ((d :: ds) ++ [c])) = false ->
  excluded (str_replace "\" "/" d) = false ->
  exists t, build_tree mt (share_dir e) fs' = Some t /\
    file_entry mt (resolve (share_dir e)) ((d :: ds) ++ [c]) local ∈ FileTree.entries t.
Proof.
  intros Hm Ht Hr Hne Hroot. cbv zeta. intros Hc Hcd Hex. set (root := resolve (share_dir e)) in *.
  set (c := conflict_name _ _ _) in *.
  unfold materialize_with_conflict in Hm. apply materialize_written in Hm as [_ Hother].
  destruct Hr as (_ & Hf & Hdirs). cbn [app] in Hf.
  unfold fs_read in Hother. rewrite Ht in Hother. cbn [app] in Hother. rewrite Hf, decide_False in Hother by done.
  fold c in Hother.
  assert (sibling (below root (d :: ds ++ [n])) c = below root ((d :: ds) ++ [c])) as Hsib.
  { unfold sibling, below. cbn [fst snd]. f_equal.
    by rewrite (app_assoc _ (d :: ds) [n]), removelast_last, <- app_assoc. }
  rewrite Hsib in Hother. unfold copy_to in Hother. rewrite Hcd in Hother. cbn [default from_option id] in Hother.
  assert (forall l, length (snd l) <= length (snd root ++ d :: ds) -> fs !! l = Some Dir -> fs' !! l = Some Dir)%nat as Hkeep.
  { intros l Hlen Hl. apply Hother; [intros ->|rewrite lookup_insert_ne; [done|intros <-]];
      unfold below in Hlen; cbn [snd] in Hlen; rewrite !length_app in Hlen; cbn [length] in Hlen;
      rewrite ?length_app in Hlen; cbn [length] in Hlen; lia. }
  assert (is_dir_at fs' root = true) as Hroot'.
  { unfold is_dir_at in Hroot |- *. apply orb_true_iff in Hroot as [->|Hd]; [done|]. apply orb_true_iff. right.
    destruct (fs !! root) as [[|]|] eqn:E; try done. rewrite (Hkeep root ltac:(rewrite length_app; lia) E). done. }
  destruct (proj1 (build_tree_total mt (share_dir e) fs') Hroot') as (t & Hbt & He).
  fold root in He |- *.
  exists t. split; [exact Hbt|]. apply He. exists ((d :: ds) ++ [c]), local. split; [|split; [|done]].
  - split_and!; [done| |].
    + apply Hother; [|by rewrite lookup_insert_eq].
      unfold below. intros [= E]. apply app_inv_head in E. injection E as E. apply app_inj_tail in E as [_ E]. done.
    + intros k Hk. apply Hkeep.
      * unfold below. cbn [snd]. rewrite !length_app, length_take. rewrite length_app in Hk. cbn [length] in *. lia.
      * specialize (Hdirs k). rewrite !length_app in Hk, Hdirs. cbn [app] in Hdirs.
        rewrite take_app_le by (cbn [length] in *; lia).
        change (d :: ds ++ [n]) with ((d :: ds) ++ [n]) in Hdirs.
        rewrite take_app_le in Hdirs by (cbn [length] in *; lia). apply Hdirs. cbn [length] in *. lia.
  - cbn [app]. apply excluded_nested; [by destruct ds|done].
Qed.

Lemma nested_conflict_synced_witness :
  exists t, build_tree (fun _ => 1) "/s" (mat_files demo_pulled) = Some t /\
    file_entry (fun _ => 1) (true, ["s"]) ["d"; ".sync-conflict-ser163_m1_maka-d_a.md-7"] (as_bytes "A") ∈ FileTree.entries t.
Proof.
  pose proof (nested_conflict_synced demo_share_env demo_remote (as_bytes "B") "ser163/m1/maka" 7 demo_share
    (mat_files demo_pulled) (fun _ => 1) "d" [] "a.md" (as_bytes "A") demo_pulled_written) as Hn.
  refine (Hn _ _ _ _ _ _ _).
  - vm_compute. reflexivity.
  - split_and!; [discriminate|vm_compute; reflexivity|].
    intros k Hk. cbn in Hk. assert (k = 1%nat) as -> by lia. vm_compute. reflexivity.
  - vm_compute. discriminate.
  - vm_compute. reflexivity.
  - vm_compute. discriminate.
  - vm_compute. reflexivity.
  - vm_compute. reflexivity.
Defined.
