(* ===== verification/Conflict.v ===== *)
(** * Resolving conflicts

    [nsmt-client/src/conflicts_web.rs] and [conflicts_cli] of
    [nsmt-client/src/main.rs]: finding the conflict copies a pull left in the
    shared directory ([Share]), the main file each belongs to, and keeping one of
    the two. *)

From S2P Require Import Prelude Json Paths Messages Crypto Store Tree Share.

(** ** Names *)

(** [main_name_of], which the command line repeats: without the prefix, the text
    between the first and the last [-]. *)
Definition main_name_of (name : string) : string :=
  let stripped := default name (strip_prefix ".sync-conflict-" name) in
  let machine_and_path := match rsplit_once "-" stripped with Some (x, _) => x | None => "" end in
  match split_once "-" machine_and_path with
  | Some (_, path) => path
  | None => machine_and_path
  end.

(** [conflict_path]: the file a request names, if the name is let through. *)
Definition conflict_path (dir name : string) (fs : files) : option string :=
  if starts_with "." name && negb (starts_with ".sync-conflict-" name) then None
  else
    let p := path_join dir name in
    if fs_exists fs p && fs_is_file fs p then Some p else None.

(** ** The web handlers *)

(** [list_conflicts]; [dir_len] is the size the system reports for a directory. *)
Definition conflict_json (dir_len : Z) (kv : string * node) : json :=
  JObj [("name", JStr (fst kv));
        ("size", JInt (match snd kv with File b => len b | Dir => dir_len end));
        ("main", JStr (main_name_of (fst kv)))].

Definition name_le (x y : string * node) : Prop := String.le (fst x) (fst y).
#[export] Instance name_le_dec : RelDecision name_le.
Proof. intros x y. unfold name_le. apply _. Defined.

Definition conflict_entries (fs : files) (dir : string) : list (string * node) :=
  match read_dir fs (resolve dir) with
  | Some l => merge_sort name_le (filter (fun kv => starts_with ".sync-conflict-" (fst kv) = true) l)
  | None => []
  end.

Definition list_conflicts (dir_len : Z) (fs : files) (dir : string) : list json :=
  map (conflict_json dir_len) (conflict_entries fs dir).

Definition api_list (dir_len : Z) (e : env) (fs : files) : json :=
  JObj [("share_dir", JStr (share_dir e)); ("conflicts", JArr (list_conflicts dir_len fs (share_dir e)))].

Definition not_found : json := jerror "conflict not found".

Definition lossy (b : bytes) : string := of_bytes (utf8_lossy b).

Definition api_detail (e : env) (name : string) (fs : files) : json :=
  let dir := share_dir e in
  match conflict_path dir name fs with
  | None => not_found
  | Some cp =>
      let main := path_join dir (main_name_of name) in
      let local := default [] (fs_read fs cp) in
      let remote := default [] (fs_read fs main) in
      JObj [("name", JStr name); ("main", JStr (main_name_of name)); ("local_bytes", JInt (len local));
            ("remote_bytes", JInt (len remote)); ("local_text", JStr (lossy local)); ("remote_text", JStr (lossy remote))]
  end.

(** [let _ = fs::remove_file(..)] *)
Definition remove_quiet (p : string) (fs : files) : files := default fs (fs_remove p fs).

Definition api_resolve (e : env) (name choice : string) (content : option string) (fs : files) : json * files :=
  let dir := share_dir e in
  match conflict_path dir name fs with
  | None => (not_found, fs)
  | Some cp =>
      let main := path_join dir (main_name_of name) in
      if decide (choice = "local") then
        match fs_write main (default [] (fs_read fs cp)) fs with
        | None => (jerror "write main failed", fs)
        | Some fs1 =>
            (JObj [("ok", JBool true); ("action", JStr "keep_local"); ("main", JStr main)], remove_quiet cp fs1)
        end
      else if decide (choice = "remote") then
        (JObj [("ok", JBool true); ("action", JStr "keep_remote")], remove_quiet cp fs)
      else if decide (choice = "custom") then
        let text := default "" content in
        match fs_write main (as_bytes text) fs with
        | None => (jerror "write main failed", fs)
        | Some fs1 =>
            (JObj [("ok", JBool true); ("action", JStr "custom_merged"); ("bytes", JInt (str_len text))], remove_quiet cp fs1)
        end
      else (jerror ("unknown choice: " +:+ choice), fs)
  end.

(** ** The command line *)

(** How a command ends; what it prints is left out, but for the listing. *)
Inductive cli_end : Type :=
| CliOk (printed : list string)
| CliErr (m : string)
| CliPanic.

(** The flag that decides: the first one given. *)
Inductive Keep : Set := KeepLocal | KeepRemote.

Fixpoint keep_flag (args : list string) : option Keep :=
  match args with
  | [] => None
  | x :: args' =>
      if decide (x = "--keep-local") then Some KeepLocal
      else if decide (x = "--keep-remote") then Some KeepRemote
      else keep_flag args'
  end.

(** The answer typed at the prompt. *)
Definition keep_answer (input : string) : option Keep :=
  let t := str_trim input in
  if decide (t = "l" \/ t = "L") then Some KeepLocal
  else if decide (t = "r" \/ t = "R") then Some KeepRemote
  else None.

Definition keep_local (conflict main : string) (b : bytes) (fs : files) : cli_end * files :=
  match fs_write main b fs with
  | None => (CliErr "write", fs)
  | Some fs1 => match fs_remove conflict fs1 with
                | None => (CliErr "remove_file", fs1)
                | Some fs2 => (CliOk [], fs2)
                end
  end.

Definition keep_remote (conflict : string) (fs : files) : cli_end * files :=
  match fs_remove conflict fs with
  | None => (CliErr "remove_file", fs)
  | Some fs1 => (CliOk [], fs1)
  end.

Definition keep (k : Keep) (conflict main : string) (b : bytes) (fs : files) : cli_end * files :=
  match k with
  | KeepLocal => keep_local conflict main b fs
  | KeepRemote => keep_remote conflict fs
  end.

(** [yggd conflicts]: the lines of the listing. *)
Definition conflict_lines (dir_len : Z) (l : list (string * node)) : list string :=
  let found := filter (fun kv => starts_with ".sync-conflict-" (fst kv) = true) l in
  match found with
  | [] => ["（无冲突副本）"]
  | _ => map (fun kv => fst kv +:+ "  (" +:+ dec (match snd kv with File b => len b | Dir => dir_len end) +:+ " bytes)") found
  end.

(** [yggd merge <file>]; [input] is the line read at the prompt, if one is needed. *)
Definition merge_cli (e : env) (args : list string) (input : string) (fs : files) : cli_end * files :=
  match args !! 3%nat with
  | None => (CliErr "usage: yggd merge <冲突文件> [--keep-local|--keep-remote]", fs)
  | Some conflict =>
      let cpath := if starts_with "/" conflict || starts_with "." conflict then conflict
                   else path_join (share_dir e) conflict in
      if negb (fs_exists fs cpath) then (CliErr ("冲突文件不存在: " +:+ cpath), fs)
      else match file_name cpath with
           | None => (CliPanic, fs)
           | Some name =>
               let main := path_join (share_dir e) (main_name_of name) in
               match fs_read fs cpath with
               | None => (CliErr "read", fs)
               | Some b =>
                   match keep_flag args with
                   | Some k => keep k cpath main b fs
                   | None => match keep_answer input with
                             | Some k => keep k cpath main b fs
                             | None => (CliOk [], fs)
                             end
                   end
               end
           end
  end.

Definition conflicts_cli (dir_len : Z) (e : env) (args : list string) (input : string) (fs : files) : cli_end * files :=
  let cmd := default "" (args !! 2%nat) in
  if decide (cmd = "conflicts") then
    match read_dir fs (resolve (share_dir e)) with
    | None => (CliErr "read_dir", fs)
    | Some l => (CliOk (conflict_lines dir_len l), fs)
    end
  else if decide (cmd = "merge") then merge_cli e args input fs
  else (CliOk [], fs).

(** ** Lemmas *)

#[export] Instance name_le_trans : Transitive name_le.
Proof. intros x y z. unfold name_le. apply transitivity. Qed.
#[export] Instance name_le_total : Total name_le.
Proof. intros x y. unfold name_le. apply (total String.le). Qed.

Lemma rsplit_once_app c x y : str_mem c y = false -> rsplit_once c (x +:+ String c y) = Some (x, y).
Proof.
  intros Hy. assert (rsplit_once c y = None) as Hn.
  { revert Hy. induction y as [|d y IH]; [done|]. cbn. intros [Hd Hy]%orb_false_iff. by rewrite IH, Hd. }
  induction x as [|d x IH].
  - change (EmptyString +:+ String c y) with (String c y). cbn. by rewrite Hn, Ascii.eqb_refl.
  - change (String d x +:+ String c y) with (String d (x +:+ String c y)). cbn. by rewrite IH.
Qed.

Lemma dec_not_mem c n : is_digit c = false -> str_mem c (dec n) = false.
Proof. intros Hc. eapply str_all_not_mem; [exact Hc|apply dec_all]. Qed.

Lemma sanitize_without x s : (forall c, negb (Ascii.eqb x (sanitize_char c)) = true) -> str_mem x (sanitize s) = false.
Proof.
  intros Hx. unfold sanitize. generalize (str_filter (fun c => negb (is_cont c)) s). intros t.
  induction t as [|c t IH]; [done|]. cbn [str_map str_mem]. rewrite IH, orb_false_r. by apply negb_true_iff.
Qed.

Lemma sanitize_no_slash s : str_mem "/" (sanitize s) = false.
Proof. apply sanitize_without, byte_cases. by vm_compute. Qed.
Lemma sanitize_no_backslash s : str_mem "\" (sanitize s) = false.
Proof. apply sanitize_without, byte_cases. by vm_compute. Qed.

Lemma replace_no_slash s : str_mem "/" (str_replace "/" "_" s) = false.
Proof.
  unfold str_replace. induction s as [|c s IH]; [done|]. cbn [str_map str_mem]. rewrite IH, orb_false_r.
  destruct (Ascii.eqb c "/") eqn:E; [done|]. by rewrite Ascii.eqb_sym.
Qed.

Lemma replace_none x y s : str_mem x s = false -> str_replace x y s = s.
Proof.
  unfold str_replace. induction s as [|c s IH]; [done|]. cbn [str_map str_mem]. intros [Hc Hs]%orb_false_iff.
  by rewrite Ascii.eqb_sym, Hc, IH.
Qed.

Lemma conflict_name_shape r p ts :
  conflict_name r p ts =
    ".sync-conflict-" +:+ (sanitize r +:+ String "-" (str_replace "/" "_" p)) +:+ String "-" (dec ts).
Proof. unfold conflict_name, sanitize_name. by rewrite str_app_assoc. Qed.

Lemma main_name_shape r p ts :
  main_name_of (conflict_name r p ts) =
    match split_once "-" (sanitize r +:+ String "-" (str_replace "/" "_" p)) with
    | Some (_, q) => q
    | None => sanitize r +:+ String "-" (str_replace "/" "_" p)
    end.
Proof.
  unfold main_name_of. rewrite conflict_name_shape, strip_prefix_app. cbn [default from_option id].
  by rewrite rsplit_once_app by (by apply dec_not_mem).
Qed.

Lemma main_name_plain r p ts :
  str_mem "-" (sanitize r) = false -> str_mem "/" p = false -> main_name_of (conflict_name r p ts) = p.
Proof. intros Hr Hp. rewrite main_name_shape, split_once_app, replace_none by done. done. Qed.

Lemma conflict_name_prefix r p ts : starts_with ".sync-conflict-" (conflict_name r p ts) = true.
Proof. rewrite conflict_name_shape. apply starts_with_app. Qed.

Lemma conflict_name_long r p ts : (16 + String.length p <= String.length (conflict_name r p ts))%nat.
Proof.
  rewrite conflict_name_shape, !str_length_app. cbn [String.length]. unfold str_replace. rewrite str_map_length. lia.
Qed.

Lemma conflict_name_file r p ts : plain_name (conflict_name r p ts) = true.
Proof.
  unfold plain_name. rewrite andb_true_iff, !negb_true_iff, bool_decide_eq_false. split.
  - pose proof (conflict_name_long r p ts). intros E. destruct E as [E|[E|E]]; rewrite E in *; cbn in *; lia.
  - rewrite conflict_name_shape. repeat (rewrite str_mem_app || cbn [str_mem]).
    rewrite sanitize_no_slash, replace_no_slash, dec_not_mem by done. done.
Qed.

(** A file that is there can be named by a request, unless its name is hidden. *)
Lemma conflict_path_some dir name fs b :
  starts_with "." name && negb (starts_with ".sync-conflict-" name) = false ->
  fs_read fs (path_join dir name) = Some b -> conflict_path dir name fs = Some (path_join dir name).
Proof.
  intros Hn Hr. unfold conflict_path. rewrite Hn. unfold fs_exists, fs_is_file. by rewrite Hr.
Qed.

Lemma remove_quiet_file p b fs : fs !! resolve p = Some (File b) -> remove_quiet p fs = delete (resolve p) fs.
Proof. intros Hl. unfold remove_quiet, fs_remove. by rewrite Hl. Qed.

(** The disk after a pull that made the conflict copy of a file directly in the
    shared directory. *)
Record pulled (e : env) (r p : string) (ts : Z) (local b : bytes) (fs' : files) : Prop := {
  pl_name : plain_name p = true;
  pl_machine : str_mem "-" (sanitize r) = false;
  pl_dir : is_dir_at fs' (resolve (share_dir e)) = true;
  pl_main : fs' !! resolve (path_join (share_dir e) p) = Some (File b);
  pl_copy : fs' !! resolve (path_join (share_dir e) (conflict_name r p ts)) = Some (File local);
}.

Lemma pull_pulled `{HexCodec} `{Sha256} e en b r ts fs fs' local :
  materialize_with_conflict e en b r ts fs = Written fs' ->
  plain_name (FileTreeEntry.path en) = true -> str_mem "-" (sanitize r) = false ->
  is_dir_at fs (resolve (share_dir e)) = true ->
  fs !! resolve (path_join (share_dir e) (FileTreeEntry.path en)) = Some (File local) ->
  object_id local <> FileTreeEntry.blob_id en ->
  is_dir_at fs (resolve (path_join (share_dir e) (conflict_name r (FileTreeEntry.path en) ts))) = false ->
  pulled e r (FileTreeEntry.path en) ts local b fs'.
Proof.
  intros Hm Hp Hr Hroot Hl Hne Hd. set (p := FileTreeEntry.path en) in *. set (n := conflict_name r p ts) in *.
  assert (sibling (resolve (path_join (share_dir e) p)) n = resolve (path_join (share_dir e) n)) as Hsib.
  { rewrite !resolve_join_plain by (done || apply conflict_name_file). unfold sibling. cbn [fst snd].
    by rewrite removelast_last. }
  pose proof (conflict_written e en b r ts fs fs' local Hm Hl Hne) as Hw. fold p in Hw. fold n in Hw. rewrite Hsib in Hw.
  destruct (Hw Hd) as (Ht & Hc & Hother). split; [done|done| |done|].
  - unfold is_dir_at in *. apply orb_true_iff in Hroot as [->|Hdir]; [done|]. apply orb_true_iff. right.
    destruct (fs !! resolve (share_dir e)) as [[|]|] eqn:E; try done.
    rewrite (Hother _ Dir); [done| | |done];
      (rewrite resolve_join_plain by (done || apply conflict_name_file)); intros Eq;
      apply (f_equal (fun l => length (snd l))) in Eq; cbn [snd] in Eq; rewrite length_app in Eq; cbn in Eq; lia.
  - apply Hc. intros Eq%resolve_join_plain_inj; [|apply conflict_name_file|done].
    pose proof (conflict_name_long r p ts). unfold n in Eq. rewrite Eq in *. lia.
Qed.

Lemma split_join d n : plain_name n = true -> exists pre, str_split "/" (path_join d n) = pre ++ [n].
Proof.
  intros Hn. assert (str_split "/" n = [n]) as Hs by (by apply str_split_single, plain_no_slash).
  unfold path_join. rewrite plain_relative by done.
  destruct ((str_len d =? 0) || ends_with "/" d) eqn:E.
  - apply orb_true_iff in E as [E|[d' ->]%ends_slash_inv].
    + apply Z.eqb_eq, str_len_0 in E as ->. by exists [].
    + rewrite str_app_assoc. change ("/" +:+ n) with (String "/" n). rewrite str_split_app, Hs. by eexists.
  - change ("/" +:+ n) with (String "/" n). rewrite str_split_app, Hs. by eexists.
Qed.

Lemma file_name_join d n : plain_name n = true -> file_name (path_join d n) = Some n.
Proof.
  intros Hn. destruct (split_join d n Hn) as [pre Hs]. unfold file_name, components. rewrite Hs, filter_app.
  unfold plain_name in Hn. rewrite andb_true_iff, !negb_true_iff, bool_decide_eq_false in Hn.
  rewrite (filter_cons_True _ n) by naive_solver. cbn [filter list_filter]. rewrite last_snoc. cbn.
  by rewrite decide_False by naive_solver.
Qed.

(** ** Properties *)

(** The main file is found from a conflict copy's name when the machine's name has
    no [-] and the file is directly in the shared directory.  Otherwise the answer
    is another name: the slashes of the path have become underscores, and what
    follows the first [-] of the machine's name is taken for the path's start. *)
Theorem main_name_exact r p ts :
  (str_mem "-" (sanitize r) = false -> main_name_of (conflict_name r p ts) = str_replace "/" "_" p) /\
  (str_mem "-" (sanitize r) = false -> str_mem "/" p = false -> main_name_of (conflict_name r p ts) = p) /\
  (forall m1 m2, sanitize r = m1 +:+ String "-" m2 -> str_mem "-" m1 = false ->
     main_name_of (conflict_name r p ts) = m2 +:+ "-" +:+ str_replace "/" "_" p).
Proof.
  split_and!.
  - intros Hr. by rewrite main_name_shape, split_once_app.
  - apply main_name_plain.
  - intros m1 m2 Hr Hm. rewrite main_name_shape, Hr, str_app_assoc.
    change (String "-" m2 +:+ String "-" (str_replace "/" "_" p)) with (String "-" (m2 +:+ "-" +:+ str_replace "/" "_" p)).
    by rewrite split_once_app.
Qed.

Lemma main_name_exact_witness :
  main_name_of (conflict_name "ser163/m1/maka" "notes-2.md" 7) = "notes-2.md" /\
  main_name_of (conflict_name "ser163/mac-1/maka" "notes.md" 7) = "1_maka-notes.md".
Proof.
  split.
  - apply (proj1 (proj2 (main_name_exact "ser163/m1/maka" "notes-2.md" 7))); vm_compute; reflexivity.
  - apply (proj2 (proj2 (main_name_exact "ser163/mac-1/maka" "notes.md" 7)) "ser163_mac" "1_maka"); vm_compute; reflexivity.
Defined.


Definition demo_flat : files := {[ (true, ["s"]) := Dir; (true, ["s"; "a.md"]) := File (as_bytes "A") ]}.
Definition demo_flat_entry : entry := FileTreeEntry.mk "a.md" "00" 420 1 5.
Definition demo_flat_pulled : mat :=
  materialize_with_conflict demo_share_env demo_flat_entry (as_bytes "B") "ser163/m1/maka" 7 demo_flat.

Lemma demo_flat_written : demo_flat_pulled = Written (mat_files demo_flat_pulled).
Proof.
  assert (match demo_flat_pulled with Written _ => true | _ => false end = true) as Hw by (vm_compute; reflexivity).
  by destruct demo_flat_pulled.
Qed.


(** The check on a requested name only looks at its first characters: an absolute
    path, or one that leaves the directory through a subdirectory, passes it.  So a
    request can read any file, and delete it with [remote]; and on the command line
    a conflict copy given by its bare name is looked for in the working directory,
    not in the shared one. *)
Theorem conflict_path_unsafe e :
  (forall p b fs, is_absolute p = true -> fs !! resolve p = Some (File b) ->
     jget "local_text" (api_detail e p fs) = JStr (lossy b) /\
     snd (api_resolve e p "remote" None fs) = delete (resolve p) fs) /\
  (forall name addr input fs, starts_with ".sync-conflict-" name = true -> fs_exists fs name = false ->
     merge_cli e ["yggd"; addr; "merge"; name; "--keep-local"] input fs = (CliErr ("冲突文件不存在: " +:+ name), fs)).
Proof.
  split.
  - intros p b fs Ha Hl. assert (resolve (path_join (share_dir e) p) = resolve p) as Hj by (by apply resolve_abs_join).
    assert (fs_read fs (path_join (share_dir e) p) = Some b) as Hrd by (unfold fs_read; by rewrite Hj, Hl).
    assert (conflict_path (share_dir e) p fs = Some (path_join (share_dir e) p)) as Hcp.
    { eapply conflict_path_some; [|exact Hrd]. destruct p as [|c p]; [done|]. unfold is_absolute, starts_with in Ha |- *.
      cbn [strip_prefix] in Ha |- *. destruct (Ascii.eqb_spec "/" c) as [<-|]; done. }
    split.
    + unfold api_detail. rewrite Hcp, Hrd. done.
    + unfold api_resolve. rewrite Hcp. rewrite decide_False by done. rewrite decide_True by done. cbn [snd].
      rewrite <- Hj. apply (remove_quiet_file _ b). by rewrite Hj.
  - intros name addr input fs Hn Hx. unfold merge_cli. cbn [lookup list_lookup].
    assert (starts_with "." name = true) as ->.
    { unfold starts_with in *. destruct name as [|c name]; [done|]. cbn [strip_prefix] in *.
      by destruct (Ascii.eqb "." c). }
    rewrite orb_true_r, Hx. done.
Qed.

Lemma conflict_path_unsafe_witness :
  snd (api_resolve demo_share_env "/root/.nsmt/domain.key" "remote" None
    {[ (true, ["root"; ".nsmt"; "domain.key"]) := File (as_bytes "k") ]}) =
  delete (true, ["root"; ".nsmt"; "domain.key"]) {[ (true, ["root"; ".nsmt"; "domain.key"]) := File (as_bytes "k") ]}.
Proof.
  exact (proj2 (proj1 (conflict_path_unsafe demo_share_env) "/root/.nsmt/domain.key" (as_bytes "k")
    {[ (true, ["root"; ".nsmt"; "domain.key"]) := File (as_bytes "k") ]} eq_refl eq_refl)).
Defined.

(** The listing is exactly the conflict copies in the shared directory, each with
    its size and main file, sorted by name. *)
Theorem list_conflicts_exact fs dir n nd :
  is_dir_at fs (resolve dir) = true ->
  ((n, nd) ∈ conflict_entries fs dir <->
     fs !! below (resolve dir) [n] = Some nd /\ starts_with ".sync-conflict-" n = true) /\
  StronglySorted name_le (conflict_entries fs dir).
Proof.
  intros Hd. unfold conflict_entries. destruct (read_dir fs (resolve dir)) as [l|] eqn:El.
  2:{ unfold read_dir in El. by rewrite Hd in El. }
  split.
  - rewrite merge_sort_Permutation, list_elem_of_filter, (read_dir_spec _ _ _ n nd El). naive_solver.
  - apply (StronglySorted_merge_sort _).
Qed.

Lemma list_conflicts_exact_witness :
  (".sync-conflict-m-a-7", File []) ∈
    conflict_entries {[ (true, ["s"]) := Dir; (true, ["s"; ".sync-conflict-m-a-7"]) := File [] ]} "/s".
Proof.
  refine (proj2 (proj1 (list_conflicts_exact {[ (true, ["s"]) := Dir; (true, ["s"; ".sync-conflict-m-a-7"]) := File [] ]} "/s"
    ".sync-conflict-m-a-7" (File []) _)) _); [vm_compute; reflexivity|split; vm_compute; reflexivity].
Defined.
