(* ===== verification/OkfText.v ===== *)
(** * The text side of the knowledge libraries

    The functions of [nsmt-client/src/okf.rs] that work on text: dates, front
    matter, the log, the field editor and links.  YAML is the class [Yaml]: the
    sources only parse it and look keys up in the result. *)

From S2P Require Import Prelude Paths.

(** [s.find(p)] as the texts before and after the first match. *)
Definition str_cut (p s : string) : option (string * string) :=
  ab ← str_find p s; r ← strip_prefix p (snd ab); Some (fst ab, r).

(** ** Dates *)

(** [i64] division truncates toward zero. *)
Definition civil_from_days (z0 : Z) : Z * Z * Z :=
  let z := z0 + 719468 in
  let era := Z.quot (if 0 <=? z then z else z - 146096) 146097 in
  let doe := z - era * 146097 in
  let yoe := Z.quot (doe - Z.quot doe 1460 + Z.quot doe 36524 - Z.quot doe 146096) 365 in
  let y := yoe + era * 400 in
  let doy := doe - (365 * yoe + Z.quot yoe 4 - Z.quot yoe 100) in
  let mp := Z.quot (5 * doy + 2) 153 in
  let d := doy - Z.quot (153 * mp + 2) 5 + 1 in
  let m := if mp <? 10 then mp + 3 else mp - 9 in
  (if m <=? 2 then y + 1 else y, m, d).

(** [{n:0w}] *)
Fixpoint zeros (n : nat) (s : string) : string :=
  match n with O => s | S k => zeros k (String "0" s) end.
Definition pad_zero (w : nat) (n : Z) : string := let s := dec n in zeros (w - String.length s) s.

(** [iso_now] at a clock reading in seconds. *)
Definition iso_now (secs : Z) : string :=
  let days := secs / 86400 in
  let rem := secs mod 86400 in
  let '(y, mo, d) := civil_from_days days in
  pad_zero 4 y +:+ "-" +:+ pad_zero 2 mo +:+ "-" +:+ pad_zero 2 d +:+ "T" +:+
  pad_zero 2 (rem / 3600) +:+ ":" +:+ pad_zero 2 (rem mod 3600 / 60) +:+ ":" +:+ pad_zero 2 (rem mod 60) +:+ "Z".

Definition is_iso8601 (s : string) : bool :=
  let b := as_bytes s in
  let digit i := match b !! i with Some c => is_digit c | None => false end in
  let at_ i c := bool_decide (b !! i = Some c) in
  if (length b <? 20)%nat then false
  else digit 0%nat && digit 1%nat && digit 2%nat && digit 3%nat && at_ 4%nat "-"%char && digit 5%nat && digit 6%nat &&
       at_ 7%nat "-"%char && digit 8%nat && digit 9%nat && at_ 10%nat "T"%char && digit 11%nat && digit 12%nat &&
       at_ 13%nat ":"%char && digit 14%nat && digit 15%nat && at_ 16%nat ":"%char && digit 17%nat && digit 18%nat &&
       (at_ 19%nat "Z"%char || (at_ 19%nat "+"%char || at_ 19%nat "-"%char)).

(** ** Documents *)

Inductive yaml : Set :=
| YNull
| YBool (b : bool)
| YNum (text : string)
| YStr (s : string)
| YSeq (l : list yaml)
| YMap (l : list (yaml * yaml))
| YTag (tag : string) (v : yaml).

(** [serde_yaml::from_str] *)
Class Yaml : Type := { yaml_parse : string -> option yaml }.

Fixpoint untag (v : yaml) : yaml :=
  match v with YTag _ w => untag w | _ => v end.

(** [v.get(key)] and [v.as_str()] look through tags. *)
Definition yget (key : string) (v : yaml) : option yaml :=
  match untag v with
  | YMap l => (fix find l := match l with
                             | [] => None
                             | (YStr k, w) :: l' => if decide (k = key) then Some w else find l'
                             | _ :: l' => find l'
                             end) l
  | _ => None
  end.

Definition yas_str (v : yaml) : option string :=
  match untag v with YStr s => Some s | _ => None end.

Definition BOM : string := of_bytes [u8_of 239; u8_of 187; u8_of 191].
Definition LF_DASH : string := String LF "---".

(** The front matter's text and the body of a document. *)
Definition split_doc (content : string) : option (string * string) :=
  let content := default content (strip_prefix BOM content) in
  rest ← strip_prefix "---" content;
  fb ← str_cut LF_DASH rest;
  Some (fst fb, trim_start_matches LF (snd fb)).

Section Docs.
Context `{Yaml}.

Definition parse_doc (content : string) : option (yaml * string) :=
  fb ← split_doc content; v ← yaml_parse (fst fb); Some (v, snd fb).

Definition fm_str (v : yaml) (key : string) : option string := yget key v ≫= yas_str.

Definition fm_tags (v : yaml) : list string :=
  match yget "tags" v with
  | Some (YSeq l) => omap yas_str l
  | Some (YStr s) => filter (fun x => x <> "") (map str_trim (str_split "," s))
  | _ => []
  end.
End Docs.

(** ** The log *)

Definition LOG_HEAD : string := "# Directory Update Log" +:+ String LF (String LF EmptyString).
Definition LF_GROUP : string := String LF "## ".

(** What [append_log] makes of the file's text. *)
Definition log_insert (today entry content : string) : string :=
  let marker := "## " +:+ today +:+ String LF EmptyString in
  let line := "* " +:+ entry +:+ String LF EmptyString in
  match str_cut marker content with
  | Some (before, seg) =>
      match str_cut LF_GROUP seg with
      | Some (group, rest) => before +:+ marker +:+ group +:+ line +:+ LF_GROUP +:+ rest
      | None => content +:+ line
      end
  | None => content +:+ String LF EmptyString +:+ marker +:+ line
  end.

(** ** Editing front matter *)

Definition is_ws_start (s : string) : string := trim_start_if is_ws s.

(** One changed line; the indentation and what follows the first [#] are
    kept. *)
Fixpoint take_ws (s : string) : string :=
  match s with
  | String c t => if is_ws c then String c (take_ws t) else EmptyString
  | EmptyString => EmptyString
  end.

Definition edited_line (key val line : string) : string :=
  take_ws line +:+ key +:+ ": " +:+ val +:+
  trim_end_if is_ws (match split_once "#" line with Some (_, c) => "#" +:+ c | None => "" end).

Fixpoint set_line (key val : string) (ls : list string) : list string :=
  match ls with
  | [] => [key +:+ ": " +:+ val]
  | l :: ls' => if starts_with (key +:+ ":") (is_ws_start l) then edited_line key val l :: ls'
                else l :: set_line key val ls'
  end.

Definition apply_changes (changes : list (string * string)) (ls : list string) : list string :=
  fold_left (fun ls kv => set_line (fst kv) (snd kv) ls) changes ls.

(** The lines of the front matter [cmd_edit] works on. *)
Definition fm_lines (raw : string) : option (list string) :=
  inner ← strip_prefix "---" raw;
  Some (lines (trim_start_matches LF (match str_cut LF_DASH inner with Some (x, _) => x | None => inner end))).

Definition render_doc (ls : list string) (body : string) : string :=
  "---" +:+ String LF (str_join (String LF EmptyString) ls) +:+ LF_DASH +:+ String LF (String LF body).

(** ** Links *)

(** The loop of [extract_md_links]; a link takes at least one byte, so the fuel its
    caller passes is enough. *)
Fixpoint links_loop (fuel : nat) (s : string) : list string :=
  match fuel, s with
  | S fuel', String c s' =>
      if Ascii.eqb c "[" then
        match str_cut "]" s' with
        | Some (_, String "(" t) =>
            match str_cut ")" t with
            | Some (target, rest) =>
                let target := match split_once " " target with Some (x, _) => x | None => target end in
                if str_len target =? 0 then links_loop fuel' rest else target :: links_loop fuel' rest
            | None => links_loop fuel' s'
            end
        | _ => links_loop fuel' s'
        end
      else links_loop fuel' s'
  | _, _ => []
  end.

Definition extract_md_links (body : string) : list string := links_loop (String.length body) body.

Definition is_external_link (l : string) : bool :=
  starts_with "http://" l || starts_with "https://" l || starts_with "#" l || starts_with "mailto:" l || starts_with "data:" l.

Definition resolve_link (root doc_dir link : string) : string :=
  match strip_prefix "/" link with
  | Some p => path_join root p
  | None => path_join doc_dir link
  end.

(** ** Names *)

Definition valid_lib_name (name : string) : bool :=
  negb (str_len name =? 0) && (str_len name <=? 63) &&
  str_all (fun c => is_lower c || is_digit c || str_mem c "._-") name.

(** [Path::file_stem] and [Path::extension] of a file name. *)
Definition split_ext (n : string) : string * option string :=
  match rsplit_once "." n with
  | Some (stem, ext) => if decide (stem = "") then (n, None) else (stem, Some ext)
  | None => (n, None)
  end.

(** ** Lemmas: dates *)

Definition leap (y : Z) : bool := (y mod 4 =? 0) && (negb (y mod 100 =? 0) || (y mod 400 =? 0)).

Definition month_days (leap_year : bool) (m : Z) : Z :=
  if m =? 2 then (if leap_year then 29 else 28)
  else if (m =? 4) || (m =? 6) || (m =? 9) || (m =? 11) then 30 else 31.

(** The next day in the Gregorian calendar. *)
Definition next_date (ymd : Z * Z * Z) : Z * Z * Z :=
  let '(y, m, d) := ymd in
  if d <? month_days (leap y) m then (y, m, d + 1)
  else if m <? 12 then (y, m + 1, 1) else (y + 1, 1, 1).

(** The date of a day within a 400-year era, whose years begin in March. *)
Definition era_num (doe : Z) : Z := doe - doe / 1460 + doe / 36524 - doe / 146096.
Definition era_year (doe : Z) : Z := era_num doe / 365.

Definition march_md (doy : Z) : Z * Z :=
  let mp := (5 * doy + 2) / 153 in (if mp <? 10 then mp + 3 else mp - 9, doy - (153 * mp + 2) / 5 + 1).

Definition year_start (y : Z) : Z := if y =? 400 then 146097 else 365 * y + y / 4 - y / 100.

Definition era_date (doe : Z) : Z * Z * Z :=
  let y := era_year doe in
  let '(m, d) := march_md (doe - year_start y) in (if m <=? 2 then y + 1 else y, m, d).

Definition shift_era (k : Z) (ymd : Z * Z * Z) : Z * Z * Z := (fst (fst ymd) + 400 * k, snd (fst ymd), snd ymd).

Fixpoint all_from (f : Z -> bool) (n : nat) (z : Z) : bool :=
  match n with O => true | S n' => f z && all_from f n' (z + 1) end.

Lemma all_from_spec f n z k : all_from f n z = true -> z <= k < z + Z.of_nat n -> f k = true.
Proof.
  revert z. induction n as [|n IH]; intros z Ha Hk; [lia|]. cbn in Ha. apply andb_true_iff in Ha as [Hz Ha].
  destruct (decide (k = z)) as [->|]; [done|]. apply (IH (z + 1)); [done|lia].
Qed.

(** Checked for each of the 400 years, and for each day of a year. *)
Definition year_ok (y : Z) : bool :=
  (era_year (year_start y) =? y) && (era_year (year_start (y + 1) - 1) =? y) &&
  (year_start (y + 1) - year_start y =? 365 + (if leap (y + 1) then 1 else 0)).

Definition day_ok (lf : bool) (doy : Z) : bool :=
  let '(m, d) := march_md doy in
  let '(m', d') := march_md (doy + 1) in
  let last := (doy + 1 =? 365 + (if lf then 1 else 0)) in
  (1 <=? m) && (m <=? 12) && (1 <=? d) && (d <=? 31) &&
  (if d <? month_days lf m then negb last && (m' =? m) && (d' =? d + 1)
   else if m <? 12 then (if last then m =? 2 else (m' =? m + 1) && (d' =? 1) && negb (m =? 2))
   else negb last && (m' =? 1) && (d' =? 1)).

Lemma years_checked : all_from year_ok 400 0 = true.
Proof. vm_compute. reflexivity. Qed.

Lemma days_checked (lf : bool) : all_from (day_ok lf) (365 + (if lf then 1 else 0)) 0 = true.
Proof. destruct lf; vm_compute; reflexivity. Qed.

Lemma era_last : next_date (era_date 146096) = shift_era 1 (era_date 0).
Proof. vm_compute. reflexivity. Qed.

Lemma year_facts y : 0 <= y < 400 -> year_ok y = true.
Proof. intros Hy. apply (all_from_spec _ _ _ _ years_checked). lia. Qed.

Lemma day_facts (lf : bool) doy : 0 <= doy < 365 + (if lf then 1 else 0) -> day_ok lf doy = true.
Proof. intros Hd. apply (all_from_spec _ _ _ _ (days_checked lf)). destruct lf; lia. Qed.

Lemma era_num_succ x : 0 <= x -> era_num x <= era_num (x + 1).
Proof. unfold era_num. intros Hx. Z.to_euclidean_division_equations. lia. Qed.

Lemma era_num_mono x y : 0 <= x <= y -> era_num x <= era_num y.
Proof.
  intros [Hx Hy]. replace y with (x + Z.of_nat (Z.to_nat (y - x))) by lia. generalize (Z.to_nat (y - x)). intros n.
  induction n as [|n IH]; [by rewrite Z.add_0_r|]. etransitivity; [exact IH|].
  replace (x + Z.of_nat (S n)) with (x + Z.of_nat n + 1) by lia. apply era_num_succ. lia.
Qed.

Lemma era_year_mono x y : 0 <= x <= y -> era_year x <= era_year y.
Proof. intros Hxy. apply Z.div_le_mono; [lia|by apply era_num_mono]. Qed.

Lemma year_start_pos y : 0 <= y <= 400 -> 0 <= year_start y.
Proof. intros Hy. unfold year_start. destruct (y =? 400); [lia|]. Z.to_euclidean_division_equations. lia. Qed.

Lemma era_year_spec doe :
  0 <= doe < 146097 -> 0 <= era_year doe <= 399 /\ year_start (era_year doe) <= doe < year_start (era_year doe + 1).
Proof.
  intros Hd. pose proof (era_year_mono 0 doe ltac:(lia)) as H1. change (era_year 0) with 0 in H1.
  pose proof (era_year_mono doe 146096 ltac:(lia)) as H2. change (era_year 146096) with 399 in H2.
  split; [lia|]. set (y := era_year doe) in *. split.
  - destruct (decide (year_start y <= doe)) as [|Hn]; [done|]. exfalso. destruct (decide (y = 0)) as [E|].
    { rewrite E in Hn. change (year_start 0) with 0 in Hn. lia. }
    pose proof (year_facts (y - 1) ltac:(lia)) as Hok. unfold year_ok in Hok. replace (y - 1 + 1) with y in Hok by lia.
    pose proof (era_year_mono doe (year_start y - 1) ltac:(lia)). fold y in H. lia.
  - destruct (decide (doe < year_start (y + 1))) as [|Hn]; [done|]. exfalso. destruct (decide (y = 399)) as [E|].
    { rewrite E in Hn. change (year_start (399 + 1)) with 146097 in Hn. lia. }
    pose proof (year_facts (y + 1) ltac:(lia)) as Hok. unfold year_ok in Hok.
    pose proof (year_start_pos (y + 1) ltac:(lia)).
    pose proof (era_year_mono (year_start (y + 1)) doe ltac:(lia)) as Hm. fold y in Hm. lia.
Qed.

Lemma leap_shift y k : leap (y + 400 * k) = leap y.
Proof.
  unfold leap. replace (y + 400 * k) with (y + (100 * k) * 4) at 1 by lia. rewrite Z.mod_add by lia.
  replace (y + 400 * k) with (y + (4 * k) * 100) at 1 by lia. rewrite Z.mod_add by lia.
  replace (y + 400 * k) with (y + k * 400) by lia. by rewrite Z.mod_add by lia.
Qed.

Lemma next_shift k ymd : next_date (shift_era k ymd) = shift_era k (next_date ymd).
Proof.
  destruct ymd as [[y m] d]. unfold shift_era, next_date, month_days. cbn [fst snd]. rewrite leap_shift.
  destruct (d <? _); [done|]. destruct (m <? 12); cbn [fst snd]; [done|]. f_equal. f_equal. lia.
Qed.

(** Within a year of the era. *)
Lemma era_day doe :
  0 <= doe < 146097 ->
  let y := era_year doe in let doy := doe - year_start y in
  0 <= y <= 399 /\ year_start y = 365 * y + y / 4 - y / 100 /\
  year_start (y + 1) - year_start y = 365 + (if leap (y + 1) then 1 else 0) /\
  0 <= doy < 365 + (if leap (y + 1) then 1 else 0) /\ day_ok (leap (y + 1)) doy = true.
Proof.
  intros Hd. cbv zeta. destruct (era_year_spec doe Hd) as [Hy Hs]. set (y := era_year doe) in *.
  pose proof (year_facts y ltac:(lia)) as Hok. unfold year_ok in Hok.
  assert (year_start (y + 1) - year_start y = 365 + (if leap (y + 1) then 1 else 0)) as Hl by lia.
  assert (0 <= doe - year_start y < 365 + (if leap (y + 1) then 1 else 0)) as Hdoy by lia.
  split_and!; [lia|lia| |done|lia|lia|by apply day_facts]. unfold year_start. destruct (y =? 400) eqn:E; [lia|done].
Qed.

Lemma era_year_at y doe : 0 <= y < 400 -> year_start y <= doe < year_start (y + 1) -> era_year doe = y.
Proof.
  intros Hy Hd. pose proof (year_facts y Hy) as Hok. unfold year_ok in Hok. pose proof (year_start_pos y ltac:(lia)) as Hp.
  pose proof (era_year_mono (year_start y) doe ltac:(lia)) as Ha.
  pose proof (era_year_mono doe (year_start (y + 1) - 1) ltac:(lia)) as Hb. lia.
Qed.

Lemma era_next doe : 0 <= doe < 146096 -> era_date (doe + 1) = next_date (era_date doe).
Proof.
  intros Hd. destruct (era_day doe ltac:(lia)) as (Hy & _ & Hl & Hdoy & Hok). set (y := era_year doe) in *.
  set (doy := doe - year_start y) in *. set (lf := leap (y + 1)) in *.
  assert (era_date doe = (let '(m, d) := march_md doy in (if m <=? 2 then y + 1 else y, m, d))) as -> by done.
  unfold day_ok in Hok. destruct (march_md doy) as [m d] eqn:Emd, (march_md (doy + 1)) as [m' d'] eqn:Emd'.
  assert (month_days (leap (if m <=? 2 then y + 1 else y)) m = month_days lf m) as Hmd.
  { unfold month_days. destruct (m =? 2) eqn:E2; [|done]. assert (m <=? 2 = true) as -> by lia. done. }
  unfold next_date. rewrite Hmd. destruct (doy + 1 =? 365 + (if lf then 1 else 0)) eqn:El.
  - assert (era_year (doe + 1) = y + 1) as Hy1.
    { assert (y <> 399).
      { intros E. rewrite E in Hl. change (year_start (399 + 1)) with 146097 in Hl. unfold doy in El. rewrite E in El. lia. }
      pose proof (year_facts (y + 1) ltac:(lia)) as Hf. unfold year_ok in Hf.
      apply era_year_at; [lia|]. destruct (leap (y + 1 + 1)); lia. }
    unfold era_date. rewrite Hy1. replace (doe + 1 - year_start (y + 1)) with 0 by lia.
    change (march_md 0) with (3, 1). cbn [fst snd]. change (3 <=? 2) with false.
    destruct (d <? month_days lf m); [by rewrite !andb_false_r in Hok|]. destruct (m <? 12); [|by rewrite !andb_false_r in Hok].
    assert (m = 2) as -> by lia. done.
  - assert (era_year (doe + 1) = y) as Hy1 by (apply era_year_at; lia).
    unfold era_date. rewrite Hy1. replace (doe + 1 - year_start y) with (doy + 1) by (unfold doy; lia). rewrite Emd'.
    destruct (d <? month_days lf m); [|destruct (m <? 12) eqn:E12].
    + assert (m' = m /\ d' = d + 1) as [-> ->] by lia. done.
    + assert (m' = m + 1 /\ d' = 1 /\ m <> 2) as (-> & -> & Hm2) by lia.
      f_equal. f_equal. destruct (m + 1 <=? 2) eqn:?, (m <=? 2) eqn:?; lia.
    + assert (m' = 1 /\ d' = 1) as [-> ->] by lia. f_equal. f_equal. cbn. destruct (m <=? 2) eqn:?; lia.
Qed.

(** The program's divisions are the mathematical ones, and its date is the era's. *)
Lemma civil_era z :
  0 <= z -> civil_from_days z = shift_era ((z + 719468) / 146097) (era_date ((z + 719468) mod 146097)).
Proof.
  intros Hz. unfold civil_from_days. assert (0 <=? z + 719468 = true) as -> by lia.
  rewrite (Z.quot_div_nonneg (z + 719468)) by lia. set (era := (z + 719468) / 146097).
  assert (z + 719468 - era * 146097 = (z + 719468) mod 146097) as -> by (unfold era; rewrite Z.mod_eq by lia; lia).
  set (doe := (z + 719468) mod 146097). pose proof (Z.mod_pos_bound (z + 719468) 146097 ltac:(lia)) as Hb. fold doe in Hb.
  destruct (era_day doe Hb) as (Hy & Hs & _ & Hdoy & _). unfold era_date, march_md, shift_era.
  assert (0 <= era_num doe) as Hn by (apply (era_num_mono 0 doe); lia).
  rewrite (Z.quot_div_nonneg doe 1460), (Z.quot_div_nonneg doe 36524), (Z.quot_div_nonneg doe 146096) by lia.
  change (doe - doe / 1460 + doe / 36524 - doe / 146096) with (era_num doe).
  rewrite (Z.quot_div_nonneg (era_num doe)) by lia. change (era_num doe / 365) with (era_year doe).
  set (y := era_year doe) in *. rewrite (Z.quot_div_nonneg y 4), (Z.quot_div_nonneg y 100) by lia. rewrite <- Hs.
  set (doy := doe - year_start y) in *. assert (0 <= (5 * doy + 2) / 153) by (apply Z.div_pos; lia).
  rewrite (Z.quot_div_nonneg (5 * doy + 2)) by lia. rewrite (Z.quot_div_nonneg (153 * _ + 2)) by lia.
  cbn [fst snd]. f_equal. f_equal. destruct (_ <=? 2); lia.
Qed.

Lemma civil_next z : 0 <= z -> civil_from_days (z + 1) = next_date (civil_from_days z).
Proof.
  intros Hz. rewrite !civil_era, next_shift by lia. replace (z + 1 + 719468) with (z + 719468 + 1) by lia.
  set (t := z + 719468). pose proof (Z.mod_pos_bound t 146097 ltac:(lia)) as Hb. set (doe := t mod 146097) in *.
  assert (t = 146097 * (t / 146097) + doe) as Ht by (apply Z.div_mod; lia). set (era := t / 146097) in *.
  destruct (decide (doe = 146096)) as [E|E].
  - assert ((t + 1) / 146097 = era + 1) as -> by (symmetry; apply (Z.div_unique _ _ _ 0); lia).
    assert ((t + 1) mod 146097 = 0) as -> by (symmetry; apply (Z.mod_unique _ _ (era + 1)); lia).
    rewrite E, era_last. unfold shift_era. cbn [fst snd]. f_equal. f_equal. lia.
  - assert ((t + 1) / 146097 = era) as -> by (symmetry; apply (Z.div_unique _ _ _ (doe + 1)); lia).
    assert ((t + 1) mod 146097 = doe + 1) as -> by (symmetry; apply (Z.mod_unique _ _ era); lia).
    f_equal. apply era_next. lia.
Qed.

Lemma civil_range z :
  0 <= z < 2777778 -> let '(y, m, d) := civil_from_days z in 0 <= y < 10000 /\ 0 <= m < 100 /\ 0 <= d < 100.
Proof.
  intros Hz. rewrite civil_era by lia. set (t := z + 719468). pose proof (Z.mod_pos_bound t 146097 ltac:(lia)) as Hb.
  assert (0 <= t / 146097 <= 23) as He.
  { split; [apply Z.div_pos; lia|]. apply Z.lt_succ_r. apply Z.div_lt_upper_bound; lia. }
  destruct (era_day _ Hb) as (Hy & _ & _ & _ & Hok). unfold era_date, shift_era. set (y := era_year _) in *.
  unfold day_ok in Hok. destruct (march_md _) as [m d], (march_md _) as [m' d'].
  repeat (apply andb_true_iff in Hok as [Hok ?]). cbn [fst snd]. destruct (m <=? 2); lia.
Qed.

Definition two_ok (n : Z) : bool :=
  match pad_zero 2 n with String a (String b EmptyString) => is_digit a && is_digit b | _ => false end.
Definition four_ok (n : Z) : bool :=
  match pad_zero 4 n with
  | String a (String b (String c (String d EmptyString))) => is_digit a && is_digit b && is_digit c && is_digit d
  | _ => false
  end.

Lemma twos_checked : all_from two_ok 100 0 = true.
Proof. vm_compute. reflexivity. Qed.
Lemma fours_checked : all_from four_ok (Z.to_nat 10000) 0 = true.
Proof. vm_compute. reflexivity. Qed.

Lemma pad_two n : 0 <= n < 100 -> exists a b, pad_zero 2 n = String a (String b EmptyString) /\ is_digit a = true /\ is_digit b = true.
Proof.
  intros Hn. pose proof (all_from_spec _ _ _ n twos_checked ltac:(lia)) as Hok. unfold two_ok in Hok.
  destruct (pad_zero 2 n) as [|a [|b [|]]]; try done. exists a, b. rewrite andb_true_iff in Hok. naive_solver.
Qed.

Lemma pad_four n : 0 <= n < 10000 ->
  exists a b c d, pad_zero 4 n = String a (String b (String c (String d EmptyString))) /\
    is_digit a = true /\ is_digit b = true /\ is_digit c = true /\ is_digit d = true.
Proof.
  intros Hn. pose proof (all_from_spec _ _ _ n fours_checked ltac:(lia)) as Hok. unfold four_ok in Hok.
  destruct (pad_zero 4 n) as [|a [|b [|c [|d [|]]]]]; try done. exists a, b, c, d.
  rewrite !andb_true_iff in Hok. naive_solver.
Qed.

Lemma iso_shape s y1 y2 y3 y4 m1 m2 d1 d2 h1 h2 i1 i2 s1 s2 z rest :
  as_bytes s = [y1; y2; y3; y4; "-"%char; m1; m2; "-"%char; d1; d2; "T"%char; h1; h2; ":"%char; i1; i2; ":"%char; s1; s2; z] ++ rest ->
  forallb is_digit [y1; y2; y3; y4; m1; m2; d1; d2; h1; h2; i1; i2; s1; s2] = true ->
  (z = "Z"%char \/ z = "+"%char \/ z = "-"%char) -> is_iso8601 s = true.
Proof.
  intros E Hd Hz. unfold is_iso8601. rewrite E. cbn [forallb] in Hd. rewrite !andb_true_iff in Hd. destruct_and!.
  cbn [app length lookup list_lookup]. rewrite !(bool_decide_eq_true_2 (Some _ = Some _)) by done.
  repeat match goal with Hx : is_digit _ = true |- _ => rewrite Hx; clear Hx end.
  destruct Hz as [->|[->| ->]]; reflexivity.
Qed.

(** ** Properties: dates *)

(** C28: The date arithmetic is the Gregorian calendar: day [n] after 1970-01-01 is what
    counting days one by one, with months and leap years, arrives at. *)
Theorem civil_is_calendar n : civil_from_days (Z.of_nat n) = Nat.iter n next_date (1970, 1, 1).
Proof.
  induction n as [|n IH]; [by vm_compute|]. change (Nat.iter (S n) next_date (1970, 1, 1)) with (next_date (Nat.iter n next_date (1970, 1, 1))). rewrite <- IH, <- civil_next by lia. f_equal. lia.
Qed.

(** A timestamp the program writes has 20 characters and passes its own check of
    time fields, up to the year 9575. *)
Theorem iso_now_accepted secs :
  0 <= secs < 240000000000 -> is_iso8601 (iso_now secs) = true /\ str_len (iso_now secs) = 20.
Proof.
  intros Hs. unfold iso_now.
  assert (0 <= secs / 86400 < 2777778) as Hd by (split; [apply Z.div_pos|apply Z.div_lt_upper_bound]; lia).
  pose proof (civil_range _ Hd) as Hr. destruct (civil_from_days _) as [[y mo] d]. destruct Hr as (Hy & Hm & Hdd).
  pose proof (Z.mod_pos_bound secs 86400 ltac:(lia)) as Hb. set (r := secs mod 86400) in *.
  pose proof (Z.mod_pos_bound r 3600 ltac:(lia)) as Hb2. pose proof (Z.mod_pos_bound r 60 ltac:(lia)) as Hb3.
  assert (0 <= r / 3600 < 100) as Hh by (split; [apply Z.div_pos|apply Z.div_lt_upper_bound]; lia).
  assert (0 <= r mod 3600 / 60 < 100) as Hmi by (split; [apply Z.div_pos|apply Z.div_lt_upper_bound]; lia).
  assert (0 <= r mod 60 < 100) as Hse by lia.
  destruct (pad_four y Hy) as (y1 & y2 & y3 & y4 & -> & ? & ? & ? & ?).
  destruct (pad_two mo Hm) as (m1 & m2 & -> & ? & ?). destruct (pad_two d Hdd) as (d1 & d2 & -> & ? & ?).
  destruct (pad_two _ Hh) as (h1 & h2 & -> & ? & ?). destruct (pad_two _ Hmi) as (i1 & i2 & -> & ? & ?).
  destruct (pad_two _ Hse) as (s1 & s2 & -> & ? & ?).
  split; [|done]. eapply (iso_shape _ y1 y2 y3 y4 m1 m2 d1 d2 h1 h2 i1 i2 s1 s2 "Z"%char []);
    [reflexivity| |by left]. cbn [forallb]. rewrite !andb_true_iff. by split_and!.
Qed.

Lemma iso_now_accepted_witness : is_iso8601 (iso_now 1788156000) = true.
Proof. exact (proj1 (iso_now_accepted 1788156000 ltac:(lia))). Defined.

(** What the check accepts: the 20 characters of a timestamp with any digits,
    ending in [Z], [+] or [-], and then anything at all. *)
Theorem iso_check_exact s :
  is_iso8601 s = true <->
  exists y1 y2 y3 y4 m1 m2 d1 d2 h1 h2 i1 i2 s1 s2 z rest,
    as_bytes s = [y1; y2; y3; y4; "-"%char; m1; m2; "-"%char; d1; d2; "T"%char; h1; h2; ":"%char; i1; i2; ":"%char; s1; s2; z] ++ rest /\
    forallb is_digit [y1; y2; y3; y4; m1; m2; d1; d2; h1; h2; i1; i2; s1; s2] = true /\
    (z = "Z"%char \/ z = "+"%char \/ z = "-"%char).
Proof.
  split.
  - unfold is_iso8601. generalize (as_bytes s). intros b. clear s. destruct (length b <? 20)%nat eqn:El; [done|].
    apply Nat.ltb_ge in El. revert El.
    do 20 (destruct b as [|? b]; [intros El; exfalso; cbn in El; lia|]). intros _ Hok. cbn [lookup list_lookup] in Hok.
    rewrite !andb_true_iff, !orb_true_iff, !bool_decide_eq_true in Hok. destruct_and!. simplify_eq.
    do 16 eexists. split_and!; [reflexivity|cbn [forallb]; rewrite !andb_true_iff; by split_and!|].
    repeat match goal with Hx : _ \/ _ |- _ => destruct Hx end; simplify_eq; auto.
  - intros (y1 & y2 & y3 & y4 & m1 & m2 & d1 & d2 & h1 & h2 & i1 & i2 & s1 & s2 & z & rest & E & Hd & Hz).
    by eapply iso_shape.
Qed.

(** ** Lemmas: searching *)

Lemma as_bytes_cons c s : as_bytes (String c s) = c :: as_bytes s.
Proof. done. Qed.

Lemma as_bytes_nil : as_bytes EmptyString = [].
Proof. done. Qed.

(** Equality of texts up to the grouping of [++]. *)
Ltac str_norm :=
  apply (inj as_bytes);
  repeat (rewrite as_bytes_app || rewrite as_bytes_cons || rewrite as_bytes_nil || rewrite <- app_assoc || (progress cbn [app]));
  rewrite ?app_nil_r; reflexivity.

Lemma cut_here p s : str_cut p (p +:+ s) = Some (EmptyString, s).
Proof.
  unfold str_cut. assert (str_find p (p +:+ s) = Some (EmptyString, p +:+ s)) as ->.
  { destruct (p +:+ s) as [|c t] eqn:E; cbn; rewrite <- E, starts_with_app; done. }
  cbn. by rewrite strip_prefix_app.
Qed.

Lemma cut_step p c s :
  starts_with p (String c s) = false ->
  str_cut p (String c s) = (fun ab => (String c (fst ab), snd ab)) <$> str_cut p s.
Proof.
  intros Hs. unfold str_cut. cbn [str_find]. rewrite Hs. destruct (str_find p s) as [[x y]|]; [|done]. cbn.
  by destruct (strip_prefix p y).
Qed.

(** The pattern's first character does not occur in [l]. *)
Lemma cut_past c p l t :
  str_mem c l = false -> str_cut (String c p) (l +:+ t) = (fun ab => (l +:+ fst ab, snd ab)) <$> str_cut (String c p) t.
Proof.
  induction l as [|d l IH]; intros Hl.
  - change (EmptyString +:+ t) with t. by destruct (str_cut _ t) as [[]|].
  - cbn [str_mem] in Hl. apply orb_false_iff in Hl as [Hd Hl]. change (String d l +:+ t) with (String d (l +:+ t)).
    rewrite cut_step, IH by (done || (unfold starts_with; cbn; by rewrite Hd)). by destruct (str_cut _ t) as [[]|].
Qed.

Lemma cut_none c p l : str_mem c l = false -> str_cut (String c p) l = None.
Proof.
  intros Hl. rewrite <- (str_app_nil l), (cut_past c p l EmptyString) by done. done.
Qed.

(** ** Lemmas: lines *)

(** A line of front matter. *)
Definition line_ok (l : string) : Prop :=
  l <> EmptyString /\ str_mem LF l = false /\ str_mem CR l = false /\ starts_with "---" l = false.

(** The lines, each after its line feed. *)
Definition lf_lines (ls : list string) : string := fold_right (fun l t => String LF (l +:+ t)) EmptyString ls.

Lemma lf_lines_join ls : ls <> [] -> String LF (str_join (String LF EmptyString) ls) = lf_lines ls.
Proof.
  induction ls as [|l ls IH]; [done|]. intros _. destruct ls as [|m ls].
  - cbn. by rewrite str_app_nil.
  - change (str_join (String LF EmptyString) (l :: m :: ls)) with (l +:+ String LF (str_join (String LF EmptyString) (m :: ls))).
    by rewrite IH.
Qed.

Lemma lf_lines_cut ls rest :
  Forall line_ok ls -> str_cut LF_DASH (lf_lines ls +:+ LF_DASH +:+ rest) = Some (lf_lines ls, rest).
Proof.
  induction 1 as [|l ls (_ & Hlf & _ & Hd) _ IH]; [exact (cut_here LF_DASH rest)|]. cbn [lf_lines fold_right].
  fold (lf_lines ls). change (String LF (l +:+ lf_lines ls) +:+ LF_DASH +:+ rest) with (String LF ((l +:+ lf_lines ls) +:+ LF_DASH +:+ rest)).
  rewrite str_app_assoc. rewrite cut_step.
  - unfold LF_DASH at 1. rewrite cut_past by done. fold LF_DASH. rewrite IH. done.
  - assert (exists t, lf_lines ls +:+ LF_DASH +:+ rest = String LF t) as [t ->] by (destruct ls; by eexists).
    change (starts_with "---" (l +:+ String LF t) = false). by apply starts_with_component.
Qed.

Lemma str_split_lines ls :
  ls <> [] -> Forall (fun l => str_mem LF l = false) ls -> str_split LF (str_join (String LF EmptyString) ls) = ls.
Proof.
  intros Hne Hl. induction Hl as [|l ls Hl Hls IH]; [done|]. destruct ls as [|m ls]; [by apply str_split_single|].
  change (str_join (String LF EmptyString) (l :: m :: ls)) with (l +:+ String LF (str_join (String LF EmptyString) (m :: ls))).
  rewrite str_split_app, IH, str_split_single by done. done.
Qed.

Lemma strip_cr_none l : str_mem CR l = false -> strip_cr l = l.
Proof.
  intros Hl. unfold strip_cr. destruct (str_rev l) as [|c t] eqn:E; [done|]. destruct (Ascii.eqb_spec c CR) as [->|]; [|done].
  exfalso. assert (str_all (fun x => negb (Ascii.eqb CR x)) (str_rev l) = true) as Ha.
  { rewrite str_all_rev. clear E. induction l as [|d l IH]; [done|]. cbn in *. apply orb_false_iff in Hl as [Hd Hl].
    by rewrite Hd, IH. }
  by rewrite E in Ha.
Qed.

Lemma lines_join ls : ls <> [] -> Forall line_ok ls -> lines (str_join (String LF EmptyString) ls) = ls.
Proof.
  intros Hne Hl. unfold lines. rewrite str_split_lines; [|done|eapply Forall_impl; [exact Hl|by intros l (_ & ? & _)]].
  destruct (rev ls) as [|x full] eqn:E; [by apply (f_equal (@rev _)) in E; rewrite rev_involutive in E|].
  assert (ls = rev full ++ [x]) as -> by (rewrite <- (rev_involutive ls), E; done).
  apply Forall_app in Hl as [Hf Hx]. apply Forall_cons in Hx as [(Hx & _) _].
  destruct (str_len x =? 0) eqn:E0; [apply Z.eqb_eq, str_len_0 in E0; done|]. f_equal.
  rewrite <- map_rev. rewrite <- (map_id (rev full)) at 2. apply map_ext_in. intros l Hin%list_elem_of_In.
  rewrite Forall_forall in Hf. apply strip_cr_none. by apply (Hf l).
Qed.

(** ** Properties: documents *)

(** C27: What the editor writes is read back: the front matter's lines and the body
    (without leading empty lines) are those it rendered, and the next edit starts
    from the same lines. *)
Theorem doc_roundtrip ls body :
  ls <> [] -> Forall line_ok ls ->
  split_doc (render_doc ls body) = Some (String LF (str_join (String LF EmptyString) ls), trim_start_matches LF body) /\
  fm_lines (render_doc ls body) = Some ls.
Proof.
  intros Hne Hl.
  assert (render_doc ls body = "---" +:+ lf_lines ls +:+ LF_DASH +:+ String LF (String LF body)) as Er.
  { unfold render_doc. rewrite <- lf_lines_join by done.
    change (String LF (str_join (String LF EmptyString) ls) +:+ LF_DASH +:+ String LF (String LF body))
      with (String LF (str_join (String LF EmptyString) ls +:+ LF_DASH +:+ String LF (String LF body))). done. }
  rewrite Er. split.
  - unfold split_doc. assert (strip_prefix BOM ("---" +:+ lf_lines ls +:+ LF_DASH +:+ String LF (String LF body)) = None) as -> by done.
    cbn [default from_option id]. rewrite strip_prefix_app. cbn [mbind option_bind]. rewrite lf_lines_cut by done.
    cbn. by rewrite lf_lines_join.
  - unfold fm_lines. rewrite strip_prefix_app. cbn [mbind option_bind]. rewrite lf_lines_cut by done.
    rewrite <- lf_lines_join by done. f_equal. cbn [trim_start_matches]. rewrite Ascii.eqb_refl.
    assert (trim_start_matches LF (str_join (String LF EmptyString) ls) = str_join (String LF EmptyString) ls) as ->; [|by apply lines_join].
    destruct ls as [|l ls]; [done|]. apply Forall_cons in Hl as [(Hl0 & Hlf & _) _]. destruct l as [|c l]; [done|].
    cbn [str_mem] in Hlf. apply orb_false_iff in Hlf as [Hc _].
    assert (forall t, trim_start_matches LF (String c t) = String c t) as Ht by (intros t; cbn [trim_start_matches]; by rewrite Hc).
    destruct ls; apply Ht.
Qed.

Definition sample_lines : list string := ["type: Metric"; "title: R2"; "status: stable"].

Lemma doc_roundtrip_witness : fm_lines (render_doc sample_lines "# R2") = Some sample_lines.
Proof. refine (proj2 (doc_roundtrip sample_lines "# R2" _ _)); [done|]. repeat constructor; done. Defined.

(** ** Properties: the field editor *)

Definition sets (key l : string) : bool := starts_with (key +:+ ":") (is_ws_start l).

Lemma set_line_split key val ls :
  (Forall (fun l => sets key l = false) ls /\ set_line key val ls = ls ++ [key +:+ ": " +:+ val]) \/
  (exists pre l post, ls = pre ++ l :: post /\ Forall (fun x => sets key x = false) pre /\ sets key l = true /\
     set_line key val ls = pre ++ edited_line key val l :: post).
Proof.
  induction ls as [|l ls IH]; [by left|]. cbn [set_line]. fold (sets key l). destruct (sets key l) eqn:E.
  - right. by exists [], l, ls.
  - destruct IH as [[Hf ->]|(pre & x & post & -> & Hp & Hx & ->)].
    + left. split; [by constructor|done].
    + right. exists (l :: pre), x, post. split_and!; [done|by constructor|done|done].
Qed.

(** The field editor changes one line or appends one: every other line stays, in
    its order, so unknown fields survive.  A comment that stood after the old value
    is put behind the new one without the space that makes it a comment in YAML, and
    a [#] inside the old value is taken for one. *)
Theorem edit_one_line key val ls :
  (exists pre l' post, set_line key val ls = pre ++ l' :: post /\
     (ls = pre ++ post /\ post = [] /\ l' = key +:+ ": " +:+ val \/
      exists l, ls = pre ++ l :: post /\ sets key l = true /\ l' = edited_line key val l)) /\
  (forall l, sets key l = false -> l ∈ ls -> l ∈ set_line key val ls) /\
  (forall old c, str_mem "#" (key +:+ ": " +:+ old) = false -> take_ws (key +:+ ":") = "" -> trim_end_if is_ws ("#" +:+ c) = "#" +:+ c ->
     edited_line key val (key +:+ ": " +:+ old +:+ "#" +:+ c) = key +:+ ": " +:+ val +:+ "#" +:+ c).
Proof.
  split_and!.
  - destruct (set_line_split key val ls) as [[_ ->]|(pre & l & post & -> & _ & Hl & ->)].
    + exists ls, (key +:+ ": " +:+ val), []. split; [done|]. left. by rewrite app_nil_r.
    + exists pre, (edited_line key val l), post. split; [done|]. right. by exists l.
  - intros x Hx Hin. destruct (set_line_split key val ls) as [[_ ->]|(pre & l & post & -> & _ & Hl & ->)]; [set_solver|].
    rewrite elem_of_app, elem_of_cons in Hin |- *. destruct Hin as [?|[->|?]]; [by left|congruence|by right; right].
  - intros old c Hm Hw Ht. unfold edited_line.
    assert (take_ws (key +:+ ": " +:+ old +:+ "#" +:+ c) = "") as ->.
    { destruct key as [|k key]; [done|]. change (String k key +:+ ": " +:+ old +:+ "#" +:+ c) with (String k (key +:+ ": " +:+ old +:+ "#" +:+ c)).
      change (String k key +:+ ":") with (String k (key +:+ ":")) in Hw. cbn [take_ws] in Hw |- *. by destruct (is_ws k). }
    assert (key +:+ ": " +:+ old +:+ "#" +:+ c = (key +:+ ": " +:+ old) +:+ String "#" c) as -> by (by rewrite !str_app_assoc).
    rewrite split_once_app by done. by rewrite Ht.
Qed.

Lemma edit_one_line_witness :
  edited_line "title" "New" "title: Old # note" = "title: New# note" /\
  edited_line "resource" "http://b" "resource: http://a#top" = "resource: http://b#top".
Proof.
  split.
  - exact (proj2 (proj2 (edit_one_line "title" "New" [])) "Old " " note" eq_refl eq_refl eq_refl).
  - exact (proj2 (proj2 (edit_one_line "resource" "http://b" [])) "http://a" "top" eq_refl eq_refl eq_refl).
Defined.

(** ** Properties: links *)

(** Text with links: what precedes each link, its label and its target, and the rest. *)
Fixpoint with_links (ls : list (string * string * string)) (tail : string) : string :=
  match ls with
  | [] => tail
  | (text, label, target) :: ls' => text +:+ "[" +:+ label +:+ "](" +:+ target +:+ ")" +:+ with_links ls' tail
  end.

Definition link_ok (x : string * string * string) : Prop :=
  let '(text, label, target) := x in
  str_mem "[" text = false /\ str_mem "]" label = false /\
  str_mem ")" target = false /\ str_mem " " target = false /\ target <> "".

Lemma links_skip fuel l t : str_mem "[" l = false -> links_loop (String.length l + fuel) (l +:+ t) = links_loop fuel t.
Proof.
  induction l as [|c l IH]; intros Hl; [done|]. cbn [str_mem] in Hl. apply orb_false_iff in Hl as [Hc Hl].
  change (String c l +:+ t) with (String c (l +:+ t)). cbn [String.length plus links_loop].
  rewrite Ascii.eqb_sym, Hc. by apply IH.
Qed.

Lemma split_once_none c s : str_mem c s = false -> split_once c s = None.
Proof.
  induction s as [|d s IH]; [done|]. cbn [str_mem split_once]. intros [Hd Hs]%orb_false_iff. by rewrite Hd, IH.
Qed.

Lemma cut_at c l t : str_mem c l = false -> str_cut (String c EmptyString) (l +:+ String c t) = Some (l, t).
Proof.
  intros Hl. rewrite cut_past by done. change (String c t) with (String c EmptyString +:+ t). rewrite cut_here. cbn.
  by rewrite str_app_nil.
Qed.

Lemma links_loop_exact ls tail fuel :
  Forall link_ok ls -> str_mem "[" tail = false -> (String.length (with_links ls tail) <= fuel)%nat ->
  links_loop fuel (with_links ls tail) = map snd ls.
Proof.
  intros Hl Ht. revert fuel. induction Hl as [|[[text label] target] ls (Hx & Hb & Hp & Hs & Hne) _ IH]; intros fuel Hf.
  - cbn [with_links map] in *. replace fuel with (String.length tail + (fuel - String.length tail))%nat by lia.
    rewrite <- (str_app_nil tail) at 3. rewrite links_skip by done. by destruct (fuel - _)%nat.
  - cbn [with_links map snd] in *. rewrite str_length_app in Hf.
    replace fuel with (String.length text + (fuel - String.length text))%nat by lia. rewrite links_skip by done.
    set (rest := with_links ls tail) in *.
    change ("[" +:+ label +:+ "](" +:+ target +:+ ")" +:+ rest) with (String "[" (label +:+ String "]" (String "(" (target +:+ String ")" rest)))) in *.
    cbn [String.length] in Hf. rewrite str_length_app in Hf. cbn [String.length] in Hf. rewrite str_length_app in Hf. cbn [String.length] in Hf.
    destruct (fuel - String.length text)%nat as [|f] eqn:Ef; [lia|]. cbn [links_loop]. rewrite Ascii.eqb_refl.
    rewrite cut_at by done. rewrite cut_at by done. rewrite split_once_none by done.
    destruct (str_len target =? 0) eqn:E0; [apply Z.eqb_eq, str_len_0 in E0; done|]. f_equal. apply IH. lia.
Qed.

(** Every link of a text is found, in order, with its target. *)
Theorem links_found ls tail :
  Forall link_ok ls -> str_mem "[" tail = false -> extract_md_links (with_links ls tail) = map snd ls.
Proof. intros Hl Ht. by apply links_loop_exact. Qed.

Lemma links_found_witness :
  extract_md_links "see [a](/a.md), [b](b.md)." = ["/a.md"; "b.md"].
Proof. refine (links_found [("see ", "a", "/a.md"); (", ", "b", "b.md")] "." _ _); [|done]. repeat constructor; done. Defined.

(** ** Properties: names *)

Lemma lib_name_plain n : valid_lib_name n = true -> n <> "." -> n <> ".." -> plain_name n = true.
Proof.
  intros Hv H1 H2. unfold valid_lib_name in Hv. rewrite !andb_true_iff in Hv. destruct Hv as [[He _] Ha].
  unfold plain_name. rewrite bool_decide_eq_false_2 by (intros [->|[?|?]]; done).
  assert (str_mem "/" n = false) as -> by (eapply str_all_not_mem; [|exact Ha]; done). done.
Qed.

Lemma resolve_lib_name root n :
  valid_lib_name n = true -> n <> "." -> n <> ".." -> resolve (path_join root n) = below (resolve root) [n].
Proof. intros. by rewrite resolve_join_plain by (by apply lib_name_plain). Qed.

Lemma resolve_dotdot d r : plain_name r = true -> resolve (path_join (path_join d r) "..") = resolve d.
Proof.
  intros Hr. pose proof (resolve_join_plain d r Hr) as Hj. rewrite resolve_join, Hj by done. cbn [snd].
  rewrite rev_app_distr. cbn. unfold enter.
  unfold plain_name in Hr. rewrite andb_true_iff, !negb_true_iff, bool_decide_eq_false in Hr.
  rewrite decide_False by naive_solver. rewrite decide_True by done. rewrite decide_False by naive_solver.
  rewrite rev_involutive. apply (f_equal fst) in Hj. cbn [fst resolve] in Hj.
  rewrite Hj. reflexivity.
Qed.

(** A library name is one directory below the root, except [.] and [..], which the
    check lets through: they name the root itself and its parent. *)
Theorem lib_name_boundary root n :
  valid_lib_name n = true ->
  (n <> "." -> n <> ".." -> resolve (path_join root n) = below (resolve root) [n]) /\
  (n = "." -> resolve (path_join root n) = resolve root) /\
  (forall d r, n = ".." -> root = path_join d r -> plain_name r = true -> resolve (path_join root n) = resolve d).
Proof.
  intros Hv. split_and!.
  - intros H1 H2. by apply resolve_lib_name.
  - intros ->. rewrite resolve_join by done. cbn. rewrite rev_involutive. reflexivity.
  - intros d r -> -> Hr. by apply resolve_dotdot.
Qed.

Lemma lib_name_boundary_witness : resolve (path_join "/share/okf" "..") = resolve "/share".
Proof. exact (proj2 (proj2 (lib_name_boundary "/share/okf" ".." eq_refl)) "/share" "okf" eq_refl eq_refl eq_refl). Defined.

(** ** Properties: the log *)

(** A log as a list of days with their entries, and its text. *)
Abbreviation log := (list (string * list string)).

Definition entries_text (es : list string) : string :=
  fold_right (fun e t => "* " +:+ e +:+ String LF t) EmptyString es.

Definition groups_text (l : log) : string :=
  fold_right (fun g t => LF_GROUP +:+ fst g +:+ String LF (entries_text (snd g)) +:+ t) EmptyString l.

Definition log_text (l : log) : string := LOG_HEAD +:+ groups_text l.

(** The new entry goes to the end of its day's group, or to a new group at the end. *)
Fixpoint log_append (today entry : string) (l : log) : log :=
  match l with
  | [] => [(today, [entry])]
  | (d, es) :: l' => if decide (d = today) then (d, es ++ [entry]) :: l' else (d, es) :: log_append today entry l'
  end.

(** Neither dates nor entries contain a [#]; a date is on one line. *)
Definition group_ok (g : string * list string) : Prop :=
  str_mem "#" (fst g) = false /\ str_mem LF (fst g) = false /\ Forall (fun e => str_mem "#" e = false) (snd g).

Lemma entries_no_hash es : Forall (fun e => str_mem "#" e = false) es -> str_mem "#" (entries_text es) = false.
Proof.
  induction 1 as [|e es He _ IH]; [done|]. cbn [entries_text fold_right]. fold (entries_text es).
  change ("* " +:+ e +:+ String LF (entries_text es)) with (String "*" (String " " (e +:+ String LF (entries_text es)))).
  cbn [str_mem]. rewrite str_mem_app, He. cbn [str_mem]. by rewrite IH.
Qed.

Lemma entries_app es e : entries_text (es ++ [e]) = entries_text es +:+ "* " +:+ e +:+ String LF EmptyString.
Proof.
  induction es as [|x es IH]; [done|]. cbn [app entries_text fold_right]. fold (entries_text es) (entries_text (es ++ [e])).
  rewrite IH. rewrite !str_app_assoc. done.
Qed.

(** The next group's header is found behind text without [#]. *)
Lemma cut_group b l :
  str_mem "#" b = false ->
  str_cut LF_GROUP (b +:+ groups_text l) =
    match l with
    | [] => None
    | g :: l' => Some (b, fst g +:+ String LF (entries_text (snd g)) +:+ groups_text l')
    end.
Proof.
  induction b as [|c b IH]; intros Hb.
  - change (EmptyString +:+ groups_text l) with (groups_text l). destruct l as [|g l]; [done|]. apply cut_here.
  - cbn [str_mem] in Hb. apply orb_false_iff in Hb as [Hc Hb]. change (String c b +:+ groups_text l) with (String c (b +:+ groups_text l)).
    rewrite cut_step; [rewrite IH by done; by destruct l|]. unfold LF_GROUP, starts_with. cbn [strip_prefix].
    destruct (Ascii.eqb LF c); [|done]. destruct b as [|d b].
    + destruct l as [|g l]; done.
    + cbn [str_mem] in Hb. apply orb_false_iff in Hb as [Hd _]. change (String d b +:+ groups_text l) with (String d (b +:+ groups_text l)).
      cbn [strip_prefix]. by rewrite Hd.
Qed.

Lemma marker_other today d t :
  str_mem LF today = false -> str_mem LF d = false -> d <> today ->
  starts_with (today +:+ String LF EmptyString) (d +:+ String LF t) = false.
Proof.
  unfold starts_with. revert d. induction today as [|c today IH]; intros d Ht Hd Hne.
  - destruct d as [|x d]; [done|]. cbn [str_mem] in Hd. apply orb_false_iff in Hd as [Hx _].
    change (EmptyString +:+ String LF EmptyString) with (String LF EmptyString). change (String x d +:+ String LF t) with (String x (d +:+ String LF t)).
    cbn [strip_prefix]. by rewrite Hx.
  - cbn [str_mem] in Ht. apply orb_false_iff in Ht as [Hc Ht].
    change (String c today +:+ String LF EmptyString) with (String c (today +:+ String LF EmptyString)). destruct d as [|x d].
    + change (EmptyString +:+ String LF t) with (String LF t). cbn [strip_prefix]. by rewrite Ascii.eqb_sym, Hc.
    + cbn [str_mem] in Hd. apply orb_false_iff in Hd as [_ Hd]. change (String x d +:+ String LF t) with (String x (d +:+ String LF t)).
      cbn [strip_prefix]. destruct (Ascii.eqb_spec c x) as [->|]; [|done]. apply IH; [done|done|congruence].
Qed.

Definition marker (today : string) : string := "## " +:+ today +:+ String LF EmptyString.

(** The first group of that day is found, with what stands before and after its
    header. *)
Lemma cut_marker today l :
  str_mem LF today = false -> Forall group_ok l ->
  match str_cut (marker today) (groups_text l) with
  | None => Forall (fun g => fst g <> today) l
  | Some (before, seg) =>
      exists pre es post, l = pre ++ (today, es) :: post /\ Forall (fun g => fst g <> today) pre /\
        before = groups_text pre +:+ String LF EmptyString /\ seg = entries_text es +:+ groups_text post
  end.
Proof.
  intros Ht. induction 1 as [|[d es] l (Hh & Hlf & He) _ IH].
  { assert (str_cut (marker today) (groups_text []) = None) as -> by reflexivity. by constructor. }
  cbn [fst snd] in *. cbn [groups_text fold_right fst snd]. fold (groups_text l).
  change (LF_GROUP +:+ d +:+ String LF (entries_text es) +:+ groups_text l)
    with (String LF EmptyString +:+ "## " +:+ d +:+ String LF (entries_text es +:+ groups_text l)).
  unfold marker at 1. change ("## " +:+ today +:+ String LF EmptyString) with (String "#" ("# " +:+ today +:+ String LF EmptyString)).
  rewrite cut_past by done. change (String "#" ("# " +:+ today +:+ String LF EmptyString)) with (marker today).
  destruct (decide (d = today)) as [->|Hne].
  - assert ("## " +:+ today +:+ String LF (entries_text es +:+ groups_text l) = marker today +:+ entries_text es +:+ groups_text l) as ->
      by (unfold marker; rewrite !str_app_assoc; done).
    rewrite cut_here. cbn. exists [], es, l. split_and!; [done|by constructor|done|done].
  - change ("## " +:+ d +:+ String LF (entries_text es +:+ groups_text l))
      with (String "#" (String "#" (" " +:+ d +:+ String LF (entries_text es +:+ groups_text l)))).
    rewrite cut_step.
    2:{ unfold marker. change (starts_with (today +:+ String LF EmptyString) (d +:+ String LF (entries_text es +:+ groups_text l)) = false).
        by apply marker_other. }
    rewrite cut_step by done.
    assert (" " +:+ d +:+ String LF (entries_text es +:+ groups_text l) = (" " +:+ d +:+ String LF (entries_text es)) +:+ groups_text l) as ->
      by (rewrite !str_app_assoc; done).
    unfold marker. change ("## " +:+ today +:+ String LF EmptyString) with (String "#" ("# " +:+ today +:+ String LF EmptyString)).
    rewrite cut_past.
    2:{ rewrite str_mem_app, str_mem_app, Hh. cbn [str_mem]. by rewrite entries_no_hash. }
    change (String "#" ("# " +:+ today +:+ String LF EmptyString)) with (marker today).
    destruct (str_cut (marker today) (groups_text l)) as [[before seg]|]; cbn; [|by constructor].
    destruct IH as (pre & es' & post & -> & Hpre & -> & ->). exists ((d, es) :: pre), es', post.
    split_and!; [done|by constructor| |done]. cbn [groups_text fold_right fst snd]. fold (groups_text pre). rewrite !str_app_assoc. done.
Qed.

Lemma groups_app a b : groups_text (a ++ b) = groups_text a +:+ groups_text b.
Proof.
  induction a as [|g a IH]; [done|]. cbn [app groups_text fold_right]. fold (groups_text a) (groups_text (a ++ b)).
  by rewrite IH, !str_app_assoc.
Qed.

Lemma log_append_new today entry l :
  Forall (fun g => fst g <> today) l -> log_append today entry l = l ++ [(today, [entry])].
Proof. induction 1 as [|[d es] l Hd _ IH]; [done|]. cbn in *. by rewrite decide_False, IH. Qed.

Lemma log_append_at today entry pre es post :
  Forall (fun g => fst g <> today) pre ->
  log_append today entry (pre ++ (today, es) :: post) = pre ++ (today, es ++ [entry]) :: post.
Proof.
  induction 1 as [|[d x] pre Hd _ IH]; cbn in *; [by rewrite decide_True|]. by rewrite decide_False, IH.
Qed.

Lemma cut_head today t :
  str_cut (marker today) (LOG_HEAD +:+ t) = (fun ab => (LOG_HEAD +:+ fst ab, snd ab)) <$> str_cut (marker today) t.
Proof.
  change (LOG_HEAD +:+ t) with (String "#" ((" Directory Update Log" +:+ String LF (String LF EmptyString)) +:+ t)).
  rewrite cut_step by done. unfold marker at 1.
  change ("## " +:+ today +:+ String LF EmptyString) with (String "#" ("# " +:+ today +:+ String LF EmptyString)).
  rewrite cut_past by done. change (String "#" ("# " +:+ today +:+ String LF EmptyString)) with (marker today).
  by destruct (str_cut (marker today) t) as [[x y]|].
Qed.

(** Appending to the log file does to its text what [log_append] does to the list:
    the entry comes last in its day's group and a new day comes last in the file
    (the newest is not first), and nothing else changes. *)
Lemma log_refines today entry l :
  str_mem LF today = false -> Forall group_ok l ->
  log_insert today entry (log_text l) = log_text (log_append today entry l).
Proof.
  intros Ht Hl. unfold log_insert. change ("## " +:+ today +:+ String LF EmptyString) with (marker today).
  unfold log_text. rewrite cut_head. pose proof (cut_marker today l Ht Hl) as Hc.
  destruct (str_cut (marker today) (groups_text l)) as [[before seg]|]; cbn [fmap option_fmap option_map fst snd].
  - destruct Hc as (pre & es & post & -> & Hpre & -> & ->). rewrite log_append_at, !groups_app by done.
    apply Forall_app in Hl as [_ Hl]. apply Forall_cons in Hl as [(_ & _ & He) _]. cbn [fst snd] in He.
    rewrite cut_group by (by apply entries_no_hash).
    cbn [groups_text fold_right fst snd]. fold (groups_text post). rewrite entries_app.
    destruct post as [|g post]; cbn [fst snd groups_text fold_right]; unfold marker, LF_GROUP; str_norm.
  - rewrite log_append_new, groups_app by done. unfold marker, LF_GROUP. cbn [groups_text fold_right entries_text fst snd]. str_norm.
Qed.
