(* ===== verification/Okf.v ===== *)
(** * Knowledge libraries

    [nsmt-client/src/okf.rs] on the disk: libraries below the root, their concepts,
    the index and log files, the checks and the commands of [yggd okf].  A command is
    a state-and-error monad over the disk that collects the lines it prints; the
    clock is an argument.  Names on disk are UTF-8; upper and lower case are
    those of ASCII. *)

From S2P Require Import Prelude Paths Share OkfText.

(** ** The monad *)

Inductive okf_err : Set :=
| Bail (m : string)
| Io (op : string)
| ExitWith (code : Z)
| Panics.

Definition K (A : Type) : Type := files -> result okf_err A * list string * files.

Definition kret {A} (a : A) : K A := fun fs => (Ok a, [], fs).
Definition kfail {A} (e : okf_err) : K A := fun fs => (Err e, [], fs).
Definition kbind {A B} (m : K A) (k : A -> K B) : K B := fun fs =>
  match m fs with
  | (Ok a, out, fs1) => let '(r, out2, fs2) := k a fs1 in (r, out ++ out2, fs2)
  | (Err e, out, fs1) => (Err e, out, fs1)
  end.
Definition println (l : string) : K unit := fun fs => (Ok tt, [l], fs).
Definition disk_of : K files := fun fs => (Ok fs, [], fs).

(** An operation on the disk with [?]. *)
Definition io (op : string) (f : files -> option files) : K unit := fun fs =>
  match f fs with Some fs' => (Ok tt, [], fs') | None => (Err (Io op), [], fs) end.

Definition from_opt {A} (e : okf_err) (o : option A) : K A :=
  match o with Some a => kret a | None => kfail e end.

Declare Scope okf_scope.
Open Scope okf_scope.
Notation "x <~ c ; k" := (kbind c (fun x => k)) (at level 100, c at next level, right associativity) : okf_scope.
Notation "c ;; k" := (kbind c (fun _ => k)) (at level 100, right associativity) : okf_scope.

Fixpoint each {A} (f : A -> K unit) (l : list A) : K unit :=
  match l with [] => kret tt | x :: l' => f x;; each f l' end.

(** Sums over a list with printing. *)
Fixpoint tally {A} (f : A -> K (Z * Z)) (l : list A) : K (Z * Z) :=
  match l with
  | [] => kret (0, 0)
  | x :: l' => p <~ f x; q <~ tally f l'; kret (fst p + fst q, snd p + snd q)
  end.

(** ** Text columns: widths count characters *)

Definition chars (s : string) : nat := String.length (str_filter (fun c => negb (is_cont c)) s).
Fixpoint spaces (n : nat) : string := match n with O => EmptyString | S k => String " " (spaces k) end.
Definition pad_right (w : nat) (s : string) : string := s +:+ spaces (w - chars s).
Definition pad_left (w : nat) (s : string) : string := spaces (w - chars s) +:+ s.
Definition slashes (s : string) : string := str_replace "\" "/" s.
Definition show_rel (rel : list string) : string := str_join "/" rel.
Definition line (s : string) : string := s +:+ String LF EmptyString.
Definition lower (s : string) : string := str_map to_lower s.

(** ** Libraries and concepts *)

Definition RESERVED : list string := ["index.md"; "log.md"].
Definition reserved (n : string) : bool := bool_decide (n ∈ RESERVED).

Definition libs_root (e : env) : string :=
  match e "NSMT_OKF_ROOT" with
  | Some p => if str_len p =? 0 then path_join (share_dir e) "okf" else p
  | None => path_join (share_dir e) "okf"
  end.

Definition lib_dir (root name : string) : string := path_join root name.

(** The place of a concept. *)
Definition at_rel (root : string) (rel : list string) : string := path_join root (show_rel rel).

(** [PathBuf]s are compared component by component. *)
Fixpoint segs_leb (x y : list string) : bool :=
  match x, y with
  | [], _ => true
  | _, [] => false
  | a :: x', b :: y' => if decide (a = b) then segs_leb x' y' else bool_decide (String.le a b)
  end.
Definition segs_le (x y : list string) : Prop := segs_leb x y = true.
#[export] Instance segs_le_dec : RelDecision segs_le.
Proof. intros x y. unfold segs_le. apply _. Defined.

Definition is_md (n : string) : bool := bool_decide (snd (split_ext n) = Some "md").

Fixpoint md_walk (fuel : nat) (fs : files) (root : loc) (rel : list string) : list (list string) :=
  match fuel with
  | O => []
  | S fuel' =>
      match read_dir fs (below root rel) with
      | None => []
      | Some l =>
          concat (map (fun kv : string * node =>
            match snd kv with
            | Dir => if decide (fst kv = ".trash") then [] else md_walk fuel' fs root (rel ++ [fst kv])
            | File _ => if is_md (fst kv) && negb (reserved (fst kv)) then [rel ++ [fst kv]] else []
            end) l)
      end
  end.

Definition collect_md_files (fs : files) (root : string) : list (list string) :=
  if fs_is_dir fs root then merge_sort segs_le (md_walk (S (depth fs)) fs (resolve root) []) else [].

Fixpoint has_md (fuel : nat) (fs : files) (d : loc) : bool :=
  match fuel with
  | O => false
  | S fuel' =>
      match read_dir fs d with
      | None => false
      | Some l => existsb (fun kv : string * node =>
          match snd kv with Dir => has_md fuel' fs (below d [fst kv]) | File _ => false end || is_md (fst kv)) l
      end
  end.

Definition collect_libs (fs : files) (root : string) : list string :=
  match read_dir fs (resolve root) with
  | None => []
  | Some l =>
      merge_sort String.le (omap (fun kv : string * node =>
        match snd kv with
        | Dir => if valid_lib_name (fst kv) && negb (starts_with "." (fst kv)) &&
                    has_md (S (depth fs)) fs (below (resolve root) [fst kv])
                 then Some (fst kv) else None
        | File _ => None
        end) l)
  end.

(** ** Arguments *)

Abbreviation opts := (gmap string string).

Fixpoint parse_loop (args : list string) (o : opts) (pos : list string) : opts * list string :=
  match args with
  | [] => (o, pos)
  | x :: r =>
      match strip_prefix "--" x with
      | Some k => match r with
                  | v :: r' => parse_loop r' (<[k := v]> o) pos
                  | [] => (<[k := ""]> o, pos)
                  end
      | None => parse_loop r o (pos ++ [x])
      end
  end.

(** [parse_args] from the sixth argument on. *)
Definition parse_args (args : list string) : opts :=
  let '(o, pos) := parse_loop (drop 5 args) ∅ [] in
  match pos with p :: _ => <["path" := p]> o | [] => o end.

Definition opt_or (o : opts) (k d : string) : string := default d (o !! k).
Definition nonempty (o : option string) : option string :=
  match o with Some v => if str_len v =? 0 then None else Some v | None => None end.

Definition need (o : opts) (k usage : string) : K string := from_opt (Bail usage) (nonempty (o !! k)).

(** ** Log and index *)

(** The date of the clock reading. *)
Definition today (now : Z) : string := of_bytes (take 10 (as_bytes (iso_now now))).

Definition append_log (now : Z) (root entry : string) : K unit :=
  io "create_dir_all" (create_dir_all root);;
  let p := path_join root "log.md" in
  fs <~ disk_of;
  content <~ (if fs_exists fs p then from_opt (Io "read_to_string") (read_to_string fs p) else kret LOG_HEAD);
  io "write" (fs_write p (as_bytes (log_insert (today now) entry content))).

Section Okf.
Context `{Yaml}.

Definition load_concept (fs : files) (p : string) : option (yaml * string) :=
  raw ← read_to_string fs p; parse_doc raw.

Definition concept_str (fs : files) (p key : string) : option string :=
  d ← load_concept fs p; fm_str (fst d) key.

(** One entry of an index. *)
Definition index_line (fs : files) (root : string) (rel : list string) (link : string) : string :=
  let p := at_rel root rel in
  let title := default (show_rel rel) (concept_str fs p "title") in
  let desc := default "" (concept_str fs p "description") in
  if str_len desc =? 0 then line ("* [" +:+ title +:+ "](" +:+ link +:+ ")")
  else line ("* [" +:+ title +:+ "](" +:+ link +:+ ") - " +:+ desc).

Definition dir_key (rel : list string) : string := slashes (show_rel (removelast rel)).
Definition in_root (rel : list string) : bool := bool_decide (removelast rel = []).

(** The directories with concepts, sorted, as the keys of the [BTreeMap]. *)
Definition dir_keys (rels : list (list string)) : list string :=
  merge_sort String.le (remove_dups (map dir_key (filter (fun rel => in_root rel = false) rels))).

Definition sub_index (fs : files) (root dir : string) (rels : list (list string)) : string :=
  line "# Concepts" +:+ String LF
    (str_join "" (map (fun rel =>
       let s := slashes (show_rel rel) in
       index_line fs root rel (default s (strip_prefix (dir +:+ "/") s)))
      (filter (fun rel => in_root rel = false /\ dir_key rel = dir) rels))) +:+ String LF EmptyString.

Definition root_index (fs : files) (root : string) (rels : list (list string)) : string :=
  line "# Knowledge Bundle" +:+ String LF
    (str_join "" (map (fun dir => line ("* [" +:+ dir +:+ "](" +:+ dir +:+ "/)")) (dir_keys rels))) +:+
  str_join "" (map (fun rel => index_line fs root rel (slashes (show_rel rel))) (filter (fun rel => in_root rel = true) rels)) +:+
  (match rels with
   | [] => line "_No concepts yet. Run `yggd okf <lib> add <path> --type <Type>`._"
   | _ => EmptyString
   end) +:+ String LF EmptyString.

(** The texts of later files are computed on the disk as it is then; index files are
    no concepts, so they do not matter. *)
Definition generate_index (root : string) : K unit :=
  fs0 <~ disk_of;
  let rels := collect_md_files fs0 root in
  each (fun dir =>
    fs <~ disk_of;
    let p := path_join (path_join root dir) "index.md" in
    io "create_dir_all" (create_parent p);;
    io "write" (fs_write p (as_bytes (sub_index fs root dir rels)))) (dir_keys rels);;
  fs <~ disk_of;
  io "create_dir_all" (create_dir_all root);;
  io "write" (fs_write (path_join root "index.md") (as_bytes (root_index fs root rels))).

(** ** Checks *)

Definition has_type (fm : yaml) : bool :=
  match fm_str fm "type" with Some t => negb (str_len (str_trim t) =? 0) | None => false end.

(** [println!] of one finding, counted. *)
Definition complain (l : string) : K Z := println l;; kret 1.
Definition sum2 (x y : K Z) : K Z := i <~ x; j <~ y; kret (i + j).

Definition no_type_line (rel : list string) : string := "  ✗ " +:+ show_rel rel +:+ " — frontmatter has no non-empty `type`".
Definition no_fm_line (rel : list string) : string := "  ✗ " +:+ show_rel rel +:+ " — missing/unparseable frontmatter".

Definition check_concept (fs : files) (root : string) (rel : list string) : K (Z * Z) :=
  match load_concept fs (at_rel root rel) with
  | None => n <~ complain (no_fm_line rel); kret (n, 0)
  | Some (fm, _) => if has_type fm then kret (0, 0) else n <~ complain (no_type_line rel); kret (n, 0)
  end.

Definition bundle_dir (root : string) : K files :=
  fs <~ disk_of; if fs_is_dir fs root then kret fs else kfail (Bail ("bundle root not found: " +:+ root)).

(** The number of documents and of errors. *)
Definition validate_bundle (root : string) : K (Z * Z) :=
  fs <~ bundle_dir root;
  let rels := collect_md_files fs root in
  n <~ tally (check_concept fs root) rels;
  kret (len rels, fst n).

Definition STATUSES : list string := ["draft"; "stable"; "deprecated"].

Definition check_time (what : string) (rel : list string) (v : option string) : K Z :=
  match v with
  | Some x => if is_iso8601 x then kret 0
              else complain ("  ✗ " +:+ show_rel rel +:+ " — " +:+ what +:+ " `" +:+ x +:+ "` is not ISO 8601 UTC (§5)")
  | None => kret 0
  end.

Definition verified_entries (fm : yaml) : list yaml :=
  match yget "verified" fm with
  | Some (YSeq l) => l
  | Some v => [v]
  | None => []
  end.

Fixpoint sum_all {A} (f : A -> K Z) (l : list A) : K Z :=
  match l with [] => kret 0 | x :: l' => i <~ f x; j <~ sum_all f l'; kret (i + j) end.

Definition check_link (fs : files) (root doc_dir : string) (rel : list string) (link : string) : K Z :=
  if is_external_link link then kret 0
  else if fs_exists fs (resolve_link root doc_dir link) then kret 0
  else complain ("  ⚠ " +:+ show_rel rel +:+ " — link `" +:+ link +:+ "` does not resolve in bundle (§6.1)").

Definition lint_concept (fs : files) (root : string) (rel : list string) : K (Z * Z) :=
  match load_concept fs (at_rel root rel) with
  | None => n <~ complain (no_fm_line rel); kret (n, 0)
  | Some (fm, body) =>
      e1 <~ (if has_type fm then kret 0 else complain (no_type_line rel));
      e2 <~ (match fm_str fm "status" with
             | Some s => if bool_decide (s ∈ STATUSES) then kret 0
                         else complain ("  ✗ " +:+ show_rel rel +:+ " — invalid status `" +:+ s +:+ "` (§5.4)")
             | None => kret 0
             end);
      e3 <~ check_time "stale_after" rel (fm_str fm "stale_after");
      e4 <~ check_time "generated.at" rel (g ← yget "generated" fm; fm_str g "at");
      e5 <~ sum_all (fun v => check_time "verified.at" rel (fm_str v "at")) (verified_entries fm);
      w <~ sum_all (check_link fs root (at_rel root (removelast rel)) rel) (extract_md_links body);
      kret (e1 + e2 + e3 + e4 + e5, w)
  end.

Definition lint_reserved (fs : files) (root n : string) : K Z :=
  let p := path_join root n in
  if fs_exists fs p then
    raw <~ from_opt (Io "read_to_string") (read_to_string fs p);
    match parse_doc raw with
    | Some _ => complain ("  ✗ " +:+ n +:+ " — reserved file must not have frontmatter (§8/§9)")
    | None => kret 0
    end
  else kret 0.

Definition validate_bundle_lint (root : string) : K (Z * (Z * Z)) :=
  fs <~ bundle_dir root;
  let rels := collect_md_files fs root in
  r <~ sum_all (lint_reserved fs root) RESERVED;
  n <~ tally (lint_concept fs root) rels;
  kret (len rels, (r + fst n, snd n)).
End Okf.

(** ** Commands on libraries *)

Section Commands.
Context `{Yaml}.
Variable e : env.
Variable now : Z.

Definition cmd_lib_new (args : list string) : K unit :=
  let o := parse_args args in
  name <~ need o "path" "usage: yggd okf libs new <name> [--title X] [--description D]";
  if negb (valid_lib_name name) then
    kfail (Bail ("invalid library name `" +:+ name +:+ "` (use [a-z0-9._-], max 63 chars)"))
  else
    let dir := lib_dir (libs_root e) name in
    fs <~ disk_of;
    if fs_exists fs dir then kfail (Bail ("library already exists: " +:+ dir))
    else
      io "create_dir_all" (create_dir_all dir);;
      let quote k := match nonempty (o !! k) with
                     | Some v => line ("> " +:+ v) +:+ String LF EmptyString
                     | None => EmptyString
                     end in
      let idx := line "# Knowledge Bundle" +:+ String LF (quote "title" +:+ quote "description" +:+
                   line "_Empty library. Run `yggd okf <lib> add <path> --type <Type>`._") in
      io "write" (fs_write (path_join dir "index.md") (as_bytes idx));;
      io "write" (fs_write (path_join dir "log.md") (as_bytes LOG_HEAD));;
      println ("okf: library `" +:+ name +:+ "` created at " +:+ dir).

Definition cmd_lib_list (args : list string) : K unit :=
  let root := libs_root e in
  fs <~ disk_of;
  if negb (fs_is_dir fs root) then
    println ("okf: no libraries (root " +:+ root +:+ " not found; run `yggd okf libs new <name>`)")
  else
    match collect_libs fs root with
    | [] => println ("okf: no libraries under " +:+ root +:+ " (run `yggd okf libs new <name>`)")
    | libs =>
        println (pad_right 20 "library" +:+ " " +:+ pad_left 8 "concepts" +:+ "  index");;
        println (str_join "" (replicate 60 "-"));;
        each (fun name =>
          let dir := lib_dir root name in
          println (pad_right 20 name +:+ " " +:+ pad_left 8 (dec (len (collect_md_files fs dir))) +:+ "  " +:+
                   default "" (concept_str fs (path_join dir "index.md") "title"))) libs
    end.

(** How many concepts have each type, by type. *)
Definition type_counts (fs : files) (dir : string) (rels : list (list string)) : list (string * Z) :=
  let types := map (fun rel => default "" (concept_str fs (at_rel dir rel) "type")) rels in
  map (fun t => (t, len (filter (fun u => u = t) types))) (merge_sort String.le (remove_dups types)).

Definition cmd_lib_show (args : list string) : K unit :=
  let o := parse_args args in
  name <~ need o "path" "usage: yggd okf libs show <name>";
  let dir := lib_dir (libs_root e) name in
  fs <~ disk_of;
  if negb (fs_is_dir fs dir) then kfail (Bail ("library `" +:+ name +:+ "` not found"))
  else
    let rels := collect_md_files fs dir in
    println ("library: " +:+ name);;
    println ("path: " +:+ dir);;
    println ("concepts: " +:+ dec (len rels) +:+ " (index.md/log.md excluded)");;
    each (fun tn => println ("  " +:+ fst tn +:+ ": " +:+ dec (snd tn))) (type_counts fs dir rels);;
    match read_to_string fs (path_join dir "log.md") with
    | Some raw =>
        let es := filter (fun l => starts_with "* " l = true) (lines raw) in
        println ("log entries: " +:+ dec (len es) +:+ " (latest: " +:+ default "" (list.last es) +:+ ")")
    | None => kret tt
    end.

Definition cmd_lib_rm (args : list string) : K unit :=
  let o := parse_args args in
  name <~ need o "path" "usage: yggd okf libs rm <name> --force";
  let forced := match o !! "force" with Some v => bool_decide (v = "1" \/ v = "true") | None => false end in
  if negb forced && negb (bool_decide ("--force" ∈ args)) then
    kfail (Bail ("refusing to remove library `" +:+ name +:+ "` without --force"))
  else
    let dir := lib_dir (libs_root e) name in
    fs <~ disk_of;
    if negb (fs_is_dir fs dir) then kfail (Bail ("library `" +:+ name +:+ "` not found"))
    else
      io "remove_dir_all" (fs_remove_dir_all dir);;
      println ("okf: library `" +:+ name +:+ "` removed").

Definition cmd_lib_validate (args : list string) : K unit :=
  let o := parse_args args in
  name <~ need o "path" "usage: yggd okf libs validate <name> [--lint]";
  let dir := lib_dir (libs_root e) name in
  if bool_decide ("--lint" ∈ args) then
    r <~ validate_bundle_lint dir;
    println ("okf: linted library `" +:+ name +:+ "` — " +:+ dec (fst r) +:+ " document(s), " +:+ dec (fst (snd r)) +:+
             " error(s), " +:+ dec (snd (snd r)) +:+ " warning(s)");;
    if fst (snd r) >? 0 then kfail (ExitWith 1) else kret tt
  else
    r <~ validate_bundle dir;
    println ("okf: validated library `" +:+ name +:+ "` — " +:+ dec (fst r) +:+ " document(s), " +:+ dec (snd r) +:+ " error(s)");;
    if snd r >? 0 then kfail (ExitWith 1) else kret tt.

(** ** Commands on concepts *)

Definition resolve_lib (args : list string) : K (string * opts) :=
  let name := default "" (args !! 3%nat) in
  if negb (valid_lib_name name) then kfail (Bail ("invalid library name `" +:+ name +:+ "`"))
  else
    let dir := lib_dir (libs_root e) name in
    fs <~ disk_of;
    if negb (fs_is_dir fs dir) then
      kfail (Bail ("library `" +:+ name +:+ "` not found (run `yggd okf libs new " +:+ name +:+ "`)"))
    else kret (dir, parse_args args).

(** [tags] as they are written into a document. *)
Definition tag_list (tags : string) : string :=
  "[" +:+ str_join ", " (filter (fun t => t <> "") (map str_trim (str_split "," tags))) +:+ "]".

Definition new_title (o : opts) (rel ftype : string) : string :=
  default (match file_name rel with Some n => fst (split_ext n) | None => ftype end) (o !! "title").

Definition new_doc (o : opts) (rel ftype status : string) : string :=
  let title := new_title o rel ftype in
  let opt k := match nonempty (o !! k) with Some v => line (k +:+ ": " +:+ v) | None => EmptyString end in
  let fm := line ("type: " +:+ ftype) +:+ line ("title: " +:+ title) +:+ opt "description" +:+ opt "resource" +:+
            (match nonempty (o !! "tags") with Some v => line ("tags: " +:+ tag_list v) | None => EmptyString end) +:+
            line ("status: " +:+ status) +:+ line ("generated: { by: process:nsmt, at: " +:+ iso_now now +:+ " }") in
  line "---" +:+ fm +:+ line "---" +:+ String LF (line ("# " +:+ title) +:+ String LF EmptyString).

Definition bad_status (s : string) : K unit := kfail (Bail ("invalid status `" +:+ s +:+ "` (draft | stable | deprecated, §5.4)")).

Definition cmd_add (args : list string) : K unit :=
  d <~ resolve_lib args;
  let '(dir, o) := d in
  rel <~ need o "path" "usage: yggd okf <lib> add <rel-path> --type T [--title X] ...";
  ftype <~ need o "type" "--type is required (OKF §4.1)";
  if reserved rel then kfail (Bail ("`" +:+ rel +:+ "` is an OKF reserved filename (§3.1)"))
  else if negb (ends_with ".md" rel) then kfail (Bail "concept path must end with .md")
  else
    let target := path_join dir rel in
    fs <~ disk_of;
    if fs_exists fs target then kfail (Bail ("concept already exists: " +:+ target))
    else
      io "create_dir_all" (create_parent target);;
      let status := default "stable" (o !! "status") in
      if negb (bool_decide (status ∈ STATUSES)) then bad_status status
      else
        io "write" (fs_write target (as_bytes (new_doc o rel ftype status)));;
        append_log now dir ("**Creation**: Established [" +:+ new_title o rel ftype +:+ "](/" +:+ slashes rel +:+ ")");;
        println ("okf: concept created " +:+ rel +:+ " (type=" +:+ ftype +:+ ")").

Definition trash_path (dir rel : string) : string := path_join (path_join dir ".trash") rel.

Definition cmd_rm (args : list string) : K unit :=
  d <~ resolve_lib args;
  let '(dir, o) := d in
  rel <~ need o "path" "usage: yggd okf <lib> rm <rel-path>";
  if reserved rel then kfail (Bail ("`" +:+ rel +:+ "` is a reserved filename and cannot be removed via concept ops"))
  else
    let target := path_join dir rel in
    fs <~ disk_of;
    if negb (fs_exists fs target) then kfail (Bail ("concept not found: " +:+ target))
    else
      io "create_dir_all" (create_parent (trash_path dir rel));;
      io "rename" (fs_rename target (trash_path dir rel));;
      append_log now dir ("**Deprecation**: Removed [" +:+ rel +:+ "](/" +:+ slashes rel +:+ ")");;
      println ("okf: concept moved to trash " +:+ rel +:+ " (restore with `okf <lib> restore " +:+ rel +:+ "`)").

Definition cmd_restore (args : list string) : K unit :=
  d <~ resolve_lib args;
  let '(dir, o) := d in
  rel <~ need o "path" "usage: yggd okf <lib> restore <rel-path>";
  let trash := trash_path dir rel in
  fs <~ disk_of;
  if negb (fs_exists fs trash) then kfail (Bail ("not in trash: " +:+ rel +:+ " (path: " +:+ trash +:+ ")"))
  else
    let target := path_join dir rel in
    if fs_exists fs target then kfail (Bail ("target already exists: " +:+ target))
    else
      io "create_dir_all" (create_parent target);;
      io "rename" (fs_rename trash target);;
      append_log now dir ("**Update**: Restored [" +:+ rel +:+ "](/" +:+ slashes rel +:+ ")");;
      println ("okf: concept restored " +:+ rel).

(** The changes [cmd_edit] makes to the fields, in its order. *)
Definition edit_changes (o : opts) (fm : yaml) : list (string * string) :=
  let opt k key := match nonempty (o !! k) with Some v => [(key, v)] | None => [] end in
  opt "type" "type" ++ opt "title" "title" ++ opt "description" "description" ++ opt "resource" "resource" ++
  (match nonempty (o !! "tags") with Some v => [("tags", tag_list v)] | None => [] end) ++
  opt "status" "status" ++ opt "stale-after" "stale_after" ++
  [("generated", "{ by: " +:+ default "process:nsmt" (g ← yget "generated" fm; fm_str g "by") +:+ ", at: " +:+ iso_now now +:+ " }")].

Definition cmd_edit (args : list string) : K unit :=
  d <~ resolve_lib args;
  let '(dir, o) := d in
  rel <~ need o "path" "usage: yggd okf <lib> edit <rel-path> [--title X] ...";
  let target := path_join dir rel in
  fs <~ disk_of;
  raw <~ from_opt (Bail ("concept not found: " +:+ target)) (read_to_string fs target);
  doc <~ from_opt (Bail ("not a valid OKF concept: " +:+ target)) (parse_doc raw);
  ls <~ from_opt (Bail "no frontmatter") (fm_lines raw);
  (match nonempty (o !! "status") with
   | Some s => if bool_decide (s ∈ STATUSES) then kret tt else bad_status s
   | None => kret tt
   end);;
  io "write" (fs_write target (as_bytes (render_doc (apply_changes (edit_changes o (fst doc)) ls) (snd doc))));;
  append_log now dir ("**Update**: Edited [" +:+ rel +:+ "](/" +:+ slashes rel +:+ ")");;
  println ("okf: concept updated " +:+ rel).

(** The concept id: the path without its extension. *)
Definition concept_id (rel : list string) : string :=
  slashes (show_rel (match list.last rel with Some n => removelast rel ++ [fst (split_ext n)] | None => rel end)).

Definition list_lines (fs : files) (dir : string) (want : option string) (rel : list string) : list string :=
  match load_concept fs (at_rel dir rel) with
  | None => []
  | Some (fm, _) =>
      let ftype := default "" (fm_str fm "type") in
      if match want with Some f => negb (bool_decide (ftype = f)) | None => false end then []
      else
        let desc := default "" (fm_str fm "description") in
        let tags := fm_tags fm in
        (pad_right 18 ftype +:+ " " +:+ concept_id rel +:+
         match tags with [] => EmptyString | _ => " [" +:+ str_join "," tags +:+ "]" end) ::
        (if str_len desc =? 0 then [] else [spaces 18 +:+ "   " +:+ desc])
  end.

Definition cmd_list (args : list string) : K unit :=
  d <~ resolve_lib args;
  let '(dir, o) := d in
  fs <~ disk_of;
  let found := filter (fun ls => ls <> []) (map (list_lines fs dir (o !! "type")) (collect_md_files fs dir)) in
  each println (concat found);;
  println ("okf: " +:+ dec (len found) +:+ " concept(s) in library").

Definition cmd_show (args : list string) : K unit :=
  d <~ resolve_lib args;
  let '(dir, o) := d in
  rel <~ need o "path" "usage: yggd okf <lib> show <rel-path>";
  let p := path_join dir rel in
  fs <~ disk_of;
  doc <~ from_opt (Bail ("not a valid OKF concept: " +:+ p +:+ " (missing frontmatter?)")) (load_concept fs p);
  let '(fm, body) := doc in
  println ("concept: " +:+ slashes rel);;
  println ("type: " +:+ default "" (fm_str fm "type"));;
  println ("title: " +:+ default "" (fm_str fm "title"));;
  println ("description: " +:+ default "" (fm_str fm "description"));;
  println ("status: " +:+ default "stable" (fm_str fm "status"));;
  (match fm_tags fm with [] => kret tt | tags => println ("tags: " +:+ str_join ", " tags) end);;
  (match yget "generated" fm with Some g => println ("generated: " +:+ default "present" (yas_str g)) | None => kret tt end);;
  println "--- body (first 40 lines) ---";;
  each println (take 40 (lines body)).

Definition cmd_index (args : list string) : K unit :=
  d <~ resolve_lib args;
  generate_index (fst d);;
  println "okf: index.md refreshed for library".

Definition cmd_log (args : list string) : K unit :=
  d <~ resolve_lib args;
  let '(dir, o) := d in
  msg <~ need o "path" "usage: yggd okf <lib> log <message>";
  append_log now dir msg;;
  println "okf: log entry appended".

(** Where a concept's fields match. *)
Definition field_hits (fm : yaml) (title kw : string) : list string :=
  let hit s := str_contains kw (lower s) in
  (if hit (default "" (fm_str fm "type")) then ["type"] else []) ++
  (if hit title then ["title"] else []) ++
  (match fm_str fm "description" with Some x => if hit x then ["description"] else [] | None => [] end) ++
  (if existsb hit (fm_tags fm) then ["tags"] else []).

(** The lines of the body that match, numbered from 1. *)
Definition body_hits (body kw : string) : list (Z * string) :=
  omap (fun il => let '(i, l) := il in
          if str_contains kw (lower l) && negb (str_len (str_trim l) =? 0) then Some (i, str_trim l) else None)
    (zip (seqZ 1 (len (lines body))) (lines body)).

(** [&text[..90]] panics inside a character. *)
Definition snippet (text : string) : K string :=
  if str_len text >? 90 then
    if slice_ok 90 text then kret (of_bytes (take 90 (as_bytes text)) +:+ "…") else kfail Panics
  else kret text.

Definition search_concept (fs : files) (dir kw : string) (rel : list string) : K (Z * Z) :=
  match load_concept fs (at_rel dir rel) with
  | None => kret (0, 0)
  | Some (fm, body) =>
      let ftype := default "" (fm_str fm "type") in
      let title := default (show_rel rel) (fm_str fm "title") in
      let cid := concept_id rel in
      match field_hits fm title kw with
      | [] =>
          match body_hits body kw with
          | [] => kret (0, 0)
          | hits =>
              println (pad_right 16 ftype +:+ " " +:+ cid);;
              each (fun h => s <~ snippet (snd h); println (spaces 16 +:+ "   L" +:+ dec (fst h) +:+ ": " +:+ s)) (take 3 hits);;
              kret (1, 0)
          end
      | wh =>
          println (pad_right 16 ftype +:+ " " +:+ cid +:+ " [" +:+ str_join "," wh +:+ "]");;
          println (spaces 16 +:+ "   " +:+ title);;
          kret (1, 0)
      end
  end.

Definition cmd_search (args : list string) : K unit :=
  d <~ resolve_lib args;
  let '(dir, o) := d in
  kw <~ need o "path" "usage: yggd okf <lib> search <keyword>";
  fs <~ disk_of;
  n <~ tally (search_concept fs dir (lower kw)) (collect_md_files fs dir);
  println ("okf: " +:+ dec (fst n) +:+ " concept(s) matched `" +:+ kw +:+ "` in library").

(** ** Dispatch; [usage] is the text of [USAGE]. *)
Variable usage : string.

Definition is_help (s : string) : bool := bool_decide (s = "help" \/ s = "--help" \/ s = "-h").

Definition run (args : list string) : K unit :=
  let head := default "help" (args !! 3%nat) in
  let sub := default "help" (args !! 4%nat) in
  if decide (head = "libs") then
    if decide (sub = "new") then cmd_lib_new args
    else if decide (sub = "list") then cmd_lib_list args
    else if decide (sub = "show") then cmd_lib_show args
    else if decide (sub = "rm") then cmd_lib_rm args
    else if decide (sub = "validate") then cmd_lib_validate args
    else if is_help sub then println usage
    else kfail (Bail ("unknown libs subcommand `" +:+ sub +:+ "`" +:+ String LF usage))
  else if is_help head then println usage
  else if decide (sub = "add") then cmd_add args
  else if decide (sub = "rm") then cmd_rm args
  else if decide (sub = "restore") then cmd_restore args
  else if decide (sub = "edit") then cmd_edit args
  else if decide (sub = "list") then cmd_list args
  else if decide (sub = "show") then cmd_show args
  else if decide (sub = "index") then cmd_index args
  else if decide (sub = "log") then cmd_log args
  else if decide (sub = "search") then cmd_search args
  else if is_help sub then println usage
  else if valid_lib_name head then
    kfail (Bail ("unknown operation `" +:+ sub +:+ "` for library `" +:+ head +:+ "`" +:+ String LF usage))
  else kfail (Bail ("invalid library name `" +:+ head +:+ "` or unknown subcommand" +:+ String LF usage)).
End Commands.
