(* ===== verification/OkfSpec.v ===== *)
(** * Knowledge libraries: what the commands promise

    A small program logic for the monad of [Okf]: an assertion on the disk that a
    command keeps whatever its outcome.  With it: the reading commands do not write,
    the writing ones stay in their library, [add] overwrites nothing; then which
    files are concepts, the check's count, the log, and the way to the trash and
    back. *)

From S2P Require Import Prelude Paths Share Conflict OkfText Okf.

(** ** Assertions kept by a command *)

Definition keeps {A : Type} (P : files -> Prop) (m : K A) : Prop := forall fs, P fs -> P (snd (m fs)).

Section Logic.
Context (P : files -> Prop).

Lemma holds_ret {A : Type} (a : A) : keeps P (kret a).
Proof. by intros fs. Qed.

Lemma holds_fail {A} err : keeps P (@kfail A err).
Proof. by intros fs. Qed.

Lemma holds_println l : keeps P (println l).
Proof. by intros fs. Qed.

Lemma holds_opt {A} err (o : option A) : keeps P (from_opt err o).
Proof. by destruct o; intros fs. Qed.

Lemma holds_bind {A B} (m : K A) (k : A -> K B) : keeps P m -> (forall a, keeps P (k a)) -> keeps P (kbind m k).
Proof.
  intros Hm Hk fs Hfs. specialize (Hm fs Hfs). unfold kbind. destruct (m fs) as [[[a|err] out] fs1]; [|done].
  specialize (Hk a fs1 Hm). by destruct (k a fs1) as [[r out2] fs2].
Qed.

(** What the program reads from the disk satisfies the assertion. *)
Lemma holds_disk {B} (k : files -> K B) : (forall fs, P fs -> keeps P (k fs)) -> keeps P (kbind disk_of k).
Proof. intros Hk fs Hfs. specialize (Hk fs Hfs fs Hfs). unfold kbind, disk_of. by destruct (k fs fs) as [[r out2] fs2]. Qed.

Lemma holds_io op f : (forall fs fs', P fs -> f fs = Some fs' -> P fs') -> keeps P (io op f).
Proof. intros Hf fs Hfs. unfold io. destruct (f fs) as [fs'|] eqn:E; [|done]. by apply (Hf fs). Qed.

Lemma holds_each {A} (f : A -> K unit) l : (forall x, x ∈ l -> keeps P (f x)) -> keeps P (each f l).
Proof.
  induction l as [|x l IH]; intros Hf; [apply holds_ret|]. cbn [each].
  apply holds_bind; [apply Hf; by left|]. intros _. apply IH. intros y Hy. apply Hf. by right.
Qed.

Lemma holds_tally {A} (f : A -> K (Z * Z)) l : (forall x, keeps P (f x)) -> keeps P (tally f l).
Proof.
  intros Hf. induction l as [|x l IH]; [apply holds_ret|]. cbn [tally].
  apply holds_bind; [done|]. intros a. apply holds_bind; [done|]. intros b. apply holds_ret.
Qed.

Lemma holds_sum {A} (f : A -> K Z) l : (forall x, keeps P (f x)) -> keeps P (sum_all f l).
Proof.
  intros Hf. induction l as [|x l IH]; [apply holds_ret|]. cbn [sum_all].
  apply holds_bind; [done|]. intros a. apply holds_bind; [done|]. intros b. apply holds_ret.
Qed.
End Logic.

(** One step through a command; the operations on the disk are left. *)
Ltac keeps_step :=
  match goal with
  | |- keeps _ (kret _) => apply holds_ret
  | |- keeps _ (kfail _) => apply holds_fail
  | |- keeps _ (println _) => apply holds_println
  | |- keeps _ (from_opt _ _) => apply holds_opt
  | |- keeps _ (kbind disk_of _) => apply holds_disk; intros ? ?
  | |- keeps _ (kbind _ _) => apply holds_bind; [|intros ?]
  | |- keeps _ (each _ _) => apply holds_each; intros ? ?
  | |- keeps _ (tally _ _) => apply holds_tally; intros ?
  | |- keeps _ (sum_all _ _) => apply holds_sum; intros ?
  | |- keeps _ (need _ _ _) => unfold need
  | |- keeps _ (complain _) => unfold complain
  | |- keeps _ (bad_status _) => unfold bad_status
  | |- keeps _ (snippet _) => unfold snippet
  | |- keeps _ (resolve_lib _ _) => unfold resolve_lib
  | |- keeps _ (bundle_dir _) => unfold bundle_dir
  | |- keeps _ (match ?x with _ => _ end) => destruct x eqn:?
  | |- keeps _ (let x := _ in _) => cbv zeta
  end.

Ltac keeps_auto := repeat keeps_step.

(** ** Commands that only read *)

Section Reading.
Context `{Yaml}.
Variables (e : env) (now : Z) (usage : string).

Lemma validate_keeps P root : keeps P (validate_bundle root).
Proof. unfold validate_bundle, check_concept. keeps_auto. Qed.

Lemma lint_keeps P root : keeps P (validate_bundle_lint root).
Proof. unfold validate_bundle_lint, lint_reserved, lint_concept, check_time, check_link. keeps_auto. Qed.

Lemma list_keeps P args : keeps P (cmd_list e args).
Proof. unfold cmd_list. keeps_auto. Qed.

Lemma show_keeps P args : keeps P (cmd_show e args).
Proof. unfold cmd_show. keeps_auto. Qed.

Lemma search_keeps P args : keeps P (cmd_search e args).
Proof. unfold cmd_search, search_concept. keeps_auto. Qed.

Lemma lib_list_keeps P args : keeps P (cmd_lib_list e args).
Proof. unfold cmd_lib_list. keeps_auto. Qed.

Lemma lib_show_keeps P args : keeps P (cmd_lib_show e args).
Proof. unfold cmd_lib_show. keeps_auto. Qed.

Lemma lib_validate_keeps P args : keeps P (cmd_lib_validate e args).
Proof. unfold cmd_lib_validate. keeps_auto; [apply lint_keeps|apply validate_keeps]. Qed.
End Reading.

(** ** Frames on the disk *)

(** Outside [d] nothing changed, except that directories on the way to [d] that were
    missing were made. *)
Definition confined (d : loc) (fs0 fs : files) : Prop :=
  forall l, inside d l = false ->
    fs !! l = fs0 !! l \/ (inside l d = true /\ fs0 !! l = None /\ fs !! l = Some Dir).

(** Every file except the one at [but] kept its content. *)
Definition files_stay (but : loc) (fs0 fs : files) : Prop :=
  forall l b, l <> but -> fs0 !! l = Some (File b) -> fs !! l = Some (File b).

Lemma inside_below d more : inside d (below d more) = true.
Proof.
  unfold inside, below. cbn [fst snd]. rewrite take_app_length. by rewrite !bool_decide_eq_true_2.
Qed.

Lemma inside_self d : inside d d = true.
Proof. rewrite <- (below_nil d) at 2. apply inside_below. Qed.

Lemma inside_inv d l : inside d l = true -> l = below d (drop (length (snd d)) (snd l)).
Proof.
  unfold inside, below. rewrite andb_true_iff, !bool_decide_eq_true. intros [Hf Ht].
  destruct l as [a cs]. cbn [fst snd] in *. rewrite <- Ht at 1. by rewrite take_drop, Hf.
Qed.

Lemma inside_safe d p : safe_rel p = true -> inside (resolve d) (resolve (path_join d p)) = true.
Proof. intros [more ->]%(resolve_join_safe d). apply inside_below. Qed.

Lemma inside_trans d l m : inside d l = true -> inside l m = true -> inside d m = true.
Proof.
  intros ->%inside_inv ->%inside_inv. rewrite below_app. apply inside_below.
Qed.

Lemma confined_refl d fs : confined d fs fs.
Proof. by left. Qed.

Lemma confined_mkdirs d fs0 abs todo more fs fs' :
  inside d (abs, todo ++ more) = true -> confined d fs0 fs -> mkdirs abs [] todo fs = Some fs' -> confined d fs0 fs'.
Proof.
  intros Hd Hc Hm l Hl. destruct (mkdirs_spec _ _ _ _ _ Hm) as (H1 & _ & Hout & _).
  destruct (H1 l) as [->|[Hn Hdir]]; [by apply Hc|]. right.
  destruct (Hc l Hl) as [E|(_ & _ & E)]; [|congruence]. split; [|split; congruence].
  destruct (inside l d) eqn:Ed; [done|]. exfalso. rewrite Hout in Hdir; [congruence|]. intros (k & Ha & Hs).
  destruct l as [a cs], d as [a' ds]. cbn [fst snd app] in *. subst a cs.
  apply inside_inv in Hd. injection Hd as -> Hd. cbn [fst snd] in *.
  destruct (prefix_weak_total (take k todo) ds (todo ++ more)) as [[z ->]|[z Hz]].
  - exists (drop k todo ++ more). by rewrite app_assoc, take_drop.
  - rewrite Hd at 1. by eexists.
  - by rewrite inside_prefix in Ed.
  - rewrite Hz in Hl. by rewrite inside_prefix in Hl.
Qed.

Lemma confined_dir_all d fs0 p fs fs' :
  inside d (resolve p) = true -> confined d fs0 fs -> create_dir_all p fs = Some fs' -> confined d fs0 fs'.
Proof. intros Hd. eapply (confined_mkdirs _ _ _ _ []). rewrite app_nil_r. by destruct (resolve p). Qed.

Lemma confined_parent d fs0 p fs fs' :
  inside d (resolve p) = true -> confined d fs0 fs -> create_parent p fs = Some fs' -> confined d fs0 fs'.
Proof.
  intros Hd. destruct (removelast_take_app (length (removelast (snd (resolve p)))) (snd (resolve p))) as [more Hm].
  rewrite firstn_all in Hm. eapply (confined_mkdirs _ _ _ _ more). rewrite <- Hm. by destruct (resolve p).
Qed.

Lemma confined_write d fs0 p b fs fs' :
  inside d (resolve p) = true -> confined d fs0 fs -> fs_write p b fs = Some fs' -> confined d fs0 fs'.
Proof.
  intros Hp Hc. unfold fs_write. repeat case_match; intros [= <-]. intros l Hl.
  rewrite lookup_insert_ne by congruence. by apply Hc.
Qed.

Lemma moved_below d d' kv : inside d (fst kv) = true -> inside d' (fst (moved d d' kv)) = true.
Proof. intros Hi. unfold moved. rewrite Hi. cbn [fst]. apply (inside_below d'). Qed.

Lemma moved_other d d' kv : inside d (fst kv) = false -> moved d d' kv = kv.
Proof. unfold moved. by intros ->. Qed.

(** The entries outside both places after a directory was moved. *)
Lemma moved_lookup d p q fs l :
  inside d p = true -> inside d q = true -> inside d l = false ->
  (list_to_map (map (moved p q) (map_to_list (delete q fs))) : files) !! l = fs !! l.
Proof.
  intros Hp Hq Hl.
  assert (forall nd, (l, nd) ∈ map (moved p q) (map_to_list (delete q fs)) <-> fs !! l = Some nd) as Hin.
  { intros nd. rewrite list_elem_of_fmap. split.
    - intros ([l0 nd0] & Hk & Hin%elem_of_map_to_list). destruct (inside p l0) eqn:Ei.
      + pose proof (moved_below p q (l0, nd0) Ei) as Hm. rewrite <- Hk in Hm. cbn in Hm.
        rewrite (inside_trans d q l Hq Hm) in Hl. done.
      + rewrite moved_other in Hk by done. injection Hk as -> ->. by apply lookup_delete_Some in Hin as [_ ?].
    - intros Hnd. exists (l, nd). split.
      + rewrite moved_other; [done|]. cbn. destruct (inside p l) eqn:Ei; [|done].
        by rewrite (inside_trans d p l Hp Ei) in Hl.
      + apply elem_of_map_to_list, lookup_delete_Some. split; [|done]. intros ->. congruence. }
  destruct (fs !! l) as [nd|] eqn:El.
  - apply elem_of_list_to_map_1'; [|by apply Hin]. intros y Hy%Hin. congruence.
  - apply not_elem_of_list_to_map_1. intros ([l0 nd0] & -> & Hy)%list_elem_of_fmap. cbn in *. apply Hin in Hy. congruence.
Qed.

Lemma confined_rename d fs0 p q fs fs' :
  inside d (resolve p) = true -> inside d (resolve q) = true ->
  confined d fs0 fs -> fs_rename p q fs = Some fs' -> confined d fs0 fs'.
Proof.
  intros Hp Hq Hc. unfold fs_rename. destruct (fs !! resolve p) as [[b|]|]; [| |done].
  - repeat case_match; intros [= <-]. intros l Hl. rewrite lookup_insert_ne, lookup_delete_ne by congruence. by apply Hc.
  - destruct (decide _); [by intros [= <-]|]. destruct (inside _ _ || _); [done|].
    destruct (fs !! resolve q) as [[]|]; [done| |]; (destruct (is_dir_at _ _); [|done]); intros [= <-] l Hl;
      rewrite (moved_lookup d) by done; by apply Hc.
Qed.

Lemma stay_mkdirs but fs0 abs done_ todo fs fs' :
  files_stay but fs0 fs -> mkdirs abs done_ todo fs = Some fs' -> files_stay but fs0 fs'.
Proof.
  intros Hs Hm l b Hne Hl. destruct (mkdirs_spec _ _ _ _ _ Hm) as (H1 & _). apply Hs in Hl; [|done].
  destruct (H1 l) as [->|[Hn _]]; [done|congruence].
Qed.

Lemma stay_write but fs0 p b fs fs' :
  resolve p = but \/ (forall c, fs0 !! resolve p <> Some (File c)) ->
  files_stay but fs0 fs -> fs_write p b fs = Some fs' -> files_stay but fs0 fs'.
Proof.
  intros Hp Hs. unfold fs_write. repeat case_match; intros [= <-]. intros l c Hne Hl.
  rewrite lookup_insert_ne; [by apply Hs|]. intros <-. destruct Hp as [Hp|Hp]; [done|by apply (Hp c)].
Qed.

(** ** The writing commands stay in their library *)

(** The library a command line names. *)
Definition lib_of (e : env) (args : list string) : string := lib_dir (libs_root e) (default "" (args !! 3%nat)).

Lemma holds_lib {B : Type} e P args (k : string * opts -> K B) :
  keeps P (k (lib_of e args, parse_args args)) -> keeps P (d <~ resolve_lib e args; k d).
Proof.
  intros Hk. unfold resolve_lib, kbind. intros fs Hfs. specialize (Hk fs Hfs).
  destruct (negb (valid_lib_name _)); [done|]. cbn. fold (lib_of e args).
  destruct (negb (fs_is_dir _ _)); [done|]. cbn. by destruct (k _ fs) as [[r out] fs2].
Qed.

Lemma holds_need {B : Type} P (o : opts) key u (k : string -> K B) :
  (forall v, o !! key = Some v -> keeps P (k v)) -> keeps P (v <~ need o key u; k v).
Proof.
  intros Hk. unfold need, nonempty. destruct (o !! key) as [v|] eqn:E; [|by intros fs].
  destruct (str_len v =? 0); [by intros fs|]. intros fs Hfs. specialize (Hk v eq_refl fs Hfs). unfold kbind. cbn.
  by destruct (k v fs) as [[r out] fs2].
Qed.

Lemma log_loc root : resolve (path_join root "log.md") = below (resolve root) ["log.md"].
Proof. by apply resolve_join_plain. Qed.

(** [append_log] makes directories and writes the log. *)
Lemma append_log_keeps P now root entry :
  (forall fs fs', P fs -> create_dir_all root fs = Some fs' -> P fs') ->
  (forall b fs fs', P fs -> fs_write (path_join root "log.md") b fs = Some fs' -> P fs') ->
  keeps P (append_log now root entry).
Proof.
  intros Hd Hw. unfold append_log. keeps_auto; apply holds_io; [done|intros f f'; apply Hw..].
Qed.

Lemma append_log_confined d fs0 now root entry :
  inside d (resolve root) = true -> keeps (confined d fs0) (append_log now root entry).
Proof.
  intros Hr. apply append_log_keeps.
  - intros fs fs' Hc. by apply confined_dir_all.
  - intros b fs fs' Hc. apply confined_write; [|done]. rewrite log_loc. apply (inside_trans d (resolve root)); [done|].
    apply inside_below.
Qed.

Section Confined.
Context `{Yaml}.
Variables (e : env) (now : Z) (fs0 : files) (args : list string).
Let D : loc := resolve (lib_of e args).
Context (Hrel : forall rel, parse_args args !! "path" = Some rel -> safe_rel rel = true).

Lemma target_inside rel : parse_args args !! "path" = Some rel -> inside D (resolve (path_join (lib_of e args) rel)) = true.
Proof. intros Hp. apply inside_safe. by apply Hrel. Qed.

Lemma trash_inside rel : parse_args args !! "path" = Some rel -> inside D (resolve (trash_path (lib_of e args) rel)) = true.
Proof.
  intros Hp. unfold trash_path. apply (inside_trans D (resolve (path_join (lib_of e args) ".trash"))).
  - by apply inside_safe.
  - apply inside_safe. by apply Hrel.
Qed.

Lemma lib_inside : inside D (resolve (lib_of e args)) = true.
Proof. apply inside_self. Qed.

Ltac confined_io :=
  lazymatch goal with
  | |- keeps _ (append_log _ _ _) => apply append_log_confined, lib_inside
  | |- keeps _ (io _ (create_parent _)) =>
      apply holds_io; intros ? ? ?; apply confined_parent; [by (apply target_inside || apply trash_inside)|done]
  | |- keeps _ (io _ (fs_write _ _)) => apply holds_io; intros ? ? ?; apply confined_write; [by apply target_inside|done]
  | |- keeps _ (io _ (fs_rename _ _)) =>
      apply holds_io; intros ? ? ?; apply confined_rename; [by (apply target_inside || apply trash_inside)..|done]
  end.

Ltac confined_cmd := apply holds_lib; cbn beta iota; apply holds_need; intros rel Hpath; keeps_auto; confined_io.

Lemma add_confined : keeps (confined D fs0) (cmd_add e now args).
Proof. unfold cmd_add. confined_cmd. Qed.

Lemma rm_confined : keeps (confined D fs0) (cmd_rm e now args).
Proof. unfold cmd_rm. confined_cmd. Qed.

Lemma restore_confined : keeps (confined D fs0) (cmd_restore e now args).
Proof. unfold cmd_restore. confined_cmd. Qed.

Lemma edit_confined : keeps (confined D fs0) (cmd_edit e now args).
Proof. unfold cmd_edit. confined_cmd. Qed.
End Confined.

Lemma log_confined e now fs0 args :
  keeps (confined (resolve (lib_of e args)) fs0) (cmd_log e now args).
Proof.
  unfold cmd_log. apply holds_lib. cbn beta iota. apply holds_need. intros rel Hp. keeps_auto.
  apply append_log_confined, lib_inside.
Qed.

Lemma disk_here {B : Type} (k : files -> K B) fs : snd ((x <~ disk_of; k x) fs) = snd (k fs fs).
Proof. unfold kbind, disk_of. by destruct (k fs fs) as [[r out] fs2]. Qed.

Lemma index_confined `{Yaml} root fs :
  (forall rel, rel ∈ collect_md_files fs root -> safe_rel (dir_key rel) = true) ->
  confined (resolve root) fs (snd (generate_index root fs)).
Proof.
  intros Hk. unfold generate_index. rewrite disk_here. set (rels := collect_md_files fs root) in *.
  pose proof (inside_self (resolve root)) as Hroot.
  assert (forall d n, inside (resolve root) (resolve d) = true -> plain_name n = true ->
    inside (resolve root) (resolve (path_join d n)) = true) as Hn.
  { intros d n Hd Hp. rewrite resolve_join_plain by done. apply (inside_trans (resolve root) (resolve d)); [done|]. apply (inside_below _ [n]). }
  assert (forall x, x ∈ dir_keys rels -> inside (resolve root) (resolve (path_join (path_join root x) "index.md")) = true) as Hidx.
  { intros x Hx. apply Hn; [|done]. apply inside_safe. unfold dir_keys in Hx.
    rewrite merge_sort_Permutation, elem_of_remove_dups, list_elem_of_fmap in Hx.
    destruct Hx as (rel & -> & Hrel). apply list_elem_of_filter in Hrel as [_ Hrel]. by apply Hk. }
  match goal with |- confined _ _ (snd (?m fs)) => cut (keeps (confined (resolve root) fs) m) end.
  { intros Hc. apply Hc, confined_refl. }
  keeps_auto; apply holds_io; intros ? ? ?.
  - apply confined_parent; [by apply Hidx|done].
  - apply confined_write; [by apply Hidx|done].
  - by apply confined_dir_all.
  - apply confined_write; [by apply Hn|done].
Qed.

Lemma lib_here {B : Type} e args (k : string * opts -> K B) fs :
  snd ((d <~ resolve_lib e args; k d) fs) = fs \/
  snd ((d <~ resolve_lib e args; k d) fs) = snd (k (lib_of e args, parse_args args) fs).
Proof.
  unfold resolve_lib, kbind. destruct (negb (valid_lib_name _)); [by left|]. cbn. fold (lib_of e args).
  destruct (negb (fs_is_dir _ _)); [by left|]. right. cbn. by destruct (k _ fs) as [[r out] fs2].
Qed.

Lemma cmd_index_confined `{Yaml} e args fs :
  (forall rel, rel ∈ collect_md_files fs (lib_of e args) -> safe_rel (dir_key rel) = true) ->
  confined (resolve (lib_of e args)) fs (snd (cmd_index e args fs)).
Proof.
  intros Hk. unfold cmd_index. destruct (lib_here e args (fun d => generate_index (fst d);; println "okf: index.md refreshed for library") fs) as [->| ->];
    [apply confined_refl|]. cbn [fst]. pose proof (index_confined _ fs Hk) as Hc. unfold kbind.
  destruct (generate_index _ fs) as [[[u|err] out] fs2]; done.
Qed.

(** ** [add] overwrites nothing *)

Lemma append_log_stays fs0 now root entry :
  keeps (files_stay (below (resolve root) ["log.md"]) fs0) (append_log now root entry).
Proof.
  apply append_log_keeps.
  - intros fs fs' Hc. by apply stay_mkdirs.
  - intros b fs fs' Hc. apply stay_write; [|done]. left. apply log_loc.
Qed.

Lemma fs_exists_file fs p b : fs !! resolve p = Some (File b) -> fs_exists fs p = true.
Proof. unfold fs_exists, fs_is_file, fs_read. by intros ->. Qed.

Lemma add_stays `{Yaml} e now args fs0 :
  keeps (files_stay (below (resolve (lib_of e args)) ["log.md"]) fs0) (cmd_add e now args).
Proof.
  unfold cmd_add. apply holds_lib. cbn beta iota. apply holds_need. intros rel Hp. keeps_auto.
  - apply holds_io. intros ? ? ?. by apply stay_mkdirs.
  - apply holds_io. intros f f' ?. apply stay_write; [|done].
    destruct (decide (resolve (path_join (lib_of e args) rel) = below (resolve (lib_of e args)) ["log.md"])) as [->|Hne]; [by left|].
    right. intros c Hc. match goal with Hs : files_stay _ fs0 ?g, Hex : fs_exists ?g _ = false |- _ =>
      apply Hs in Hc; [|done]; apply fs_exists_file in Hc; congruence end.
  - apply append_log_stays.
Qed.

(** ** Properties: what the commands change *)

(** The first words of a command line: the library or [libs], and the operation. *)
Definition head_of (args : list string) : string := default "help" (args !! 3%nat).
Definition sub_of (args : list string) : string := default "help" (args !! 4%nat).

Definition writing (args : list string) : Prop :=
  if decide (head_of args = "libs") then sub_of args ∈ ["new"; "rm"]
  else sub_of args ∈ ["add"; "rm"; "restore"; "edit"; "index"; "log"].

Ltac reading :=
  lazymatch goal with
  | |- keeps _ (cmd_list _ _) => apply list_keeps
  | |- keeps _ (cmd_show _ _) => apply show_keeps
  | |- keeps _ (cmd_search _ _) => apply search_keeps
  | |- keeps _ (cmd_lib_list _ _) => apply lib_list_keeps
  | |- keeps _ (cmd_lib_show _ _) => apply lib_show_keeps
  | |- keeps _ (cmd_lib_validate _ _) => apply lib_validate_keeps
  end.

(** The cases of [run]; the commands that write are excluded by [writing]. *)
Ltac dispatch :=
  repeat match goal with
  | |- keeps _ (if decide (?x = ?y) then _ else _) =>
      destruct (decide (x = y)) as [?|?]; [try contradiction|]
  end; keeps_auto.

(** Every other command line, an unknown one too, leaves the disk as it is. *)
Theorem other_commands_read `{Yaml} e now usage args fs :
  ~ writing args -> snd (run e now usage args fs) = fs.
Proof.
  intros Hw. cut (keeps (fun fs' => fs' = fs) (run e now usage args)); [by intros Hk; apply Hk|].
  unfold writing in Hw. unfold run. fold (head_of args) (sub_of args). cbv zeta.
  destruct (decide (head_of args = "libs")); rewrite !not_elem_of_cons in Hw; destruct_and!.
  - dispatch; reading.
  - destruct (is_help (head_of args)); [apply holds_println|]. dispatch; reading.
Qed.

(** C18: A command on a library whose path argument is relative and without [..]
    changes nothing outside the directory of that library, except that it makes
    directories on the way to it where they are missing.  For [index], which writes
    beside every concept on the disk, the names of the directories below the library
    must be without [..] too, as they are on a real disk. *)
Theorem commands_confined `{Yaml} e now usage args fs name :
  args !! 3%nat = Some name -> name <> "libs" -> valid_lib_name name = true -> name <> "." -> name <> ".." ->
  (forall rel, parse_args args !! "path" = Some rel -> safe_rel rel = true) ->
  (sub_of args = "index" -> forall rel, rel ∈ collect_md_files fs (lib_of e args) -> safe_rel (dir_key rel) = true) ->
  confined (below (resolve (libs_root e)) [name]) fs (snd (run e now usage args fs)).
Proof.
  intros Hn Hl Hv H1 H2 Hrel Hkeys.
  assert (resolve (lib_of e args) = below (resolve (libs_root e)) [name]) as Hd.
  { unfold lib_of, lib_dir. rewrite Hn. by apply resolve_lib_name. }
  rewrite <- Hd. unfold run. rewrite Hn. fold (sub_of args). cbn [default from_option id]. cbv zeta.
  rewrite decide_False by done. destruct (is_help name); [apply confined_refl|].
  destruct (decide (sub_of args = "index")) as [Ei|Hx].
  { specialize (Hkeys Ei). rewrite !decide_False by congruence. by apply cmd_index_confined. }
  match goal with |- confined ?d _ (snd (?m fs)) => cut (keeps (confined d fs) m) end.
  { intros Hc. apply Hc, confined_refl. }
  dispatch; lazymatch goal with
  | |- keeps _ (cmd_add _ _ _) => by apply add_confined
  | |- keeps _ (cmd_rm _ _ _) => by apply rm_confined
  | |- keeps _ (cmd_restore _ _ _) => by apply restore_confined
  | |- keeps _ (cmd_edit _ _ _) => by apply edit_confined
  | |- keeps _ (cmd_log _ _ _) => apply log_confined
  | _ => reading
  end.
Qed.

(** Front matter that is one [key: value] per line. *)
#[local] Instance flat_yaml : Yaml := {
  yaml_parse s := Some (YMap (omap (fun l => kv ← split_once ":" l; Some (YStr (fst kv), YStr (str_trim (snd kv)))) (lines s)))
}.

Definition demo_okf_env : env := fun v => if decide (v = "NSMT_OKF_ROOT") then Some "/o" else None.
Definition demo_lib : files := {[ (true, ["o"]) := Dir; (true, ["o"; "lib"]) := Dir; (true, ["o"; "lib"; "a.md"]) := File (as_bytes "x");
  (true, ["f"]) := File (as_bytes "y") ]}.
Definition demo_args (sub : string) (more : list string) : list string := ["yggd"; "srv:1"; "okf"; "lib"; sub] ++ more.

Lemma other_commands_read_witness : snd (run demo_okf_env 0 "" (demo_args "list" []) demo_lib) = demo_lib.
Proof. apply other_commands_read. unfold writing. simpl. rewrite !elem_of_cons, elem_of_nil. naive_solver. Defined.

Lemma commands_confined_witness :
  confined (true, ["o"; "lib"]) demo_lib (snd (run demo_okf_env 0 "" (demo_args "rm" ["a.md"]) demo_lib)).
Proof.
  apply (commands_confined demo_okf_env 0 "" (demo_args "rm" ["a.md"]) demo_lib "lib"); try done.
  - intros rel [= <-]. done.
Defined.

(** [add] writes its document and the log; whatever else was on the disk, inside the
    library or not, keeps its content, for every path argument and every outcome. *)
Theorem add_overwrites_nothing `{Yaml} e now args fs l b :
  l <> below (resolve (lib_of e args)) ["log.md"] ->
  fs !! l = Some (File b) -> snd (cmd_add e now args fs) !! l = Some (File b).
Proof. intros Hne Hl. assert (files_stay (below (resolve (lib_of e args)) ["log.md"]) fs fs) as Hr by (by intros ? ?). by apply (add_stays e now args fs fs Hr). Qed.

Lemma add_overwrites_nothing_witness :
  snd (cmd_add demo_okf_env 0 (demo_args "add" ["a.md"; "--type"; "T"]) demo_lib) !! (true, ["o"; "lib"; "a.md"]) = Some (File (as_bytes "x")).
Proof. apply add_overwrites_nothing; done. Defined.

(** [libs rm --force] removes the directory its argument names, which is not
    checked to be a library name: [..] is the directory above all libraries. *)
Theorem lib_rm_exact e args name fs :
  parse_args args !! "path" = Some name -> name <> "" -> "--force" ∈ args ->
  fs !! resolve (path_join (libs_root e) name) = Some Dir ->
  let fs' := snd (cmd_lib_rm e args fs) in
  (forall l, fs' !! l = if inside (resolve (path_join (libs_root e) name)) l then None else fs !! l) /\
  (forall d r, name = ".." -> libs_root e = path_join d r -> plain_name r = true ->
     forall rel, fs' !! below (resolve d) rel = None).
Proof.
  intros Hp Hn Hf Hd. cbv zeta.
  assert (snd (cmd_lib_rm e args fs) = filter (fun kv => inside (resolve (path_join (libs_root e) name)) (fst kv) = false) fs) as ->.
  { unfold cmd_lib_rm, need, kbind. rewrite Hp. unfold nonempty.
    destruct (Z.eqb_spec (str_len name) 0) as [E|_]; [by apply str_len_0 in E|]. cbn.
    rewrite (bool_decide_eq_true_2 ("--force" ∈ args)) by done. rewrite andb_false_r. cbn.
    unfold lib_dir, fs_is_dir, is_dir_at. rewrite Hd, orb_true_r. cbn. unfold io, fs_remove_dir_all. rewrite Hd. done. }
  assert (forall l, filter (fun kv => inside (resolve (path_join (libs_root e) name)) (fst kv) = false) fs !! l
    = if inside (resolve (path_join (libs_root e) name)) l then None else fs !! l) as Hl.
  { intros l. destruct (inside _ l) eqn:Ei.
    - apply map_lookup_filter_None. right. intros x _ Hx. cbn in Hx. congruence.
    - destruct (fs !! l) as [nd|] eqn:El.
      + by apply map_lookup_filter_Some.
      + apply map_lookup_filter_None. by left. }
  split; [exact Hl|]. intros d r -> Hr Hpl rel. rewrite Hl. rewrite Hr, (resolve_dotdot d r) by done.
  by rewrite inside_below.
Qed.

Lemma lib_rm_exact_witness :
  snd (cmd_lib_rm (fun v => if decide (v = "NSMT_SHARE_DIR") then Some "/s" else None)
    ["yggd"; "srv:1"; "okf"; "libs"; "rm"; ".."; "--force"]
    {[ (true, ["s"]) := Dir; (true, ["s"; "a.md"]) := File (as_bytes "x"); (true, ["s"; "okf"]) := Dir ]})
  !! (true, ["s"; "a.md"]) = None.
Proof.
  refine (proj2 (lib_rm_exact (fun v => if decide (v = "NSMT_SHARE_DIR") then Some "/s" else None)
    ["yggd"; "srv:1"; "okf"; "libs"; "rm"; ".."; "--force"] ".."
    {[ (true, ["s"]) := Dir; (true, ["s"; "a.md"]) := File (as_bytes "x"); (true, ["s"; "okf"]) := Dir ]} eq_refl _ _ eq_refl)
    "/s" "okf" eq_refl eq_refl eq_refl ["a.md"]); [done|set_solver].
Defined.

(** ** Which files are concepts *)

(** A [.md] file reached without passing a [.trash], not named like an index or a log. *)
Definition concept_below (fs : files) (root : loc) (rel s : list string) : Prop :=
  (exists b, reached fs root rel s b) /\ Forall (fun n => n <> ".trash") (removelast s) /\
  exists n, last s = Some n /\ is_md n = true /\ reserved n = false.

Lemma concept_one fs root rel n :
  concept_below fs root rel [n] <-> (exists b, fs !! below root (rel ++ [n]) = Some (File b)) /\ is_md n = true /\ reserved n = false.
Proof.
  unfold concept_below. setoid_rewrite reached_file. cbn [removelast last]. split.
  - intros (Hb & _ & m & [= <-] & ?). done.
  - intros (Hb & ?). split_and!; [done|constructor|by exists n].
Qed.

Lemma concept_cons fs root rel n m s :
  concept_below fs root rel (n :: m :: s) <->
  n <> ".trash" /\ fs !! below root (rel ++ [n]) = Some Dir /\ concept_below fs root (rel ++ [n]) (m :: s).
Proof.
  unfold concept_below. setoid_rewrite reached_cons.
  change (removelast (n :: m :: s)) with (n :: removelast (m :: s)). rewrite Forall_cons.
  change (last (n :: m :: s)) with (last (m :: s)). naive_solver.
Qed.

Lemma md_walk_spec fuel fs root rel segs :
  (0 < fuel)%nat -> (depth fs < fuel + length (snd (below root rel)))%nat -> is_dir_at fs (below root rel) = true ->
  segs ∈ md_walk fuel fs root rel <-> exists s, segs = rel ++ s /\ concept_below fs root rel s.
Proof.
  revert rel segs. induction fuel as [|fuel IH]; intros rel segs Hp Hf Hd; [lia|]. cbn [md_walk].
  destruct (read_dir fs (below root rel)) as [l|] eqn:El; [|by unfold read_dir in El; rewrite Hd in El].
  assert (forall n nd, (n, nd) ∈ l <-> fs !! below root (rel ++ [n]) = Some nd) as Hdir
    by (intros n nd; rewrite (read_dir_spec _ _ _ n nd El); by rewrite below_app).
  assert (forall n, fs !! below root (rel ++ [n]) = Some Dir -> forall segs,
    segs ∈ md_walk fuel fs root (rel ++ [n]) <-> exists s, segs = (rel ++ [n]) ++ s /\ concept_below fs root (rel ++ [n]) s) as Hsub.
  { intros n Hn sg. pose proof (depth_bound _ _ _ Hn) as Hb. unfold below in Hb, Hf. cbn [snd] in Hb, Hf.
    rewrite !length_app in Hb. rewrite length_app in Hf. cbn [length] in Hb. apply IH.
    - lia.
    - unfold below. cbn [snd]. rewrite !length_app. cbn [length]. lia.
    - unfold is_dir_at. rewrite Hn. by rewrite orb_true_r. }
  rewrite list_elem_of_In, in_concat. split.
  - intros (part & Hin & Hs). apply in_map_iff in Hin as ([n nd] & <- & Hn). cbn [fst snd] in Hs.
    apply list_elem_of_In, Hdir in Hn. apply list_elem_of_In in Hs. destruct nd as [b|].
    + destruct (is_md n && negb (reserved n)) eqn:E; [|set_solver]. apply andb_true_iff in E as [E1 E2%negb_true_iff].
      apply list_elem_of_singleton in Hs as ->. exists [n]. rewrite concept_one. naive_solver.
    + case_decide as Ht; [set_solver|]. apply (Hsub n Hn) in Hs as (s & -> & Hr).
      destruct s as [|m s]; [by destruct Hr as [(b & ? & _) _]|].
      exists (n :: m :: s). rewrite concept_cons. by rewrite <- app_assoc.
  - intros (s & -> & Hr). destruct s as [|n [|m s]]; [by destruct Hr as [(b & ? & _) _]| |].
    + apply concept_one in Hr as ([b Hb] & E1 & E2). exists [rel ++ [n]]. split; [|by left].
      apply in_map_iff. exists (n, File b). cbn [fst snd]. rewrite E1, E2. split; [done|]. by apply list_elem_of_In, Hdir.
    + apply concept_cons in Hr as (Ht & Hn & Hr). exists (md_walk fuel fs root (rel ++ [n])). split.
      * apply in_map_iff. exists (n, Dir). cbn [fst snd]. rewrite decide_False by done. split; [done|]. by apply list_elem_of_In, Hdir.
      * apply list_elem_of_In, (Hsub n Hn). exists (m :: s). by rewrite <- app_assoc.
Qed.

#[local] Instance segs_le_total : Total segs_le.
Proof.
  intros x. unfold segs_le. induction x as [|a x IH]; intros [|b y]; [by left..|by right|]. cbn [segs_leb].
  destruct (decide (a = b)) as [->|Hne].
  - rewrite decide_True by done. apply IH.
  - rewrite decide_False by congruence. rewrite !bool_decide_eq_true. apply (total String.le).
Qed.

(** The walk of a library finds its concepts and nothing else, in the order of
    their paths (its fuel is enough for any disk). *)
Theorem collect_md_exact fs root :
  (forall rel, rel ∈ collect_md_files fs root <->
     fs_is_dir fs root = true /\ concept_below fs (resolve root) [] rel) /\
  Sorted segs_le (collect_md_files fs root).
Proof.
  unfold collect_md_files. destruct (fs_is_dir fs root) eqn:Hd.
  - split; [|apply (Sorted_merge_sort segs_le)]. intros rel. rewrite merge_sort_Permutation.
    rewrite (md_walk_spec _ fs (resolve root) [] rel); [|lia|lia|].
    + split; [intros (s & -> & Hs); done|intros [_ Hs]; by exists rel].
    + by rewrite below_nil.
  - split; [|constructor]. intros rel. split; [set_solver|naive_solver].
Qed.

(** ** Checking a library *)

(** What [validate_bundle] prints for a concept that is not well-formed. *)
Definition complaint `{Yaml} (fs : files) (root : string) (rel : list string) : option string :=
  match load_concept fs (at_rel root rel) with
  | None => Some (no_fm_line rel)
  | Some (fm, _) => if has_type fm then None else Some (no_type_line rel)
  end.

Lemma check_concept_eq `{Yaml} fs0 root rel fs :
  check_concept fs0 root rel fs =
    match complaint fs0 root rel with Some l => (Ok (1, 0), [l], fs) | None => (Ok (0, 0), [], fs) end.
Proof. unfold check_concept, complaint. destruct (load_concept _ _) as [[fm body]|]; [by destruct (has_type fm)|done]. Qed.

Lemma validate_tally `{Yaml} fs0 root rels fs :
  tally (check_concept fs0 root) rels fs = (Ok (len (omap (complaint fs0 root) rels), 0), omap (complaint fs0 root) rels, fs).
Proof.
  induction rels as [|rel rels IH]; [done|]. cbn [tally omap list_omap]. unfold kbind. rewrite check_concept_eq.
  destruct (complaint fs0 root rel) as [l|]; rewrite IH; cbn [fst snd kret]; rewrite app_nil_r; [|done].
  unfold len. cbn [length app]. do 4 f_equal. lia.
Qed.

(** The check of a library prints one line for each concept without a front matter
    or without a type, in the order of their paths, then the two counts; it ends
    with exit code 1 exactly when there was such a concept, and writes nothing. *)
Theorem lib_validate_exact `{Yaml} e args name fs :
  parse_args args !! "path" = Some name -> name <> "" -> "--lint" ∉ args ->
  let dir := lib_dir (libs_root e) name in
  let rels := collect_md_files fs dir in
  let bad := omap (complaint fs dir) rels in
  let summary := "okf: validated library `" +:+ name +:+ "` — " +:+ dec (len rels) +:+ " document(s), " +:+ dec (len bad) +:+ " error(s)" in
  cmd_lib_validate e args fs =
    if fs_is_dir fs dir then
      (match bad with [] => Ok tt | _ => Err (ExitWith 1) end, bad ++ [summary], fs)
    else (Err (Bail ("bundle root not found: " +:+ dir)), [], fs).
Proof.
  intros Hp Hn Hl. cbv zeta. unfold cmd_lib_validate, need, kbind. rewrite Hp. unfold nonempty.
  destruct (Z.eqb_spec (str_len name) 0) as [E|_]; [by apply str_len_0 in E|]. cbn.
  rewrite bool_decide_eq_false_2 by done. unfold validate_bundle, bundle_dir, kbind. cbn.
  destruct (fs_is_dir fs (lib_dir (libs_root e) name)); [|done]. cbn. rewrite validate_tally. cbn. rewrite app_nil_r.
  destruct (omap _ _) as [|l bad] eqn:E; [done|].
  assert ((len (l :: bad) >? 0) = true) as -> by (unfold len; cbn [length]; lia). cbn. done.
Qed.

Lemma lib_validate_exact_witness :
  snd (fst (cmd_lib_validate demo_okf_env ["yggd"; "srv:1"; "okf"; "libs"; "validate"; "lib"] demo_lib)) =
    ["  ✗ a.md — missing/unparseable frontmatter"; "okf: validated library `lib` — 1 document(s), 1 error(s)"].
Proof.
  rewrite (lib_validate_exact demo_okf_env ["yggd"; "srv:1"; "okf"; "libs"; "validate"; "lib"] "lib" demo_lib eq_refl);
    [by vm_compute|done|]. rewrite !elem_of_cons, elem_of_nil. naive_solver.
Defined.

(** ** The log on the disk *)

(** The library's directory and those above it are there. *)
Definition lib_present (fs : files) (root : string) : Prop :=
  forall k, is_dir_at fs (fst (resolve root), take k (snd (resolve root))) = true.

(** The text [append_log] starts from. *)
Definition log_content (fs : files) (root : string) : option string :=
  match fs !! below (resolve root) ["log.md"] with
  | None => Some LOG_HEAD
  | Some (File b) => if utf8_valid b then Some (of_bytes b) else None
  | Some Dir => None
  end.

Lemma lib_dir_there fs root : lib_present fs root -> is_dir_at fs (resolve root) = true.
Proof.
  intros Hl. specialize (Hl (length (snd (resolve root)))). rewrite take_ge in Hl by lia. by destruct (resolve root).
Qed.

Lemma log_not_dots root : forallb (fun c => bool_decide (c = "..")) (snd (below (resolve root) ["log.md"])) = false.
Proof. rewrite <- log_loc. by apply plain_not_dots. Qed.

Lemma append_log_ok now root entry fs content :
  lib_present fs root -> log_content fs root = Some content ->
  append_log now root entry fs =
    (Ok tt, [], <[below (resolve root) ["log.md"] := File (as_bytes (log_insert (today now) entry content))]> fs).
Proof.
  intros Hl Hc. unfold append_log, kbind, io. cbv zeta.
  assert (create_dir_all root fs = Some fs) as ->.
  { unfold create_dir_all. apply mkdirs_idem. intros k. apply Hl. }
  cbn [disk_of]. unfold log_content in Hc.
  assert (is_dir_at fs (below (resolve root) ["log.md"]) = false) as Hnd.
  { unfold is_dir_at. rewrite log_not_dots. by destruct (fs !! _) as [[]|]. }
  assert ((if fs_exists fs (path_join root "log.md") then from_opt (Io "read_to_string") (read_to_string fs (path_join root "log.md"))
           else kret LOG_HEAD) fs = (Ok content, [], fs)) as ->.
  { unfold fs_exists, fs_is_file, fs_is_dir, read_to_string, fs_read. rewrite log_loc, Hnd.
    destruct (fs !! _) as [[b|]|]; cbn; [|done|by injection Hc as <-]. destruct (utf8_valid b); [|done]. by injection Hc as <-. }
  rewrite fs_write_plain; [rewrite log_loc; reflexivity|done|by apply lib_dir_there|].
  rewrite log_loc. intros E. by rewrite E in Hc.
Qed.

Definition iso_char (c : ascii) : bool := is_digit c || str_mem c "-T:Z".

Lemma pad_chars w n : str_all iso_char (pad_zero w n) = true.
Proof.
  unfold pad_zero. assert (forall k s, str_all iso_char s = true -> str_all iso_char (zeros k s) = true) as Hz;
    [|apply Hz; eapply str_all_impl; [|apply dec_all]; unfold iso_char; by intros c ->].
  induction k as [|k IH]; intros s Hs; [done|]. cbn [zeros]. apply IH. cbn [str_all]. by rewrite Hs.
Qed.

Lemma str_all_app p a b : str_all p (a +:+ b) = str_all p a && str_all p b.
Proof. rewrite !str_all_bytes, as_bytes_app. apply forallb_app. Qed.

Lemma today_chars now : str_all iso_char (today now) = true.
Proof.
  unfold today. assert (str_all iso_char (iso_now now) = true) as Hi.
  { unfold iso_now. destruct (civil_from_days _) as [[y mo] d]. rewrite !str_all_app, !pad_chars. done. }
  rewrite str_all_bytes in Hi |- *. rewrite as_of_bytes. rewrite <- (take_drop 10 (as_bytes (iso_now now))), forallb_app in Hi.
  by apply andb_true_iff in Hi as [-> _].
Qed.

(** The log as a list of days is what the file holds. *)
Definition log_on_disk (fs : files) (root : string) (l : log) : Prop :=
  match fs !! below (resolve root) ["log.md"] with
  | None => l = []
  | Some (File b) => b = as_bytes (log_text l) /\ utf8_valid b = true
  | Some Dir => False
  end.

Lemma log_on_disk_content fs root l : log_on_disk fs root l -> log_content fs root = Some (log_text l).
Proof.
  unfold log_on_disk, log_content. destruct (fs !! _) as [[b|]|]; [|done|by intros ->].
  intros [-> ->]. by rewrite of_as_bytes.
Qed.

Lemma resolve_lib_ok e args name fs :
  args !! 3%nat = Some name -> valid_lib_name name = true -> lib_present fs (lib_of e args) ->
  resolve_lib e args fs = (Ok (lib_of e args, parse_args args), [], fs).
Proof.
  intros Hn Hv Hl. unfold resolve_lib, kbind. unfold lib_of in *. rewrite Hn in *. cbn [default from_option id] in *.
  rewrite Hv. cbn. unfold fs_is_dir. by rewrite lib_dir_there.
Qed.

Lemma need_ok (o : opts) key u v fs : o !! key = Some v -> v <> "" -> need o key u fs = (Ok v, [], fs).
Proof.
  intros Ho Hv. unfold need, nonempty. rewrite Ho. destruct (Z.eqb_spec (str_len v) 0) as [E|_]; [by apply str_len_0 in E|]. done.
Qed.

(** C26: [okf log] appends its message to the day's group of the log the file holds: the
    file then holds the longer log, and nothing else on the disk changed. *)
Theorem log_command_refines e now args name msg l fs :
  args !! 3%nat = Some name -> valid_lib_name name = true -> lib_present fs (lib_of e args) ->
  parse_args args !! "path" = Some msg -> msg <> "" ->
  Forall group_ok l -> log_on_disk fs (lib_of e args) l ->
  cmd_log e now args fs =
    (Ok tt, ["okf: log entry appended"],
     <[below (resolve (lib_of e args)) ["log.md"] := File (as_bytes (log_text (log_append (today now) msg l)))]> fs).
Proof.
  intros Hn Hv Hl Hp Hm Hg Hlog. unfold cmd_log, kbind. rewrite (resolve_lib_ok e args name) by done.
  rewrite (need_ok _ _ _ msg) by done. rewrite (append_log_ok _ _ _ _ (log_text l)) by (done || by apply log_on_disk_content).
  rewrite log_refines; [done| |done]. eapply str_all_not_mem; [|apply today_chars]. done.
Qed.

Lemma log_command_refines_witness :
  snd (cmd_log demo_okf_env 1788156000 (demo_args "log" ["hello"]) demo_lib) !! (true, ["o"; "lib"; "log.md"]) =
    Some (File (as_bytes (log_text [("2026-08-31", ["hello"])]))).
Proof.
  rewrite (log_command_refines demo_okf_env 1788156000 (demo_args "log" ["hello"]) "lib" "hello" [] demo_lib); try done.
  intros [|[|[|k]]]; done.
Defined.

(** ** The trash *)

Lemma cut_inv p s a b : str_cut p s = Some (a, b) -> s = a +:+ p +:+ b.
Proof.
  unfold str_cut. revert a b. induction s as [|c s IH]; intros a b; cbn [str_find].
  - unfold starts_with. destruct (strip_prefix p EmptyString) as [t|] eqn:Hs; [|done]. cbn. rewrite Hs.
    cbn. intros [= <- <-]. by apply strip_prefix_inv in Hs.
  - unfold starts_with. destruct (strip_prefix p (String c s)) as [t|] eqn:Hs.
    + cbn [mbind option_bind fst snd]. rewrite Hs. cbn. intros [= <- <-]. by apply strip_prefix_inv in Hs.
    + destruct (str_find p s) as [[x y]|]; [|done]. cbn [mbind option_bind fst snd] in IH |- *.
      destruct (strip_prefix p y) as [t|]; [|done]. cbn in IH |- *. intros [= <- <-]. by rewrite (IH x t eq_refl).
Qed.

(** The new entry is put in one place: at the end or before a line feed. *)
Lemma log_insert_place day entry content : exists x z y,
  content = x +:+ y /\ log_insert day entry content = x +:+ z +:+ y /\
  (y = EmptyString \/ exists t, y = String LF t) /\
  (z = "* " +:+ entry +:+ String LF EmptyString \/ z = String LF (marker day +:+ "* " +:+ entry +:+ String LF EmptyString)).
Proof.
  unfold log_insert. fold (marker day). destruct (str_cut (marker day) content) as [[before seg]|] eqn:E1.
  - apply cut_inv in E1 as ->. destruct (str_cut LF_GROUP seg) as [[group rest]|] eqn:E2.
    + apply cut_inv in E2 as ->. exists (before +:+ marker day +:+ group), ("* " +:+ entry +:+ String LF EmptyString), (LF_GROUP +:+ rest).
      split_and!; [by rewrite !str_app_assoc|by rewrite !str_app_assoc|right; by eexists|by left].
    + exists (before +:+ marker day +:+ seg), ("* " +:+ entry +:+ String LF EmptyString), EmptyString.
      rewrite !str_app_nil. split_and!; [done|done|by left|by left].
  - exists content, (String LF (marker day +:+ "* " +:+ entry +:+ String LF EmptyString)), EmptyString.
    rewrite !str_app_nil. split_and!; [done|done|by left|by right].
Qed.

Lemma ascii_valid s : str_all (fun c => u8_val c <? 128) s = true -> utf8_valid (as_bytes s) = true.
Proof. rewrite str_all_bytes. apply utf8_ascii. Qed.

Lemma log_insert_valid now entry content :
  utf8_valid (as_bytes entry) = true -> utf8_valid (as_bytes content) = true ->
  utf8_valid (as_bytes (log_insert (today now) entry content)) = true.
Proof.
  intros He Hc. destruct (log_insert_place (today now) entry content) as (x & z & y & -> & -> & Hy & Hz).
  assert (utf8_valid (as_bytes z) = true) as Hzv.
  { assert (utf8_valid (as_bytes ("* " +:+ entry +:+ String LF EmptyString)) = true) as Hl.
    { rewrite !as_bytes_app. repeat apply utf8_app; done. }
    destruct Hz as [->| ->]; [done|]. rewrite as_bytes_cons. apply (utf8_app [LF]); [done|]. rewrite as_bytes_app.
    apply utf8_app; [|done]. unfold marker. rewrite !as_bytes_app. apply utf8_app; [done|]. apply utf8_app; [|done].
    apply ascii_valid. eapply str_all_impl; [|apply today_chars]. intros c Hi.
    pose proof (byte_cases (fun c => implb (iso_char c) (u8_val c <? 128)) eq_refl c) as Hb. cbn beta in Hb. by rewrite Hi in Hb. }
  rewrite as_bytes_app in Hc. rewrite !as_bytes_app. destruct Hy as [->|[t ->]].
  - cbn in Hc |- *. rewrite app_nil_r in Hc |- *. by apply utf8_app.
  - rewrite as_bytes_cons in Hc |- *. apply utf8_cut in Hc as [Hx Hy]; [|by vm_compute]. by repeat apply utf8_app.
Qed.

Lemma is_dir_delete fs l l' : is_dir_at fs l = false -> is_dir_at fs l' = true -> is_dir_at (delete l fs) l' = true.
Proof.
  intros Hl Hl'. destruct (decide (l' = l)) as [->|Hne]; [congruence|]. revert Hl'. unfold is_dir_at. by rewrite lookup_delete_ne.
Qed.

Lemma is_dir_false fs l nd : forallb (fun c => bool_decide (c = "..")) (snd l) = false ->
  fs !! l = nd -> nd <> Some Dir -> is_dir_at fs l = false.
Proof. unfold is_dir_at. intros -> ->. by destruct nd as [[]|]. Qed.

Lemma file_moves p q fs b :
  fs !! resolve p = Some (File b) -> is_dir_at fs (resolve q) = false -> is_dir_at fs (parent_loc (resolve q)) = true ->
  fs_rename p q fs = Some (<[resolve q := File b]> (delete (resolve p) fs)).
Proof. intros Hp Hq Hd. unfold fs_rename. by rewrite Hp, Hq, Hd. Qed.

Lemma join_nonempty segs : segs <> [] -> Forall (fun n => plain_name n = true) segs -> str_join "/" segs <> "".
Proof.
  destruct segs as [|x [|y l]]; [done| |]; intros _ Hp; apply Forall_cons in Hp as [Hx _]; destruct x; done.
Qed.

Lemma removelast_cons {A : Type} (x : A) l : l <> [] -> removelast (x :: l) = x :: removelast l.
Proof. by destruct l. Qed.

Lemma length_removelast {A : Type} (l : list A) : length (removelast l) = (length l - 1)%nat.
Proof. rewrite removelast_firstn_len, length_take. lia. Qed.

Lemma slashes_valid s : utf8_valid (as_bytes s) = true -> utf8_valid (as_bytes (slashes s)) = true.
Proof.
  unfold slashes, str_replace. rewrite as_bytes_map. apply utf8_map; intros c Hc; destruct (Ascii.eqb_spec c "\") as [->|]; try done.
Qed.

Section Moves.
Context (root : string).
Let D : loc := resolve root.
Let log_at : loc := below D ["log.md"].

(** A file of the library is moved within it and the log says so. *)
Lemma move_logged now p q s s' entry m fs fs1 content b :
  resolve p = below D s -> resolve q = below D s' -> s <> ["log.md"] -> s' <> ["log.md"] ->
  create_parent q fs = Some fs1 -> fs1 !! resolve p = Some (File b) ->
  is_dir_at fs1 (resolve p) = false -> is_dir_at fs1 (resolve q) = false ->
  lib_present fs1 root -> log_content fs1 root = Some content ->
  (io "create_dir_all" (create_parent q);; io "rename" (fs_rename p q);; append_log now root entry;; println m) fs =
    (Ok tt, [m], <[log_at := File (as_bytes (log_insert (today now) entry content))]> (<[resolve q := File b]> (delete (resolve p) fs1))).
Proof.
  intros Hp Hq Hs Hs' Hc Hf Hpd Hqd Hl Hlog. unfold kbind, io. rewrite Hc.
  rewrite (file_moves p q fs1 b) by (done || by apply (create_parent_dir q fs)).
  assert (log_at <> resolve p /\ log_at <> resolve q) as [Hlp Hlq].
  { rewrite Hp, Hq. split; intros E%below_inj; done. }
  rewrite (append_log_ok now root entry _ content); [done| |].
  - intros k. apply is_dir_insert; [left|apply is_dir_delete; [done|apply Hl]]. unfold is_dir_at in Hqd |- *.
    apply orb_false_iff in Hqd as [-> Hqd]. cbn. destruct (decide (resolve q = resolve p)) as [->|Hne];
      [by rewrite lookup_delete_eq|by rewrite lookup_delete_ne].
  - unfold log_content. fold D. fold log_at. by rewrite lookup_insert_ne, lookup_delete_ne by done.
Qed.
End Moves.

Section Trash.
Context (e : env) (args : list string) (name : string) (segs : list string) (b : bytes) (fs : files).
Let root : string := lib_of e args.
Let D : loc := resolve root.
Let rel : string := str_join "/" segs.
Let log_at : loc := below D ["log.md"].
Let bin : loc := below D (".trash" :: segs).

(** The command line names a concept of a library that is there. *)
Record names_concept : Prop := {
  nc_name : args !! 3%nat = Some name;
  nc_valid : valid_lib_name name = true;
  nc_lib : lib_present fs root;
  nc_path : parse_args args !! "path" = Some rel;
  nc_plain : Forall (fun n => plain_name n = true) segs;
  nc_utf8 : utf8_valid (as_bytes rel) = true;
  nc_reserved : reserved rel = false;
  nc_file : reached fs D [] segs b;
}.

(** No directory is where the file will go, and no file is where a directory is needed. *)
Record trash_free : Prop := {
  tf_bin : fs !! bin <> Some Dir;
  tf_parents : forall k c, (k < length segs)%nat -> fs !! below D (".trash" :: take k segs) <> Some (File c);
}.

Context (Hn : names_concept) (Ht : trash_free).

Lemma segs_nonempty : segs <> [].
Proof. by destruct (nc_file Hn). Qed.

Lemma segs_not_log : segs <> ["log.md"].
Proof. intros E. pose proof (nc_reserved Hn) as Hr. unfold rel in Hr. by rewrite E in Hr. Qed.

Lemma target_at : resolve (path_join root rel) = below D segs.
Proof. apply resolve_join_segs; [apply segs_nonempty|apply Hn]. Qed.

Lemma bin_at : resolve (trash_path root rel) = bin.
Proof.
  unfold trash_path. unfold rel. rewrite resolve_join_segs by (apply segs_nonempty || apply Hn).
  rewrite resolve_join_plain by done. exact (below_app D [".trash"] segs).
Qed.

Lemma rel_nonempty : rel <> "".
Proof. apply join_nonempty; [apply segs_nonempty|apply Hn]. Qed.

Lemma below_not_dots s : (s = segs \/ s = ".trash" :: segs) -> forallb (fun c => bool_decide (c = "..")) (snd (below D s)) = false.
Proof.
  intros [->| ->]; apply plain_not_dotdot; [apply segs_nonempty|apply Hn|done|]. constructor; [done|apply Hn].
Qed.

Lemma target_file : fs !! below D segs = Some (File b).
Proof. by destruct (nc_file Hn) as (_ & Hf & _). Qed.

(** The directories of the trash are made. *)
Lemma bin_parent : exists fs1, create_parent (trash_path root rel) fs = Some fs1 /\
  (forall l nd, fs !! l = Some nd -> fs1 !! l = Some nd) /\
  (forall l, is_dir_at fs l = true -> is_dir_at fs1 l = true) /\
  (forall s, s = ["log.md"] \/ s = ".trash" :: segs -> fs1 !! below D s = fs !! below D s).
Proof.
  assert (exists fs1, create_parent (trash_path root rel) fs = Some fs1) as [fs1 Hc].
  { unfold create_parent. rewrite bin_at. unfold bin, below. cbn [fst snd].
    rewrite removelast_app by done. apply mkdirs_total. intros k Hk. cbn [app].
    rewrite (removelast_cons ".trash" segs segs_nonempty) in Hk |- *.
    rewrite length_app in Hk. cbn [length] in Hk. rewrite length_removelast in Hk.
    rewrite take_app. destruct (decide (k <= length (snd D))%nat) as [Hle|Hgt].
    - left. replace (k - length (snd D))%nat with 0%nat by lia. cbn [take]. rewrite app_nil_r. apply (nc_lib Hn).
    - rewrite take_ge by lia. destruct (k - length (snd D))%nat as [|j] eqn:Ej; [lia|]. cbn [take].
      assert (length segs <> 0)%nat as H0 by (intros E0%nil_length_inv; by apply segs_nonempty).
      assert (j < length segs)%nat as Hj by lia. assert (j <= length segs)%nat by lia. rewrite take_removelast by done.
      pose proof (tf_parents Ht j) as Hf. unfold below in Hf. unfold is_dir_at.
      destruct (fs !! (fst D, snd D ++ ".trash" :: take j segs)) as [[c|]|] eqn:El; [by destruct (Hf c Hj)|left; by rewrite orb_true_r|by right]. }
  exists fs1. split; [done|]. destruct (mkdirs_spec _ _ _ _ _ Hc) as (H1 & H2 & _). split_and!; [|done|].
  - intros l nd Hl. destruct (H1 l) as [->|[Hx _]]; [done|congruence].
  - intros s Hs. destruct (H1 (below D s)) as [|[Hx Hy]]; [done|]. exfalso.
    apply (mkdirs_new _ _ _ _ _ Hc Hx) in Hy as [_ Hy]. rewrite bin_at in Hy. unfold bin, below in Hy. cbn [fst snd] in Hy.
    rewrite removelast_app in Hy by done. rewrite take_app in Hy. rewrite length_app in Hy.
    rewrite take_ge in Hy by lia. apply app_inv_head in Hy.
    replace (length (snd D) + length s - length (snd D))%nat with (length s) in Hy by lia.
    apply (f_equal length) in Hy as Hlen. rewrite length_take, length_removelast in Hlen. cbn [length] in Hlen.
    destruct Hs as [->| ->]; cbn [length] in Hlen, Hy; [|lia]. by rewrite (removelast_cons ".trash" segs segs_nonempty) in Hy.
Qed.

(** After [rm]. *)
Definition removed (fs1 : files) (text : string) : files :=
  <[log_at := File (as_bytes text)]> (<[bin := File b]> (delete (below D segs) fs1)).

Lemma apart : below D segs <> bin /\ below D segs <> log_at /\ bin <> log_at.
Proof.
  split_and!; intros E%below_inj.
  - apply (f_equal length) in E. cbn in E. lia.
  - by apply segs_not_log.
  - done.
Qed.

Lemma target_exists (fs1 : files) : (forall l nd, fs !! l = Some nd -> fs1 !! l = Some nd) -> fs1 !! below D segs = Some (File b).
Proof. intros Hk. apply Hk, target_file. Qed.

Lemma rm_done now content :
  log_content fs root = Some content ->
  exists fs1 entry m, utf8_valid (as_bytes entry) = true /\
    (forall l nd, fs !! l = Some nd -> fs1 !! l = Some nd) /\ (forall l, is_dir_at fs l = true -> is_dir_at fs1 l = true) /\
    is_dir_at fs1 bin = false /\
    cmd_rm e now args fs = (Ok tt, [m], removed fs1 (log_insert (today now) entry content)).
Proof.
  intros Hlog. destruct bin_parent as (fs1 & Hc & Hkeep & Hdirs & Hsame).
  set (entry := "**Deprecation**: Removed [" +:+ rel +:+ "](/" +:+ slashes rel +:+ ")").
  exists fs1, entry. eexists. split_and!; [|done|done| |].
  - unfold entry. rewrite !as_bytes_app. pose proof (nc_utf8 Hn) as Hu. repeat apply utf8_app; try done. by apply slashes_valid.
  - apply (is_dir_false _ _ (fs !! bin)); [apply below_not_dots; by right| |apply (tf_bin Ht)]. apply Hsame. by right.
  - unfold cmd_rm. unfold kbind at 1. rewrite (resolve_lib_ok e args name) by apply Hn. fold root.
    unfold kbind at 1. rewrite (need_ok _ _ _ rel) by (apply Hn || apply rel_nonempty). rewrite (nc_reserved Hn).
    unfold kbind at 1. cbn [disk_of].
    rewrite (fs_exists_file fs _ b) by (rewrite target_at; apply target_file). cbn [negb].
    rewrite (move_logged root now _ _ segs (".trash" :: segs) entry _ fs fs1 content b); [by rewrite target_at, bin_at| .. ].
    + apply target_at.
    + apply bin_at.
    + apply segs_not_log.
    + done.
    + exact Hc.
    + rewrite target_at. apply target_exists, Hkeep.
    + rewrite target_at. apply (is_dir_false _ _ (Some (File b))); [apply below_not_dots; by left|by apply target_exists|done].
    + rewrite bin_at. apply (is_dir_false _ _ (fs !! bin)); [apply below_not_dots; by right| |apply (tf_bin Ht)]. apply Hsame. by right.
    + intros k. apply Hdirs, (nc_lib Hn).
    + unfold log_content in *. fold D in Hlog |- *. rewrite (Hsame ["log.md"]) by (by left). exact Hlog.
Qed.

(** What the removal leaves. *)
Lemma removed_lookup fs1 text l :
  removed fs1 text !! l =
    if decide (l = log_at) then Some (File (as_bytes text)) else if decide (l = bin) then Some (File b)
    else if decide (l = below D segs) then None else fs1 !! l.
Proof.
  unfold removed. destruct (decide (l = log_at)) as [->|]; [by rewrite lookup_insert_eq|]. rewrite lookup_insert_ne by done.
  destruct (decide (l = bin)) as [->|]; [by rewrite lookup_insert_eq|]. rewrite lookup_insert_ne by done.
  destruct (decide (l = below D segs)) as [->|]; [by rewrite lookup_delete_eq|by rewrite lookup_delete_ne].
Qed.

Lemma removed_dirs fs1 text content l :
  (forall l nd, fs !! l = Some nd -> fs1 !! l = Some nd) -> (forall l, is_dir_at fs l = true -> is_dir_at fs1 l = true) ->
  is_dir_at fs1 bin = false -> log_content fs root = Some content ->
  is_dir_at fs l = true -> is_dir_at (removed fs1 text) l = true.
Proof.
  intros Hkeep Hdirs Hbin Hlog Hl. destruct apart as (H1 & H2 & H3).
  assert (is_dir_at fs (below D segs) = false) as Ht1
    by (apply (is_dir_false _ _ (Some (File b))); [apply below_not_dots; by left|apply target_file|done]).
  assert (is_dir_at fs log_at = false) as Ht2.
  { apply (is_dir_false _ _ (fs !! log_at)); [apply log_not_dots|done|]. intros E. unfold log_content in Hlog. fold D log_at in Hlog.
    by rewrite E in Hlog. }
  assert (l <> below D segs) as Hn1 by congruence. assert (l <> log_at) as Hn2 by congruence.
  assert (l <> bin) as Hn3 by (intros ->; apply Hdirs in Hl; congruence). apply Hdirs in Hl. revert Hl. unfold is_dir_at.
  rewrite removed_lookup. by rewrite !decide_False by done.
Qed.

Lemma prefix_dir k : (k < length segs)%nat -> is_dir_at fs (below D (take k segs)) = true.
Proof.
  intros Hk. destruct k as [|k].
  - cbn [take]. rewrite below_nil. exact (lib_dir_there fs root (nc_lib Hn)).
  - unfold is_dir_at. destruct (nc_file Hn) as (_ & _ & Hd). specialize (Hd (S k) ltac:(lia)). cbn [app] in Hd. fold D in Hd.
    by rewrite Hd, orb_true_r.
Qed.

Lemma target_parent_again fs2 :
  (forall l, is_dir_at fs l = true -> is_dir_at fs2 l = true) -> create_parent (path_join root rel) fs2 = Some fs2.
Proof.
  intros Hd. unfold create_parent. rewrite target_at. unfold below. cbn [fst snd].
  rewrite removelast_app by apply segs_nonempty. apply mkdirs_idem. intros k. cbn [app]. rewrite take_app. apply Hd.
  destruct (decide (k <= length (snd D))%nat) as [Hle|Hgt].
  - replace (k - length (snd D))%nat with 0%nat by lia. cbn [take]. rewrite app_nil_r. apply (nc_lib Hn).
  - rewrite take_ge by lia. set (j := (k - length (snd D))%nat).
    destruct (decide (j < length segs)%nat) as [Hj|Hj].
    + rewrite take_removelast by done. by apply prefix_dir.
    + assert (length segs <> 0)%nat as H0 by (intros E0%nil_length_inv; by apply segs_nonempty).
      rewrite take_ge by (rewrite length_removelast; lia).
      rewrite removelast_firstn_len. apply (prefix_dir (Nat.pred (length segs))). lia.
Qed.

Lemma restore_done now now2 content :
  log_content fs root = Some content -> utf8_valid (as_bytes content) = true ->
  let fs2 := snd (cmd_rm e now args fs) in
  let r := cmd_restore e now2 args fs2 in
  fst (fst r) = Ok tt /\ snd r !! below D segs = Some (File b) /\ snd r !! bin = None /\
  forall l, l <> below D segs -> l <> bin -> l <> log_at -> snd r !! l = fs2 !! l.
Proof.
  intros Hlog Hv. cbv zeta. destruct (rm_done now content Hlog) as (fs1 & entry & m & He & Hkeep & Hdirs & Hbin & ->). cbn [snd].
  set (text := log_insert (today now) entry content). destruct apart as (H1 & H2 & H3).
  assert (utf8_valid (as_bytes text) = true) as Htext by (by apply log_insert_valid).
  assert (forall l, is_dir_at fs l = true -> is_dir_at (removed fs1 text) l = true) as Hd2 by (intros l; by apply (removed_dirs fs1 text content)).
  assert (is_dir_at (removed fs1 text) (below D segs) = false) as Hnt.
  { apply (is_dir_false _ _ None); [apply below_not_dots; by left| |done]. rewrite removed_lookup. rewrite !decide_False by done. by rewrite decide_True. }
  assert (removed fs1 text !! bin = Some (File b)) as Hb2 by (rewrite removed_lookup, decide_False by done; by rewrite decide_True).
  assert (exists m2 t2, cmd_restore e now2 args (removed fs1 text) =
    (Ok tt, [m2], <[log_at := File t2]> (<[below D segs := File b]> (delete bin (removed fs1 text))))) as (m2 & t2 & ->).
  2:{ cbn [fst snd]. split_and!; [done| | |].
    - rewrite lookup_insert_ne by done. by rewrite lookup_insert_eq.
    - rewrite lookup_insert_ne by done. rewrite lookup_insert_ne by done. by rewrite lookup_delete_eq.
    - intros l Ha Hb Hc. rewrite !lookup_insert_ne by done. by rewrite lookup_delete_ne by done. }
  do 2 eexists.
  unfold cmd_restore. unfold kbind at 1. rewrite (resolve_lib_ok e args name); [|apply Hn..|intros k; apply Hd2, (nc_lib Hn)]. fold root.
  unfold kbind at 1. rewrite (need_ok _ _ _ rel) by (apply Hn || apply rel_nonempty).
  unfold kbind at 1. cbn [disk_of].
  rewrite (fs_exists_file _ _ b) by (by rewrite bin_at). cbn [negb].
  assert (fs_exists (removed fs1 text) (path_join root rel) = false) as ->.
  { unfold fs_exists, fs_is_file, fs_is_dir, fs_read. rewrite target_at, Hnt. rewrite removed_lookup. rewrite !decide_False by done. by rewrite decide_True. }
  set (entry2 := "**Update**: Restored [" +:+ rel +:+ "](/" +:+ slashes rel +:+ ")").
  rewrite (move_logged root now2 _ _ (".trash" :: segs) segs entry2 _ _ (removed fs1 text) text b).
  - rewrite target_at, bin_at. reflexivity.
  - apply bin_at.
  - apply target_at.
  - done.
  - apply segs_not_log.
  - by apply target_parent_again.
  - by rewrite bin_at.
  - rewrite bin_at. apply (is_dir_false _ _ (Some (File b))); [apply below_not_dots; by right|done|done].
  - by rewrite target_at.
  - intros k. apply Hd2, (nc_lib Hn).
  - unfold log_content. fold D. fold log_at. rewrite removed_lookup, decide_True by done. by rewrite Htext, of_as_bytes.
Qed.
End Trash.

(** ** Properties: the trash *)

(** C17: A concept that is removed is in the trash with its content, and restoring it
    puts it back: both commands succeed, the file is where it was, the trash has it
    no longer, and every other file except the log keeps its content.  An older copy
    that the trash had under the same path is lost. *)
Theorem trash_restores e now now2 args name segs b fs content :
  names_concept e args name segs b fs -> trash_free e args segs fs ->
  log_content fs (lib_of e args) = Some content -> utf8_valid (as_bytes content) = true ->
  let D := resolve (lib_of e args) in
  let r1 := cmd_rm e now args fs in
  let r2 := cmd_restore e now2 args (snd r1) in
  fst (fst r1) = Ok tt /\ snd r1 !! below D segs = None /\ snd r1 !! below D (".trash" :: segs) = Some (File b) /\
  fst (fst r2) = Ok tt /\ snd r2 !! below D segs = Some (File b) /\ snd r2 !! below D (".trash" :: segs) = None /\
  forall l c, l <> below D ["log.md"] -> l <> below D (".trash" :: segs) ->
    fs !! l = Some (File c) -> snd r2 !! l = Some (File c).
Proof.
  intros Hn Ht Hlog Hv. cbv zeta. pose proof (restore_done e args name segs b fs Hn Ht now now2 content Hlog Hv) as Hr. cbv zeta in Hr.
  destruct (rm_done e args name segs b fs Hn Ht now content Hlog) as (fs1 & entry & m & _ & Hkeep & _ & _ & E).
  rewrite E in Hr |- *. cbn [fst snd] in Hr |- *. destruct Hr as (R1 & R2 & R3 & R4).
  destruct (apart e args name segs b fs Hn) as (H1 & H2 & H3). split_and!; [done| | |exact R1|exact R2|exact R3|].
  - rewrite removed_lookup, !decide_False by done. by rewrite decide_True.
  - rewrite removed_lookup, decide_False by done. by rewrite decide_True.
  - intros l c Hll Hlb Hl. destruct (decide (l = below (resolve (lib_of e args)) segs)) as [->|Hne].
    + rewrite (target_file e args name segs b fs Hn) in Hl. by rewrite R2.
    + rewrite R4 by done. rewrite removed_lookup, !decide_False by done. by apply Hkeep.
Qed.

Lemma trash_restores_witness :
  let r1 := cmd_rm demo_okf_env 0 (demo_args "rm" ["a.md"]) demo_lib in
  snd r1 !! (true, ["o"; "lib"; "a.md"]) = None /\
  snd (cmd_restore demo_okf_env 0 (demo_args "rm" ["a.md"]) (snd r1)) !! (true, ["o"; "lib"; "a.md"]) = Some (File (as_bytes "x")).
Proof.
  assert (names_concept demo_okf_env (demo_args "rm" ["a.md"]) "lib" ["a.md"] (as_bytes "x") demo_lib) as Hn.
  { constructor; try done.
    - intros [|[|[|k]]]; done.
    - repeat constructor.
    - by apply reached_file. }
  assert (trash_free demo_okf_env (demo_args "rm" ["a.md"]) ["a.md"] demo_lib) as Ht by (constructor; [done|intros [|k] c Hk; [done|cbn in Hk; lia]]).
  pose proof (trash_restores demo_okf_env 0 0 (demo_args "rm" ["a.md"]) "lib" ["a.md"] (as_bytes "x") demo_lib LOG_HEAD Hn Ht eq_refl eq_refl)
    as (_ & H1 & _ & _ & H2 & _).
  by split.
Defined.
