(* ===== verification/Client.v ===== *)
(** * The client's side of a connection

    The protocol half of [nsmt-client/src/fs.rs] and [nsmt-client/src/main.rs]: the
    handshake, memory capture and recall, uploads, downloads and the
    synchronisation rounds.  A client is a state-and-outcome monad over the frames
    that will arrive on its connection: a loop that waits for a frame consumes
    them one by one, and [Waits] is a client that wants a frame when none is left.
    Text printed to the terminal is not modelled. *)

From S2P Require Import Prelude Paths Wire Messages Codec Crypto Store State Tree Memory Session Share.

Inductive outcome (A : Type) : Type :=
| Done (a : A)
| Failed (e : serr)
| Waits.
Arguments Done {A}. Arguments Failed {A}. Arguments Waits {A}.

(** What [recv] returns: a frame, the end of the stream, or an error. *)
Abbreviation arrival := (result NsmtError (option Frame)).

Record Cli : Type := mkCli {
  inbox : list arrival;
  sent : list Frame;
  punched : list string;
  cdisk : files;
  ticks : nat;
}.

(** Fixed for a run of the client: its environment and what its [n]th look at the
    clock and at the modification times shows. *)
Record Self : Type := mkSelf {
  s_env : env;
  clock : nat -> Z;
  mtimes : nat -> loc -> Z;
}.

Definition C (A : Type) : Type := Cli -> outcome A * Cli.
Definition cret {A} (a : A) : C A := fun s => (Done a, s).
Definition cfail {A} (e : serr) : C A := fun s => (Failed e, s).
Definition cbind {A B} (m : C A) (k : A -> C B) : C B := fun s =>
  match m s with
  | (Done a, s') => k a s'
  | (Failed e, s') => (Failed e, s')
  | (Waits, s') => (Waits, s')
  end.
Notation "x <~~ c ; k" := (cbind c (fun x => k)) (at level 100, c at next level, right associativity).

Definition get_disk : C files := fun s => (Done (cdisk s), s).
Definition put_disk (fs : files) : C unit := fun s =>
  (Done tt, mkCli (inbox s) (sent s) (punched s) fs (ticks s)).
Definition tick : C nat := fun s =>
  (Done (ticks s), mkCli (inbox s) (sent s) (punched s) (cdisk s) (S (ticks s))).
Definition clift {A} (r : result NsmtError A) : C A :=
  match r with Ok a => cret a | Err e => cfail (SErr e) end.
(** A disk operation that may fail. *)
Definition cio {A} (what : string) (o : option A) : C A :=
  match o with Some a => cret a | None => cfail (SMsg what) end.

Definition csend (f : Frame) : C unit :=
  _ <~~ clift (encode f);
  fun s => (Done tt, mkCli (inbox s) (sent s ++ [f]) (punched s) (cdisk s) (ticks s)).
Definition csend_json {T} `{Serde T} (ty : FrameType.t) (v : T) : C unit := csend (from_json ty 0 v).

(** [fs.recv().await?.ok_or_else(|| anyhow!("eof"))?] *)
Definition crecv : C Frame := fun s =>
  match inbox s with
  | [] => (Waits, s)
  | r :: rest =>
      (match r with
       | Ok (Some f) => Done f
       | Ok None => Failed (SMsg "eof")
       | Err e => Failed (SErr e)
       end, mkCli rest (sent s) (punched s) (cdisk s) (ticks s))
  end.

Section Client.
Context `{Codec} `{HexCodec} `{Ed25519} `{Sha256} `{Aead}.

(** [maybe_peer_hint] with the hook [main] installs: somebody asks for an object;
    when the cache holds it, the client dials the requester. *)
Definition maybe_peer_hint (e : env) (f : Frame) : C unit :=
  match frame_type f with
  | FrameType.PeerHint =>
      match payload_json f with
      | Ok h => fun s =>
          (Done tt,
           if fs_exists (cdisk s) (path_join (objects_dir e) (PeerHint.blob_id h))
           then mkCli (inbox s) (sent s) (punched s ++ [PeerHint.requester_addr h]) (cdisk s) (ticks s)
           else s)
      | Err _ => cret tt
      end
  | _ => cret tt
  end.

(** [loop { let f = recv()?; ..; match f { .. => break x, _ => {} } }]: [step] says
    what a frame does; [None] reads on. *)
Fixpoint recv_loop_on {A} (step : Frame -> C (option A)) (l : list arrival) : C A :=
  match l with
  | [] => fun s => (Waits, s)
  | _ :: l' =>
      f <~~ crecv;
      r <~~ step f;
      match r with Some a => cret a | None => recv_loop_on step l' end
  end.
Definition recv_loop {A} (step : Frame -> C (option A)) : C A := fun s => recv_loop_on step (inbox s) s.

Definition wanted (want : FrameType.t) (f : Frame) : option Frame :=
  if decide (frame_type f = want) then Some f else None.

(** [read_until] and [recv_until] *)
Definition read_until (e : env) (want : FrameType.t) : C Frame :=
  recv_loop (fun f => _ <~~ maybe_peer_hint e f; cret (wanted want f)).

(** ** Uploads *)

Definition domain_of (requester : string) : string :=
  match str_split "/" requester with d :: _ => d | [] => "" end.
Definition e2e_domain (d : string) : option string := if str_len d =? 0 then None else Some d.

(** The chunk frame of index [idx]. *)
Definition chunk_frame (keys : option E2EKeys) (data : bytes) (idx : Z) : result NsmtError Frame :=
  let start := wrap64 (idx * CHUNK_SIZE) in
  let part := slice data start (Z.min (start + CHUNK_SIZE) (len data)) in
  match keys with
  | Some k => enc <-? e2e_encrypt k part idx;
              Ok (mkFrame FrameType.FileChunk (u8_of 1) 0 (le_bytes 4 idx ++ enc))
  | None => Ok (frame_new FrameType.FileChunk 0 (le_bytes 4 idx ++ part))
  end.

Fixpoint send_chunks (e : env) (requester : string) (have : list Z) (data : bytes) (idxs : list Z) : C unit :=
  match idxs with
  | [] => cret tt
  | idx :: idxs' =>
      if bool_decide (idx ∈ have) then send_chunks e requester have data idxs'
      else
        f <~~ clift (chunk_frame (from_env e (e2e_domain (domain_of requester))) data idx);
        _ <~~ csend f;
        send_chunks e requester have data idxs'
  end.

Inductive lock_reply : Set := LDenied | LGranted.

Definition lock_answer (f : Frame) : option lock_reply :=
  match frame_type f with
  | FrameType.LockDenied => Some LDenied
  | FrameType.LockGranted => Some LGranted
  | _ => None
  end.

Definition put_answer (f : Frame) : option Frame :=
  match frame_type f with FrameType.FilePutAck | FrameType.Error => Some f | _ => None end.

Definition push_entry (e : env) (en : entry) (requester : string) : C unit :=
  let p := FileTreeEntry.path en in
  let blob := FileTreeEntry.blob_id en in
  _ <~~ csend_json FrameType.LockAcquire (LockAcquire.mk p requester 30000);
  l <~~ recv_loop (fun f => cret (lock_answer f));
  match l with
  | LDenied => cret tt
  | LGranted =>
      fs <~~ get_disk;
      let obj := path_join (objects_dir e) blob in
      data <~~ cio "read" (if fs_exists fs obj then fs_read fs obj
                           else fs_read fs (path_join (share_dir e) p));
      let total := n_chunks data in
      _ <~~ csend_json FrameType.FilePut (FilePut.mk blob total (len data));
      ack <~~ recv_loop (fun f => cret (put_answer f));
      match frame_type ack with
      | FrameType.Error => m <~~ clift (payload_json (T := ErrorMsg.t) ack); cret tt
      | _ =>
          a <~~ clift (payload_json (T := FilePutAck.t) ack);
          _ <~~ send_chunks e requester (FilePutAck.have a) data (all_chunks total);
          d <~~ read_until e FrameType.FilePutAck;
          _ <~~ clift (payload_json (T := FilePutAck.t) d);
          csend_json FrameType.LockRelease (LockRelease.mk p requester)
      end
  end.

Definition push_tree (t : FileTree.t) : C unit := csend_json FrameType.FileTree t.

Fixpoint push_entries (e : env) (fqn : string) (es : list entry) : C unit :=
  match es with
  | [] => cret tt
  | en :: es' =>
      fs <~~ get_disk;
      _ <~~ (if fs_exists fs (path_join (objects_dir e) (FileTreeEntry.blob_id en)) then cret tt
             else
               b <~~ cio "read" (fs_read fs (path_join (share_dir e) (FileTreeEntry.path en)));
               fs' <~~ cio "ensure" (ensure_object_local e (FileTreeEntry.blob_id en) b fs);
               put_disk fs');
      _ <~~ push_entry e en fqn;
      push_entries e fqn es'
  end.

(** [sync_push] *)
Definition sync_push (e : env) (t : FileTree.t) (fqn : string) : C unit :=
  _ <~~ push_entries e fqn (FileTree.entries t); push_tree t.

(** ** Downloads *)

Definition request_diff (e : env) (old_tree : string) : C FileDiffResult.t :=
  _ <~~ csend_json FrameType.FileDiff (FileDiff.mk old_tree None);
  f <~~ read_until e FrameType.FileDiffResult;
  clift (payload_json f).

(** One answer to a [FILE_GET]. *)
Definition get_answer (e : env) : C Frame :=
  recv_loop (fun f => _ <~~ maybe_peer_hint e f;
    cret (match frame_type f with FrameType.FileChunk | FrameType.Error => Some f | _ => None end)).

(** The loop of [get_object]; every turn consumes a frame, so the fuel
    [get_object] passes is enough. *)
Fixpoint get_loop (fuel : nat) (e : env) (blob domain : string) (idx : Z) (acc : bytes) : C (option bytes) :=
  match fuel with
  | O => fun s => (Waits, s)
  | S fuel' =>
      _ <~~ csend_json FrameType.FileGet (FileGet.mk blob (Some idx));
      f <~~ get_answer e;
      match frame_type f with
      | FrameType.Error => cret None
      | _ =>
          let p := payload f in
          if len p <? 4 then cret (Some acc)
          else if negb (le_val (take 4 p) =? idx) then get_loop fuel' e blob domain idx acc
          else
            data <~~ clift (match from_env e (e2e_domain domain) with
                            | Some k => e2e_decrypt k (drop 4 p) idx
                            | None => Ok (drop 4 p)
                            end);
            if len data <? CHUNK_SIZE then cret (Some (acc ++ data))
            else get_loop fuel' e blob domain (wrap64 (idx + 1)) (acc ++ data)
      end
  end.

Definition get_object (e : env) (blob domain : string) : C (option bytes) := fun s =>
  get_loop (S (length (inbox s))) e blob domain 0 [] s.
End Client.

#[global] Notation "x <~~ c ; k" := (cbind c (fun x => k))
  (at level 100, c at next level, right associativity) : nsmt_scope.

(** ** Lemmas *)

(** A frame that arrives. *)
Definition arrives (f : Frame) : arrival := Ok (Some f).

(** What is in flight: each answer behind broadcast frames. *)
Definition in_flight (l : list (list Frame * Frame)) : list arrival :=
  concat (map (fun na : list Frame * Frame => map arrives (fst na ++ [snd na])) l).

Definition set_inbox (l : list arrival) (s : Cli) : Cli := mkCli l (sent s) (punched s) (cdisk s) (ticks s).
Definition set_punched (l : list string) (s : Cli) : Cli := mkCli (inbox s) (sent s) l (cdisk s) (ticks s).
Definition add_sent (l : list Frame) (s : Cli) : Cli := mkCli (inbox s) (sent s ++ l) (punched s) (cdisk s) (ticks s).

Section ClientFacts.
Context `{Codec} `{HexCodec} `{Ed25519} `{Sha256} `{Aead}.

Lemma cbind_done {A B} (m : C A) (k : A -> C B) s a s' : m s = (Done a, s') -> cbind m k s = k a s'.
Proof. unfold cbind. by intros ->. Qed.

Lemma csend_done f s : is_ok (encode f) = true -> csend f s = (Done tt, add_sent [f] s).
Proof. unfold csend, cbind, clift. by destruct (encode f). Qed.

(** A hint changes nothing but the addresses dialled. *)
Lemma hint_done e f s : exists l, maybe_peer_hint e f s = (Done tt, set_punched l s).
Proof.
  assert (s = set_punched (punched s) s) as E by (by destruct s).
  unfold maybe_peer_hint. destruct (frame_type f); try (by exists (punched s); rewrite <- E).
  destruct (payload_json f) as [h|]; [|by exists (punched s); rewrite <- E].
  destruct (fs_exists _ _); [by eexists|]. exists (punched s). by rewrite <- E.
Qed.

(** A step that only looks at the frame, after the hint hook or not. *)
Definition pure_step {A} (step : Frame -> C (option A)) (pick : Frame -> option A) : Prop :=
  forall f s, exists l, step f s = (Done (pick f), set_punched l s).

Lemma pure_ret {A} (pick : Frame -> option A) : pure_step (fun f => cret (pick f)) pick.
Proof. intros f s. exists (punched s). by destruct s. Qed.

Lemma pure_hint {A} e (pick : Frame -> option A) :
  pure_step (fun f => _ <~~ maybe_peer_hint e f; cret (pick f)) pick.
Proof. intros f s. destruct (hint_done e f s) as [l E]. exists l. by rewrite (cbind_done _ _ _ _ _ E). Qed.

(** The loop passes the frames its step passes and stops at the one it takes. *)
Lemma recv_loop_pass {A} (step : Frame -> C (option A)) ns f a rest s :
  (forall n, n ∈ ns -> forall s, exists l, step n s = (Done None, set_punched l s)) ->
  (forall s, exists l, step f s = (Done (Some a), set_punched l s)) ->
  inbox s = map arrives (ns ++ [f]) ++ rest ->
  exists l, recv_loop step s = (Done a, set_punched l (set_inbox rest s)).
Proof.
  intros Hns Hf Hin. unfold recv_loop. rewrite Hin.
  revert s Hin. induction ns as [|n ns IH]; intros s Hin; cbn [app map recv_loop_on]; cbn [app map] in Hin.
  - assert (crecv s = (Done f, set_inbox rest s)) as E by (unfold crecv; by rewrite Hin).
    rewrite (cbind_done _ _ _ _ _ E). destruct (Hf (set_inbox rest s)) as [l El].
    exists l. by rewrite (cbind_done _ _ _ _ _ El).
  - assert (crecv s = (Done n, set_inbox (map arrives (ns ++ [f]) ++ rest) s)) as E by (unfold crecv; by rewrite Hin).
    rewrite (cbind_done _ _ _ _ _ E).
    destruct (Hns n ltac:(by left) (set_inbox (map arrives (ns ++ [f]) ++ rest) s)) as [l El].
    rewrite (cbind_done _ _ _ _ _ El).
    assert (forall n, n ∈ ns -> forall s, exists l, step n s = (Done None, set_punched l s)) as Hns'
      by (intros n' Hn'; apply Hns; by right).
    destruct (IH Hns' (set_punched l (set_inbox (map arrives (ns ++ [f]) ++ rest) s))) as [l' E'];
      [done|]. exists l'. exact E'.
Qed.

Lemma recv_loop_skip {A} (step : Frame -> C (option A)) pick ns f a rest s :
  pure_step step pick -> (forall n, n ∈ ns -> pick n = None) -> pick f = Some a ->
  inbox s = map arrives (ns ++ [f]) ++ rest ->
  exists l, recv_loop step s = (Done a, set_punched l (set_inbox rest s)).
Proof.
  intros Hp Hns Hf. apply recv_loop_pass.
  - intros n Hn s'. destruct (Hp n s') as [l E]. exists l. by rewrite E, Hns.
  - intros s'. destruct (Hp f s') as [l E]. exists l. by rewrite E, Hf.
Qed.

(** A loop that returns has consumed a frame. *)
Lemma recv_loop_consumes {A} (step : Frame -> C (option A)) s a s' :
  (forall f s1 r s2, step f s1 = (r, s2) -> length (inbox s2) <= length (inbox s1))%nat ->
  recv_loop step s = (Done a, s') -> (length (inbox s') < length (inbox s))%nat.
Proof.
  intros Hstep. unfold recv_loop.
  assert (forall l s, recv_loop_on step l s = (Done a, s') -> (length (inbox s') < length (inbox s))%nat) as Hl; [|by apply Hl].
  clear s. induction l as [|x l IH]; intros s Hr; [discriminate Hr|].
  cbn [recv_loop_on] in Hr. unfold cbind in Hr. unfold crecv in Hr at 1.
  destruct (inbox s) as [|r rest] eqn:Ein; [discriminate Hr|].
  destruct r as [[f|]|]; [|discriminate Hr|discriminate Hr].
  destruct (step f _) as [[o|e|] s2] eqn:Es; [|discriminate Hr|discriminate Hr].
  apply Hstep in Es. cbn [inbox] in Es. destruct o as [b|].
  - injection Hr as <- <-. cbn [length]. lia.
  - apply IH in Hr. cbn [length]. lia.
Qed.

Lemma hint_inbox e f s r s' : maybe_peer_hint e f s = (r, s') -> inbox s' = inbox s.
Proof. destruct (hint_done e f s) as [l ->]. by intros [= _ <-]. Qed.

Lemma get_answer_consumes e s f s' : get_answer e s = (Done f, s') -> (length (inbox s') < length (inbox s))%nat.
Proof.
  apply recv_loop_consumes. intros f0 s1 r s2. destruct (pure_hint e (fun f : Frame =>
    match frame_type f with FrameType.FileChunk | FrameType.Error => Some f | _ => None end) f0 s1) as [l ->].
  intros [= _ <-]. done.
Qed.
End ClientFacts.

(** ** Chunks, on both ends *)

Definition keys_fit `{Aead} (enc dec : option E2EKeys) : Prop :=
  match enc, dec with
  | None, None => True
  | Some ks, Some kc => forall p idx c, e2e_encrypt ks p idx = Ok c -> e2e_decrypt kc c idx = Ok p
  | _, _ => False
  end.

(** The same keys fit. *)
Lemma keys_fit_same `{HexCodec} `{Sha256} `{AeadLaws} e d : keys_fit (from_env e d) (from_env e d).
Proof.
  destruct (from_env e d) as [ks|] eqn:E; [|done]. intros p idx c Hc%e2e_encrypt_inv.
  destruct (from_env_shape _ _ _ E) as [rest Hall]. unfold e2e_decrypt. rewrite Hall.
  apply (decrypt_any_app [] (newest ks) rest p c idx); [set_solver|done].
Qed.

#[global] Opaque CHUNK_SIZE.

Lemma chunk_of_length data i :
  0 <= i -> i * CHUNK_SIZE <= len data -> len data < 2 ^ 62 ->
  len (chunk_of data i) = Z.min CHUNK_SIZE (len data - i * CHUNK_SIZE).
Proof.
  intros Hi Hl Hm. pose proof CHUNK_pos. destruct (decide (i * CHUNK_SIZE < len data)).
  - rewrite chunk_of_in by lia. rewrite slice_length by lia. lia.
  - unfold chunk_of. assert (wrap64 (i * CHUNK_SIZE) = i * CHUNK_SIZE) as -> by (apply Z.mod_small; nia).
    destruct (_ <? _) eqn:E; [lia|]. unfold len. cbn. unfold len in *. lia.
Qed.

Lemma chunk_of_extends data i :
  0 <= i -> i * CHUNK_SIZE <= len data -> len data < 2 ^ 62 ->
  take (Z.to_nat (i * CHUNK_SIZE)) data ++ chunk_of data i = take (Z.to_nat ((i + 1) * CHUNK_SIZE)) data.
Proof.
  intros Hi Hl Hm. pose proof CHUNK_pos. destruct (decide (i * CHUNK_SIZE < len data)) as [Hlt|Hge].
  - rewrite chunk_of_in by lia. unfold slice.
    replace (Z.to_nat ((i + 1) * CHUNK_SIZE)) with (Z.to_nat (i * CHUNK_SIZE) + Z.to_nat CHUNK_SIZE)%nat by nia.
    rewrite <- (take_drop (Z.to_nat (i * CHUNK_SIZE)) data) at 4.
    rewrite take_app_add' by (rewrite length_take; unfold len in *; nia). f_equal.
    destruct (decide (i * CHUNK_SIZE + CHUNK_SIZE <= len data)).
    + f_equal. lia.
    + rewrite !take_ge; [done| |]; rewrite length_drop; unfold len in *; nia.
  - unfold chunk_of. assert (wrap64 (i * CHUNK_SIZE) = i * CHUNK_SIZE) as -> by (apply Z.mod_small; nia).
    destruct (_ <? _) eqn:E; [lia|]. rewrite app_nil_r. rewrite !take_ge; [done| |]; unfold len in *; nia.
Qed.

Lemma le_val_le_bytes4 i : 0 <= i < 2 ^ 32 -> le_val (le_bytes 4 i) = i.
Proof. intros Hi. rewrite le_val_bytes. change (8 * Z.of_nat 4) with 32. by apply Z.mod_small. Qed.

Lemma le4_take i rest : take 4 (le_bytes 4 i ++ rest) = le_bytes 4 i.
Proof. apply take_app_length'. by rewrite le_bytes_length. Qed.
Lemma le4_drop i rest : drop 4 (le_bytes 4 i ++ rest) = rest.
Proof. apply drop_app_length'. by rewrite le_bytes_length. Qed.
Lemma le4_len i rest : len (le_bytes 4 i ++ rest) >= 4.
Proof. unfold len. rewrite length_app, le_bytes_length. lia. Qed.

(** The frame that carries a chunk, on either side. *)
Definition chunk_msg `{Aead} (keys : option E2EKeys) (chunk : bytes) (idx : Z) : result NsmtError Frame :=
  match keys with
  | Some k => enc <-? e2e_encrypt k chunk idx;
              Ok (mkFrame FrameType.FileChunk (u8_of 1) 0 (le_bytes 4 idx ++ enc))
  | None => Ok (frame_new FrameType.FileChunk 0 (le_bytes 4 idx ++ chunk))
  end.

Lemma chunk_msg_inv `{Aead} keys chunk idx f :
  chunk_msg keys chunk idx = Ok f ->
  frame_type f = FrameType.FileChunk /\ exists enc, payload f = le_bytes 4 idx ++ enc /\
    match keys with Some k => e2e_encrypt k chunk idx = Ok enc | None => enc = chunk end.
Proof.
  unfold chunk_msg. destruct keys as [k|].
  - destruct (e2e_encrypt k chunk idx) as [enc|] eqn:E; [|done]. intros [= <-]. cbn. eauto.
  - intros [= <-]. cbn. eauto.
Qed.

(** What the receiver with fitting keys reads out of it. *)
Lemma chunk_msg_read `{Aead} ks kc chunk idx f :
  keys_fit ks kc -> chunk_msg ks chunk idx = Ok f -> 0 <= idx < 2 ^ 32 ->
  len (payload f) >= 4 /\ le_val (take 4 (payload f)) = idx /\
  match kc with Some k => e2e_decrypt k (drop 4 (payload f)) idx | None => Ok (drop 4 (payload f)) end = Ok chunk.
Proof.
  intros Hk (_ & enc & -> & He)%chunk_msg_inv Hi. rewrite le4_take, le4_drop, le_val_le_bytes4 by done.
  split_and!; [apply le4_len|done|]. destruct ks as [ks|], kc as [kc|]; try done; [by apply Hk|by subst].
Qed.

Section Downloads.
Context `{Backend} `{Codec} `{HexCodec} `{Ed25519} `{Sha256} `{Aead} `{MemoryPool}.

(** The server's answer to the request for chunk [idx] of an object it has. *)
Lemma on_file_get_answer c i blob data idx f s :
  Tree.get_object (server_fs i) blob (world s) = Some data ->
  chunk_msg (from_env (c_env c) (Some (user_domain i))) (chunk_of data idx) idx = Ok f ->
  is_ok (encode f) = true ->
  on_file_get c i (FileGet.mk blob (Some idx)) s = (Ok tt, add_out f s).
Proof.
  intros Hg Hf He. unfold on_file_get. sess_unfold. cbn [FileGet.blob_id FileGet.chunk_index]. rewrite Hg.
  cbn [default from_option id]. unfold chunk_msg in Hf. destruct (from_env _ _) as [k|].
  - destruct (e2e_encrypt k _ idx) as [enc|]; [|done]. injection Hf as <-. sess_unfold.
    destruct (encode _); [done|discriminate He].
  - injection Hf as <-. sess_unfold. destruct (encode _); [done|discriminate He].
Qed.
End Downloads.

Section Downloading.
Context `{Codec} `{HexCodec} `{Ed25519} `{Sha256} `{Aead}.

Definition chunk_noise (f : Frame) : Prop :=
  frame_type f <> FrameType.FileChunk /\ frame_type f <> FrameType.Error.

Lemma get_answer_skip e ns f rest s :
  Forall chunk_noise ns -> frame_type f = FrameType.FileChunk \/ frame_type f = FrameType.Error ->
  inbox s = map arrives (ns ++ [f]) ++ rest ->
  exists l, get_answer e s = (Done f, set_punched l (set_inbox rest s)).
Proof.
  intros Hns Hf Hin. eapply recv_loop_skip; [apply pure_hint| | |exact Hin].
  - intros n Hn. rewrite Forall_forall in Hns. destruct (Hns n Hn) as [F1 F2]. cbn beta. by destruct (frame_type n).
  - cbn beta. by destruct Hf as [->| ->].
Qed.

Definition get_frame (blob : string) (idx : Z) : Frame :=
  from_json FrameType.FileGet 0 (FileGet.mk blob (Some idx)).

(** From chunk [idx] on, with the chunks before it in hand. *)
Lemma get_loop_serves e blob domain data ks m : forall idx fuel nss answers s rest,
  keys_fit ks (from_env e (e2e_domain domain)) -> len data < 2 ^ 62 ->
  (forall i, 0 <= i <= len data / CHUNK_SIZE -> is_ok (encode (get_frame blob i)) = true) ->
  Forall (Forall chunk_noise) nss -> length nss = S m ->
  Forall2 (fun i f => chunk_msg ks (chunk_of data i) i = Ok f) (seqZ idx (Z.of_nat (S m))) answers ->
  0 <= idx -> idx + Z.of_nat m = len data / CHUNK_SIZE -> idx + Z.of_nat m < 2 ^ 32 - 1 -> (m < fuel)%nat ->
  inbox s = in_flight (zip nss answers) ++ rest ->
  exists l, get_loop fuel e blob domain idx (take (Z.to_nat (idx * CHUNK_SIZE)) data) s =
    (Done (Some data), set_punched l (set_inbox rest (add_sent (map (get_frame blob) (seqZ idx (Z.of_nat (S m)))) s))).
Proof.
  pose proof CHUNK_pos as HC.
  induction m as [|m IH]; intros idx fuel nss answers s rest Hk Hm He Hns Hln Ha Hi Hlast Hbig Hfuel Hin;
    (destruct fuel as [|fuel]; [lia|]);
    rewrite seqZ_cons in Ha |- * by lia; apply Forall2_cons_inv_l in Ha as (f & answers' & Hf & Ha & ->);
    (destruct nss as [|ns nss]; [done|]); apply Forall_cons in Hns as [Hn Hns]; injection Hln as Hln;
    cbn [get_loop].
  all: pose proof (Z.div_mod (len data) CHUNK_SIZE ltac:(lia)) as Hdm;
    pose proof (Z.mod_pos_bound (len data) CHUNK_SIZE ltac:(lia)) as Hmb.
  all: unfold in_flight in Hin; cbn [zip zip_with map concat fst snd] in Hin; rewrite <- app_assoc in Hin.
  all: rewrite (cbind_done _ _ _ _ _ (csend_done _ _ (He idx ltac:(lia))));
    destruct (get_answer_skip e ns f _ (add_sent [get_frame blob idx] s) Hn (or_introl (proj1 (chunk_msg_inv _ _ _ _ Hf))) Hin)
      as [l El]; rewrite (cbind_done _ _ _ _ _ El), (proj1 (chunk_msg_inv _ _ _ _ Hf));
    destruct (chunk_msg_read _ _ _ _ _ Hk Hf ltac:(lia)) as (Hlen & Hidx & Hdec);
    destruct (len (payload f) <? 4) eqn:E4; [lia|]; rewrite Hidx, Z.eqb_refl; cbn [negb];
    unfold cbind at 1; rewrite Hdec; cbn [clift]; unfold cret at 1;
    rewrite chunk_of_length by (try lia; nia).
  - assert (length nss = 0%nat) as Hz by lia. apply nil_length_inv in Hz. subst nss.
    destruct (Z.min _ _ <? CHUNK_SIZE) eqn:E; [|nia].
    exists l. rewrite chunk_of_extends by (try lia; nia). rewrite take_ge by (unfold len in *; nia).
    apply Forall2_length in Ha. rewrite length_seqZ in Ha. destruct answers'; [|cbn in Ha; lia]. done.
  - destruct (Z.min _ _ <? CHUNK_SIZE) eqn:E; [nia|].
    rewrite chunk_of_extends by (try lia; nia).
    assert (wrap64 (idx + 1) = idx + 1) as -> by (apply Z.mod_small; lia).
    replace (Z.pred (Z.of_nat (S (S m)))) with (Z.of_nat (S m)) in * by lia.
    replace (Z.succ idx) with (idx + 1) in * by lia.
    destruct (IH (idx + 1) fuel nss answers' (set_punched l (set_inbox (in_flight (zip nss answers') ++ rest)
      (add_sent [get_frame blob idx] s))) rest) as [l' E']; try done; try lia.
    exists l'. etransitivity; [exact E'|]. unfold set_punched, set_inbox, add_sent. cbn. by rewrite <- app_assoc.
Qed.
End Downloading.

Lemma in_flight_length nss answers :
  length nss = length answers -> (length answers <= length (in_flight (zip nss answers)))%nat.
Proof.
  revert nss. induction answers as [|f l IH]; intros [|ns nss] Hln; [done|done|done|]. injection Hln as Hln.
  assert (in_flight (zip (ns :: nss) (f :: l)) = map arrives (ns ++ [f]) ++ in_flight (zip nss l)) as -> by done.
  specialize (IH nss Hln). rewrite length_app, length_map, length_app. cbn [length]. lia.
Qed.

(** The client's half of a download. *)
Lemma get_object_serves `{Codec} `{HexCodec} `{Ed25519} `{Sha256} `{Aead} e blob domain data ks answers nss s rest :
  let n := len data / CHUNK_SIZE in
  keys_fit ks (from_env e (e2e_domain domain)) -> len data < 2 ^ 62 -> n < 2 ^ 32 - 1 ->
  Forall2 (fun k f => chunk_msg ks (chunk_of data k) k = Ok f) (seqZ 0 (n + 1)) answers ->
  (forall k, 0 <= k <= n -> is_ok (encode (get_frame blob k)) = true) ->
  Forall (Forall chunk_noise) nss -> length nss = length answers -> inbox s = in_flight (zip nss answers) ++ rest ->
  exists l, get_object e blob domain s =
    (Done (Some data), set_punched l (set_inbox rest (add_sent (map (get_frame blob) (seqZ 0 (n + 1))) s))).
Proof.
  intros n Hk Hm Hn Ha Hg Hns Hln Hin. pose proof CHUNK_pos.
  assert (0 <= n) as Hn0 by (apply Z.div_pos; unfold len; lia).
  pose proof (Forall2_length _ _ _ Ha) as Hl. rewrite length_seqZ in Hl.
  replace (n + 1) with (Z.of_nat (S (Z.to_nat n))) in * by lia.
  unfold get_object. eapply (get_loop_serves e blob domain data ks (Z.to_nat n) 0); try done; try lia.
  pose proof (in_flight_length nss answers Hln). rewrite Hin, length_app. lia.
Qed.

Section Fuel.
Context `{Codec} `{HexCodec} `{Ed25519} `{Sha256} `{Aead}.

Lemma get_loop_fuel e blob domain f1 : forall f2 idx acc s,
  (length (inbox s) < f1)%nat -> (length (inbox s) < f2)%nat ->
  get_loop f1 e blob domain idx acc s = get_loop f2 e blob domain idx acc s.
Proof.
  induction f1 as [|f1 IH]; intros f2 idx acc s H1' H2'; [lia|]. destruct f2 as [|f2]; [lia|]. cbn [get_loop].
  unfold cbind. unfold csend_json, csend, cbind, clift. destruct (encode _); [|done]. unfold cret.
  set (s1 := mkCli _ _ _ _ _). destruct (get_answer e s1) as [[f|x|] s2] eqn:Ea; [|done|done].
  apply get_answer_consumes in Ea. cbn [s1 inbox] in Ea.
  assert (forall i0 a0, get_loop f1 e blob domain i0 a0 s2 = get_loop f2 e blob domain i0 a0 s2) as Hrec
    by (intros; apply IH; lia).
  repeat first [done | apply Hrec | case_match]; simplify_eq; apply Hrec.
Qed.
End Fuel.

Section Uploads.
Context `{Codec} `{HexCodec} `{Ed25519} `{Sha256} `{Aead}.

Lemma chunk_frame_msg keys data idx :
  0 <= idx < n_chunks data -> len data < 2 ^ 62 -> chunk_frame keys data idx = chunk_msg keys (chunk_of data idx) idx.
Proof.
  intros Hi Hm. pose proof CHUNK_pos. pose proof (proj1 (n_chunks_spec data idx ltac:(lia)) ltac:(lia)) as Hlt.
  rewrite chunk_of_in by lia. unfold chunk_frame, chunk_msg.
  assert (wrap64 (idx * CHUNK_SIZE) = idx * CHUNK_SIZE) as -> by (apply Z.mod_small; nia). done.
Qed.

Lemma send_chunks_all e requester data idxs frames s :
  Forall2 (fun k f => chunk_frame (from_env e (e2e_domain (domain_of requester))) data k = Ok f) idxs frames ->
  Forall (fun f => is_ok (encode f) = true) frames ->
  send_chunks e requester [] data idxs s = (Done tt, add_sent frames s).
Proof.
  intros Hf. revert s. induction Hf as [|k f idxs frames Hk _ IH]; intros s He.
  - cbn [send_chunks]. unfold cret, add_sent. rewrite app_nil_r. by destruct s.
  - apply Forall_cons in He as [He1 He]. cbn [send_chunks]. rewrite bool_decide_eq_false_2 by set_solver.
    rewrite Hk. unfold clift. rewrite (cbind_done (cret f) _ s f s) by done.
    rewrite (cbind_done _ _ _ _ _ (csend_done _ _ He1)), IH by done.
    unfold add_sent. cbn. by rewrite <- app_assoc.
Qed.

(** What [push_entry] does when the server plays along. *)
Record upload_replies (ns1 ns2 ns3 : list Frame) (granted ack dn : Frame) (a d : FilePutAck.t) : Prop := {
  ur_granted : frame_type granted = FrameType.LockGranted;
  ur_noise1 : forall n, n ∈ ns1 -> frame_type n <> FrameType.LockGranted /\ frame_type n <> FrameType.LockDenied;
  ur_ack : frame_type ack = FrameType.FilePutAck /\ payload_json ack = Ok a /\ FilePutAck.have a = [];
  ur_noise2 : forall n, n ∈ ns2 -> frame_type n <> FrameType.FilePutAck /\ frame_type n <> FrameType.Error;
  ur_done : frame_type dn = FrameType.FilePutAck /\ payload_json dn = Ok d;
  ur_noise3 : forall n, n ∈ ns3 -> frame_type n <> FrameType.FilePutAck;
}.

Definition push_data (e : env) (en : entry) (fs : files) : option bytes :=
  let obj := path_join (objects_dir e) (FileTreeEntry.blob_id en) in
  if fs_exists fs obj then fs_read fs obj else fs_read fs (path_join (share_dir e) (FileTreeEntry.path en)).

Definition acquire_frame (en : entry) (requester : string) : Frame :=
  from_json FrameType.LockAcquire 0 (LockAcquire.mk (FileTreeEntry.path en) requester 30000).
Definition put_frame_ (en : entry) (data : bytes) : Frame :=
  from_json FrameType.FilePut 0 (FilePut.mk (FileTreeEntry.blob_id en) (n_chunks data) (len data)).
Definition release_frame (en : entry) (requester : string) : Frame :=
  from_json FrameType.LockRelease 0 (LockRelease.mk (FileTreeEntry.path en) requester).

Lemma push_entry_sends e en requester data frames ns1 ns2 ns3 granted ack dn a d s rest :
  push_data e en (cdisk s) = Some data ->
  upload_replies ns1 ns2 ns3 granted ack dn a d ->
  Forall2 (fun k f => chunk_frame (from_env e (e2e_domain (domain_of requester))) data k = Ok f)
    (all_chunks (n_chunks data)) frames ->
  Forall (fun f => is_ok (encode f) = true)
    (acquire_frame en requester :: put_frame_ en data :: release_frame en requester :: frames) ->
  inbox s = map arrives (ns1 ++ [granted]) ++ map arrives (ns2 ++ [ack]) ++ map arrives (ns3 ++ [dn]) ++ rest ->
  exists l, push_entry e en requester s =
    (Done tt, set_punched l (set_inbox rest (add_sent
      (acquire_frame en requester :: put_frame_ en data :: frames ++ [release_frame en requester]) s))).
Proof.
  intros Hd [Hg Hn1 (Ha & Hpa & Hh) Hn2 (Hdt & Hpd) Hn3] Hf He Hin.
  apply Forall_cons in He as [Ea He]. apply Forall_cons in He as [Ep He]. apply Forall_cons in He as [Er Ef].
  unfold push_entry. rewrite (cbind_done _ _ _ _ _ (csend_done (acquire_frame en requester) s Ea)).
  set (rest2 := map arrives (ns3 ++ [dn]) ++ rest) in *. set (rest1 := map arrives (ns2 ++ [ack]) ++ rest2) in *.
  edestruct (recv_loop_skip _ lock_answer ns1 granted LGranted rest1 (add_sent [acquire_frame en requester] s)
    (pure_ret lock_answer)) as [l1 E1]; [|by unfold lock_answer; rewrite Hg|exact Hin|].
  { intros n Hn. destruct (Hn1 n Hn). unfold lock_answer. by destruct (frame_type n). }
  rewrite (cbind_done _ _ _ _ _ E1). set (s1 := set_punched l1 _).
  rewrite (cbind_done get_disk _ s1 (cdisk s) s1) by done.
  change (if fs_exists (cdisk s) _ then _ else _) with (push_data e en (cdisk s)). rewrite Hd.
  rewrite (cbind_done (cio "read" (Some data)) _ s1 data s1) by done.
  rewrite (cbind_done _ _ _ _ _ (csend_done (put_frame_ en data) s1 Ep)).
  edestruct (recv_loop_skip _ put_answer ns2 ack ack rest2 (add_sent [put_frame_ en data] s1) (pure_ret put_answer)) as [l2 E2];
    [|by unfold put_answer; rewrite Ha|reflexivity|].
  { intros n Hn. destruct (Hn2 n Hn). unfold put_answer. by destruct (frame_type n). }
  rewrite (cbind_done _ _ _ _ _ E2). set (s2 := set_punched l2 _). rewrite Ha, Hpa.
  rewrite (cbind_done (clift (Ok a)) _ s2 a s2) by done. rewrite Hh.
  rewrite (cbind_done _ _ _ _ _ (send_chunks_all e requester data _ frames s2 Hf Ef)).
  edestruct (recv_loop_skip _ (wanted FrameType.FilePutAck) ns3 dn dn rest (add_sent frames s2)
    (pure_hint e (wanted FrameType.FilePutAck))) as [l3 E3];
    [|by unfold wanted; rewrite decide_True by exact Hdt|reflexivity|].
  { intros n Hn. unfold wanted. by rewrite decide_False by (by apply Hn3). }
  rewrite (cbind_done (read_until e FrameType.FilePutAck) _ _ _ _ E3). set (s3 := set_punched l3 _). rewrite Hpd.
  rewrite (cbind_done (clift (Ok d)) _ s3 d s3) by done.
  exists l3. unfold csend_json. rewrite (csend_done (release_frame en requester)) by done.
  subst s3 s2 s1. unfold add_sent, set_punched, set_inbox. cbn. by rewrite <- !app_assoc.
Qed.
End Uploads.

Section ServerSide.
Context `{Backend} `{Codec} `{HexCodec} `{Ed25519} `{Sha256} `{Aead} `{MemoryPool}.

Lemma on_file_put_ready c i fp s v :
  let tmp := temp_path_for (server_fs i) (FilePut.blob_id fp) in
  let ack := from_json FrameType.FilePutAck 0 (FilePutAck.mk (FilePut.blob_id fp) [] false) in
  try_reserve_quota (c_env c) (db_up c) (user_domain i) (FilePut.size fp) (sv s) = (true, v) ->
  FilePut.total_chunks fp < 2 ^ 63 -> fs_read (disk (world s)) tmp = None -> is_ok (encode ack) = true ->
  on_file_put c i fp s =
    (Ok tt, mkSess v (tenants s) (world s)
       (Some (fresh_upload (FilePut.blob_id fp) tmp (FilePut.size fp) (FilePut.total_chunks fp))) (out s ++ [ack])).
Proof.
  intros tmp ack Hq Hn Hr He. unfold on_file_put. sess_unfold. rewrite Hq. cbn [negb]. sess_unfold.
  destruct (_ >=? _) eqn:E; [lia|]. sess_unfold. fold tmp. fold ack.
  assert (fs_remove tmp (disk (world s)) = None) as ->.
  { unfold fs_read in Hr. unfold fs_remove. by repeat case_match. }
  cbn [default from_option id]. destruct (encode ack); [|done].
  assert (set_disk (disk (world s)) (world s) = world s) as -> by (by destruct (world s)). done.
Qed.

(** Frames that carry the chunks to a server with fitting keys. *)
Lemma frames_carry ks c i data idxs frames :
  keys_fit ks (from_env (c_env c) (Some (user_domain i))) ->
  Forall (fun k => 0 <= k < n_chunks data) idxs -> n_chunks data <= 2 ^ 32 -> len data < 2 ^ 62 ->
  Forall2 (fun k f => chunk_frame ks data k = Ok f) idxs frames ->
  Forall2 (carries (c_env c) (user_domain i) data) (map payload frames) idxs.
Proof.
  intros Hk Hr Hn Hm Hf. induction Hf as [|k f idxs frames Hkf _ IH]; [constructor|].
  apply Forall_cons in Hr as [Hr1 Hr]. constructor; [|by apply IH].
  rewrite chunk_frame_msg in Hkf by (lia || done).
  destruct (chunk_msg_read _ _ _ _ _ Hk Hkf ltac:(lia)) as (Hl & Hi & Hd). split; [lia|]. split; [done|].
  destruct (from_env (c_env c) _); [done|]. congruence.
Qed.
End ServerSide.

(** ** Properties *)

(** C4: A download returns the stored object: when the server has an object of any
    length, an exact multiple of the chunk size and zero included, it answers the
    client's requests for chunks 0, 1, .. with frames from which [get_object]
    rebuilds precisely the stored bytes, whatever broadcasts arrive in between; the
    client asks for each chunk once and stops after the first short one. *)
Theorem download_exact `{Backend} `{Codec} `{HexCodec} `{Ed25519} `{Sha256} `{Aead} `{MemoryPool}
    c i srv e blob domain data answers nss s rest :
  let n := len data / CHUNK_SIZE in
  let ks := from_env (c_env c) (Some (user_domain i)) in
  Tree.get_object (server_fs i) blob (world srv) = Some data ->
  keys_fit ks (from_env e (e2e_domain domain)) -> len data < 2 ^ 62 -> n < 2 ^ 32 - 1 ->
  Forall2 (fun k f => chunk_msg ks (chunk_of data k) k = Ok f) (seqZ 0 (n + 1)) answers ->
  Forall (fun f => is_ok (encode f) = true) answers ->
  (forall k, 0 <= k <= n -> is_ok (encode (get_frame blob k)) = true) ->
  Forall (Forall chunk_noise) nss -> length nss = length answers ->
  inbox s = in_flight (zip nss answers) ++ rest ->
  (forall j f, answers !! j = Some f ->
     on_file_get c i (FileGet.mk blob (Some (Z.of_nat j))) srv = (Ok tt, add_out f srv)) /\
  exists l, get_object e blob domain s =
    (Done (Some data), set_punched l (set_inbox rest (add_sent (map (get_frame blob) (seqZ 0 (n + 1))) s))).
Proof.
  intros n ks Hobj Hk Hm Hn Ha He Hg Hns Hln Hin. split; [|by eapply get_object_serves].
  intros j f Hj. destruct (Forall2_lookup_r _ _ _ _ _ Ha Hj) as (k & Hk' & Hf).
  apply lookup_seqZ in Hk' as [-> Hj']. rewrite Z.add_0_l in Hf.
  eapply on_file_get_answer; [exact Hobj|exact Hf|]. rewrite Forall_lookup in He. by eapply He.
Qed.

(** The fuel of [get_object] is enough: with any larger bound the loop behaves
    the same, because every turn that goes on has consumed a frame; so [Waits] means
    that the client wants a frame that has not arrived. *)
Theorem get_object_fuel_enough `{Codec} `{HexCodec} `{Ed25519} `{Sha256} `{Aead} e blob domain extra s :
  get_loop (S (length (inbox s)) + extra) e blob domain 0 [] s = get_object e blob domain s.
Proof. apply get_loop_fuel; lia. Qed.

(** C5: A push stores the file: when the server grants the lock and accepts the
    upload, the client sends the lock request, the announcement, one chunk frame per
    chunk and the release, whatever broadcasts arrive in between; and a server with
    fitting keys that receives these frames has, after the last chunk, written
    exactly the file's bytes under the file's object id, recorded the pusher as
    owner and acknowledged completion. *)
Theorem push_stores_file `{Backend} `{Codec} `{HexCodec} `{Ed25519} `{Sha256} `{Aead} `{MemoryPool}
    e en requester data frames ns1 ns2 ns3 granted ack dn a d s rest c i srv v :
  let blob := FileTreeEntry.blob_id en in
  let ks := from_env e (e2e_domain (domain_of requester)) in
  let tmp := temp_path_for (server_fs i) blob in
  let ack0 := from_json FrameType.FilePutAck 0 (FilePutAck.mk blob [] false) in
  let ack1 := from_json FrameType.FilePutAck 0 (FilePutAck.mk blob (all_chunks (n_chunks data)) true) in
  let srv1 := mkSess v (tenants srv) (world srv) (Some (fresh_upload blob tmp (len data) (n_chunks data))) (out srv ++ [ack0]) in
  push_data e en (cdisk s) = Some data -> data <> [] -> len data < 2 ^ 62 -> n_chunks data <= 2 ^ 32 ->
  upload_replies ns1 ns2 ns3 granted ack dn a d ->
  Forall2 (fun k f => chunk_frame ks data k = Ok f) (all_chunks (n_chunks data)) frames ->
  Forall (fun f => is_ok (encode f) = true)
    (acquire_frame en requester :: put_frame_ en data :: release_frame en requester :: frames) ->
  inbox s = map arrives (ns1 ++ [granted]) ++ map arrives (ns2 ++ [ack]) ++ map arrives (ns3 ++ [dn]) ++ rest ->
  keys_fit ks (from_env (c_env c) (Some (user_domain i))) ->
  try_reserve_quota (c_env c) (db_up c) (user_domain i) (len data) (sv srv) = (true, v) ->
  fs_read (disk (world srv)) tmp = None -> tmp_ready tmp (disk (world srv)) ->
  is_ok (encode ack0) = true -> is_ok (encode ack1) = true ->
  (exists l, push_entry e en requester s =
     (Done tt, set_punched l (set_inbox rest (add_sent
        (acquire_frame en requester :: put_frame_ en data :: frames ++ [release_frame en requester]) s)))) /\
  on_file_put c i (FilePut.mk blob (n_chunks data) (len data)) srv = (Ok tt, srv1) /\
  exists w1, fs_read (disk w1) tmp = Some data /\
    match put_object (server_fs i) blob data w1 with
    | (Ok _, w2) =>
        run_chunks c i (map payload frames) srv1 =
          (Ok tt, mkSess (record_object_owner (user_domain i) blob (reg_machine i) v) (tenants srv)
                    (set_disk (default (disk w2) (fs_remove tmp (disk w2))) w2) None (out srv1 ++ [ack1]))
    | (Err m, w2) => fst (run_chunks c i (map payload frames) srv1) = Err (SMsg m)
    end.
Proof.
  intros blob ks tmp ack0 ack1 srv1 Hd Hne Hm Hn Hr Hf He Hin Hk Hq Hnone Hready He0 He1.
  split; [by eapply push_entry_sends|]. pose proof CHUNK_pos as HC.
  split; [apply (on_file_put_ready c i (FilePut.mk blob (n_chunks data) (len data)) srv v);
    cbn [FilePut.total_chunks FilePut.size FilePut.blob_id]; first [done|lia]|].
  assert (0 < n_chunks data) as Hpos.
  { apply (n_chunks_spec data 0); [lia|]. destruct data; [done|]. unfold len. cbn. lia. }
  assert (exists m, n_chunks data = Z.of_nat (S m)) as [m Em]
    by (exists (Z.to_nat (n_chunks data) - 1)%nat; lia).
  unfold all_chunks in Hf. rewrite Em, seqZ_S, Z.add_0_l in Hf.
  apply Forall2_app_inv_l in Hf as (init & lst & Hinit & Hlast & ->).
  apply Forall2_cons_inv_l in Hlast as (lf & nil & Hlf & Hnil & ->). apply Forall2_nil_inv_l in Hnil as ->.
  assert (Forall (fun k => 0 <= k < n_chunks data) (seqZ 0 (Z.of_nat m))) as Hrange.
  { apply Forall_forall. intros k Hk'%elem_of_seqZ. lia. }
  assert (Forall2 (carries (c_env c) (user_domain i) data) (map payload init) (seqZ 0 (Z.of_nat m))) as Hc1
    by (by eapply frames_carry).
  assert (Forall2 (carries (c_env c) (user_domain i) data) [payload lf] [Z.of_nat m]) as Hc2.
  { apply (frames_carry ks c i data [Z.of_nat m] [lf]); try done; repeat constructor; try done; lia. }
  inversion Hc2 as [|? ? ? ? Hcl _]; subst.
  destruct (upload_core c i data (map payload init) (seqZ 0 (Z.of_nat m)) (payload lf) (Z.of_nat m) [] srv1 blob tmp (len data))
    as (_ & w1 & Hw1 & _ & _ & _ & Hres); try done.
  - constructor; [lia|done].
  - lia.
  - intros Hin'%elem_of_seqZ. lia.
  - intros j Hj. destruct (decide (j = Z.of_nat m)) as [->|]; [by left|right]. apply elem_of_seqZ. lia.
  - exists w1. split; [exact Hw1|]. rewrite map_app. cbn [map].
    destruct (put_object (server_fs i) blob data w1) as [[u|msg] w2]; [|by rewrite Hres].
    rewrite Hres by exact He1. done.
Qed.

#[global] Transparent CHUNK_SIZE.

Definition demo_cli_env : env := fun v =>
  if decide (v = "NSMT_OBJECTS_DIR") then Some "/o" else if decide (v = "NSMT_SHARE_DIR") then Some "/s" else None.
Definition demo_stored : World := set_disk {[ resolve "/srv/objects/ab12" := File (as_bytes "hi") ]} demo_world.
Definition demo_srv (w : World) : Sess := mkSess demo_state ∅ w None [].
Definition demo_chunk : Frame := frame_new FrameType.FileChunk 0 (le_bytes 4 0 ++ as_bytes "hi").
Definition demo_noise : Frame := frame_new FrameType.OnlineDelta 0 [].
Definition demo_cli (l : list arrival) : Cli :=
  mkCli l [] [] {[ (true, ["o"]) := Dir; (true, ["o"; "ab12"]) := File (as_bytes "hi") ]} 0.

Lemma download_exact_witness :
  fst (get_object (H := ref_codec) demo_cli_env "ab12" "ser163"
    (demo_cli (in_flight (zip [[demo_noise]] [demo_chunk])))) = Done (Some (as_bytes "hi")).
Proof.
  destruct (download_exact (H0 := ref_codec) (H5 := demo_pool) demo_conn demo_ident (demo_srv demo_stored) demo_cli_env "ab12" "ser163" (as_bytes "hi") [demo_chunk] [[demo_noise]]
    (demo_cli (in_flight (zip [[demo_noise]] [demo_chunk]))) []) as [_ [l Hl]].
  - vm_compute. reflexivity.
  - vm_compute. exact I.
  - vm_compute. reflexivity.
  - vm_compute. reflexivity.
  - change (len (as_bytes "hi") / CHUNK_SIZE + 1) with 1. repeat constructor.
  - repeat constructor.
  - intros k Hk. change (len (as_bytes "hi") / CHUNK_SIZE) with 0 in Hk. assert (k = 0) as -> by lia. vm_compute. reflexivity.
  - repeat constructor; discriminate.
  - reflexivity.
  - rewrite app_nil_r. reflexivity.
  - rewrite Hl. reflexivity.
Defined.

Definition demo_entry_ab : entry := FileTreeEntry.mk "a.md" "ab12" 420 2 1.
Definition demo_granted : Frame := frame_new FrameType.LockGranted 0 [].
Definition demo_ack : FilePutAck.t := FilePutAck.mk "ab12" [] false.
Definition demo_done : FilePutAck.t := FilePutAck.mk "ab12" [0] true.
Definition demo_ack_frame (a : FilePutAck.t) : Frame := from_json (H := @codec_FilePutAck ref_codec) FrameType.FilePutAck 0 a.
Definition demo_arrivals : list arrival :=
  map arrives ([demo_noise] ++ [demo_granted]) ++ map arrives ([] ++ [demo_ack_frame demo_ack]) ++
  map arrives ([demo_noise] ++ [demo_ack_frame demo_done]) ++ [].

Lemma demo_replies :
  upload_replies (H := ref_codec) [demo_noise] [] [demo_noise] demo_granted (demo_ack_frame demo_ack) (demo_ack_frame demo_done)
    demo_ack demo_done.
Proof.
  split; try reflexivity.
  - intros n ->%list_elem_of_singleton. split; discriminate.
  - split_and!; [reflexivity|by vm_compute|reflexivity].
  - intros n Hn. by apply elem_of_nil in Hn.
  - split; [reflexivity|by vm_compute].
  - intros n ->%list_elem_of_singleton. discriminate.
Qed.

Lemma push_stores_file_witness :
  fst (push_entry (H := ref_codec) demo_cli_env demo_entry_ab "ser163/m1/maka" (demo_cli demo_arrivals)) = Done tt /\
  exists w1, fs_read (disk w1) demo_tmp = Some (as_bytes "hi").
Proof.
  pose proof (push_stores_file (H0 := ref_codec) (H5 := demo_pool) demo_cli_env demo_entry_ab
    "ser163/m1/maka" (as_bytes "hi") [demo_chunk] [demo_noise] [] [demo_noise] demo_granted (demo_ack_frame demo_ack)
    (demo_ack_frame demo_done) demo_ack demo_done (demo_cli demo_arrivals) [] demo_conn demo_ident
    (mkSess demo_state ∅ demo_world None [])
    (snd (try_reserve_quota (c_env demo_conn) (db_up demo_conn) "ser163" 2 demo_state))) as Hp.
  cbv zeta in Hp. destruct Hp as ([l Hl] & _ & w1 & Hw1 & _).
  - vm_compute. reflexivity.
  - discriminate.
  - vm_compute. reflexivity.
  - vm_compute. discriminate.
  - exact demo_replies.
  - change (all_chunks (n_chunks (as_bytes "hi"))) with [0]. repeat constructor.
  - repeat constructor.
  - reflexivity.
  - vm_compute. exact I.
  - apply fst_pair. vm_compute. reflexivity.
  - vm_compute. reflexivity.
  - exists (default ∅ (create_parent demo_tmp ∅)).
    split; [apply some_default; vm_compute; reflexivity|]. split; vm_compute; reflexivity.
  - vm_compute. reflexivity.
  - vm_compute. reflexivity.
  - split; [by rewrite Hl|]. by exists w1.
Defined.
