(* ===== verification/Peer.v ===== *)
(** * Peers

    The direct connections between clients of one domain
    ([nsmt-client/src/main.rs]): mutual authentication with the domain key, the
    serving side and the fetch.  A second connection is a run of the client monad
    on its own inbox. *)

From S2P Require Import Prelude Paths Wire Messages Codec Crypto Store Tree Memory Session Share Client.

Record PeerCtx : Type := mkPeerCtx {
  p_domain : string;
  p_machine : string;
  p_agent : string;
  p_pubkey : string;
  p_machine_key : KeyPair;
  p_domain_key : KeyPair;
}.

(** How a dialled address answers: it cannot be reached, or these frames come in. *)
Abbreviation Network := (string -> result string (list arrival)).

(** [m] on a connection of its own; its error is a value for the caller. *)
Definition on_connection {A} (l : list arrival) (m : C A) : C (result serr A) := fun s =>
  match m (mkCli l [] (punched s) (cdisk s) (ticks s)) with
  | (Done a, s') => (Done (Ok a), mkCli (inbox s) (sent s) (punched s') (cdisk s') (ticks s'))
  | (Failed e, s') => (Done (Err e), mkCli (inbox s) (sent s) (punched s') (cdisk s') (ticks s'))
  | (Waits, s') => (Waits, mkCli (inbox s) (sent s) (punched s') (cdisk s') (ticks s'))
  end.

(** [fs.recv().await?] with the end of the stream as a value. *)
Definition crecv_opt : C (option Frame) := fun s =>
  match inbox s with
  | [] => (Waits, s)
  | r :: rest =>
      (match r with Ok o => Done o | Err e => Failed (SErr e) end,
       mkCli rest (sent s) (punched s) (cdisk s) (ticks s))
  end.

Section Peer.
Context `{Codec} `{HexCodec} `{Ed25519} `{Sha256} `{Aead}.

Definition peer_hello (ctx : PeerCtx) : PeerHello.t :=
  PeerHello.mk (p_domain ctx) (p_machine ctx) (p_agent ctx) (p_pubkey ctx).

(** What a side proves itself with. *)
Definition peer_proof (ctx : PeerCtx) (nonce : string) : PeerAuthOk.t :=
  PeerAuthOk.mk (p_machine ctx) (p_agent ctx) (p_pubkey ctx) (sign (p_domain_key ctx) (as_bytes nonce)).

Definition peer_nonce (now : Z) (machine : string) : string := "nsmt-peer-" +:+ dec now +:+ "-" +:+ machine.

Definition peer_initiate (self : Self) (ctx : PeerCtx) : C (string * string) :=
  _ <~~ csend_json FrameType.PeerHello (peer_hello ctx);
  f <~~ read_until (s_env self) FrameType.PeerAuth;
  auth <~~ clift (payload_json (T := PeerAuth.t) f);
  _ <~~ csend_json FrameType.PeerAuthOk (peer_proof ctx (PeerAuth.nonce auth));
  f <~~ read_until (s_env self) FrameType.PeerAuthOk;
  ok <~~ clift (payload_json (T := PeerAuthOk.t) f);
  if verify (public_hex (p_domain_key ctx)) (as_bytes (PeerAuth.nonce auth)) (PeerAuthOk.signature ok)
  then cret (PeerAuthOk.machine_id ok, PeerAuthOk.machine_pubkey ok)
  else cfail (SMsg "peer auth failed: bad responder signature").

Definition peer_respond (self : Self) (ctx : PeerCtx) : C (string * string) :=
  f <~~ read_until (s_env self) FrameType.PeerHello;
  hello <~~ clift (payload_json (T := PeerHello.t) f);
  if negb (bool_decide (PeerHello.user_domain hello = p_domain ctx))
  then cfail (SMsg "peer auth failed: domain mismatch")
  else
    n <~~ tick;
    let nonce := peer_nonce (clock self n) (PeerHello.machine_id hello) in
    _ <~~ csend_json FrameType.PeerAuth (PeerAuth.mk nonce);
    f <~~ read_until (s_env self) FrameType.PeerAuthOk;
    ok <~~ clift (payload_json (T := PeerAuthOk.t) f);
    if verify (public_hex (p_domain_key ctx)) (as_bytes nonce) (PeerAuthOk.signature ok)
    then
      _ <~~ csend_json FrameType.PeerAuthOk (peer_proof ctx nonce);
      cret (PeerHello.machine_id hello, PeerHello.machine_pubkey hello)
    else cfail (SMsg "peer auth failed: bad signature").

(** [peer_authenticate] *)
Definition peer_authenticate (self : Self) (ctx : PeerCtx) (is_initiator : bool) : C (string * string) :=
  if is_initiator then peer_initiate self ctx else peer_respond self ctx.

Definition fetch_from_peer (net : Network) (self : Self) (addr blob : string) (ctx : PeerCtx)
    : C (result serr (option bytes)) :=
  match net addr with
  | Err m => cret (Err (SMsg m))
  | Ok l => on_connection l (_ <~~ peer_authenticate self ctx true; get_object (s_env self) blob (p_domain ctx))
  end.

(** One request served; [index * CHUNK_SIZE] wraps as on the server. *)
Definition serve_get (self : Self) (ctx : PeerCtx) (g : FileGet.t) : C unit :=
  fs <~~ get_disk;
  match fs_read fs (path_join (objects_dir (s_env self)) (FileGet.blob_id g)) with
  | Some data =>
      let idx := default 0 (FileGet.chunk_index g) in
      let chunk := chunk_of data idx in
      match from_env (s_env self) (Some (p_domain ctx)) with
      | Some k =>
          enc <~~ clift (e2e_encrypt k chunk idx);
          csend (mkFrame FrameType.FileChunk (u8_of 1) 0 (le_bytes 4 idx ++ enc))
      | None => csend (frame_new FrameType.FileChunk 0 (le_bytes 4 idx ++ chunk))
      end
  | None => csend_json FrameType.Error (ErrorMsg.mk "0xE020" "object not found" None)
  end.

Fixpoint serve_loop (self : Self) (ctx : PeerCtx) (l : list arrival) : C unit :=
  match l with
  | [] => fun s => (Waits, s)
  | _ :: l' =>
      o <~~ crecv_opt;
      match o with
      | None => cret tt
      | Some f =>
          _ <~~ (match frame_type f with
                 | FrameType.FileGet => g <~~ clift (payload_json f); serve_get self ctx g
                 | _ => cret tt
                 end);
          serve_loop self ctx l'
      end
  end.

(** [serve_peer]: a failed authentication ends the connection quietly. *)
Definition serve_peer (self : Self) (ctx : PeerCtx) : C unit := fun s =>
  match peer_authenticate self ctx false s with
  | (Done _, s') => serve_loop self ctx (inbox s') s'
  | (Failed _, s') => (Done tt, s')
  | (Waits, s') => (Waits, s')
  end.
End Peer.

(** ** Lemmas *)

Section PeerFacts.
Context `{Codec} `{HexCodec} `{Ed25519} `{Sha256} `{Aead}.

(** A frame of the wanted type at the head is taken. *)
Lemma read_until_head e want f rest s :
  frame_type f = want -> inbox s = arrives f :: rest ->
  exists l, read_until e want s = (Done f, set_punched l (set_inbox rest s)).
Proof.
  intros Hf Hin. eapply (recv_loop_skip _ (wanted want) [] f f rest s (pure_hint e (wanted want))); [set_solver| |exact Hin].
  unfold wanted. by rewrite decide_True.
Qed.

(** What a waiting loop can do: take frames, nothing else. *)
Lemma recv_loop_inv {A} (step : Frame -> C (option A)) pick l s r s' :
  pure_step step pick -> recv_loop_on step l s = (r, s') ->
  sent s' = sent s /\ (forall x, x ∈ inbox s' -> x ∈ inbox s) /\
  forall a, r = Done a -> exists f, arrives f ∈ inbox s /\ pick f = Some a.
Proof.
  intros Hp. revert s. induction l as [|x l IH]; intros s Hr; [by injection Hr as <- <-|].
  cbn [recv_loop_on] in Hr. unfold cbind in Hr. unfold crecv in Hr at 1.
  destruct (inbox s) as [|y rest] eqn:Ein; [injection Hr as <- <-; rewrite Ein; done|].
  destruct y as [[f|]|]; cycle 1; [injection Hr as <- <-; cbn; set_solver..|].
  destruct (Hp f (mkCli rest (sent s) (punched s) (cdisk s) (ticks s))) as [pl E]. rewrite E in Hr.
  destruct (pick f) as [b|] eqn:Epk.
  - injection Hr as <- <-. cbn. split_and!; [done|set_solver|].
    intros a0 [= <-]. exists f. split; [by left|done].
  - apply IH in Hr as (E1 & E2 & E3). cbn in E1, E2, E3. split_and!; [done|set_solver|].
    intros a0 Ha. destruct (E3 a0 Ha) as (g & Hg & Hpk). exists g. split; [by right|done].
Qed.

Lemma read_until_inv e want s r s' :
  read_until e want s = (r, s') ->
  sent s' = sent s /\ (forall x, x ∈ inbox s' -> x ∈ inbox s) /\
  forall f, r = Done f -> arrives f ∈ inbox s /\ frame_type f = want.
Proof.
  intros Hr. destruct (recv_loop_inv _ _ _ _ _ _ (pure_hint e (wanted want)) Hr) as (E1 & E2 & E3).
  split_and!; [done|done|]. intros f Hf. destruct (E3 f Hf) as (g & Hg & Hw).
  unfold wanted in Hw. case_decide; [|done]. by injection Hw as <-.
Qed.

Lemma csend_json_done {T} `{Serde T} ty (v : T) s :
  is_ok (encode (from_json ty 0 v)) = true -> csend_json ty v s = (Done tt, add_sent [from_json ty 0 v] s).
Proof. apply csend_done. Qed.

Lemma csend_inv f s r s' : csend f s = (r, s') ->
  (s' = s \/ s' = add_sent [f] s) /\ forall u, r = Done u -> s' = add_sent [f] s.
Proof. unfold csend, cbind, clift. destruct (encode f); intros [= <- <-]; split; auto; done. Qed.
End PeerFacts.

(** The peer proved that it holds the domain key. *)
Definition proved `{Codec} `{HexCodec} `{Ed25519} (self : Self) (ctx : PeerCtx) (l : list arrival) : Prop :=
  exists hello ok n,
    (exists g, arrives g ∈ l /\ frame_type g = FrameType.PeerHello /\ payload_json g = Ok hello) /\
    PeerHello.user_domain hello = p_domain ctx /\
    (exists g, arrives g ∈ l /\ frame_type g = FrameType.PeerAuthOk /\ payload_json g = Ok ok) /\
    verify (public_hex (p_domain_key ctx)) (as_bytes (peer_nonce (clock self n) (PeerHello.machine_id hello)))
      (PeerAuthOk.signature ok) = true.

Lemma peer_respond_cases `{Codec} `{HexCodec} `{Ed25519} `{Sha256} `{Aead} self ctx s b s1 f :
  f ∉ sent s -> frame_type f <> FrameType.PeerAuth -> peer_authenticate self ctx false s = (b, s1) ->
  proved self ctx (inbox s) \/ ((forall x, b <> Done x) /\ f ∉ sent s1).
Proof.
  intros Hnot Hty.
  cbn [peer_authenticate]. unfold peer_respond. unfold cbind at 1.
  destruct (read_until _ FrameType.PeerHello s) as [[g|x|] s2] eqn:E1;
    apply read_until_inv in E1 as (S1 & I1 & F1); [|intros [= <- <-]; right; by rewrite S1|intros [= <- <-]; right; by rewrite S1].
  destruct (F1 g eq_refl) as [G1 G2]. unfold cbind at 1. unfold clift at 1.
  destruct (payload_json g) as [hello|] eqn:Ep; [|intros [= <- <-]; right; by rewrite S1]. unfold cret at 1.
  destruct (bool_decide_reflect (PeerHello.user_domain hello = p_domain ctx)) as [Hd|Hd]; cbn [negb];
    [|intros [= <- <-]; right; by rewrite S1].
  unfold cbind at 1. cbn [tick]. set (n := ticks s2). unfold cbind at 1.
  destruct (csend_json FrameType.PeerAuth _ _) as [[u|x|] s3] eqn:E2;
    apply csend_inv in E2 as [[->| ->] _].
  all: try (intros [= <- <-]; right; split; [done|]; cbn [add_sent sent]; rewrite S1, ?not_elem_of_app; set_solver).
  all: unfold cbind at 1;
    destruct (read_until _ FrameType.PeerAuthOk _) as [[g'|x|] s4] eqn:E3;
    apply read_until_inv in E3 as (S3 & I3 & F3); cbn [add_sent sent inbox] in S3, I3, F3.
  all: try (intros [= <- <-]; right; split; [done|]; rewrite S3, S1; set_solver).
  all: destruct (F3 g' eq_refl) as [G3 G4]; unfold cbind at 1; unfold clift at 1;
    destruct (payload_json g') as [ok|] eqn:Ep2;
    [|intros [= <- <-]; right; split; [done|]; rewrite S3, S1; set_solver].
  all: unfold cret at 1; destruct (verify _ _ _) eqn:Ev;
    [|intros [= <- <-]; right; split; [done|]; rewrite S3, S1; set_solver].
  all: intros _; left; exists hello, ok, n; split_and!; eauto.
Qed.

(** ** Properties *)


(** The frames of a mutual authentication over [nonce]. *)
Definition hello_frame `{Codec} (ctx : PeerCtx) : Frame := from_json FrameType.PeerHello 0 (peer_hello ctx).
Definition auth_frame `{Codec} (nonce : string) : Frame := from_json FrameType.PeerAuth 0 (PeerAuth.mk nonce).
Definition proof_frame `{Codec} `{HexCodec} `{Ed25519} (ctx : PeerCtx) (nonce : string) : Frame :=
  from_json FrameType.PeerAuthOk 0 (peer_proof ctx nonce).

(** Running one side on frames in order. *)
Lemma initiate_runs `{CodecLaws} `{HexCodec} `{Ed25519} `{Sha256} `{Aead} self ctx s nonce ok rest :
  let okf := from_json FrameType.PeerAuthOk 0 ok in
  is_ok (encode (hello_frame ctx)) = true -> is_ok (encode (proof_frame ctx nonce)) = true ->
  inbox s = arrives (auth_frame nonce) :: arrives okf :: rest ->
  verify (public_hex (p_domain_key ctx)) (as_bytes nonce) (PeerAuthOk.signature ok) = true ->
  exists l, peer_authenticate self ctx true s =
    (Done (PeerAuthOk.machine_id ok, PeerAuthOk.machine_pubkey ok),
     set_punched l (set_inbox rest (add_sent [hello_frame ctx; proof_frame ctx nonce] s))).
Proof.
  intros okf Eh Ep Hin Hv. cbn [peer_authenticate]. unfold peer_initiate.
  rewrite (cbind_done _ _ _ _ _ (csend_json_done FrameType.PeerHello (peer_hello ctx) s Eh)).
  destruct (read_until_head (s_env self) FrameType.PeerAuth (auth_frame nonce) (arrives okf :: rest)
    (add_sent [hello_frame ctx] s) eq_refl Hin) as [l1 E1].
  rewrite (cbind_done _ _ _ _ _ E1). unfold auth_frame at 1. rewrite payload_from_json. unfold clift at 1.
  erewrite cbind_done by reflexivity. cbn [PeerAuth.nonce].
  rewrite (cbind_done _ _ _ _ _ (csend_json_done FrameType.PeerAuthOk (peer_proof ctx nonce) _ Ep)).
  match goal with |- context [cbind (read_until _ FrameType.PeerAuthOk) _ ?st] =>
    destruct (read_until_head (s_env self) FrameType.PeerAuthOk okf rest st eq_refl eq_refl) as [l2 E2] end.
  rewrite (cbind_done _ _ _ _ _ E2). unfold okf at 1. rewrite payload_from_json. unfold clift at 1.
  erewrite cbind_done by reflexivity. rewrite Hv. exists l2.
  unfold cret, set_punched, set_inbox, add_sent. cbn. by rewrite <- app_assoc.
Qed.

Lemma respond_runs `{CodecLaws} `{HexCodec} `{Ed25519} `{Sha256} `{Aead} self ctx s hello ok rest :
  let nonce := peer_nonce (clock self (ticks s)) (PeerHello.machine_id hello) in
  is_ok (encode (auth_frame nonce)) = true -> is_ok (encode (proof_frame ctx nonce)) = true ->
  PeerHello.user_domain hello = p_domain ctx ->
  inbox s = arrives (from_json FrameType.PeerHello 0 hello) :: arrives (from_json FrameType.PeerAuthOk 0 ok) :: rest ->
  verify (public_hex (p_domain_key ctx)) (as_bytes nonce) (PeerAuthOk.signature ok) = true ->
  exists s', peer_authenticate self ctx false s =
    (Done (PeerHello.machine_id hello, PeerHello.machine_pubkey hello), s') /\
    sent s' = sent s ++ [auth_frame nonce; proof_frame ctx nonce] /\ inbox s' = rest.
Proof.
  intros nonce Ea Ep Hd Hin Hv. cbn [peer_authenticate]. unfold peer_respond.
  destruct (read_until_head (s_env self) FrameType.PeerHello (from_json FrameType.PeerHello 0 hello) _ s eq_refl Hin) as [l1 E1].
  rewrite (cbind_done _ _ _ _ _ E1), payload_from_json. unfold clift at 1. erewrite cbind_done by reflexivity.
  rewrite bool_decide_eq_true_2 by exact Hd. cbn [negb]. erewrite cbind_done by reflexivity.
  cbn [ticks set_punched set_inbox]. fold nonce.
  erewrite cbind_done by (by apply csend_json_done).
  match goal with |- context [cbind (read_until _ FrameType.PeerAuthOk) _ ?st] =>
    assert (inbox st = arrives (from_json FrameType.PeerAuthOk 0 ok) :: rest) as Hin' by reflexivity;
    destruct (read_until_head (s_env self) FrameType.PeerAuthOk (from_json FrameType.PeerAuthOk 0 ok) rest st eq_refl Hin') as [l2 E2] end.
  rewrite (cbind_done _ _ _ _ _ E2), payload_from_json. unfold clift at 1. erewrite cbind_done by reflexivity.
  rewrite Hv. erewrite cbind_done by (by apply csend_json_done). eexists. split; [done|].
  unfold set_punched, set_inbox, add_sent. cbn. by rewrite <- app_assoc.
Qed.

(** C31: Two machines of one domain authenticate each other: fed with each other's
    frames, the initiator and the responder both finish, each with the other's
    machine id and key, when they share the domain and its key. *)
Theorem peer_mutual_auth `{CodecLaws} `{HexLaws} `{Ed25519Laws} `{Sha256} `{Aead} selfa selfb a b sa sb :
  let nonce := peer_nonce (clock selfb (ticks sb)) (p_machine a) in
  p_domain a = p_domain b -> p_domain_key a = p_domain_key b -> keypair_wf (p_domain_key a) ->
  Forall (fun f => is_ok (encode f) = true) [hello_frame a; auth_frame nonce; proof_frame a nonce; proof_frame b nonce] ->
  sent sa = [] -> sent sb = [] ->
  inbox sa = map arrives [auth_frame nonce; proof_frame b nonce] ->
  inbox sb = map arrives [hello_frame a; proof_frame a nonce] ->
  exists sa' sb',
    peer_authenticate selfa a true sa = (Done (p_machine b, p_pubkey b), sa') /\
    peer_authenticate selfb b false sb = (Done (p_machine a, p_pubkey a), sb') /\
    inbox sb = map arrives (sent sa') /\ inbox sa = map arrives (sent sb').
Proof.
  intros nonce Hd Hk Hwf Henc Sa Sb Ia Ib.
  apply Forall_cons in Henc as [E1 Henc]. apply Forall_cons in Henc as [E2 Henc].
  apply Forall_cons in Henc as [E3 Henc]. apply Forall_cons in Henc as [E4 _].
  destruct (initiate_runs selfa a sa nonce (peer_proof b nonce) [] E1 E3 Ia) as [l Ea].
  { cbn. rewrite <- Hk. by apply verify_sign. }
  destruct (respond_runs selfb b sb (peer_hello a) (peer_proof a nonce) [] E2 E4 Hd Ib) as (sb' & Eb & Hsb & _).
  { cbn. fold nonce. rewrite <- Hk. by apply verify_sign. }
  eexists _, sb'. split_and!; [exact Ea|exact Eb| |].
  - rewrite Ib. cbn. by rewrite Sa.
  - by rewrite Ia, Hsb, Sb.
Qed.

(** The initiator accepts its own proof: both sides sign the bare nonce with the
    same key, so a peer that knows no key at all and only sends any nonce and then
    the initiator's [PEER_AUTH_OK] back passes for a machine of the domain. *)
Theorem peer_reflection `{CodecLaws} `{HexLaws} `{Ed25519Laws} `{Sha256} `{Aead} self ctx nonce s :
  keypair_wf (p_domain_key ctx) ->
  is_ok (encode (hello_frame ctx)) = true -> is_ok (encode (proof_frame ctx nonce)) = true ->
  sent s = [] -> inbox s = map arrives [auth_frame nonce; proof_frame ctx nonce] ->
  exists s', peer_authenticate self ctx true s = (Done (p_machine ctx, p_pubkey ctx), s') /\
    proof_frame ctx nonce ∈ sent s'.
Proof.
  intros Hwf E1 E2 Hs Hin.
  destruct (initiate_runs self ctx s nonce (peer_proof ctx nonce) [] E1 E2 Hin) as [l Ea].
  { by apply verify_sign. }
  eexists. split; [exact Ea|]. cbn. rewrite Hs. set_solver.
Qed.

Definition demo_ctx (m : string) : PeerCtx := mkPeerCtx "ser163" m "maka" (public_hex demo_key) demo_key demo_key.
Definition demo_self : Self := mkSelf demo_cli_env (fun _ => 7) (fun _ _ => 1).
Definition demo_nonce : string := peer_nonce 7 "m1".
Definition demo_initiator : Cli :=
  demo_cli (map arrives [auth_frame (H := ref_codec) demo_nonce; proof_frame (H := ref_codec) (demo_ctx "m2") demo_nonce]).
Definition demo_responder : Cli :=
  demo_cli (map arrives [hello_frame (H := ref_codec) (demo_ctx "m1"); proof_frame (H := ref_codec) (demo_ctx "m1") demo_nonce]).

Lemma demo_key_wf : keypair_wf demo_key.
Proof. by apply generate_wf. Qed.

Lemma peer_mutual_auth_witness :
  fst (peer_authenticate (H := ref_codec) demo_self (demo_ctx "m1") true demo_initiator) = Done ("m2", public_hex demo_key).
Proof.
  destruct (peer_mutual_auth (H := ref_codec) (H0 := ref_codec_laws) demo_self demo_self (demo_ctx "m1") (demo_ctx "m2")
    demo_initiator demo_responder) as (sa' & sb' & E & _).
  - reflexivity.
  - reflexivity.
  - exact demo_key_wf.
  - repeat constructor.
  - reflexivity.
  - reflexivity.
  - reflexivity.
  - reflexivity.
  - rewrite E. reflexivity.
Defined.

Definition demo_mirror : Cli :=
  demo_cli (map arrives [auth_frame (H := ref_codec) "x"; proof_frame (H := ref_codec) (demo_ctx "m1") "x"]).

Lemma peer_reflection_witness :
  fst (peer_authenticate (H := ref_codec) demo_self (demo_ctx "m1") true demo_mirror) = Done ("m1", public_hex demo_key).
Proof.
  destruct (peer_reflection (H := ref_codec) (H0 := ref_codec_laws) demo_self (demo_ctx "m1") "x" demo_mirror)
    as (s' & E & _).
  - exact demo_key_wf.
  - vm_compute. reflexivity.
  - vm_compute. reflexivity.
  - reflexivity.
  - reflexivity.
  - rewrite E. reflexivity.
Defined.

Definition demo_request : Frame := from_json (H := @codec_FileGet ref_codec) FrameType.FileGet 0 (FileGet.mk "ab12" (Some 0)).
Definition demo_serving : Cli := mkCli
  (map arrives [hello_frame (H := ref_codec) (demo_ctx "m1"); proof_frame (H := ref_codec) (demo_ctx "m1") demo_nonce; demo_request])
  [] [] (cdisk (demo_cli [])) 0.

