(* ===== verification/Sync.v ===== *)
(** * The client program

    [nsmt-client/src/main.rs] after the connection is up: handshake, memory
    commands, the note about the shared directory, the synchronisation loop and the
    online loop.  What a command prints last is its value; the file watcher and the
    timers are the events of a loop. *)

From S2P Require Import Prelude Paths Wire Messages Codec Crypto Store State Tree Memory Tenants Registry Session Share Client Peer.

Section Sync.
Context `{Codec} `{HexCodec} `{Ed25519} `{Sha256} `{Aead} `{Gateway}.

(** [m]'s error as a value. *)
Definition ctry {A} (m : C A) : C (result serr A) := fun s =>
  match m s with
  | (Done a, s') => (Done (Ok a), s')
  | (Failed e, s') => (Done (Err e), s')
  | (Waits, s') => (Waits, s')
  end.

Definition now_ms (self : Self) : C Z := n <~~ tick; cret (clock self n).

(** ** Handshake *)

Definition client_hello (domain : string) : Hello.t := Hello.mk domain PROTOCOL_VERSION "yggd/0.2.1".

Definition client_register (agent machine peer_addr : string) (machine_key : KeyPair) : Register.t :=
  Register.mk machine agent peer_addr (public_hex machine_key) (sign machine_key (register_msg machine agent)).

Definition client_handshake (domain agent machine peer_addr : string) (domain_key machine_key : KeyPair) : C unit :=
  _ <~~ csend_json FrameType.Hello (client_hello domain);
  f <~~ crecv;
  ack <~~ clift (payload_json (T := HelloAck.t) f);
  _ <~~ csend_json FrameType.Auth (Auth.mk domain (sign domain_key (as_bytes (HelloAck.nonce ack))));
  _ <~~ csend_json FrameType.Register (client_register agent machine peer_addr machine_key);
  f <~~ crecv;
  _ <~~ clift (payload_json (T := RegisterAck.t) f);
  cret tt.

(** ** Memory *)

(** A broadcast is parsed to be printed. *)
Definition broadcast_step {A} (f : Frame) : C (option A) :=
  match frame_type f with
  | FrameType.OnlineDelta => _ <~~ clift (payload_json (T := OnlineDelta.t) f); cret None
  | FrameType.OnlineList => _ <~~ clift (payload_json (T := OnlineList.t) f); cret None
  | _ => cret None
  end.

(** A loop that waits for a result and checks the broadcasts it prints. *)
Definition await {A} (want : FrameType.t) (take_ : Frame -> result NsmtError (option A)) : C A :=
  recv_loop (fun f =>
    if decide (frame_type f = want) then clift (take_ f)
    else broadcast_step f).

Definition bool_str (b : bool) : string := if b then "true" else "false".

(** [capture]: the pool through the server, then the local fallback, whose failure
    is only logged. *)
Definition capture_cmd (self : Self) (fallback : TencentClient) (fqn user assistant : string) : C string :=
  t1 <~~ now_ms self;
  t2 <~~ now_ms self;
  _ <~~ csend_json FrameType.MemoryCapture
          (MemoryCapture.mk ("cap-" +:+ dec t1) user assistant "user" fqn t2);
  r <~~ await FrameType.MemoryCaptureResult (fun f => rmap Some (payload_json (T := MemoryCaptureResult.t) f));
  let _ := capture_local fallback user assistant fqn in
  cret ("capture: pool_committed=" +:+ bool_str (MemoryCaptureResult.committed r) +:+ " local_written=yes fqn=" +:+ fqn).

(** [recall]: the source that is printed and its memories. *)
Definition recall_cmd (self : Self) (fallback : TencentClient) (query : string) : C (string * list MemoryHit.t) :=
  t <~~ now_ms self;
  _ <~~ csend_json FrameType.MemoryRecall (MemoryRecall.mk ("rec-" +:+ dec t) query "user" 5 1500 true);
  r <~~ await FrameType.MemoryRecallResult (fun f => rmap Some (payload_json (T := MemoryRecallResult.t) f));
  if bool_decide (MemoryRecallResult.source r = "pool_unavailable") ||
     match MemoryRecallResult.memories r with [] => true | _ => false end
  then match recall_local fallback query "rec-local" with
       | Ok l => cret ("local", MemoryRecallResult.memories l)
       | Err _ => cfail (SMsg "recall_local")
       end
  else cret ("pool", MemoryRecallResult.memories r).

(** [write_share_dir_note]; [abs] is the canonical path of the shared directory. *)
Definition note_marker (e : env) : string :=
  match e "NSMT_HOME" with
  | Some h => path_join h "share.path"
  | None => match e "HOME" with
            | Some h => path_join h ".nsmt/share.path"
            | None => ".nsmt/share.path"
            end
  end.

Definition write_share_dir_note (self : Self) (fallback : TencentClient) (fqn abs : string) : C unit :=
  fs <~~ get_disk;
  let marker := note_marker (s_env self) in
  if fs_exists fs marker then cret tt
  else
    let note := "[nsmt:share_dir] 共享目录: " +:+ abs in
    t <~~ now_ms self;
    let request_id := "note-" +:+ dec t in
    t2 <~~ now_ms self;
    _ <~~ csend_json FrameType.MemoryCapture (MemoryCapture.mk request_id note "(system)" "user" fqn t2);
    _ <~~ await FrameType.MemoryCaptureResult (fun f =>
            r <-? payload_json (T := MemoryCaptureResult.t) f;
            Ok (if decide (MemoryCaptureResult.request_id r = request_id) then Some r else None));
    let _ := capture_local fallback note "(system)" "nsmt:system" in
    fs <~~ get_disk;
    let fs1 := default fs (create_parent marker fs) in
    put_disk (default fs1 (fs_write marker (as_bytes abs) fs1)).

(** ** Synchronisation *)

Definition peer_addr_hint (e : env) (blob : string) : C (option string) :=
  _ <~~ csend_json FrameType.FileGet (FileGet.mk blob (Some 0));
  f <~~ get_answer e;
  match frame_type f with
  | FrameType.Error =>
      m <~~ clift (payload_json (T := ErrorMsg.t) f);
      cret (strip_prefix "object not found; peer=" (ErrorMsg.message m))
  | _ => cret None
  end.

Definition pull_object_with_peer (net : Network) (self : Self) (en : entry) (fqn : string) (ctx : PeerCtx) : C (option bytes) :=
  o <~~ get_object (s_env self) (FileTreeEntry.blob_id en) (domain_of fqn);
  match o with
  | Some b => cret (Some b)
  | None =>
      h <~~ peer_addr_hint (s_env self) (FileTreeEntry.blob_id en);
      match h with
      | Some peer =>
          r <~~ fetch_from_peer net self peer (FileTreeEntry.blob_id en) ctx;
          cret (match r with Ok o => o | Err _ => None end)
      | None => cret None
      end
  end.

Definition build_local (self : Self) : C (option FileTree.t) :=
  n <~~ tick; fs <~~ get_disk; cret (build_tree (mtimes self n) (share_dir (s_env self)) fs).

(** Materialize a pulled object and keep it in the cache. *)
Definition store_pulled (self : Self) (en : entry) (b : bytes) (fqn : string) : C unit :=
  t <~~ now_ms self;
  fs <~~ get_disk;
  _ <~~ (match materialize_with_conflict (s_env self) en b fqn t fs with
         | Written fs' | LinkMade _ _ fs' => put_disk fs'
         | MatError fs' => _ <~~ put_disk fs'; cfail (SMsg "materialize")
         end);
  fs <~~ get_disk;
  fs' <~~ cio "ensure" (ensure_object_local (s_env self) (FileTreeEntry.blob_id en) b fs);
  put_disk fs'.

Definition find_entry (p : string) (t : FileTree.t) : option entry :=
  List.find (fun e => bool_decide (FileTreeEntry.path e = p)) (FileTree.entries t).

Fixpoint pull_changed (net : Network) (self : Self) (fqn : string) (ctx : PeerCtx) (remote : FileTree.t) (ps : list string) : C unit :=
  match ps with
  | [] => cret tt
  | p :: ps' =>
      _ <~~ (match find_entry p remote with
             | Some en =>
                 o <~~ pull_object_with_peer net self en fqn ctx;
                 match o with Some b => store_pulled self en b fqn | None => cret tt end
             | None => cret tt
             end);
      pull_changed net self fqn ctx remote ps'
  end.

(** [remove_file(dir.join(p))] for each removed path; errors are dropped. *)
Definition drop_removed (self : Self) (ps : list string) : C unit :=
  fs <~~ get_disk;
  put_disk (fold_left (fun fs p => default fs (fs_remove (path_join (share_dir (s_env self)) p) fs)) ps fs).

(** The first round of [fs_mode]: pull, then push the merged tree. *)
Definition initial_sync (net : Network) (self : Self) (fqn : string) (ctx : PeerCtx) : C FileTree.t :=
  fs <~~ get_disk;
  fs1 <~~ cio "create_dir_all" (create_dir_all (share_dir (s_env self)) fs);
  _ <~~ put_disk fs1;
  t0 <~~ build_local self;
  t0 <~~ cio "build_tree" t0;
  d <~~ ctry (request_diff (s_env self) (FileTree.tree_hash t0));
  t <~~ (match d with
         | Ok d =>
             _ <~~ (match FileDiffResult.tree d with
                    | Some remote =>
                        _ <~~ pull_changed net self fqn ctx remote (FileDiffResult.changed d);
                        drop_removed self (FileDiffResult.removed d)
                    | None => cret tt
                    end);
             t <~~ build_local self;
             cret (default t0 t)
         | Err _ => cret t0
         end);
  _ <~~ sync_push (s_env self) t fqn;
  cret t.

Inductive fs_event : Set := LocalChange | PullTimer.

(** One turn of the loop: the last pull and the tree the client believes in. *)
Definition fs_turn (net : Network) (self : Self) (fqn : string) (ctx : PeerCtx) (ev : fs_event)
    (st : Z * FileTree.t) : C (Z * FileTree.t) :=
  let '(last_pull, t) := st in
  match ev with
  | LocalChange =>
      o <~~ build_local self;
      match o with
      | Some t' => _ <~~ sync_push (s_env self) t' fqn; cret (last_pull, t')
      | None => cret st
      end
  | PullTimer =>
      n <~~ now_ms self;
      if wrap64 (n - last_pull) >? 5000 then
        last_pull <~~ now_ms self;
        d <~~ request_diff (s_env self) (FileTree.tree_hash t);
        match FileDiffResult.changed d, FileDiffResult.removed d with
        | [], [] => cret (last_pull, t)
        | _, _ =>
            _ <~~ (match FileDiffResult.tree d with
                   | Some remote => pull_changed net self fqn ctx remote (FileDiffResult.changed d)
                   | None => cret tt
                   end);
            _ <~~ drop_removed self (FileDiffResult.removed d);
            o <~~ build_local self;
            cret (last_pull, default t o)
        end
      else cret st
  end.

Fixpoint fs_loop (net : Network) (self : Self) (fqn : string) (ctx : PeerCtx) (evs : list fs_event) (st : Z * FileTree.t)
    : C (Z * FileTree.t) :=
  match evs with
  | [] => cret st
  | ev :: evs' => st' <~~ fs_turn net self fqn ctx ev st; fs_loop net self fqn ctx evs' st'
  end.

Definition fs_mode (net : Network) (self : Self) (fqn : string) (ctx : PeerCtx) (evs : list fs_event) : C (Z * FileTree.t) :=
  t <~~ initial_sync net self fqn ctx;
  n <~~ now_ms self;
  fs_loop net self fqn ctx evs (n, t).

(** ** Online mode *)

Inductive online_event : Set := HeartbeatTick | Incoming.

Fixpoint online_mode (self : Self) (evs : list online_event) : C unit :=
  match evs with
  | [] => cret tt
  | HeartbeatTick :: evs' =>
      t <~~ now_ms self;
      _ <~~ csend_json FrameType.Heartbeat (Heartbeat.mk t None);
      online_mode self evs'
  | Incoming :: evs' =>
      o <~~ ctry crecv_opt;
      match o with
      | Ok (Some f) =>
          _ <~~ (match frame_type f with
                 | FrameType.OnlineList => _ <~~ clift (payload_json (T := OnlineList.t) f); cret tt
                 | FrameType.OnlineDelta => _ <~~ clift (payload_json (T := OnlineDelta.t) f); cret tt
                 | _ => cret tt
                 end);
          online_mode self evs'
      | Ok None | Err _ => cret tt
      end
  end.
End Sync.

(** ** Lemmas *)

Section SyncFacts.
Context `{Backend} `{CodecLaws} `{HexLaws} `{Ed25519Laws} `{Sha256} `{Aead} `{MemoryPool}.

Lemma mbind_done {A B} (m : M A) (k : A -> M B) s a s' : m s = (Ok a, s') -> mbind_ m k s = k a s'.
Proof. unfold mbind_. by intros ->. Qed.

Lemma send_json_done {T} `{Serde T} ty (v : T) s :
  is_ok (encode (from_json ty 0 v)) = true -> send_json ty v s = (Ok tt, add_out (from_json ty 0 v) s).
Proof. intros He. unfold send_json, send, mbind_, lift. by destruct (encode _). Qed.

(** The machine may register: its id is free or pinned to its key. *)
Lemma verify_register_ok d m tag kp g t :
  keypair_wf kp -> g !! d = Some t -> (machines t !! m = None \/ machines t !! m = Some (public_hex kp)) ->
  exists g', verify_register d m tag (public_hex kp) (sign kp (register_msg m tag)) g = (Ok tt, g').
Proof.
  intros Hwf Ht Hm. unfold verify_register. rewrite verify_sign by done. cbn [negb]. rewrite Ht.
  destruct Hm as [->| ->]; [by eexists|]. rewrite decide_True by done. by eexists.
Qed.

(** The steps after the registration was accepted. *)
Lemma session_opens c now machine reg d st o r :
  let info := machine_info c reg now in
  let a2 := from_json FrameType.RegisterAck 0 (RegisterAck.mk (fst (Reg.register d info r))) in
  out st = o -> registry (sv st) = r -> is_ok (encode a2) = true -> Register.machine_id reg = machine ->
  exists i srv',
    (snapshot <~ reg_op (Reg.register d info);
     _ <~ send_json FrameType.RegisterAck (RegisterAck.mk snapshot);
     tx <~ reg_op (fun r => let '(_, tx, r') := Reg.subscribe d r in (tx, r'));
     _ <~ reg_do (Reg.broadcast_except d (Reg.join_frame info) tx);
     let home := session_home (c_env c) in
     s <~ gets (fun s => s);
     let '(objs, v', w') := object_store_for (s3_build c) (c_env c) home d (sv s) (world s) in
     _ <~ set_sv v';
     _ <~ set_world w';
     ret (Some (mkIdent d (Register.machine_id reg) (server_fs_new home d objs) tx))) st = (Ok (Some i), srv') /\
    user_domain i = d /\ reg_machine i = machine /\ out srv' = o ++ [a2].
Proof.
  intros info a2 <- <- He <-. set (x := Reg.register d info (registry (sv st))) in *.
  rewrite (mbind_done (reg_op (Reg.register d info)) _ st (fst x) (with_registry (snd x) st)).
  2:{ unfold reg_op. fold x. by destruct x. }
  set (s1 := with_registry (snd x) st). rewrite (mbind_done _ _ _ _ _ (send_json_done FrameType.RegisterAck (RegisterAck.mk (fst x)) s1 He)).
  assert (out (add_out a2 s1) = out st ++ [a2]) as Ho by done. fold a2. revert Ho. generalize (add_out a2 s1). clear.
  intros s2 <-. destruct (Reg.subscribe d (registry (sv s2))) as [[ms tx] r'] eqn:Es.
  rewrite (mbind_done _ _ s2 tx (with_registry r' s2)) by (unfold reg_op; by rewrite Es).
  rewrite (mbind_done _ _ _ tt (with_registry (Reg.broadcast_except d (Reg.join_frame info) tx r') (with_registry r' s2))) by done.
  set (s3 := with_registry _ (with_registry r' s2)). cbv zeta.
  rewrite (mbind_done (gets (fun s => s)) _ s3 s3 s3) by done.
  destruct (object_store_for _ _ _ _ _ _) as [[objs v'] w'].
  rewrite (mbind_done (set_sv v') _ s3 tt (mkSess v' (tenants s3) (world s3) (pending_upload s3) (out s3))) by done.
  eexists _, _. split; [reflexivity|]. split_and!; done.
Qed.
End SyncFacts.

Section Refusals.
Context `{Codec} `{HexCodec} `{Sha256} `{Aead}.

Definition lock_noise (ns : list Frame) : Prop :=
  forall n, n ∈ ns -> frame_type n <> FrameType.LockGranted /\ frame_type n <> FrameType.LockDenied.

Lemma lock_reply_arrives en fqn ns f r s rest :
  lock_noise ns -> lock_answer f = Some r -> inbox s = map arrives (ns ++ [f]) ++ rest ->
  exists l, recv_loop (fun f => cret (lock_answer f)) (add_sent [acquire_frame en fqn] s) =
    (Done r, set_punched l (set_inbox rest (add_sent [acquire_frame en fqn] s))).
Proof.
  intros Hns Hr Hin. eapply (recv_loop_skip _ lock_answer ns f r); [apply pure_ret| |exact Hr|exact Hin].
  intros n Hn. destruct (Hns n Hn). unfold lock_answer. by destruct (frame_type n).
Qed.

Lemma push_entry_denied e en fqn ns f s rest :
  frame_type f = FrameType.LockDenied -> lock_noise ns -> is_ok (encode (acquire_frame en fqn)) = true ->
  inbox s = map arrives (ns ++ [f]) ++ rest ->
  exists l, push_entry e en fqn s = (Done tt, set_punched l (set_inbox rest (add_sent [acquire_frame en fqn] s))).
Proof.
  intros Hf Hns Ea Hin.
  destruct (lock_reply_arrives en fqn ns f LDenied s rest Hns ltac:(unfold lock_answer; by rewrite Hf) Hin) as [l El].
  exists l. unfold push_entry. erewrite cbind_done by (by apply csend_json_done). by erewrite cbind_done by exact El.
Qed.

Lemma push_entry_rejected e en fqn ns f g (x : ErrorMsg.t) s rest data :
  frame_type f = FrameType.LockGranted -> frame_type g = FrameType.Error -> payload_json g = Ok x ->
  lock_noise ns -> push_data e en (cdisk s) = Some data ->
  is_ok (encode (acquire_frame en fqn)) = true -> is_ok (encode (put_frame_ en data)) = true ->
  inbox s = map arrives (ns ++ [f]) ++ arrives g :: rest ->
  exists l, push_entry e en fqn s =
    (Done tt, set_punched l (set_inbox rest (add_sent [acquire_frame en fqn; put_frame_ en data] s))).
Proof.
  intros Hf Hg Hx Hns Hd Ea Ep Hin.
  destruct (lock_reply_arrives en fqn ns f LGranted s _ Hns ltac:(unfold lock_answer; by rewrite Hf) Hin) as [l1 E1].
  unfold push_entry. erewrite cbind_done by (by apply csend_json_done). erewrite cbind_done by exact E1.
  cbv beta iota. set (s1 := set_punched l1 _). rewrite (cbind_done get_disk _ s1 (cdisk s) s1) by done.
  change (if fs_exists (cdisk s) _ then _ else _) with (push_data e en (cdisk s)). rewrite Hd.
  rewrite (cbind_done (cio "read" (Some data)) _ s1 data s1) by done.
  rewrite (cbind_done _ _ _ _ _ (csend_done (put_frame_ en data) s1 Ep)).
  destruct (recv_loop_skip _ put_answer [] g g rest (add_sent [put_frame_ en data] s1) (pure_ret put_answer)) as [l2 E2];
    [set_solver|unfold put_answer; by rewrite Hg|reflexivity|].
  rewrite (cbind_done _ _ _ _ _ E2), Hg, Hx. set (s2 := set_punched l2 _).
  rewrite (cbind_done (clift (Ok x)) _ s2 x s2) by done. exists l2.
  subst s1 s2. unfold cret, set_punched, set_inbox, add_sent. cbn. by rewrite <- app_assoc.
Qed.

Lemma sync_push_one e en fqn h s s1 :
  fs_exists (cdisk s) (path_join (objects_dir e) (FileTreeEntry.blob_id en)) = true ->
  is_ok (encode (from_json FrameType.FileTree 0 (FileTree.mk h [en]))) = true ->
  push_entry e en fqn s = (Done tt, s1) ->
  sync_push e (FileTree.mk h [en]) fqn s = (Done tt, add_sent [from_json FrameType.FileTree 0 (FileTree.mk h [en])] s1).
Proof.
  intros Hex He Hp. unfold sync_push. cbn [FileTree.entries push_entries].
  assert (cbind get_disk (fun fs => cbind (if fs_exists fs (path_join (objects_dir e) (FileTreeEntry.blob_id en)) then cret tt
    else cbind (cio "read" (fs_read fs (path_join (share_dir e) (FileTreeEntry.path en)))) (fun b =>
      cbind (cio "ensure" (ensure_object_local e (FileTreeEntry.blob_id en) b fs)) put_disk))
    (fun _ => cbind (push_entry e en fqn) (fun _ => cret tt))) s = (Done tt, s1)) as E.
  { rewrite (cbind_done get_disk _ s (cdisk s) s) by done. rewrite Hex.
    rewrite (cbind_done (cret tt) _ s tt s) by done. by rewrite (cbind_done _ _ _ _ _ Hp). }
  rewrite (cbind_done _ _ _ _ _ E). by apply csend_json_done.
Qed.
End Refusals.

(** ** Properties *)

(** C9: An honest client gets in: client and server run the handshake on each
    other's frames, and both finish: when the domain's registered key is the
    client's and the machine id is free or pinned to the client's machine key, the
    server reaches its ready loop for exactly this domain and machine, having
    answered with its challenge and the machines online, and the client, having
    sent HELLO, AUTH and REGISTER, returns. *)
Theorem handshake_completes `{Backend} `{CodecLaws} `{HexLaws} `{Ed25519Laws} `{Sha256} `{Aead} `{MemoryPool}
    c now host srv t domain agent machine peer_addr dk mk s :
  let n := nonce now host in
  let reg := client_register agent machine peer_addr mk in
  let h1 := from_json FrameType.Hello 0 (client_hello domain) in
  let h2 := from_json FrameType.Auth 0 (Auth.mk domain (sign dk (as_bytes n))) in
  let h3 := from_json FrameType.Register 0 reg in
  let a1 := from_json FrameType.HelloAck 0 (HelloAck.mk n true) in
  let a2 := from_json FrameType.RegisterAck 0
              (RegisterAck.mk (fst (Reg.register domain (machine_info c reg now) (registry (sv srv))))) in
  keypair_wf dk -> keypair_wf mk ->
  tenants srv !! domain = Some t -> domain_pubkey t = public_hex dk ->
  machines t !! machine = None \/ machines t !! machine = Some (public_hex mk) ->
  Forall (fun f => is_ok (encode f) = true) [h1; h2; h3; a1; a2] ->
  inbox s = map arrives [a1; a2] ->
  (exists i srv', handshake c now host (arrives h1) (arrives h2) (arrives h3) srv = (Ok (Some i), srv') /\
     user_domain i = domain /\ reg_machine i = machine /\ out srv' = out srv ++ [a1; a2]) /\
  client_handshake domain agent machine peer_addr dk mk s = (Done tt, set_inbox [] (add_sent [h1; h2; h3] s)).
Proof.
  intros n reg h1 h2 h3 a1 a2 Hdk Hmk Ht Hpk Hm Henc Hin.
  apply Forall_cons in Henc as [E1 Henc]. apply Forall_cons in Henc as [E2 Henc]. apply Forall_cons in Henc as [E3 Henc].
  apply Forall_cons in Henc as [E4 Henc]. apply Forall_cons in Henc as [E5 _]. split.
  - unfold handshake, arrives. cbn [expect]. rewrite (mbind_done (ret h1) _ srv h1 srv) by done.
    change (frame_type h1) with FrameType.Hello. cbv iota. unfold h1. rewrite payload_from_json.
    erewrite mbind_done by reflexivity. fold n. erewrite mbind_done by (by apply send_json_done).
    erewrite mbind_done by reflexivity. unfold h2. rewrite payload_from_json. erewrite mbind_done by reflexivity.
    erewrite mbind_done by reflexivity. cbn [tenants add_out Hello.user_domain client_hello Auth.nonce_signature].
    unfold verify_auth. rewrite Ht, Hpk, verify_sign by done.
    erewrite mbind_done by reflexivity. unfold h3. rewrite payload_from_json. erewrite mbind_done by reflexivity.
    cbn [reg client_register Register.machine_id Register.agent_tag Register.machine_pubkey Register.machine_signature].
    destruct (verify_register_ok domain machine agent mk (tenants srv) t Hmk Ht Hm) as [g' ->].
    erewrite mbind_done by reflexivity.
    match goal with |- exists _ _, mbind_ (reg_op _) _ ?st = _ /\ _ =>
      assert (out st = out srv ++ [a1] /\ registry (sv st) = registry (sv srv)) as [Ho Hr] by done;
      generalize dependent st end.
    intros st Ho Hr. replace (out srv ++ [a1; a2]) with ((out srv ++ [a1]) ++ [a2]) by (by rewrite <- app_assoc).
    exact (session_opens c now machine reg domain st _ _ Ho Hr E5 eq_refl).
  - unfold client_handshake. erewrite cbind_done by (by apply csend_json_done).
    erewrite cbind_done by (unfold crecv; cbn [add_sent inbox]; rewrite Hin; reflexivity).
    unfold a1. rewrite payload_from_json. erewrite cbind_done by reflexivity. cbn [HelloAck.nonce].
    erewrite cbind_done by (by apply csend_json_done). erewrite cbind_done by (by apply csend_json_done).
    erewrite cbind_done by reflexivity. unfold a2. rewrite payload_from_json. erewrite cbind_done by reflexivity.
    unfold cret, set_inbox, add_sent. cbn. by rewrite <- !app_assoc.
Qed.

Definition demo_login_client : Cli :=
  demo_cli (map arrives [from_json (H := @codec_HelloAck ref_codec) FrameType.HelloAck 0 (HelloAck.mk (nonce 5 "h") true);
    from_json (H := @codec_RegisterAck ref_codec) FrameType.RegisterAck 0
      (RegisterAck.mk (fst (Reg.register "ser163" (machine_info demo_conn (client_register "maka" "m1" "" demo_key) 5)
         (registry (sv demo_login)))))]).

Lemma handshake_completes_witness :
  fst (client_handshake (H := ref_codec) "ser163" "maka" "m1" "" demo_key demo_key demo_login_client) = Done tt.
Proof.
  destruct (handshake_completes (H0 := ref_codec) (H1 := ref_codec_laws) (H8 := demo_pool) demo_conn 5 "h" demo_login
    (mkTenantRecord (public_hex demo_key) ∅) "ser163" "maka" "m1" "" demo_key demo_key demo_login_client) as [_ E].
  - exact demo_key_wf.
  - exact demo_key_wf.
  - vm_compute. reflexivity.
  - reflexivity.
  - by left.
  - repeat constructor.
  - reflexivity.
  - rewrite E. reflexivity.
Defined.

(** A push that is refused is reported as done, and the tree is published all the
    same: when the lock is denied, or the upload is rejected (quota), [sync_push]
    uploads nothing, returns without an error and sends a tree that lists the
    object; after a rejected upload the lock is not released either. *)
Theorem refused_push_publishes `{Codec} `{HexCodec} `{Sha256} `{Aead} e en fqn h s rest ns f data :
  let t := FileTree.mk h [en] in
  let tree := from_json FrameType.FileTree 0 t in
  fs_exists (cdisk s) (path_join (objects_dir e) (FileTreeEntry.blob_id en)) = true ->
  push_data e en (cdisk s) = Some data ->
  Forall (fun f => is_ok (encode f) = true) [acquire_frame en fqn; put_frame_ en data; tree] ->
  lock_noise ns ->
  (frame_type f = FrameType.LockDenied -> inbox s = map arrives (ns ++ [f]) ++ rest ->
   exists s', sync_push e t fqn s = (Done tt, s') /\ sent s' = sent s ++ [acquire_frame en fqn; tree]) /\
  (forall g x, frame_type f = FrameType.LockGranted -> frame_type g = FrameType.Error -> payload_json g = Ok (x : ErrorMsg.t) ->
   inbox s = map arrives (ns ++ [f]) ++ arrives g :: rest ->
   exists s', sync_push e t fqn s = (Done tt, s') /\
     sent s' = sent s ++ [acquire_frame en fqn; put_frame_ en data; tree]).
Proof.
  intros t tree Hex Hd Henc Hns.
  apply Forall_cons in Henc as [Ea Henc]. apply Forall_cons in Henc as [Ep Henc]. apply Forall_cons in Henc as [Et _].
  split.
  - intros Hf Hin. destruct (push_entry_denied e en fqn ns f s rest Hf Hns Ea Hin) as [l E].
    eexists. split; [by eapply sync_push_one|]. cbn. by rewrite <- app_assoc.
  - intros g x Hf Hg Hx Hin. destruct (push_entry_rejected e en fqn ns f g x s rest data Hf Hg Hx Hns Hd Ea Ep Hin) as [l E].
    eexists. split; [by eapply sync_push_one|]. cbn. by rewrite <- app_assoc.
Qed.

Definition demo_denied : Frame := frame_new FrameType.LockDenied 0 [].

Lemma refused_push_publishes_witness :
  exists s', sync_push (H := ref_codec) demo_cli_env (FileTree.mk "t" [demo_entry_ab]) "ser163/m1/maka"
    (demo_cli (map arrives ([demo_noise] ++ [demo_denied]) ++ [])) = (Done tt, s') /\
    sent s' = [] ++ [acquire_frame (H := ref_codec) demo_entry_ab "ser163/m1/maka";
      from_json (H := @codec_FileTree ref_codec) FrameType.FileTree 0 (FileTree.mk "t" [demo_entry_ab])].
Proof.
  pose proof (refused_push_publishes (H := ref_codec) demo_cli_env demo_entry_ab "ser163/m1/maka" "t"
    (demo_cli (map arrives ([demo_noise] ++ [demo_denied]) ++ [])) [] [demo_noise] demo_denied (as_bytes "hi")) as Hp.
  cbv zeta in Hp. apply Hp.
  - vm_compute. reflexivity.
  - vm_compute. reflexivity.
  - repeat constructor.
  - intros n ->%list_elem_of_singleton. split; discriminate.
  - reflexivity.
  - reflexivity.
Defined.

(** C39: Recall survives an outage of the pool: when every shard of the server's pool
    fails, however many there are, the server answers the recall with a result that
    names the pool unavailable, and a client that receives it, whatever broadcasts
    it can parse come first, returns its local fallback's memories. *)
Theorem recall_survives_outage `{Backend} `{CodecLaws} `{Gateway} `{Sha256} env elapsed self fallback query s ns rest srv local :
  let msg := MemoryRecall.mk ("rec-" +:+ dec (clock self (ticks s))) query "user" 5 1500 true in
  let reply := from_json FrameType.MemoryRecallResult 0
    (MemoryRecallResult.mk (MemoryRecall.request_id msg) "pool_unavailable" []
       (if decide (length (pool_from_env env) = 1%nat) then 0 else elapsed msg)) in
  (forall a, a ∈ fan_out (pool_from_env env) msg -> is_ok a = false) ->
  is_ok (encode (from_json FrameType.MemoryRecall 0 msg)) = true -> is_ok (encode reply) = true ->
  (forall n, n ∈ ns -> frame_type n <> FrameType.MemoryRecallResult /\ frame_type n <> FrameType.OnlineDelta /\
     frame_type n <> FrameType.OnlineList) ->
  recall_local fallback query "rec-local" = Ok local ->
  inbox s = map arrives (ns ++ [reply]) ++ rest ->
  on_memory_recall (H5 := server_pool env elapsed) msg srv = (Ok tt, add_out reply srv) /\
  exists s', recall_cmd self fallback query s = (Done ("local", MemoryRecallResult.memories local), s').
Proof.
  intros msg reply Hall Hq Hrep Hns Hloc Hin. split.
  - unfold on_memory_recall. cbn [pool_recall server_pool].
    assert (reply = from_json FrameType.MemoryRecallResult 0 (match recall (pool_from_env env) msg (elapsed msg) with
      | Ok r => r | Err _ => MemoryRecallResult.mk (MemoryRecall.request_id msg) "pool_unavailable" [] 0 end)) as Er.
    { unfold reply. by rewrite (recall_outage _ _ _ (pool_from_env_nonempty env) Hall). }
    pose proof (send_json_done FrameType.MemoryRecallResult (match recall (pool_from_env env) msg (elapsed msg) with
      | Ok r => r | Err _ => MemoryRecallResult.mk (MemoryRecall.request_id msg) "pool_unavailable" [] 0 end) srv) as Hs.
    rewrite <- Er in Hs. specialize (Hs Hrep). by destruct (recall (pool_from_env env) msg (elapsed msg)).
  - unfold recall_cmd. erewrite cbind_done by reflexivity. erewrite cbind_done by (by apply csend_json_done).
    match goal with |- context [cbind (await _ _) _ ?st] =>
      destruct (recv_loop_pass (fun f => if decide (frame_type f = FrameType.MemoryRecallResult)
          then clift (rmap Some (payload_json (T := MemoryRecallResult.t) f)) else broadcast_step f) ns reply
        (MemoryRecallResult.mk (MemoryRecall.request_id msg) "pool_unavailable" []
           (if decide (length (pool_from_env env) = 1%nat) then 0 else elapsed msg)) rest st) as [l El] end.
    + intros n Hn s1. destruct (Hns n Hn) as (N1 & N2 & N3). exists (punched s1). rewrite decide_False by done.
      unfold broadcast_step. destruct (frame_type n); try done; by destruct s1.
    + intros s1. exists (punched s1). rewrite decide_True by done. unfold reply. rewrite payload_from_json. by destruct s1.
    + exact Hin.
    + rewrite (cbind_done _ _ _ _ _ El). cbn [MemoryRecallResult.source]. rewrite bool_decide_eq_true_2 by done.
      cbn [orb]. rewrite Hloc. by eexists.
Qed.

Definition demo_no_env : env := fun _ => None.
Definition demo_reply : Frame := from_json (H := @codec_MemoryRecallResult ref_codec) FrameType.MemoryRecallResult 0
  (MemoryRecallResult.mk "rec-7" "pool_unavailable" [] 0).
Definition demo_recaller : Cli := demo_cli (map arrives ([demo_granted] ++ [demo_reply]) ++ []).

Lemma recall_survives_outage_witness :
  exists s', recall_cmd (H := ref_codec) (H4 := demo_gateway) demo_self (tencent_new "http://a") "q" demo_recaller =
    (Done ("local", [MemoryHit.mk "ctx" "local" 0 "machine"]), s').
Proof.
  pose proof (recall_survives_outage (H0 := ref_codec) (H1 := ref_codec_laws) (H2 := demo_gateway) demo_no_env (fun _ => 0)
    demo_self (tencent_new "http://a") "q" demo_recaller [demo_granted] [] demo_sess
    (MemoryRecallResult.mk "rec-local" "local" [MemoryHit.mk "ctx" "local" 0 "machine"] 0)) as Hr.
  cbv zeta in Hr. refine (proj2 (Hr _ _ _ _ _ _)).
  - intros a ->%list_elem_of_singleton. vm_compute. reflexivity.
  - vm_compute. reflexivity.
  - vm_compute. reflexivity.
  - intros n ->%list_elem_of_singleton. split_and!; discriminate.
  - vm_compute. reflexivity.
  - vm_compute. reflexivity.
Defined.
