(* ===== verification/Travel.v ===== *)
(** * A file on its way from one machine to another

    No code of its own: the upload of one session ([Session]), the object store
    ([Store]), the download of another session and the pull of its client ([Client],
    [Share], [Sync]) put together. *)

From S2P Require Import Prelude Paths Wire Messages Codec Crypto Store State Tree Memory Session Share Client Peer Sync.

#[global] Opaque CHUNK_SIZE.

Section Travel.
Context `{Backend} `{Codec} `{HexCodec} `{Ed25519} `{Sha256} `{Aead} `{MemoryPool} `{Gateway}.

(** A session with a fresh upload of [data], and the chunk frames that will arrive:
    each carries one chunk, [last] completes the set; the temporary file and the
    object have room, in places of their own. *)
Record upload (c : Conn) (i : Ident) (data : bytes) (ps : list bytes) (order : list Z) (p : bytes) (last : Z)
    (blob : string) (size : Z) (s : Sess) : Prop := {
  up_chunks : Forall2 (carries (c_env c) (user_domain i) data) ps order;
  up_last : carries (c_env c) (user_domain i) data p last;
  up_range : Forall (fun k => 0 <= k < n_chunks data) (last :: order);
  up_small : len data < 2 ^ 62;
  up_once : last ∉ order;
  up_all : forall j, 0 <= j < n_chunks data -> j ∈ last :: order;
  up_fresh : fs_read (disk (world s)) (temp_path_for (server_fs i) blob) = None;
  up_ready : tmp_ready (temp_path_for (server_fs i) blob) (disk (world s));
  up_pending : pending_upload s =
    Some (fresh_upload blob (temp_path_for (server_fs i) blob) size (n_chunks data));
  up_room : room (objects (server_fs i)) blob (world s);
  up_apart : forall l, target (objects (server_fs i)) blob = CDisk l ->
    inside l (resolve (temp_path_for (server_fs i) blob)) = false;
  up_ack : is_ok (encode (from_json FrameType.FilePutAck 0 (FilePutAck.mk blob (all_chunks (n_chunks data)) true))) = true;
}.

(** What arrives ([l]) when a client asks for the object chunk by chunk: the answers
    under the server's keys [ks], broadcasts in between, and [rest]. *)
Record delivered (ks : option E2EKeys) (blob : string) (data : bytes) (answers : list Frame) (nss : list (list Frame))
    (rest l : list arrival) : Prop := {
  dl_chunks : Forall2 (fun k f => chunk_msg ks (chunk_of data k) k = Ok f) (seqZ 0 (len data / CHUNK_SIZE + 1)) answers;
  dl_sent : Forall (fun f => is_ok (encode f) = true) answers;
  dl_asked : forall k, 0 <= k <= len data / CHUNK_SIZE -> is_ok (encode (get_frame blob k)) = true;
  dl_noise : Forall (Forall chunk_noise) nss;
  dl_length : length nss = length answers;
  dl_count : len data / CHUNK_SIZE < 2 ^ 32 - 1;
  dl_inbox : l = in_flight (zip nss answers) ++ rest;
}.

(** ** Lemmas *)

(** The object is there when the last chunk was handled without an error. *)
Lemma upload_readable `{!BackendLaws} c i data ps order p last blob size s s1 :
  upload c i data ps order p last blob size s -> run_chunks c i (ps ++ [p]) s = (Ok tt, s1) ->
  Tree.get_object (server_fs i) blob (world s1) = Some data.
Proof.
  intros [] Hrun. destruct (upload_core c i data ps order p last [] s blob _ size up_chunks0 up_last0 up_range0
    ltac:(lia) up_once0 up_all0 up_fresh0 up_ready0 up_pending0) as (_ & w1 & Hw1 & Hb & Hm & Hab & Hres).
  assert (forall l, target (objects (server_fs i)) blob = CDisk l -> disk w1 !! l = disk (world s) !! l) as Hd
    by (intros l Hl; by apply Hab, up_apart0).
  unfold put_object in Hres. destruct (put _ _ _ _) as [[[]|m] w2] eqn:Ep; [|congruence].
  rewrite (Hres up_ack0) in Hrun. injection Hrun as <-. cbn [world].
  unfold Tree.get_object. etrans.
  - apply (elsewhere (objects (server_fs i)) blob w2); [done..|]. intros l Hl. cbn [disk set_disk].
    destruct (fs_remove _ _) as [d|] eqn:Er; [|done]. cbn [default from_option id]. by apply (fs_remove_above _ _ _ Er), up_apart0.
  - eapply put_room; [|exact Ep]. by apply (elsewhere _ _ (world s) w1 Hb Hm Hd).
Qed.

Lemma materialize_cases e en b requester ts fs : e "NSMT_SYMLINK_VIEW" = None ->
  match materialize_with_conflict e en b requester ts fs with
  | Written fs' => fs_read fs' (path_join (share_dir e) (FileTreeEntry.path en)) = Some b
  | LinkMade _ _ _ => False
  | MatError _ => True
  end.
Proof.
  intros Hv. destruct (materialize_with_conflict _ _ _ _ _ _) eqn:Em; [| |done]; unfold materialize_with_conflict in Em.
  - apply materialize_written in Em as [Ht _]. unfold fs_read. by rewrite Ht.
  - unfold materialize in Em. rewrite Hv in Em. by repeat case_match.
Qed.

Lemma ensure_keeps e blob b fs fs' q x :
  ensure_object_local e blob b fs = Some fs' -> fs_read fs q = Some x ->
  fs_read fs' q = Some x.
Proof.
  unfold ensure_object_local. intros (fs1 & E1 & E)%bind_Some Hq.
  rewrite <- (create_dir_all_read _ _ _ q E1) in Hq. destruct (fs_exists fs1 _) eqn:Ex; [by injection E as <-|].
  destruct (decide (resolve q = resolve (path_join (objects_dir e) blob))) as [Er|Hne]; [|by rewrite (fs_read_write_ne _ _ _ _ _ Hne E)].
  unfold fs_exists, fs_is_file, fs_read in *. rewrite Er in Hq. by destruct (fs1 !! _) as [[]|].
Qed.

(** Storing a pulled object: the file has its bytes unless the disk refuses. *)
Lemma store_pulled_outcome self en b fqn s : s_env self "NSMT_SYMLINK_VIEW" = None ->
  exists r s', store_pulled self en b fqn s = (r, s') /\
    ((r = Done tt /\ fs_read (cdisk s') (path_join (share_dir (s_env self)) (FileTreeEntry.path en)) = Some b) \/
     r = Failed (SMsg "materialize") \/ r = Failed (SMsg "ensure")).
Proof.
  intros Hv. unfold store_pulled, Sync.now_ms, tick, get_disk, put_disk, cio, cfail, cret, cbind. cbn [cdisk inbox sent punched ticks].
  pose proof (materialize_cases (s_env self) en b fqn (clock self (ticks s)) (cdisk s) Hv) as Hm.
  destruct (materialize_with_conflict _ _ _ _ _ _) as [fs1| |fs1]; [|done|eexists _, _; split; [done|by auto]].
  cbn [cdisk]. destruct (ensure_object_local _ _ _ _) as [fs2|] eqn:Ee; [|eexists _, _; split; [done|by auto]].
  eexists _, _. split; [done|]. left. split; [done|]. cbn [cdisk]. by eapply ensure_keeps.
Qed.

(** ** Properties *)

(** C1: A file travels unchanged: after a session has handled the chunks of an upload
    in any order and with repetitions, any session of a client that is handed the
    same object store answers the requests for the object with the frames that
    rebuild it; and the other client, on receiving these frames between whatever
    broadcasts, ends its pull with exactly the uploaded bytes under the entry's
    path in its shared directory, or with an error of its own disk. *)
Theorem file_travels `{!BackendLaws} c i data ps order p last blob size s s1 c' i' srv
    net self fqn ctx remote en answers nss rest cli :
  upload c i data ps order p last blob size s -> run_chunks c i (ps ++ [p]) s = (Ok tt, s1) ->
  Tree.get_object (server_fs i') blob (world srv) = Tree.get_object (server_fs i) blob (world s1) ->
  let ks := from_env (c_env c') (Some (user_domain i')) in
  keys_fit ks (from_env (s_env self) (e2e_domain (domain_of fqn))) ->
  delivered ks blob data answers nss rest (inbox cli) ->
  find_entry (FileTreeEntry.path en) remote = Some en -> FileTreeEntry.blob_id en = blob ->
  s_env self "NSMT_SYMLINK_VIEW" = None ->
  (forall j f, answers !! j = Some f -> on_file_get c' i' (FileGet.mk blob (Some (Z.of_nat j))) srv = (Ok tt, add_out f srv)) /\
  exists r cli', pull_changed net self fqn ctx remote [FileTreeEntry.path en] cli = (r, cli') /\
    ((r = Done tt /\ fs_read (cdisk cli') (path_join (share_dir (s_env self)) (FileTreeEntry.path en)) = Some data) \/
     r = Failed (SMsg "materialize") \/ r = Failed (SMsg "ensure")).
Proof.
  intros Hup Hrun Hsame ks Hk Hd Hf <- Hv. pose proof (upload_readable _ _ _ _ _ _ _ _ _ _ _ Hup Hrun) as Hobj.
  rewrite <- Hsame in Hobj. destruct Hd. split.
  - intros j f Hj. destruct (Forall2_lookup_r _ _ _ _ _ dl_chunks0 Hj) as (k & Hk' & Hkf).
    apply lookup_seqZ in Hk' as [-> _]. eapply on_file_get_answer; [exact Hobj|exact Hkf|].
    rewrite Forall_lookup in dl_sent0. by eapply dl_sent0.
  - cbn [pull_changed]. rewrite Hf. unfold pull_object_with_peer.
    destruct (get_object_serves (s_env self) (FileTreeEntry.blob_id en) (domain_of fqn) data ks answers nss cli rest)
      as [l Hl]; try done; [by eapply up_small|].
    set (cli1 := set_punched _ _) in Hl. destruct (store_pulled_outcome self en data fqn cli1 Hv) as (r & cli2 & E & Hr).
    exists r, cli2. split; [|exact Hr]. unfold cbind in *. rewrite Hl. cbn [cret]. rewrite E.
    by destruct Hr as [[-> _]|[->| ->]].
Qed.
End Travel.

#[global] Transparent CHUNK_SIZE.

Definition demo_last : bytes := le_bytes 4 0 ++ as_bytes "hi".
Definition demo_uploaded : result serr unit * Sess :=
  run_chunks (H0 := ref_codec) demo_conn demo_ident ([] ++ [demo_last]) demo_sess.

Lemma demo_upload :
  upload (H0 := ref_codec) demo_conn demo_ident (as_bytes "hi") [] [] demo_last 0 "ab12" 2 demo_sess.
Proof.
  assert (n_chunks (as_bytes "hi") = 1) as E by (vm_compute; reflexivity). split.
  - constructor.
  - split; [vm_compute; discriminate|]. split; vm_compute; reflexivity.
  - constructor; [lia|constructor].
  - vm_compute. reflexivity.
  - set_solver.
  - intros j Hj. assert (j = 0) as -> by lia. set_solver.
  - vm_compute. reflexivity.
  - exists (default ∅ (create_parent demo_tmp ∅)). split; [apply some_default; vm_compute; reflexivity|].
    split; vm_compute; reflexivity.
  - reflexivity.
  - split; vm_compute; reflexivity.
  - intros l [= <-]. vm_compute. reflexivity.
  - vm_compute. reflexivity.
Qed.

Definition demo_getter : Cli := demo_cli (in_flight (zip [[demo_noise]] [demo_chunk])).

Lemma demo_delivered :
  delivered (H0 := ref_codec) None "ab12" (as_bytes "hi") [demo_chunk] [[demo_noise]] [] (inbox demo_getter).
Proof.
  assert (len (as_bytes "hi") / CHUNK_SIZE = 0) as E by (vm_compute; reflexivity). split; rewrite ?E.
  - repeat constructor.
  - repeat constructor.
  - intros k Hk. assert (k = 0) as -> by lia. vm_compute. reflexivity.
  - repeat constructor; discriminate.
  - reflexivity.
  - vm_compute. reflexivity.
  - reflexivity.
Qed.

Definition demo_pull : outcome unit * Cli :=
  pull_changed (H := ref_codec) (fun _ => Err "unreachable") demo_self "ser163/m2/maka" (demo_ctx "m2")
    (FileTree.mk "h" [demo_entry_ab]) ["a.md"] demo_getter.

Lemma file_travels_witness :
  fst demo_uploaded = Ok tt /\ fs_read (cdisk (snd demo_pull)) "/s/a.md" = Some (as_bytes "hi").
Proof.
  assert (fst demo_uploaded = Ok tt) as Hu by (vm_compute; reflexivity). split; [exact Hu|].
  destruct (file_travels (H0 := ref_codec) (H5 := demo_pool) demo_conn demo_ident (as_bytes "hi") [] [] demo_last 0 "ab12" 2
    demo_sess (snd demo_uploaded) demo_conn demo_ident (snd demo_uploaded) (fun _ => Err "unreachable") demo_self "ser163/m2/maka"
    (demo_ctx "m2") (FileTree.mk "h" [demo_entry_ab]) demo_entry_ab [demo_chunk] [[demo_noise]] [] demo_getter)
    as (_ & r & cli' & E & Hr).
  - exact demo_upload.
  - rewrite <- Hu. apply surjective_pairing.
  - done.
  - vm_compute. exact I.
  - exact demo_delivered.
  - vm_compute. reflexivity.
  - vm_compute. reflexivity.
  - vm_compute. reflexivity.
  - assert (demo_pull = (r, cli')) as Ep by exact E. rewrite Ep. cbn [snd].
    assert (fst demo_pull = Done tt) as Hd by (vm_compute; reflexivity). rewrite Ep in Hd. cbn [fst] in Hd. subst r.
    destruct Hr as [[_ Hr]|[Hr|Hr]]; [exact Hr|discriminate Hr..].
Defined.
