(* ===== verification/Converge.v ===== *)
(** * A round of synchronisation

    No code of its own: the client's turn on its pull timer ([Sync.fs_turn]) with the
    server's diff ([Tree]) and the walk of the shared directory ([Share]).  After the
    turn the client's tree has the server's hash, so the next diff is empty. *)

From S2P Require Import Prelude Paths Wire Messages Codec Crypto Store State Tree Memory Session Share Conflict Client Peer Sync Travel.

(** ** Files on a disk

    What each operation does to the content of files, whatever directories it
    makes. *)

Definition file_at (fs : files) (l : loc) : option bytes :=
  match fs !! l with Some (File b) => Some b | _ => None end.

(** Everything on the disk is in a directory. *)
Definition grounded (fs : files) : Prop := forall l nd, fs !! l = Some nd -> is_dir_at fs (parent_loc l) = true.

Lemma fs_read_file_at fs p : fs_read fs p = file_at fs (resolve p).
Proof. done. Qed.

(** Something new in a directory, where no directory was. *)
Lemma grounded_insert fs l nd :
  grounded fs -> is_dir_at fs l = false \/ nd = Dir -> is_dir_at fs (parent_loc l) = true -> grounded (<[l := nd]> fs).
Proof.
  intros Hg Hl Hp m x [[<- _]|[_ Hm]]%lookup_insert_Some; apply is_dir_insert; try done. by eapply Hg.
Qed.

Lemma mkdirs_grounded abs todo : forall done_ fs fs', mkdirs abs done_ todo fs = Some fs' ->
  is_dir_at fs (abs, done_) = true -> grounded fs -> grounded fs'.
Proof.
  induction todo as [|c todo IH]; intros done_ fs fs' E Hd Hg; cbn [mkdirs] in E; [by injection E as <-|].
  destruct (is_dir_at fs (abs, done_ ++ [c])) eqn:Ec; [by eapply IH|].
  destruct (fs !! (abs, done_ ++ [c])) eqn:El; [done|]. eapply IH; [exact E| |].
  - unfold is_dir_at. rewrite lookup_insert_eq. by rewrite orb_true_r.
  - apply grounded_insert; [done|by right|]. unfold parent_loc. cbn [fst snd]. by rewrite removelast_last.
Qed.

Lemma mkdirs_file_at abs cs fs fs' l : mkdirs abs [] cs fs = Some fs' -> file_at fs' l = file_at fs l.
Proof.
  intros E. destruct (mkdirs_spec _ _ _ _ _ E) as (Hs & _). unfold file_at. by destruct (Hs l) as [->|[-> ->]].
Qed.

Lemma mkdirs_ok abs cs fs fs' : mkdirs abs [] cs fs = Some fs' -> grounded fs -> grounded fs'.
Proof. intros E. by eapply mkdirs_grounded. Qed.

Lemma write_ok p b fs fs' : fs_write p b fs = Some fs' ->
  (grounded fs -> grounded fs') /\
  forall l, file_at fs' l = if decide (l = resolve p) then Some b else file_at fs l.
Proof.
  unfold fs_write. destruct (is_dir_at fs (resolve p)) eqn:Ed; [done|]. destruct (is_dir_at fs (parent_loc _)) eqn:Ep; [|done].
  intros [= <-]. split; [intros Hg; apply grounded_insert; auto|]. intros l. unfold file_at. case_decide as Hl.
  - by rewrite Hl, lookup_insert_eq.
  - by rewrite lookup_insert_ne.
Qed.

Lemma remove_ok p fs : let fs' := default fs (fs_remove p fs) in
  (grounded fs -> grounded fs') /\ (forall l, is_dir_at fs l = true -> is_dir_at fs' l = true) /\
  forall l, file_at fs' l = if decide (l = resolve p) then None else file_at fs l.
Proof.
  cbv zeta. unfold fs_remove. destruct (fs !! resolve p) as [[b|]|] eqn:E; cbn [default from_option id].
  - assert (forall l, is_dir_at fs l = true -> is_dir_at (delete (resolve p) fs) l = true) as Hd.
    { intros l. unfold is_dir_at. destruct (forallb _ (snd l)); [done|]. cbn [orb].
      destruct (decide (resolve p = l)) as [<-|Hne]; [by rewrite E|by rewrite lookup_delete_ne]. }
    split_and!; [|done|].
    + intros Hg l nd [_ Hl]%lookup_delete_Some. by eapply Hd, Hg.
    + intros l. unfold file_at. case_decide as Hl; [by rewrite Hl, lookup_delete_eq|by rewrite lookup_delete_ne].
  - split_and!; [done..|]. intros l. unfold file_at. case_decide as Hl; [by rewrite Hl, E|done].
  - split_and!; [done..|]. intros l. unfold file_at. case_decide as Hl; [by rewrite Hl, E|done].
Qed.

(** ** Paths of the shared directory *)

(** Names that are what they look like on every machine: no separator of either kind,
    no dots. *)
Definition tidy (segs : list string) : Prop :=
  segs <> [] /\ Forall (fun n => plain_name n = true) segs /\ Forall (fun n => str_mem "\" n = false) segs.

Definition path_of (segs : list string) : string := str_join "/" segs.

Lemma join_no_backslash segs : Forall (fun n => str_mem "\" n = false) segs -> str_mem "\" (str_join "/" segs) = false.
Proof.
  induction segs as [|n segs IH]; intros Hf; [done|]. apply Forall_cons in Hf as [Hn Hf].
  destruct segs as [|m segs]; [done|]. rewrite str_join_cons by done. rewrite !str_mem_app, Hn. cbn [orb]. by apply IH.
Qed.

Lemma rel_path_tidy segs : tidy segs -> rel_path segs = path_of segs.
Proof. intros (_ & _ & Hb). unfold rel_path. by rewrite replace_none by (by apply join_no_backslash). Qed.

Lemma path_of_split segs : segs <> [] -> Forall (fun n => plain_name n = true) segs -> str_split "/" (path_of segs) = segs.
Proof.
  unfold path_of. induction segs as [|n segs IH]; intros Hne Hf; [done|]. apply Forall_cons in Hf as [Hn Hf].
  destruct segs as [|m segs]; [by apply str_split_single, plain_no_slash|].
  rewrite str_join_cons by done. change ("/" +:+ ?x) with (String "/" x).
  rewrite str_split_app, (str_split_single _ n), IH by (done || by apply plain_no_slash). done.
Qed.

Lemma path_of_inj segs segs' : tidy segs -> tidy segs' -> path_of segs = path_of segs' -> segs = segs'.
Proof. intros (H1 & H2 & _) (H3 & H4 & _) E. by rewrite <- (path_of_split segs), E, path_of_split. Qed.

(** The bytes of the file at a path of the directory [root]. *)
Definition content (fs : files) (root : loc) (segs : list string) : option bytes := file_at fs (below root segs).

(** A shared directory whose files all have tidy names. *)
Record share_ok (fs : files) (root : loc) : Prop := {
  so_dir : is_dir_at fs root = true;
  so_grounded : grounded fs;
  so_tidy : forall segs b, segs <> [] -> content fs root segs = Some b -> excluded (rel_path segs) = false -> tidy segs;
}.

(** The directory above what is there is there. *)
Lemma grounded_up fs root segs n nd : grounded fs -> Forall (fun x => plain_name x = true) segs -> (0 < n < length segs)%nat ->
  fs !! below root (take (S n) segs) = Some nd -> fs !! below root (take n segs) = Some Dir.
Proof.
  intros Hg Hp Hn Hl%Hg. unfold parent_loc, below in Hl. cbn [fst snd] in Hl.
  assert (forall k, (0 < k)%nat -> take k segs <> []) as Hs.
  { intros k Hk E%(f_equal length). rewrite length_take in E. cbn in E. lia. }
  rewrite removelast_app, removelast_firstn in Hl by (try apply Hs; lia).
  change (fst root, snd root ++ take n segs) with (below root (take n segs)) in Hl.
  unfold is_dir_at in Hl. rewrite plain_not_dotdot in Hl by (try apply Hs; try apply Forall_take; done || lia).
  by destruct (fs !! below root (take n segs)) as [[]|].
Qed.

(** In a grounded disk a file is reached exactly when it is there. *)
Lemma reached_content fs root segs b : grounded fs -> tidy segs ->
  reached fs root [] segs b <-> content fs root segs = Some b.
Proof.
  intros Hg (Hne & Hp & _). unfold reached, content, file_at. cbn [app]. split; [by intros (_ & -> & _)|].
  destruct (fs !! below root segs) as [[x|]|] eqn:E; intros [= ->]. split_and!; [done|done|].
  assert (forall j, (0 < length segs - S j)%nat -> fs !! below root (take (length segs - S j) segs) = Some Dir) as Hup.
  { induction j as [|j IH]; intros Hj; (eapply grounded_up; [done|done|lia|]).
    - replace (S (length segs - 1)) with (length segs) by lia. by rewrite take_ge.
    - replace (S (length segs - S (S j))) with (length segs - S j)%nat by lia. apply IH; lia. }
  intros k Hk. specialize (Hup (length segs - S k)%nat). replace (length segs - S (length segs - S k))%nat with k in Hup by lia.
  apply Hup. lia.
Qed.

(** ** Trees by content *)

Section Trees.
Context `{HexCodec} `{Sha256}.

(** The tree of a shared directory, file by file. *)
Lemma build_tree_content mt dir fs t : share_ok fs (resolve dir) -> build_tree mt dir fs = Some t ->
  forall en, en ∈ FileTree.entries t <-> exists segs b, tidy segs /\ excluded (path_of segs) = false /\
    content fs (resolve dir) segs = Some b /\ en = file_entry mt (resolve dir) segs b.
Proof.
  intros Hok Hb en. destruct Hok as [Hd Hg Ht]. destruct (build_tree_total mt dir fs) as [Hex _].
  destruct (Hex Hd) as (t' & Hb' & Hin). rewrite Hb in Hb'. injection Hb' as <-. rewrite Hin. unfold listed. cbn [app]. split.
  - intros (segs & b & Hr & Hx & ->). exists segs, b.
    assert (tidy segs) as Hs by (eapply Ht; [by destruct Hr| |exact Hx]; unfold content, file_at; destruct Hr as (_ & Hl & _); cbn [app] in Hl; by rewrite Hl).
    split_and!; [done|by rewrite <- rel_path_tidy|by apply reached_content|done].
  - intros (segs & b & Hs & Hx & Hc & ->). exists segs, b. rewrite rel_path_tidy by done.
    split_and!; [by apply reached_content|done|done].
Qed.

(** No path is listed twice. *)
Lemma read_dir_names fs d l : read_dir fs d = Some l -> NoDup (fst <$> l).
Proof.
  unfold read_dir. destruct (is_dir_at fs d); [|done]. intros [= <-].
  pose proof (NoDup_fst_map_to_list fs) as Hn. induction (map_to_list fs) as [|[k v] m IH]; [constructor|].
  apply NoDup_cons in Hn as [Hk Hn]. specialize (IH Hn). cbn [omap list_omap].
  destruct (child_of d (k, v)) as [[n w]|] eqn:Ec; [|done]. rewrite fmap_cons. apply NoDup_cons. split; [|done].
  intros ([n' w'] & E & [[k' v'] [Hin Ec']]%list_elem_of_omap)%list_elem_of_fmap. cbn [fst] in E. subst n'.
  apply Hk. apply list_elem_of_fmap. exists (k', v'). split; [|done]. cbn [fst].
  assert (forall q x y, child_of d (q, x) = Some (n, y) -> q = (fst d, snd d ++ [n])) as Hq.
  { intros q x y. unfold child_of. cbn [fst snd]. case_decide as Hp; [|done]. destruct (last (snd q)) as [z|] eqn:El; [|done].
    intros [= -> _]. apply last_split in El. destruct q as [a cs]. cbn [snd] in El. subst d. unfold parent_loc. cbn [fst snd]. by rewrite <- El. }
  by rewrite (Hq _ _ _ Ec), (Hq _ _ _ Ec').
Qed.

Lemma NoDup_parts {A B C} (f : B -> C) (R : A -> list B -> Prop) (P : A -> B -> Prop) l parts :
  Forall2 R l parts -> NoDup l -> (forall a p, a ∈ l -> R a p -> NoDup (f <$> p) /\ forall x, x ∈ p -> P a x) ->
  (forall a a' x x', P a x -> P a' x' -> f x = f x' -> a = a') -> NoDup (f <$> concat parts).
Proof.
  intros H2 Hl HR HP. induction H2 as [|a p l parts Ha H2 IH]; [constructor|]. apply NoDup_cons in Hl as [Hnin Hl].
  cbn [concat]. rewrite fmap_app. apply NoDup_app. destruct (HR _ _ (list_elem_of_here _ _) Ha) as [Hp Hpx].
  split_and!; [done| |apply IH; [done|intros; apply HR; [by right|done]]].
  intros y (x & -> & Hx)%list_elem_of_fmap (x' & E & Hx')%list_elem_of_fmap. apply Hnin.
  apply list_elem_of_In, in_concat in Hx' as (p' & Hp'%list_elem_of_In & Hx'%list_elem_of_In).
  apply list_elem_of_lookup in Hp' as [j Hj]. destruct (Forall2_lookup_r _ _ _ _ _ H2 Hj) as (a' & Ha' & HRa').
  assert (a' ∈ l) as Hin by (by eapply list_elem_of_lookup_2).
  destruct (HR a' p' (list_elem_of_further _ _ _ Hin) HRa') as [_ Hpx']. by rewrite (HP a a' x x' (Hpx x Hx) (Hpx' x' Hx') E).
Qed.

Lemma walk_distinct fuel mt fs root : forall rel es, walk fuel mt fs root rel = Some es ->
  (forall segs b, reached fs root rel segs b -> excluded (rel_path (rel ++ segs)) = false -> tidy (rel ++ segs)) ->
  NoDup (FileTreeEntry.path <$> es).
Proof.
  induction fuel as [|fuel IH]; intros rel es Hw Ht; [done|]. cbn [walk] in Hw.
  apply bind_Some in Hw as (l & Hl & Hw). apply bind_Some in Hw as (parts & Hp & [= <-]). apply mapM_Some in Hp.
  assert (forall n nd, (n, nd) ∈ l -> fs !! below root (rel ++ [n]) = Some nd) as Hdir
    by (intros n nd; rewrite (read_dir_spec _ _ _ n nd Hl), below_app; tauto).
  eapply (NoDup_parts _ _ (fun (kv : string * node) en => fs !! below root (rel ++ [fst kv]) = Some (snd kv) /\
    exists segs, tidy (rel ++ fst kv :: segs) /\ FileTreeEntry.path en = path_of (rel ++ fst kv :: segs)) _ _ Hp).
  - by eapply NoDup_fmap_1, read_dir_names.
  - intros [n [b|]] part Hin Hpart; cbn [fst snd] in *; specialize (Hdir _ _ Hin).
    + injection Hpart as <-. destruct (excluded _) eqn:Ex; [split; [constructor|set_solver]|].
      split; [apply NoDup_singleton|]. intros en ->%list_elem_of_singleton. split; [done|]. exists [].
      assert (tidy (rel ++ [n])) as Hs by (by eapply Ht; [apply reached_file|]). split; [done|]. cbn [file_entry FileTreeEntry.path].
      by apply rel_path_tidy.
    + split.
      * apply (IH _ _ Hpart). intros segs b Hr Hx. rewrite <- app_assoc in Hx |- *. cbn [app] in *.
        apply (Ht (n :: segs) b); [|done]. destruct segs as [|m segs]; [by destruct Hr|]. by apply reached_cons.
      * intros en Hen. apply (walk_spec _ _ _ _ _ _ _ Hpart) in Hen as (segs & b & Hr & Hx & ->). split; [done|]. exists segs.
        rewrite <- app_assoc in Hx |- *. cbn [app] in *.
        assert (tidy (rel ++ n :: segs)) as Hs.
        { apply (Ht (n :: segs) b); [|done]. destruct segs as [|m segs]; [by destruct Hr|]. by apply reached_cons. }
        split; [done|]. cbn [file_entry FileTreeEntry.path]. by apply rel_path_tidy.
  - intros [n nd] [n' nd'] en en' (Hl1 & segs & Hs & E) (Hl2 & segs' & Hs' & E') Heq. cbn [fst snd] in *.
    rewrite E, E' in Heq. apply path_of_inj in Heq; [|done..]. apply app_inv_head in Heq as [= -> ->]. congruence.
Qed.

Lemma build_tree_distinct mt dir fs t : share_ok fs (resolve dir) -> build_tree mt dir fs = Some t -> distinct_paths (Some t).
Proof.
  intros [_ _ Ht] (es & Hw & [= <-])%bind_Some. cbn [distinct_paths FileTree.entries]. rewrite sort_entries_perm.
  apply (walk_distinct _ _ _ _ _ _ Hw). cbn [app]. intros segs b (Hne & Hl & _) Hx. eapply Ht; [done| |done].
  unfold content, file_at. cbn [app] in Hl. by rewrite Hl.
Qed.

Lemma build_tree_hash mt dir fs t : build_tree mt dir fs = Some t -> FileTree.tree_hash t = tree_hash t.
Proof. unfold build_tree. intros (es & _ & [= <-])%bind_Some. done. Qed.

(** Entries without their time. *)
Definition timeless (en : entry) : entry :=
  FileTreeEntry.mk (FileTreeEntry.path en) (FileTreeEntry.blob_id en) (FileTreeEntry.mode en) (FileTreeEntry.size en) 0.

Lemma timeless_paths l : FileTreeEntry.path <$> map timeless l = FileTreeEntry.path <$> l.
Proof. induction l as [|en l IH]; [done|]. cbn [map fmap list_fmap]. by f_equal. Qed.

Lemma tree_hash_timeless t : NoDup (FileTreeEntry.path <$> FileTree.entries t) ->
  tree_hash t = hex_encode (sha256 (concat (map entry_bytes (sort_entries (map timeless (FileTree.entries t)))))).
Proof.
  intros Hn. unfold tree_hash. do 3 f_equal.
  rewrite (sort_entries_unique (map timeless (FileTree.entries t)) (map timeless (sort_entries (FileTree.entries t))));
    [|apply Permutation_map; symmetry; apply sort_entries_perm|by rewrite timeless_paths].
  rewrite sort_sorted_map by done. by rewrite map_map.
Qed.

(** Trees with the same timeless entries have the same hash. *)
Lemma tree_hash_same t t' :
  NoDup (FileTreeEntry.path <$> FileTree.entries t) -> NoDup (FileTreeEntry.path <$> FileTree.entries t') ->
  (forall x, x ∈ map timeless (FileTree.entries t) <-> x ∈ map timeless (FileTree.entries t')) -> tree_hash t = tree_hash t'.
Proof.
  intros Hn Hn' He. rewrite !tree_hash_timeless by done. do 4 f_equal.
  rewrite <- timeless_paths in Hn, Hn'. apply sort_entries_unique; [|done].
  apply NoDup_Permutation; [by eapply NoDup_fmap_1..|done].
Qed.

(** A tree whose entries speak about the bytes [D]. *)
Record true_to (D : string -> bytes) (r : FileTree.t) : Prop := {
  tt_distinct : distinct_paths (Some r);
  tt_entry : forall en, en ∈ FileTree.entries r -> exists segs, tidy segs /\ FileTreeEntry.path en = path_of segs /\
    excluded (path_of segs) = false /\ FileTreeEntry.blob_id en = object_id (D (path_of segs)) /\
    FileTreeEntry.mode en = 420 /\ FileTreeEntry.size en = len (D (path_of segs));
}.

(** A file named like a conflict copy.  At the top of the directory it is excluded from
    the tree, below it is not. *)
Definition copy_named (segs : list string) : bool :=
  match last segs with Some n => starts_with ".sync-conflict-" n | None => false end.

(** The files a statement is about: all that the tree would list, or all but conflict
    copies. *)
Definition counted (all : bool) (segs : list string) : Prop :=
  tidy segs /\ excluded (path_of segs) = false /\ (all = true \/ copy_named segs = false).

(** The directory holds what the tree lists and nothing else. *)
Definition mirrors (all : bool) (D : string -> bytes) (r : FileTree.t) (fs : files) (root : loc) : Prop :=
  forall segs, counted all segs ->
    content fs root segs = match entry_at (Some r) (path_of segs) with Some _ => Some (D (path_of segs)) | None => None end.

Lemma mirrors_hash D r mt dir fs t : true_to D r -> share_ok fs (resolve dir) -> mirrors true D r fs (resolve dir) ->
  build_tree mt dir fs = Some t -> tree_hash t = tree_hash r.
Proof.
  intros [Hn Hr] Hok Hm Hb. pose proof (build_tree_content _ _ _ _ Hok Hb) as Hin. apply tree_hash_same; [by eapply build_tree_distinct|done|].
  intros x. rewrite !list_elem_of_fmap. split.
  - intros (en & -> & (segs & b & Hs & Hx & Hc & ->)%Hin). rewrite Hm in Hc by (by split_and!; [..|left]).
    destruct (entry_at (Some r) (path_of segs)) as [en|] eqn:Ee; [|done]. injection Hc as <-.
    apply entry_at_in in Ee as [Hen Hp]; [|done]. exists en. split; [|done].
    destruct (Hr en Hen) as (segs' & _ & Hp' & _ & Hb' & Hmo & Hsz). rewrite <- Hp', Hp in Hb', Hsz.
    unfold timeless, file_entry. cbn. by rewrite Hp, Hb', Hmo, Hsz, rel_path_tidy.
  - intros (en & -> & Hen). destruct (Hr en Hen) as (segs & Hs & Hp & Hx & Hb' & Hmo & Hsz).
    exists (file_entry mt (resolve dir) segs (D (path_of segs))). split.
    + unfold timeless, file_entry. cbn. by rewrite Hp, Hb', Hmo, Hsz, rel_path_tidy.
    + apply Hin. exists segs, (D (path_of segs)). split_and!; [done|done| |done]. rewrite Hm by (by split_and!; [..|left]).
      by rewrite (proj2 (entry_at_in r (path_of segs) en Hn) (conj Hen Hp)).
Qed.
End Trees.

(** ** Pulling one object *)

Section Pull.
Context `{HexCodec} `{Sha256}.

(** An operation that keeps the directory in order and its visible files, but for
    those [f] speaks about. *)
Definition changes (all : bool) (root : loc) (fs fs' : files) (f : list string -> option bytes -> option bytes) : Prop :=
  share_ok fs' root /\ forall segs, counted all segs -> content fs' root segs = f segs (content fs root segs).

Lemma share_ok_keep root fs fs' (hit : loc -> Prop) :
  share_ok fs root -> grounded fs' -> is_dir_at fs' root = true ->
  (forall l, ~ hit l -> file_at fs' l = file_at fs l) ->
  (forall segs, segs <> [] -> hit (below root segs) -> excluded (rel_path segs) = true \/ tidy segs) -> share_ok fs' root.
Proof.
  intros [Hd Hg Ht] Hg' Hd' Hk Hh. split; [done|done|]. intros segs b Hne Hc Hx.
  destruct (decide (excluded (rel_path segs) = true \/ tidy segs)) as [[Hy|Hy]|Hy]; [congruence|done|].
  eapply Ht; [done| |done]. unfold content in *. by rewrite <- Hk by naive_solver.
Qed.
Lemma copy_ok l b fs : is_dir_at fs (parent_loc l) = true -> let fs' := default fs (copy_to l b fs) in
  (grounded fs -> grounded fs') /\ (forall m, is_dir_at fs m = true -> is_dir_at fs' m = true) /\
  forall m, m <> l -> file_at fs' m = file_at fs m.
Proof.
  cbv zeta. unfold copy_to. destruct (is_dir_at fs l) eqn:Ed; cbn [default from_option id]; [done|]. intros Hp. split_and!.
  - intros Hg. apply grounded_insert; auto.
  - intros m. apply is_dir_insert. by left.
  - intros m Hm. unfold file_at. by rewrite lookup_insert_ne.
Qed.

Lemma copy_excluded requester path ts : excluded (rel_path [conflict_name requester path ts]) = true.
Proof.
  unfold rel_path, conflict_name, excluded, str_replace. cbn [str_join]. rewrite str_map_app.
  change (str_map _ ".sync-conflict-") with ".sync-conflict-". by rewrite starts_with_app.
Qed.

Lemma replace_other a b x q : Ascii.eqb x b = false -> str_mem x q = false -> str_mem x (str_replace a b q) = false.
Proof.
  intros Hb. unfold str_replace. induction q as [|c q IH]; [done|]. cbn [str_map str_mem]. intros [Hc Hq]%orb_false_iff.
  rewrite (IH Hq), orb_false_r. by destruct (Ascii.eqb c a).
Qed.

Lemma copy_tidy segs requester path ts :
  Forall (fun n => plain_name n = true) segs -> Forall (fun n => str_mem "\" n = false) segs -> str_mem "\" path = false ->
  tidy (segs ++ [conflict_name requester path ts]).
Proof.
  intros Hp Hb Hn. split; [by destruct segs|]. split; apply Forall_app; (split; [done|]); constructor; try done.
  - apply conflict_name_file.
  - rewrite conflict_name_shape. repeat (rewrite str_mem_app || cbn [str_mem]).
    rewrite sanitize_no_backslash, dec_not_mem, replace_other by done. done.
Qed.

Lemma copy_not_counted root segs requester path ts x : counted false x -> below root x <> below root (segs ++ [conflict_name requester path ts]).
Proof.
  intros (_ & _ & [|Hx]) Heq; [done|]. apply below_inj in Heq as ->. unfold copy_named in Hx.
  by rewrite last_snoc, conflict_name_prefix in Hx.
Qed.

Lemma parent_below root segs n : parent_loc (below root (segs ++ [n])) = below root segs.
Proof. unfold parent_loc, below. cbn [fst snd]. by rewrite app_assoc, removelast_last. Qed.

(** The conflict copy, when one is made. *)
Lemma conflict_ok all e en requester ts fs dir n (root := resolve (share_dir e)) (segs := dir ++ [n]) :
  let name := conflict_name requester (FileTreeEntry.path en) ts in
  let fs1 := match content fs root segs with
    | Some local => if decide (object_id local = FileTreeEntry.blob_id en) then fs else default fs (copy_to (below root (dir ++ [name])) local fs)
    | None => fs end in
  share_ok fs root ->
  (all = true -> forall local, content fs root segs = Some local -> object_id local = FileTreeEntry.blob_id en \/ length segs = 1%nat) ->
  (grounded fs -> grounded fs1) /\ (forall m, is_dir_at fs m = true -> is_dir_at fs1 m = true) /\
  (forall m, m <> below root (dir ++ [name]) -> file_at fs1 m = file_at fs m) /\
  forall x, counted all x -> content fs1 root x = content fs root x.
Proof.
  intros name fs1 Hok Hl. unfold fs1. destruct (content fs root segs) as [local|] eqn:Ec; [|done]. case_decide as Hid; [done|].
  destruct (copy_ok (below root (dir ++ [name])) local fs) as (Hg & Hd & Hf).
  { rewrite parent_below, <- (parent_below root dir n). unfold content, file_at in Ec.
    destruct (fs !! below root segs) as [nd|] eqn:El; [|done]. by apply (so_grounded _ _ Hok _ nd). }
  split_and!; [done..|]. intros x Hx. apply Hf. destruct all; [|by apply copy_not_counted].
  destruct (Hl eq_refl local eq_refl) as [|Hlen]; [done|]. unfold segs in Hlen. rewrite length_app in Hlen. cbn in Hlen.
  destruct dir; [|cbn in Hlen; lia]. intros ->%below_inj. destruct Hx as (Ht & Hx & _).
  pose proof (copy_excluded requester (FileTreeEntry.path en) ts) as Hn. fold name in Hn. rewrite rel_path_tidy in Hn by done.
  cbn [app] in Hx. congruence.
Qed.

(** Writing the pulled bytes. *)
Lemma materialize_ok all e en b requester ts fs fs' segs (root := resolve (share_dir e)) :
  materialize_with_conflict e en b requester ts fs = Written fs' -> share_ok fs root ->
  tidy segs -> FileTreeEntry.path en = path_of segs ->
  (all = true -> forall local, content fs root segs = Some local -> object_id local = FileTreeEntry.blob_id en \/ length segs = 1%nat) ->
  changes all root fs fs' (fun s old => if decide (s = segs) then Some b else old).
Proof.
  intros Hm Hok Hs Hp Hl. pose proof Hs as (Hne & Hpl & Hbs).
  assert (resolve (path_join (share_dir e) (FileTreeEntry.path en)) = below root segs) as Et by (by rewrite Hp; apply resolve_join_segs).
  destruct (exists_last Hne) as (dir & n & ->).
  unfold materialize_with_conflict in Hm. rewrite fs_read_file_at, Et in Hm. fold (content fs root (dir ++ [n])) in Hm.
  assert (forall x, sibling (below root (dir ++ [n])) x = below root (dir ++ [x])) as Hsib
    by (intros x; unfold sibling, below; cbn [fst snd]; by rewrite !app_assoc, removelast_last).
  pose proof (conflict_ok all e en requester ts fs dir n Hok Hl) as Hcf. cbv zeta in Hcf. fold root in Hcf.
  rewrite Hsib in Hm. set (name := conflict_name requester (FileTreeEntry.path en) ts) in *.
  set (fs1 := match content fs root (dir ++ [n]) with Some _ => _ | None => _ end) in Hm.
  change (match content fs root (dir ++ [n]) with Some _ => _ | None => _ end) with fs1 in Hcf.
  destruct Hcf as (Hg1 & Hd1 & Hf1 & Hc1).
  clearbody fs1. unfold materialize in Hm. destruct (create_parent _ fs1) as [fs2|] eqn:Ec; [|done].
  destruct (e "NSMT_SYMLINK_VIEW"); [by repeat case_match|]. destruct (fs_write _ b fs2) as [fs3|] eqn:Ew; [|done]. injection Hm as <-.
  pose proof (fs_write_dirs _ _ _ _ root Ew) as Hd3. apply write_ok in Ew as [Hg3 Hf3]. rewrite Et in Hf3.
  pose proof (mkdirs_spec _ _ _ _ _ Ec) as (_ & Hd2 & _). split.
  - apply (share_ok_keep root fs fs3 (fun m => m = below root (dir ++ [n]) \/ m = below root (dir ++ [name]))); [done| | | |].
    + apply Hg3. eapply mkdirs_ok; [exact Ec|]. by apply Hg1, (so_grounded _ _ Hok).
    + apply Hd3, Hd2, Hd1, (so_dir _ _ Hok).
    + intros l Hn. rewrite Hf3, decide_False by naive_solver. rewrite (mkdirs_file_at _ _ _ _ _ Ec). apply Hf1. naive_solver.
    + intros s _ [->%below_inj| ->%below_inj]; right; [done|]. apply Forall_app in Hpl as [Hpl _].
      pose proof (join_no_backslash _ Hbs) as Hj. apply Forall_app in Hbs as [Hbs _]. apply copy_tidy; [done..|]. by rewrite Hp.
  - intros x Hx. unfold content. rewrite Hf3. destruct (decide (x = dir ++ [n])) as [->|Hne']; [by rewrite decide_True|].
    rewrite decide_False by (by intros ->%below_inj). rewrite (mkdirs_file_at _ _ _ _ _ Ec). by apply Hc1.
Qed.

(** The object cache is outside the shared directory. *)
Lemma ensure_ok e blob b fs fs' root :
  ensure_object_local e blob b fs = Some fs' -> share_ok fs root ->
  inside root (resolve (path_join (objects_dir e) blob)) = false -> forall all, changes all root fs fs' (fun _ old => old).
Proof.
  unfold ensure_object_local. intros (fs1 & E1 & E)%bind_Some Hok Ho all.
  pose proof (mkdirs_spec _ _ _ _ _ E1) as (_ & Hd1 & _).
  assert (forall segs, below root segs <> resolve (path_join (objects_dir e) blob)) as Hne.
  { intros segs El. rewrite <- El in Ho. destruct root as [a cs]. unfold below in Ho. cbn [fst snd] in Ho. by rewrite inside_prefix in Ho. }
  assert (grounded fs' /\ is_dir_at fs' root = true /\
    forall m, m <> resolve (path_join (objects_dir e) blob) -> file_at fs' m = file_at fs m) as (Hg & Hd & Hf).
  { pose proof (mkdirs_ok _ _ _ _ E1 (so_grounded _ _ Hok)) as Hg1. pose proof (Hd1 _ (so_dir _ _ Hok)) as Hr.
    destruct (fs_exists fs1 _); [injection E as <-|].
    - split_and!; [done|done|]. intros m _. by apply (mkdirs_file_at _ _ _ _ _ E1).
    - split_and!; [by eapply write_ok|by eapply fs_write_dirs|]. intros m Hm. apply write_ok in E as [_ Hf]. rewrite Hf, decide_False by done.
      by apply (mkdirs_file_at _ _ _ _ _ E1). }
  split.
  - apply (share_ok_keep root fs fs' (fun m => m = resolve (path_join (objects_dir e) blob))); try done.
    intros segs _ Hh. by destruct (Hne segs).
  - intros segs _. unfold content. by apply Hf.
Qed.
End Pull.

(** ** The turn of the loop *)

Section Round.
Context `{Backend} `{Codec} `{HexCodec} `{Ed25519} `{Sha256} `{Aead} `{MemoryPool} `{Gateway}.

(** The turn ended with an error of the client's own disk. *)
Definition refused {A} (r : outcome A) : Prop := r = Failed (SMsg "materialize") \/ r = Failed (SMsg "ensure").

Lemma changes_trans all root a b c f g : changes all root a b f -> changes all root b c g -> changes all root a c (fun s o => g s (f s o)).
Proof. intros [_ Hf] [Ho Hg]. split; [done|]. intros s Hs. by rewrite Hg, Hf. Qed.

Lemma store_pulled_ok all self en b fqn s segs (root := resolve (share_dir (s_env self))) :
  s_env self "NSMT_SYMLINK_VIEW" = None -> share_ok (cdisk s) root -> tidy segs -> FileTreeEntry.path en = path_of segs ->
  (all = true -> forall local, content (cdisk s) root segs = Some local -> object_id local = FileTreeEntry.blob_id en \/ length segs = 1%nat) ->
  inside root (resolve (path_join (objects_dir (s_env self)) (FileTreeEntry.blob_id en))) = false ->
  exists r s', store_pulled self en b fqn s = (r, s') /\
    (refused r \/ r = Done tt /\ inbox s' = inbox s /\
       changes all root (cdisk s) (cdisk s') (fun x old => if decide (x = segs) then Some b else old)).
Proof.
  intros Hv Hok Hs Hp Hl Ho. unfold store_pulled, Sync.now_ms, tick, get_disk, put_disk, cio, cfail, cret, cbind. cbn [cdisk inbox sent punched ticks].
  pose proof (materialize_cases (s_env self) en b fqn (clock self (ticks s)) (cdisk s) Hv) as Hm.
  destruct (materialize_with_conflict _ _ _ _ _ _) as [fs1| |fs1] eqn:Em; [|done|eexists _, _; split; [done|left; by left]].
  destruct (materialize_ok _ _ _ _ _ _ _ _ _ Em Hok Hs Hp Hl) as [Hok1 Hc1].
  cbn [cdisk]. destruct (ensure_object_local _ _ _ _) as [fs2|] eqn:Ee; [|eexists _, _; split; [done|left; by right]].
  eexists _, _. split; [done|]. right. split; [done|]. split; [done|]. cbn [cdisk].
  exact (changes_trans all root _ _ _ _ _ (conj Hok1 Hc1) (ensure_ok _ _ _ _ _ root Ee Hok1 Ho all)).
Qed.

(** The objects of [ps] arrive one after the other. *)
Inductive deliveries (ks : option E2EKeys) (D : string -> bytes) (r : FileTree.t) (rest : list arrival) :
    list string -> list arrival -> Prop :=
| deliveries_none : deliveries ks D r rest [] rest
| deliveries_one p ps en answers nss l l' :
    find_entry p r = Some en -> len (D p) < 2 ^ 62 ->
    delivered ks (FileTreeEntry.blob_id en) (D p) answers nss l' l ->
    deliveries ks D r rest ps l' -> deliveries ks D r rest (p :: ps) l.

Lemma find_entry_in p r en : find_entry p r = Some en -> en ∈ FileTree.entries r /\ FileTreeEntry.path en = p.
Proof.
  unfold find_entry. intros E. pose proof (find_some _ _ E) as [Hin Hp].
  split; [by apply list_elem_of_In|by apply bool_decide_eq_true in Hp].
Qed.

(** A file that is there with other bytes, of which a conflict copy will be made,
    lies at the top, where the copy is not part of the tree. *)
Definition flat_conflicts (D : string -> bytes) (ps : list string) (fs : files) (root : loc) : Prop :=
  forall segs local, tidy segs -> excluded (path_of segs) = false -> path_of segs ∈ ps -> content fs root segs = Some local ->
    object_id local = object_id (D (path_of segs)) \/ length segs = 1%nat.

Lemma pull_all all net self fqn ctx ks D r rest (root := resolve (share_dir (s_env self))) :
  true_to D r -> s_env self "NSMT_SYMLINK_VIEW" = None ->
  keys_fit ks (from_env (s_env self) (e2e_domain (domain_of fqn))) ->
  (forall en, en ∈ FileTree.entries r -> inside root (resolve (path_join (objects_dir (s_env self)) (FileTreeEntry.blob_id en))) = false) ->
  forall ps s, deliveries ks D r rest ps (inbox s) -> share_ok (cdisk s) root ->
  (all = true -> flat_conflicts D ps (cdisk s) root) ->
  exists res s', pull_changed net self fqn ctx r ps s = (res, s') /\
    (refused res \/ res = Done tt /\ inbox s' = rest /\
       changes all root (cdisk s) (cdisk s') (fun x old => if decide (path_of x ∈ ps) then Some (D (path_of x)) else old)).
Proof.
  intros Hr Hv Hk Ho ps. induction ps as [|p ps IH]; intros s Hd Hok Hl.
  - inversion Hd; subst. exists (Done tt), s. split; [done|]. right. split; [done|]. split; [done|]. split; [done|].
    intros x _. by rewrite decide_False by set_solver.
  - inversion Hd as [|? ? en answers nss l l' Hf Hsm Hdl Hrest]; subst. destruct Hdl.
    destruct (find_entry_in _ _ _ Hf) as [Hen Hp]. destruct (tt_entry _ _ Hr en Hen) as (segs & Hs & Hps & Hx & Hb & _ & _).
    pose proof Hps as Hpe. rewrite Hp in Hps. clear Hp. subst p. cbn [pull_changed]. rewrite Hf. unfold pull_object_with_peer.
    destruct (get_object_serves (s_env self) (FileTreeEntry.blob_id en) (domain_of fqn) (D (path_of segs)) ks answers nss s l')
      as [pl Hg]; try done.
    set (s1 := set_punched _ _) in Hg.
    destruct (store_pulled_ok all self en (D (path_of segs)) fqn s1 segs Hv Hok Hs) as (res & s2 & E & Hres).
    { done. }
    { intros Ha local Hc. rewrite Hb. apply (Hl Ha segs local Hs Hx); [by left|done]. }
    { by apply Ho. }
    unfold cbind in *. rewrite Hg. cbn [cret]. rewrite E.
    destruct Hres as [Hres|(-> & Hi & Hch)]; [exists (match res with Done _ => Done tt | Failed x => Failed x | Waits => Waits end), s2;
      destruct Hres as [-> | ->]; (split; [done|]); left; [by left|by right]|].
    destruct (IH s2) as (res & s3 & E3 & Hres).
    { by rewrite Hi. }
    { apply Hch. }
    { intros Ha x local Hx1 Hx2 Hx3 Hc. destruct Hch as [_ Hch]. change (content (cdisk s2) (resolve (share_dir (s_env self))) x = Some local) in Hc.
      rewrite (Hch x (conj Hx1 (conj Hx2 (or_introl Ha)))) in Hc.
      case_decide as Hxs; [left; subst x; by injection Hc as <-|]. apply (Hl Ha x local Hx1 Hx2); [by right|done]. }
    exists res, s3. split; [exact E3|]. destruct Hres as [Hres|(-> & Hi3 & Hch3)]; [by left|right]. split_and!; [done|done|].
    destruct (changes_trans _ _ _ _ _ _ _ Hch Hch3) as [Hok3 Hc3]. split; [done|]. intros x Hx1. rewrite Hc3 by done.
    destruct (decide (path_of x ∈ ps)) as [Hin|Hin]; [by rewrite decide_True by (by right)|].
    destruct (decide (x = segs)) as [->|Hne]; [by rewrite decide_True by (by left)|].
    rewrite decide_False; [done|]. rewrite elem_of_cons. intros [E'|?]; [|done]. apply Hne. by apply path_of_inj; [apply Hx1|..].
Qed.
Definition in_order (ps : list string) : Prop :=
  Forall (fun p => exists segs, tidy segs /\ p = path_of segs) ps.

Lemma drop_all all dir ps : in_order ps -> forall fs, share_ok fs (resolve dir) ->
  changes all (resolve dir) fs (fold_left (fun fs p => default fs (fs_remove (path_join dir p) fs)) ps fs)
    (fun x old => if decide (path_of x ∈ ps) then None else old).
Proof.
  induction 1 as [|p ps (segs & Hs & ->) _ IH]; intros fs Hok; cbn [fold_left].
  - split; [done|]. intros x _. by rewrite decide_False by set_solver.
  - destruct (remove_ok (path_join dir (path_of segs)) fs) as (Hg & Hd & Hf). set (fs1 := default fs _) in *.
    destruct Hs as (Hne & Hpl & Hb). unfold path_of in Hf. rewrite resolve_join_segs in Hf by done.
    assert (share_ok fs1 (resolve dir)) as Hok1.
    { destruct Hok as [Hd0 Hg0 Ht]. split; [by apply Hd|by apply Hg|]. intros x b Hx Hc. eapply Ht; [done|].
      unfold content in *. rewrite Hf in Hc. by case_decide. }
    destruct (IH fs1 Hok1) as [Hok2 Hc2]. split; [done|]. intros x Hx. rewrite Hc2 by done. unfold content. rewrite Hf.
    destruct (decide (path_of x ∈ ps)) as [Hin|Hin]; [by rewrite decide_True by (by right)|].
    destruct (decide (below (resolve dir) x = below (resolve dir) segs)) as [->%below_inj|Hne'].
    + by rewrite decide_True by (by left).
    + rewrite decide_False; [done|]. intros [E|?]%elem_of_cons; [|done]. apply Hne'. f_equal. by apply path_of_inj; [apply Hx|..].
Qed.

(** The entry of a file in the tree of its directory. *)
Lemma entry_of_content mt dir fs t segs : share_ok fs (resolve dir) -> build_tree mt dir fs = Some t ->
  tidy segs -> excluded (path_of segs) = false ->
  entry_at (Some t) (path_of segs) = file_entry mt (resolve dir) segs <$> content fs (resolve dir) segs.
Proof.
  intros Hok Hb Hs Hx. pose proof (build_tree_distinct _ _ _ _ Hok Hb) as Hn.
  pose proof (build_tree_content _ _ _ _ Hok Hb) as Hin.
  destruct (content fs (resolve dir) segs) as [b|] eqn:Ec; cbn [fmap option_fmap option_map].
  - apply entry_at_in; [done|]. split; [|by apply rel_path_tidy]. apply Hin. by exists segs, b.
  - destruct (entry_at (Some t) (path_of segs)) as [en|] eqn:Ee; [|done]. exfalso.
    apply entry_at_in in Ee as [(segs' & b & Hs' & _ & Hc & ->)%Hin Hp]; [|done]. cbn [file_entry FileTreeEntry.path] in Hp.
    rewrite rel_path_tidy in Hp by done. apply path_of_inj in Hp as ->; [|done..]. congruence.
Qed.

(** What the server holds when the client asks: the tree the client pushed or pulled
    last, and the latest tree. *)
Record held (i : Ident) (srv : Sess) (D : string -> bytes) (t old r : FileTree.t) : Prop := {
  hd_old : get_tree (server_fs i) (FileTree.tree_hash t) (world srv) = Some old;
  hd_distinct : distinct_paths (Some old);
  hd_same : forall p, FileTreeEntry.blob_id <$> entry_at (Some old) p = FileTreeEntry.blob_id <$> entry_at (Some t) p;
  hd_latest : latest_tree (server_fs i) (world srv) = Some r;
  hd_saved : get_tree (server_fs i) (tree_hash r) (world srv) = Some r;
  hd_true : true_to D r;
}.

(** The client's directory before the round, with the tree [t] the client has of it. *)
Record before (e : env) (mt : loc -> Z) (D : string -> bytes) (t r : FileTree.t) (fs : files) : Prop := {
  bf_ok : share_ok fs (resolve (share_dir e));
  bf_tree : build_tree mt (share_dir e) fs = Some t;
  bf_plain : e "NSMT_SYMLINK_VIEW" = None;
  bf_cache : forall en, en ∈ FileTree.entries r ->
    inside (resolve (share_dir e)) (resolve (path_join (objects_dir e) (FileTreeEntry.blob_id en))) = false;
  bf_collision : forall segs b, tidy segs -> content fs (resolve (share_dir e)) segs = Some b ->
    object_id b = object_id (D (path_of segs)) -> b = D (path_of segs);
}.

(** Pulling what changed and dropping what was removed makes the directory mirror the
    latest tree. *)
Lemma round_mirrors all i srv e mt D t old r changed removed fs fs' :
  held i srv D t old r -> before e mt D t r fs -> diff (Some old) (Some r) = (changed, removed) ->
  changes all (resolve (share_dir e)) fs fs' (fun x o => if decide (path_of x ∈ removed) then None
    else if decide (path_of x ∈ changed) then Some (D (path_of x)) else o) ->
  mirrors all D r fs' (resolve (share_dir e)).
Proof.
  intros [_ Ho Hsame _ _ [Hr Htrue]] [Hok Hb _ _ Hcol] Hd [_ Hch] segs Hcnt. pose proof Hcnt as (Hs & Hx & _). rewrite Hch by done.
  pose proof (diff_spec (Some old) (Some r) (path_of segs) Ho Hr) as Hspec. rewrite Hd in Hspec.
  destruct Hspec as (_ & _ & Hc & Hrm & Hkeep).
  pose proof (entry_of_content _ _ _ _ _ Hok Hb Hs Hx) as He. specialize (Hsame (path_of segs)). rewrite He in Hsame.
  destruct (entry_at (Some r) (path_of segs)) as [er|] eqn:Er.
  - rewrite decide_False by (rewrite Hrm; naive_solver). case_decide as Hin; [done|].
    specialize (Hkeep Hin ltac:(rewrite Hrm; naive_solver)). destruct (entry_at (Some old) (path_of segs)) as [o|]; [|done].
    unfold same_content in Hkeep. apply andb_true_iff in Hkeep as [Hbl%bool_decide_eq_true _].
    apply entry_at_in in Er as [Her Hp]; [|done]. destruct (Htrue er Her) as (segs' & _ & Hp' & _ & Hbd & _).
    rewrite <- Hp', Hp in Hbd. destruct (content fs _ segs) as [b|] eqn:Eb; [|done]. cbn in Hsame. injection Hsame as Hsame.
    f_equal. apply Hcol; [done|done|congruence].
  - case_decide as Hin; [done|]. rewrite decide_False by (rewrite Hc; naive_solver).
    assert (path_of segs ∉ changed) as Hnc by (rewrite Hc; naive_solver). specialize (Hkeep Hnc Hin).
    destruct (entry_at (Some old) (path_of segs)) as [o|]; [done|]. by destruct (content fs _ segs).
Qed.
(** The removed paths are paths of the client's own tree. *)
Lemma removed_in_order i srv e mt D t old r changed removed fs :
  held i srv D t old r -> before e mt D t r fs -> diff (Some old) (Some r) = (changed, removed) -> in_order removed.
Proof.
  intros [_ Ho Hsame _ _ [Hr _]] [Hok Hb _ _ _] Hd. apply Forall_forall. intros p Hin.
  pose proof (diff_spec (Some old) (Some r) p Ho Hr) as Hspec. rewrite Hd in Hspec. destruct Hspec as (_ & _ & _ & Hrm & _).
  destruct (proj1 Hrm Hin) as [[o Eo] _]. specialize (Hsame p). rewrite Eo in Hsame.
  destruct (entry_at (Some t) p) as [en|] eqn:Ee; [|done]. apply entry_at_in in Ee as [Hen Hp]; [|by eapply build_tree_distinct].
  apply (build_tree_content _ _ _ _ Hok Hb) in Hen as (segs & b & Hs & _ & _ & ->). exists segs. split; [done|].
  rewrite <- Hp. cbn. by apply rel_path_tidy.
Qed.

(** The server's answer to the question for changes. *)
Lemma diff_reply c i h srv reply :
  on_file_diff c i (FileDiff.mk h None) srv = (Ok tt, add_out reply srv) ->
  reply = from_json FrameType.FileDiffResult 0
    (let '(changed, removed) := diff (get_tree (server_fs i) h (world srv)) (latest_tree (server_fs i) (world srv)) in
     FileDiffResult.mk changed removed (latest_tree (server_fs i) (world srv))).
Proof.
  unfold on_file_diff. sess_unfold. cbn [FileDiff.old_tree]. destruct (diff _ _) as [changed removed]. unfold log_slices.
  destruct (log_info c && _); [done|]. sess_unfold. destruct (encode _); [|done]. intros [= E]. by apply app_inv_head in E as [= <-].
Qed.

Definition reply_frame (changed removed : list string) (latest : option FileTree.t) : Frame :=
  from_json FrameType.FileDiffResult 0 (FileDiffResult.mk changed removed latest).

Lemma diff_answered c i h srv old r changed removed :
  get_tree (server_fs i) h (world srv) = Some old -> latest_tree (server_fs i) (world srv) = Some r ->
  diff (Some old) (Some r) = (changed, removed) ->
  forallb (slice_ok 12) [FileTree.tree_hash old; FileTree.tree_hash r] = true ->
  is_ok (encode (reply_frame changed removed (Some r))) = true ->
  on_file_diff c i (FileDiff.mk h None) srv = (Ok tt, add_out (reply_frame changed removed (Some r)) srv).
Proof.
  intros Ho Hl Hd Hs He. unfold on_file_diff. sess_unfold. cbn [FileDiff.old_tree]. rewrite Ho, Hl, Hd. unfold log_slices.
  change (map _ _) with [FileTree.tree_hash old; FileTree.tree_hash r]. rewrite Hs, andb_false_r. sess_unfold. unfold reply_frame in *. by destruct (encode _).
Qed.

(** The next question. *)
Lemma settled i srv D t old r : held i srv D t old r ->
  diff (get_tree (server_fs i) (tree_hash r) (world srv)) (latest_tree (server_fs i) (world srv)) = ([], []).
Proof.
  intros [_ _ _ -> -> [Hr _]]. pose proof (fun p => diff_spec (Some r) (Some r) p Hr Hr) as Hspec.
  destruct (diff (Some r) (Some r)) as [changed removed]. f_equal.
  - apply elem_of_nil_inv. intros p Hp. destruct (Hspec p) as (_ & _ & Hc & _). apply Hc in Hp as (en & Hen & Hs).
    specialize (Hs en Hen). unfold same_content in Hs. by rewrite bool_decide_eq_true_2, Z.eqb_refl in Hs.
  - apply elem_of_nil_inv. intros p Hp. destruct (Hspec p) as (_ & _ & _ & Hrm & _). apply Hrm in Hp as [[o Ho] Hn]. congruence.
Qed.
Definition ask_frame (h : string) : Frame := from_json FrameType.FileDiff 0 (FileDiff.mk h None).

Lemma request_diff_done e h ns reply d l s :
  is_ok (encode (ask_frame h)) = true -> (forall n, n ∈ ns -> frame_type n <> FrameType.FileDiffResult) ->
  frame_type reply = FrameType.FileDiffResult -> payload_json reply = Ok d -> inbox s = map arrives (ns ++ [reply]) ++ l ->
  exists pl, request_diff e h s = (Done d, set_punched pl (set_inbox l (add_sent [ask_frame h] s))).
Proof.
  intros He Hns Ht Hp Hin. unfold request_diff. rewrite (cbind_done _ _ _ _ _ (csend_done _ _ He)).
  edestruct (recv_loop_skip _ (wanted FrameType.FileDiffResult) ns reply reply l (add_sent [ask_frame h] s)
    (pure_hint e (wanted FrameType.FileDiffResult))) as [pl E]; [| |exact Hin|].
  - intros n Hn. unfold wanted. by rewrite decide_False by (by apply Hns).
  - unfold wanted. by rewrite decide_True.
  - exists pl. rewrite (cbind_done (read_until e _) _ _ _ _ E), Hp. done.
Qed.

(** The turn once the answer is there. *)
Lemma pull_turn all net self fqn ctx ks mt D t r changed removed (lp : Z) rest s (root := resolve (share_dir (s_env self))) :
  true_to D r -> before (s_env self) mt D t r (cdisk s) -> in_order removed ->
  (all = true -> flat_conflicts D changed (cdisk s) root) -> keys_fit ks (from_env (s_env self) (e2e_domain (domain_of fqn))) -> deliveries ks D r rest changed (inbox s) ->
  exists (res : outcome (Z * FileTree.t)) s',
    (match changed, removed with
     | [], [] => cret (lp, t)
     | _, _ =>
         _ <~~ pull_changed net self fqn ctx r changed;
         _ <~~ drop_removed self removed;
         o <~~ build_local self;
         cret (lp, default t o)
     end) s = (res, s') /\
    (refused res \/ exists mt' t', res = Done (lp, t') /\ inbox s' = rest /\
       changes all root (cdisk s) (cdisk s') (fun x o => if decide (path_of x ∈ removed) then None
         else if decide (path_of x ∈ changed) then Some (D (path_of x)) else o) /\
       build_tree mt' (share_dir (s_env self)) (cdisk s') = Some t').
Proof.
  intros Htrue [Hok Htree Hv Hcache _] Hord Hflat Hk Hdel. destruct (decide (changed = [] /\ removed = [])) as [[-> ->]|Hne].
  { inversion Hdel; subst. eexists _, _. split; [done|]. right. exists mt, t. split; [done|]. split; [done|]. split; [|done].
    split; [done|]. intros x _. by rewrite !decide_False by set_solver. }
  destruct (pull_all all net self fqn ctx ks D r rest Htrue Hv Hk Hcache changed s Hdel Hok Hflat) as (res & s1 & E & Hres).
  assert (forall A (m1 m2 : C A), (match changed, removed with [], [] => m1 | _, _ => m2 end) = m2) as Hm
    by (intros A m1 m2; destruct changed, removed; try done; naive_solver).
  rewrite Hm. unfold cbind at 1. rewrite E.
  destruct Hres as [[-> | ->]|(-> & Hi & Hch)]; [eexists _, _; split; [done|left; by left]|eexists _, _; split; [done|left; by right]|].
  pose proof (drop_all all (share_dir (s_env self)) removed Hord (cdisk s1) (proj1 Hch)) as Hdrop.
  pose proof (proj1 Hdrop) as Hok2. pose proof (changes_trans _ _ _ _ _ _ _ Hch Hdrop) as Hch2.
  unfold drop_removed, build_local, get_disk, put_disk, tick, cret, cbind. cbn [cdisk inbox sent punched ticks].
  set (fs2 := fold_left _ _ _) in *. destruct (build_tree_total (mtimes self (ticks s1)) (share_dir (s_env self)) fs2) as [Hex _].
  destruct (Hex (so_dir _ _ Hok2)) as (t' & Ht' & _). eexists _, _. split; [done|]. right.
  exists (mtimes self (ticks s1)), t'. cbn [inbox cdisk]. rewrite Ht'. by split_and!.
Qed.

(** The whole turn, counting all files or all but conflict copies. *)
Lemma turn_converges `{!CodecLaws} c i srv net self fqn ctx mt D t old r changed removed lp s ns reply l rest all
    (root := resolve (share_dir (s_env self))) :
  held i srv D t old r -> before (s_env self) mt D t r (cdisk s) -> diff (Some old) (Some r) = (changed, removed) ->
  reply = reply_frame changed removed (Some r) -> (all = true -> flat_conflicts D changed (cdisk s) root) ->
  (wrap64 (clock self (ticks s) - lp) >? 5000) = true -> is_ok (encode (ask_frame (FileTree.tree_hash t))) = true ->
  inbox s = map arrives (ns ++ [reply]) ++ l -> (forall n, n ∈ ns -> frame_type n <> FrameType.FileDiffResult) ->
  deliveries (from_env (c_env c) (Some (user_domain i))) D r rest changed l ->
  keys_fit (from_env (c_env c) (Some (user_domain i))) (from_env (s_env self) (e2e_domain (domain_of fqn))) ->
  exists res s', fs_turn net self fqn ctx PullTimer (lp, t) s = (res, s') /\
    (refused res \/ exists lp' t', res = Done (lp', t') /\ inbox s' = rest /\ mirrors all D r (cdisk s') root /\
       (all = true -> FileTree.tree_hash t' = tree_hash r)).
Proof.
  intros Hh Hb Hd Hq Hfl Htime He Hin Hns Hdel Hk. pose proof (hd_true _ _ _ _ _ _ Hh) as Htrue.
  pose proof (removed_in_order _ _ _ _ _ _ _ _ _ _ _ Hh Hb Hd) as Hord.
  set (s1 := mkCli (inbox s) (sent s) (punched s) (cdisk s) (S (S (ticks s)))).
  destruct (request_diff_done (s_env self) (FileTree.tree_hash t) ns reply (FileDiffResult.mk changed removed (Some r)) l s1) as [pl E];
    [exact He|exact Hns|by rewrite Hq|rewrite Hq; apply payload_from_json|exact Hin|].
  set (s2 := set_punched pl _) in E.
  destruct (pull_turn all net self fqn ctx _ mt D t r changed removed (clock self (S (ticks s))) rest s2 Htrue Hb Hord Hfl Hk Hdel)
    as (res & s3 & Et & Hres).
  exists res, s3. split.
  - rewrite <- Et. unfold fs_turn, Sync.now_ms, tick, cret, cbind. rewrite Htime. cbn [inbox sent punched cdisk ticks].
    fold s1. unfold cbind in E. rewrite E. done.
  - destruct Hres as [Hres|(mt' & t' & -> & Hi & Hch & Ht')]; [by left|right]. exists (clock self (S (ticks s))), t'.
    pose proof (round_mirrors _ _ _ _ _ _ _ _ _ _ _ _ _ Hh Hb Hd Hch) as Hm. split_and!; [done..|]. intros ->.
    rewrite (build_tree_hash _ _ _ _ Ht'). by apply (mirrors_hash _ _ _ _ _ _ Htrue (proj1 Hch) Hm Ht').
Qed.

(** ** Properties *)

(** C2: A pull round converges: the turn of a client whose server answers and delivers
    the objects ends, unless the client's own disk refuses a write, with a
    directory that holds exactly the files of the server's latest tree, apart from
    files named like conflict copies.  If moreover each file that was there and
    changes lies at the top of the shared directory, so that the conflict copy made of
    it is not part of the tree, nothing is apart: the client's tree has the hash of the
    server's, and, asked again, the server reports no change. *)
Theorem pull_round_converges `{!CodecLaws} c i srv net self fqn ctx mt D t old r changed removed lp s ns reply l rest
    (root := resolve (share_dir (s_env self))) :
  held i srv D t old r -> before (s_env self) mt D t r (cdisk s) -> diff (Some old) (Some r) = (changed, removed) ->
  on_file_diff c i (FileDiff.mk (FileTree.tree_hash t) None) srv = (Ok tt, add_out reply srv) ->
  (wrap64 (clock self (ticks s) - lp) >? 5000) = true -> is_ok (encode (ask_frame (FileTree.tree_hash t))) = true ->
  inbox s = map arrives (ns ++ [reply]) ++ l -> (forall n, n ∈ ns -> frame_type n <> FrameType.FileDiffResult) ->
  deliveries (from_env (c_env c) (Some (user_domain i))) D r rest changed l ->
  keys_fit (from_env (c_env c) (Some (user_domain i))) (from_env (s_env self) (e2e_domain (domain_of fqn))) ->
  exists res s', fs_turn net self fqn ctx PullTimer (lp, t) s = (res, s') /\
    (refused res \/ exists lp' t', res = Done (lp', t') /\ inbox s' = rest /\ mirrors false D r (cdisk s') root /\
       (flat_conflicts D changed (cdisk s) root ->
          mirrors true D r (cdisk s') root /\ FileTree.tree_hash t' = tree_hash r /\
          diff (get_tree (server_fs i) (FileTree.tree_hash t') (world srv)) (latest_tree (server_fs i) (world srv)) = ([], []))).
Proof.
  intros Hh Hb Hd Hq Htime He Hin Hns Hdel Hk. pose proof Hh as [Hold _ _ Hlat _ Htrue].
  apply diff_reply in Hq. rewrite Hold, Hlat, Hd in Hq.
  destruct (turn_converges c i srv net self fqn ctx mt D t old r changed removed lp s ns reply l rest false) as (res & s' & Er & Hres); [done..|].
  exists res, s'. split; [done|].
  destruct Hres as [Hres|(lp' & t' & -> & Hi & Hm & _)]; [by left|right]. exists lp', t'. split_and!; [done..|]. intros Hfl.
  destruct (turn_converges c i srv net self fqn ctx mt D t old r changed removed lp s ns reply l rest true) as (res2 & s2 & Er2 & Hres2); [done..|].
  rewrite Er in Er2. injection Er2 as <- <-.
  destruct Hres2 as [[Hr|Hr]|(lp2 & t2 & [= <- <-] & _ & Hm2 & Hh2)]; [done..|]. rewrite (Hh2 eq_refl).
  split_and!; [done..|]. by eapply settled.
Qed.
End Round.

(** A client whose directory has a file [b.md] that was removed on the server, and
    lacks a file [a.md] that was added. *)
Definition demo_bytes (p : string) : bytes := as_bytes (if decide (p = "a.md") then "hi" else "old").
Definition demo_disk : files :=
  {[ (true, ["o"]) := Dir; (true, ["s"]) := Dir; (true, ["s"; "b.md"]) := File (as_bytes "old") ]}.
Definition demo_before : FileTree.t := default (FileTree.mk "" []) (build_tree (fun _ => 1) "/s" demo_disk).
Definition demo_latest : FileTree.t :=
  let t := FileTree.mk "" [FileTreeEntry.mk "a.md" (object_id (as_bytes "hi")) 420 2 5] in FileTree.mk (tree_hash t) (FileTree.entries t).
Definition demo_holder : Sess :=
  let save t w := snd (save_tree (H0 := @codec_FileTree ref_codec) demo_server t w) in
  demo_srv (save demo_latest (save demo_before demo_world)).
Definition demo_reply : Frame := reply_frame (H0 := ref_codec) ["a.md"] ["b.md"] (Some demo_latest).
Definition demo_late : Self := mkSelf demo_cli_env (fun _ => 9000) (fun _ _ => 1).
Definition demo_turner : Cli :=
  mkCli (map arrives ([demo_noise] ++ [demo_reply]) ++ in_flight (zip [[demo_noise]] [demo_chunk]) ++ []) [] [] demo_disk 0.

Example demo_diff : diff (Some demo_before) (Some demo_latest) = (["a.md"], ["b.md"]).
Proof. by vm_compute. Qed.

Lemma demo_files l nd : demo_disk !! l = Some nd ->
  (l, nd) = ((true, ["o"]), Dir) \/ (l, nd) = ((true, ["s"]), Dir) \/ (l, nd) = ((true, ["s"; "b.md"]), File (as_bytes "old")).
Proof.
  unfold demo_disk. rewrite !lookup_insert_Some, lookup_singleton_Some. naive_solver.
Qed.

Lemma demo_content segs b : content demo_disk (true, ["s"]) segs = Some b -> segs = ["b.md"] /\ b = as_bytes "old".
Proof.
  unfold content, file_at. destruct (demo_disk !! _) as [nd|] eqn:E; [|done].
  apply demo_files in E as [[= ?]|[[= _ ->]|[= -> ->]]]; [done..|]. by intros [= <-].
Qed.

Lemma demo_share_ok : share_ok demo_disk (resolve "/s").
Proof.
  assert (resolve "/s" = (true, ["s"])) as -> by (vm_compute; reflexivity). split.
  - vm_compute. reflexivity.
  - intros l nd Hl. apply demo_files in Hl as [[= -> _]|[[= -> _]|[= -> _]]]; vm_compute; reflexivity.
  - intros segs b _ [-> _]%demo_content _. split; [done|]. split; repeat constructor.
Qed.

Lemma demo_true : true_to demo_bytes demo_latest.
Proof.
  assert (FileTree.entries demo_latest = [FileTreeEntry.mk "a.md" (object_id (as_bytes "hi")) 420 2 5]) as E by reflexivity.
  split; [cbn [distinct_paths]; rewrite E; apply NoDup_singleton|]. rewrite E. intros en ->%list_elem_of_singleton. exists ["a.md"].
  split; [split; [done|]; split; repeat constructor|]. by split_and!; vm_compute.
Qed.

Lemma demo_held : held (H0 := ref_codec) demo_ident demo_holder demo_bytes demo_before demo_before demo_latest.
Proof.
  split; [vm_compute; reflexivity| |done|vm_compute; reflexivity|vm_compute; reflexivity|exact demo_true].
  by eapply build_tree_distinct; [exact demo_share_ok|].
Qed.

Lemma demo_before_round : before demo_cli_env (fun _ => 1) demo_bytes demo_before demo_latest demo_disk.
Proof.
  split.
  - exact demo_share_ok.
  - vm_compute. reflexivity.
  - reflexivity.
  - intros en Hen. assert (en = FileTreeEntry.mk "a.md" (object_id (as_bytes "hi")) 420 2 5) as -> by (by apply list_elem_of_singleton in Hen).
    vm_compute. reflexivity.
  - by intros segs b _ [-> ->]%demo_content _.
Qed.

Lemma demo_delivery :
  deliveries (H0 := ref_codec) None demo_bytes demo_latest [] ["a.md"] (in_flight (zip [[demo_noise]] [demo_chunk]) ++ []).
Proof.
  eapply (deliveries_one (H0 := ref_codec)) with (answers := [demo_chunk]) (nss := [[demo_noise]]); [vm_compute; reflexivity|vm_compute; reflexivity| |constructor].
  assert (len (demo_bytes "a.md") / CHUNK_SIZE = 0) as E by (vm_compute; reflexivity). split; rewrite ?E.
  - repeat constructor.
  - repeat constructor.
  - intros k Hk. assert (k = 0) as -> by lia. vm_compute. reflexivity.
  - repeat constructor; discriminate.
  - reflexivity.
  - vm_compute. reflexivity.
  - reflexivity.
Qed.

Definition demo_turned : outcome (Z * FileTree.t) * Cli :=
  fs_turn (H := ref_codec) (fun _ => Err "unreachable") demo_late "ser163/m2/maka" (demo_ctx "m2") PullTimer (0, demo_before) demo_turner.

Lemma demo_turned_done : exists x, fst demo_turned = Done x.
Proof.
  pose (s1 := mkCli (inbox demo_turner) [] [] demo_disk 2).
  destruct (request_diff_done (H0 := ref_codec) demo_cli_env (FileTree.tree_hash demo_before) [demo_noise] demo_reply
    (FileDiffResult.mk ["a.md"] ["b.md"] (Some demo_latest)) (in_flight (zip [[demo_noise]] [demo_chunk]) ++ []) s1) as [pl E].
  - vm_compute. reflexivity.
  - intros n ->%list_elem_of_singleton. discriminate.
  - reflexivity.
  - pose proof ref_codec_laws. apply payload_from_json.
  - reflexivity.
  - unfold demo_turned, fs_turn, Sync.now_ms, tick, cret, cbind.
    assert ((wrap64 (clock demo_late (ticks demo_turner) - 0) >? 5000) = true) as -> by reflexivity.
    cbn [inbox sent punched cdisk ticks demo_turner]. change (s_env demo_late) with demo_cli_env.
    unfold cbind, s1 in E. cbn [inbox demo_turner] in E. rewrite E. clear E s1.
    cbv beta iota delta [set_punched set_inbox add_sent inbox sent punched cdisk ticks]. vm_compute. by eexists.
Qed.

Lemma pull_round_converges_witness :
  exists lp t', fst demo_turned = Done (lp, t') /\ FileTree.tree_hash t' = tree_hash demo_latest /\
    mirrors true demo_bytes demo_latest (cdisk (snd demo_turned)) (resolve "/s").
Proof.
  destruct (pull_round_converges (H0 := ref_codec) (H7 := ref_codec_laws) demo_conn demo_ident demo_holder (fun _ => Err "unreachable") demo_late "ser163/m2/maka"
    (demo_ctx "m2") (fun _ => 1) demo_bytes demo_before demo_before demo_latest ["a.md"] ["b.md"] 0 demo_turner [demo_noise] demo_reply
    (in_flight (zip [[demo_noise]] [demo_chunk]) ++ []) []) as (res & s' & E & Hres).
  - exact demo_held.
  - exact demo_before_round.
  - exact demo_diff.
  - eapply (diff_answered (H0 := ref_codec)); [apply demo_held|apply demo_held|exact demo_diff|vm_compute; reflexivity..].
  - vm_compute. reflexivity.
  - vm_compute. reflexivity.
  - reflexivity.
  - intros n ->%list_elem_of_singleton. discriminate.
  - exact demo_delivery.
  - vm_compute. exact I.
  - assert (demo_turned = (res, s')) as Ep by exact E. rewrite Ep. cbn [fst snd].
    destruct demo_turned_done as [x Hd]. rewrite Ep in Hd. cbn [fst] in Hd.
    destruct Hres as [[Hr|Hr]|(lp & t' & -> & _ & _ & Hfl)]; [congruence|congruence|].
    destruct Hfl as (Hm & Ht & _); [intros segs local _ _ _ [-> _]%demo_content; by right|]. exists lp, t'. exact (conj eq_refl (conj Ht Hm)).
Defined.
