(* ===== verification/Watch.v ===== *)
(** * The watcher of the shared directory

    The task [fs_mode] of [nsmt-client/src/main.rs] starts beside its loop: every two
    seconds it makes sure that the shared directory is there and asks the
    [notify] library to watch it when it believes that it does not.  What the
    library answers and reports, and what others do to the disk, are events. *)

From S2P Require Import Prelude Paths.

(** The two flags, how many changes the loop was told of, how often the library was
    asked to watch, whether the task sleeps, and the disk. *)
Record Watcher : Type := mkWatcher {
  need_rewatch : bool;
  watching : bool;
  told : nat;
  asked : nat;
  asleep : bool;
  wdisk : files;
}.

Definition watch_init (fs : files) : Watcher := mkWatcher true false 0 0 false fs.

Inductive wev : Type :=
| Notified (ok : bool)          (* the library reports an event, or an error *)
| Round (watch_ok : bool)       (* the task's turn up to its sleep *)
| Look                          (* after the sleep *)
| Outside (fs : files).         (* somebody else changes the disk *)

(** The library's callback. *)
Definition on_notify (ok : bool) (w : Watcher) : Watcher :=
  mkWatcher (if ok then need_rewatch w else true) (watching w) (S (told w)) (asked w) (asleep w) (wdisk w).

(** The directory is created if it is gone, and watched if that is needed. *)
Definition watch_round (dir : string) (watch_ok : bool) (w : Watcher) : Watcher :=
  let fs := default (wdisk w) (create_dir_all dir (wdisk w)) in
  if need_rewatch w && negb (watching w) then
    if watch_ok then mkWatcher false true (told w) (S (asked w)) true fs
    else mkWatcher (need_rewatch w) (watching w) (told w) (S (asked w)) true fs
  else mkWatcher (need_rewatch w) (watching w) (told w) (asked w) true fs.

(** [if !dir2.exists()] *)
Definition watch_look (dir : string) (w : Watcher) : Watcher :=
  if negb (fs_exists (wdisk w) dir) then mkWatcher true false (told w) (asked w) false (wdisk w)
  else mkWatcher (need_rewatch w) (watching w) (told w) (asked w) false (wdisk w).

Definition watch_step (dir : string) (ev : wev) (w : Watcher) : option Watcher :=
  match ev with
  | Notified ok => Some (on_notify ok w)
  | Round ok => if asleep w then None else Some (watch_round dir ok w)
  | Look => if asleep w then Some (watch_look dir w) else None
  | Outside fs => Some (mkWatcher (need_rewatch w) (watching w) (told w) (asked w) (asleep w) fs)
  end.

Fixpoint watch_run (dir : string) (evs : list wev) (w : Watcher) : option Watcher :=
  match evs with
  | [] => Some w
  | ev :: evs' => w' ← watch_step dir ev w; watch_run dir evs' w'
  end.

(** ** Lemmas *)

(** Who does not watch knows that it has to. *)
Definition watcher_inv (w : Watcher) : Prop := watching w = false -> need_rewatch w = true.

Lemma watch_step_inv dir ev w w' : watch_step dir ev w = Some w' -> watcher_inv w -> watcher_inv w'.
Proof.
  unfold watcher_inv, watch_step, on_notify, watch_round, watch_look.
  intros E; repeat case_match; simplify_eq; cbn in *; try tauto; congruence.
Qed.

Lemma watch_run_inv dir evs : forall w w', watch_run dir evs w = Some w' -> watcher_inv w -> watcher_inv w'.
Proof.
  induction evs as [|ev evs IH]; intros w w'; cbn [watch_run]; [by intros [= <-]|].
  intros (w1 & E & Hr)%bind_Some Hi. by eapply IH; [|eapply watch_step_inv].
Qed.

(** Once the library watches, only a look that misses the directory makes the task
    ask again. *)
Lemma asked_step dir ev w w' : watch_step dir ev w = Some w' -> watching w = true ->
  (ev = Look /\ fs_exists (wdisk w) dir = false) \/ (watching w' = true /\ asked w' = asked w).
Proof.
  intros E Hw. destruct ev; cbn in E; unfold on_notify, watch_round, watch_look in E; rewrite ?Hw, ?andb_false_r in E;
    repeat case_match; simplify_eq; auto. left. by rewrite negb_true_iff in *.
Qed.

Lemma asked_again dir evs : forall w w', watch_run dir evs w = Some w' -> watching w = true -> asked w' <> asked w ->
  exists evs1 evs2 w1, evs = evs1 ++ Look :: evs2 /\ watch_run dir evs1 w = Some w1 /\ fs_exists (wdisk w1) dir = false.
Proof.
  induction evs as [|ev evs IH]; intros w w'; cbn [watch_run]; [by intros [= <-]|].
  intros (w1 & E & Hr)%bind_Some Hw Hne. destruct (asked_step _ _ _ _ E Hw) as [[-> Hx]|[Hw1 Ha]].
  - by exists [], evs, w.
  - destruct (IH _ _ Hr Hw1) as (e1 & e2 & w2 & -> & H1 & H2); [congruence|].
    exists (ev :: e1), e2, w2. split_and!; [done| |done]. cbn [watch_run]. by rewrite E.
Qed.

(** ** Properties *)

(** C40: Which failures of the watcher are repaired.  A directory that is missing when the
    task looks is created again and the library asked to watch it in the next
    round, and a task that does not watch asks in every round; but once it
    watches, nothing else ever makes it ask: neither the errors the library reports
    nor a directory that was removed and made again between two looks, however
    often, although the flag for it is set. *)
Theorem rewatch_only_when_missing dir evs fs w :
  watch_run dir evs (watch_init fs) = Some w ->
  (forall ok w', watching w = false -> watch_step dir (Round ok) w = Some w' -> asked w' = S (asked w) /\ watching w' = ok) /\
  (forall fs1, asleep w = true -> fs_exists (wdisk w) dir = false -> create_dir_all dir (wdisk w) = Some fs1 ->
     exists w', watch_run dir [Look; Round true] w = Some w' /\ watching w' = true /\ need_rewatch w' = false /\
       asked w' = S (asked w) /\ fs_is_dir (wdisk w') dir = true) /\
  (forall evs' w', watching w = true -> watch_run dir evs' w = Some w' -> asked w' <> asked w ->
     exists evs1 evs2 w1, evs' = evs1 ++ Look :: evs2 /\ watch_run dir evs1 w = Some w1 /\ fs_exists (wdisk w1) dir = false).
Proof.
  intros Hrun. assert (watcher_inv w) as Hi by (eapply watch_run_inv; [exact Hrun|done]). split_and!.
  - intros ok w' Hw. cbn. destruct (asleep w); [done|]. unfold watch_round. rewrite (Hi Hw), Hw. cbn. by destruct ok; intros [= <-].
  - intros fs1 Ha Hx Hd. exists (mkWatcher false true (told w) (S (asked w)) true fs1).
    split_and!; try done; [|by eapply create_dir_all_dir].
    cbn [watch_run watch_step]. rewrite Ha. unfold watch_look. rewrite Hx. cbn [negb mbind option_bind asleep watch_run].
    unfold watch_round. cbn [wdisk need_rewatch watching negb andb told asked]. by rewrite Hd.
  - intros evs' w' Hw Hr Hne. by eapply asked_again.
Qed.

(** The directory is removed and made again, an error is reported: nothing is asked. *)
Definition demo_blind : list wev :=
  [Round true; Outside ∅; Notified false; Outside (default ∅ (create_dir_all "/s" ∅)); Look; Round true].

Example demo_blind_run :
  (fun w => (asked w, told w, need_rewatch w)) <$> watch_run "/s" demo_blind (watch_init ∅) = Some (1%nat, 1%nat, true).
Proof. by vm_compute. Qed.

Lemma rewatch_only_when_missing_witness :
  exists w w', watch_run "/s" [Round true; Outside ∅] (watch_init ∅) = Some w /\
    watch_run "/s" [Look; Round true] w = Some w' /\ asked w' = 2%nat /\ fs_is_dir (wdisk w') "/s" = true.
Proof.
  assert (exists w, watch_run "/s" [Round true; Outside ∅] (watch_init ∅) = Some w /\ asked w = 1%nat /\ asleep w = true /\
    fs_exists (wdisk w) "/s" = false /\ exists fs1, create_dir_all "/s" (wdisk w) = Some fs1) as (w & Hr & Ha & Hs & Hx & fs1 & Hd)
    by (vm_compute; by eauto 10).
  destruct (rewatch_only_when_missing _ _ _ _ Hr) as (_ & Hh & _).
  destruct (Hh fs1 Hs Hx Hd) as (w' & Hr' & _ & _ & Ha' & Hdir). exists w, w'. rewrite Ha', Ha. done.
Defined.
