(* ===== verification/Program.v ===== *)
(** * The client's main program

    [main] of [nsmt-client/src/main.rs]: the identity a run starts with, the commands that
    need no server, and the order of what happens on a connection.  The address
    syntax ([FromStr] of the standard library) and the outcome of connecting are
    arguments, as are the web server and the terminal. *)

From S2P Require Import Prelude Paths Wire Messages Codec Identity Crypto Store State Tree Memory Tenants Admin.
From S2P Require Import Session Share Conflict OkfText Okf Client Peer Sync.

(** What a run depends on besides the disk: its arguments and environment, what is
    found about the host, the random seeds of new keys, the size the system reports
    for a directory, what is typed, the canonical path of the shared directory. *)
Record Launch : Type := mkLaunch {
  l_args : list string;
  l_env : env;
  l_hw : option string;
  l_host : option string;
  l_os : string;
  l_arch : string;
  l_domain_seed : bytes;
  l_machine_seed : bytes;
  l_dir_len : Z;
  l_input : string;
  l_share : string;
}.

(** Who the run is. *)
Record Me : Type := mkMe {
  me_domain : string;
  me_machine : string;
  me_agent : string;
  me_domain_key : KeyPair;
  me_machine_key : KeyPair;
}.

(** [format!("{user_domain}/{machine_id}/{agent}")] *)
Definition me_fqn (m : Me) : string := me_domain m +:+ "/" +:+ me_machine m +:+ "/" +:+ me_agent m.

Section Program.
Context `{Codec} `{HexCodec} `{Ed25519} `{Sha256} `{Aead} `{Gateway} `{Yaml}.
Variable addr_ok : string -> bool.

(** Up to the keys; an error ends the program. *)
Definition start_up (l : Launch) (fs : files) : result serr Me * files :=
  if negb (default true (addr_ok <$> l_args l !! 1%nat)) then (Err (SMsg "usage: yggd <server> [capture|recall|fs] ..."), fs)
  else
    let e := l_env l in
    let user_domain := default "ser163" (e "NSMT_USER_DOMAIN") in
    let agent := default "maka" (e "NSMT_AGENT_TAG") in
    match agent_tag_new agent with
    | Err x => (Err (SErr x), fs)
    | Ok _ =>
        let hw_machine := fst (generate_machine_id sha256 hex_encode (l_hw l) (l_host l) (l_os l) (l_arch l)) in
        let machine_id := default hw_machine (e "NSMT_MACHINE_ID") in
        match load_or_create_domain_key e (l_domain_seed l) fs with
        | (Err x, fs1) => (Err (SErr x), fs1)
        | (Ok domain_key, fs1) =>
            match load_or_create_machine_key e (l_machine_seed l) fs1 with
            | (Err x, fs2) => (Err (SErr x), fs2)
            | (Ok machine_key, fs2) => (Ok (mkMe user_domain machine_id agent domain_key machine_key), fs2)
            end
        end
    end.

(** [parse::<u16>()] *)
Definition parse_u16 (s : string) : option Z := n ← parse_u64 s; if n <? 2 ^ 16 then Some n else None.

(** The commands that stay on this machine: what they are given to do. *)
Inductive Local : Set :=
| LConflicts
| LWeb (port : Z)
| LOkf.

Definition local_command (args : list string) : option Local :=
  match args !! 2%nat with
  | Some c =>
      if decide (c = "conflicts" \/ c = "merge") then Some LConflicts
      else if decide (c = "conflicts-web") then Some (LWeb (default 8088 (args !! 3%nat ≫= parse_u16)))
      else if decide (c = "okf") then Some LOkf
      else None
  | None => None
  end.

(** What a command does once the client is registered. *)
Definition remote_command (net : Network) (self : Self) (l : Launch) (fb : TencentClient) (m : Me) (ctx : PeerCtx)
    (fsevs : list fs_event) (onevs : list online_event) : C unit :=
  let arg n d := default d (l_args l !! n) in
  match l_args l !! 2%nat with
  | Some c =>
      if decide (c = "capture") then
        _ <~~ capture_cmd self fb (me_fqn m) (arg 3%nat "（无输入）") (arg 4%nat "（无回复）"); cret tt
      else if decide (c = "recall") then _ <~~ recall_cmd self fb (arg 3%nat ""); cret tt
      else if decide (c = "fs") then _ <~~ fs_mode net self (me_fqn m) ctx fsevs; cret tt
      else online_mode self onevs
  | None => online_mode self onevs
  end.

Definition me_ctx (m : Me) : PeerCtx :=
  mkPeerCtx (me_domain m) (me_machine m) (me_agent m) (public_hex (me_machine_key m)) (me_machine_key m) (me_domain_key m).

(** On the connection: handshake, the shared directory and the note about it, whose
    failure is only logged, and the command. *)
Definition on_connection (net : Network) (self : Self) (l : Launch) (m : Me) (peer_addr : string)
    (fsevs : list fs_event) (onevs : list online_event) : C unit :=
  let fb := fallback_from_env (l_env l) in
  _ <~~ client_handshake (me_domain m) (me_agent m) (me_machine m) peer_addr (me_domain_key m) (me_machine_key m);
  fs <~~ get_disk;
  _ <~~ put_disk (default fs (create_dir_all (share_dir (l_env l)) fs));
  _ <~~ ctry (write_share_dir_note self fb (me_fqn m) (l_share l));
  remote_command net self l fb m (me_ctx m) fsevs onevs.

(** What [connect] does before it connects: read the server's certificate. *)
Definition cert_path (e : env) : string :=
  match e "NSMT_SERVER_CERT" with
  | Some p => p
  | None => match e "HOME" with Some h => h +:+ "/.nsmt/ygg.crt" | None => ".nsmt/ygg.crt" end
  end.

Definition read_cert (e : env) (fs : files) : result serr bytes :=
  ok_or (fs_read fs (cert_path e)) (SMsg ("读取服务器证书失败：" +:+ cert_path e +:+ "（先启动 ygg 生成）")).

(** How the program ends. *)
Inductive ending : Type :=
| Refused (e : serr)
| Conflicts (r : cli_end)
| Serving (port : Z)
| Library (r : result okf_err unit) (printed : list string)
| Remote (r : outcome unit) (frames : list Frame).

(** [conn] is what connecting with the certificate gave: an error, or the frames that will arrive, and
    [peer] the address of the listener for other clients. *)
Definition yggd (net : Network) (self : Self) (now : Z) (usage : string) (l : Launch) (conn : result string (list arrival))
    (peer : result string string) (fsevs : list fs_event) (onevs : list online_event) (fs : files) : ending * files :=
  match start_up l fs with
  | (Err e, fs1) => (Refused e, fs1)
  | (Ok m, fs1) =>
      match local_command (l_args l) with
      | Some LConflicts =>
          let '(r, fs2) := conflicts_cli (l_dir_len l) (l_env l) (l_args l) (l_input l) fs1 in (Conflicts r, fs2)
      | Some (LWeb port) => (Serving port, fs1)
      | Some LOkf => let '(r, out, fs2) := Okf.run (l_env l) now usage (l_args l) fs1 in (Library r out, fs2)
      | None =>
          match read_cert (l_env l) fs1, conn, peer with
          | Err x, _, _ => (Refused x, fs1)
          | Ok _, Err x, _ | Ok _, Ok _, Err x => (Refused (SMsg x), fs1)
          | Ok _, Ok frames, Ok addr =>
              let '(r, s) := on_connection net self l m addr fsevs onevs (mkCli frames [] [] fs1 0) in
              (Remote r (sent s), cdisk s)
          end
      end
  end.
End Program.

(** ** Lemmas *)

Section Keys.
Context `{HexLaws} `{Ed25519Laws}.

(** The files hold the pair: whatever the seed, it is loaded and nothing changes. *)
Record key_stored (e : env) (key_name pub_name : string) (kp : KeyPair) (fs : files) : Prop := {
  ks_dir : create_dir_all (keys_dir e) fs = Some fs;
  ks_key : exists der, fs_read fs (path_join (keys_dir e) key_name) = Some der /\ from_pkcs8_der der = Ok kp;
  ks_pub : forall t, read_to_string fs (path_join (keys_dir e) pub_name) = Some t -> str_trim t = public_hex kp;
}.

Lemma stored_loads e seed key_name pub_name kp fs :
  key_stored e key_name pub_name kp fs -> load_or_create e seed key_name pub_name fs = (Ok kp, fs).
Proof.
  intros [Hd (der & Hk & Hp) Hpub]. unfold load_or_create. rewrite Hd. unfold fs_exists, fs_is_file. rewrite Hk.
  cbn [orb ok_or rbind]. rewrite Hp. cbn [rbind]. destruct (read_to_string _ _) as [t|] eqn:E; [|done].
  by rewrite (Hpub t eq_refl), decide_True.
Qed.

(** What a call that gives a pair leaves on the disk. *)
Lemma load_stores e seed key_name pub_name fs kp fs' :
  length seed = 32%nat -> plain_name key_name = true -> plain_name pub_name = true -> key_name <> pub_name ->
  load_or_create e seed key_name pub_name fs = (Ok kp, fs') ->
  key_stored e key_name pub_name kp fs' /\
  (forall l, is_dir_at fs l = true -> is_dir_at fs' l = true) /\
  (forall n, plain_name n = true -> n <> key_name -> n <> pub_name ->
     fs_read fs' (path_join (keys_dir e) n) = fs_read fs (path_join (keys_dir e) n)).
Proof.
  intros Hs Hk Hp Hne. unfold load_or_create. destruct (create_dir_all (keys_dir e) fs) as [fs1|] eqn:Ed; [|done].
  pose proof (mkdirs_spec _ _ _ _ _ Ed) as (_ & Hmono & _). assert (forall q, fs_read fs1 q = fs_read fs q) as Hread
    by (intros q; by eapply create_dir_all_read).
  destruct (fs_exists fs1 (path_join (keys_dir e) key_name)) eqn:Ee.
  - intros [= Hl <-]. split_and!; [|done|intros; apply Hread].
    destruct (fs_read fs1 (path_join (keys_dir e) key_name)) as [der|] eqn:Er; [|done]. cbn [ok_or rbind] in Hl.
    destruct (from_pkcs8_der der) as [kp'|] eqn:Ep; [|done]. cbn [rbind] in Hl.
    assert (kp' = kp) as -> by (repeat case_match; congruence). split; [|by eauto|].
    + eapply create_dir_all_again; [exact Ed|done].
    + intros t Ht. rewrite Ht in Hl. case_decide; [done|congruence].
  - destruct (fs_write _ (to_pkcs8_der _) fs1) as [fs2|] eqn:W1; [|done].
    destruct (fs_write _ (as_bytes _) fs2) as [fs3|] eqn:W2; [|done]. intros [= <- <-].
    assert (forall l, is_dir_at fs1 l = true -> is_dir_at fs3 l = true) as Hdirs.
    { intros l Hl. eapply fs_write_dirs; [exact W2|]. by eapply fs_write_dirs. }
    assert (forall a b, plain_name a = true -> plain_name b = true -> a <> b ->
      resolve (path_join (keys_dir e) a) <> resolve (path_join (keys_dir e) b)) as Hr
      by (intros a b Ha Hb Hab E; apply Hab; by eapply resolve_join_plain_inj).
    split_and!; [split|by auto|].
    + eapply create_dir_all_again; [exact Ed|done].
    + exists (to_pkcs8_der (generate seed)). split; [|by apply pkcs8_roundtrip, generate_wf].
      rewrite (fs_read_write_ne _ _ _ _ _ (Hr key_name pub_name Hk Hp Hne) W2). by apply fs_read_write in W1.
    + intros t. unfold read_to_string. rewrite (fs_read_write _ _ _ _ W2). cbn. unfold public_hex.
      rewrite hex_encode_utf8, of_as_bytes. intros [= <-]. apply hex_encode_trim.
    + intros n Hn Hnk Hnp. rewrite (fs_read_write_ne _ _ _ _ _ (Hr n pub_name Hn Hp Hnp) W2).
      by rewrite (fs_read_write_ne _ _ _ _ _ (Hr n key_name Hn Hk Hnk) W1).
Qed.

(** Other files of the directory do not matter. *)
Lemma stored_elsewhere e key_name pub_name kp fs fs' :
  key_stored e key_name pub_name kp fs -> (forall l, is_dir_at fs l = true -> is_dir_at fs' l = true) ->
  fs_read fs' (path_join (keys_dir e) key_name) = fs_read fs (path_join (keys_dir e) key_name) ->
  fs_read fs' (path_join (keys_dir e) pub_name) = fs_read fs (path_join (keys_dir e) pub_name) ->
  key_stored e key_name pub_name kp fs'.
Proof.
  intros [Hd (der & Hk & Hp) Hpub] Hdirs Ek Ep. split.
  - by eapply create_dir_all_again.
  - exists der. by rewrite Ek.
  - intros t. unfold read_to_string. rewrite Ep. apply Hpub.
Qed.
End Keys.

Section Identity.
Context `{Codec} `{HexLaws} `{Ed25519Laws} `{Sha256} `{Aead} `{Gateway}.

Definition with_seeds (ds ms : bytes) (l : Launch) : Launch :=
  mkLaunch (l_args l) (l_env l) (l_hw l) (l_host l) (l_os l) (l_arch l) ds ms (l_dir_len l) (l_input l) (l_share l).

(** What a start that gets past the keys leaves behind. *)
Lemma start_up_stores addr_ok l fs me fs1 :
  length (l_domain_seed l) = 32%nat -> length (l_machine_seed l) = 32%nat ->
  start_up addr_ok l fs = (Ok me, fs1) ->
  key_stored (l_env l) "domain.key" "domain.pub" (me_domain_key me) fs1 /\
  key_stored (l_env l) "machine.key" "machine.pub" (me_machine_key me) fs1.
Proof.
  intros Hds Hms. unfold start_up. destruct (negb _); [done|]. destruct (agent_tag_new _); [|done].
  destruct (load_or_create_domain_key _ _ _) as [[dk|x] fsd] eqn:Ed; [|done].
  destruct (load_or_create_machine_key _ _ _) as [[mk|x] fsm] eqn:Em; [|done]. intros [= <- <-]. cbn.
  apply load_stores in Ed as (Hd & _ & _); [|done..]. apply load_stores in Em as (Hm & Hdirs & Hread); [|done..].
  split; [|done]. apply (stored_elsewhere _ _ _ _ fsd); [done|done|by apply Hread..].
Qed.

Lemma stored_wf e kn pn kp fs : key_stored e kn pn kp fs -> keypair_wf kp.
Proof.
  intros [_ (der & _ & Hp) _]. unfold from_pkcs8_der in Hp. destruct (decide _); [|done]. by injection Hp as <-.
Qed.

(** ** Properties *)

(** C37: A machine keeps its identity: after one start that got as far as its keys, every
    later start with the same arguments and environment is the same agent of the
    same machine and domain with the same keys, whatever random bytes it is given,
    and writes nothing; and a server that has pinned this machine's key lets it
    register again under any listening address, without changing its table. *)
Theorem same_machine_next_time addr_ok l ds ms fs me fs1 :
  length (l_domain_seed l) = 32%nat -> length (l_machine_seed l) = 32%nat ->
  start_up addr_ok l fs = (Ok me, fs1) ->
  start_up addr_ok (with_seeds ds ms l) fs1 = (Ok me, fs1) /\
  forall peer t, machine_key (me_domain me) (me_machine me) t = Some (public_hex (me_machine_key me)) ->
    let r := client_register (me_agent me) (me_machine me) peer (me_machine_key me) in
    verify_register (me_domain me) (Register.machine_id r) (Register.agent_tag r) (Register.machine_pubkey r)
      (Register.machine_signature r) t = (Ok tt, t).
Proof.
  intros Hds Hms Hrun. destruct (start_up_stores _ _ _ _ _ Hds Hms Hrun) as [Hd Hm]. split.
  - revert Hrun. unfold start_up. cbn [with_seeds l_args l_env l_hw l_host l_os l_arch l_domain_seed l_machine_seed].
    destruct (negb _); [done|]. destruct (agent_tag_new _); [|done].
    unfold load_or_create_domain_key at 2, load_or_create_machine_key at 2.
    rewrite (stored_loads _ _ _ _ _ _ Hd), (stored_loads _ _ _ _ _ _ Hm).
    destruct (load_or_create_domain_key _ _ _) as [[dk|x] fsd]; [|done].
    destruct (load_or_create_machine_key _ _ _) as [[mk|x] fsm]; [|done]. by intros [= <- <-].
  - intros peer t Hpin. cbn [client_register Register.machine_id Register.agent_tag Register.machine_pubkey Register.machine_signature].
    unfold verify_register. rewrite verify_sign by (by eapply stored_wf). cbn [negb]. unfold machine_key in Hpin.
    destruct (t !! me_domain me) as [rec|]; [|done]. cbn in Hpin. by rewrite Hpin, decide_True.
Qed.
End Identity.

Definition demo_launch : Launch :=
  mkLaunch ["yggd"; "127.0.0.1:5555"; "fs"] demo_env None (Some "box") "linux" "x86_64" demo_seed (replicate 32 (u8_of 3)) 0 "" "/root/NSMT-Share".

Definition demo_started : result serr Me * files := start_up (fun _ => true) demo_launch ∅.

Lemma same_machine_next_time_witness :
  start_up (fun _ => true) (with_seeds [] [] demo_launch) (snd demo_started) = demo_started.
Proof.
  assert (exists me, fst demo_started = Ok me) as [me Hme] by (vm_compute; by eexists).
  rewrite (surjective_pairing demo_started) in Hme |- *. cbn [fst snd] in *. rewrite Hme.
  apply (same_machine_next_time (fun _ => true) demo_launch [] [] ∅ me (snd demo_started) eq_refl eq_refl).
  rewrite <- Hme. apply surjective_pairing.
Defined.
